(* ===== verification/_CoqProject ===== *)
-Q . S2P
Prelude.v
PyStr.v
Exceptions.v
Paths.v
Effects.v
Reasoning.v
Worlds.v
Values.v
Regex.v
Bytes.v
Sha256.v
JsonSyntax.v
Json.v
Inventory.v
Config.v
Seed.v
VirtualBox.v
VirtualBoxFacts.v
SshClient.v
SshFacts.v
SshNesting.v
Website.v
Apache.v
InventoryService.v
InventoryServiceFacts.v
Setup.v
Provision.v
SetupFacts.v
ProvisionFacts.v
ClusterFacts.v
Accounts.v
Restore.v
Float64.v
Preflight.v
PreflightFacts.v
Cli.v
ArgParse.v
ArgParseFacts.v
CliParser.v
CliParserFacts.v
CliFacts.v
Hypervisor.v
Seeder.v
Configured.v
CliGuarantees.v
GoText.v
GoTextFacts.v
GoService.v
GoManifest.v
GoFacts.v
GoDisk.v
GoRequests.v
GoConcurrent.v
GoManifestFacts.v
