(* ===== verification/Prelude.v ===== *)
(** * vmdeploy, verified

    vmdeploy (src/src/vmdeploy/) provisions a cluster of VirtualBox machines
    from a golden template: a jump station with an Apache load balancer and an
    encrypted inventory service, and two or more back ends that serve a static
    site.  This library models the Python package, function by function, and
    the service itself, written in Go (goservice/), and proves what makes them
    correct.

    ** The program and its parts

    [cli.py] parses the arguments, reads a configuration ([config.py]) and calls the handlers.
    [setup] hardens the template ([setup.py]); [template] bakes and exports it
    ([provision.py], which uses [apache.py], [inventory_service.py] and
    [setup.py] over one SSH session); [provision] imports a machine per guest,
    gives it a cloud-init seed ([seed.py]) and waits for it; [configure] sets
    up Apache, the site ([website.py]) and the service on the guests and
    writes the manifest; [teardown] deletes the guests.  The hypervisor is
    reached through [virtualbox.py], guests through [ssh_client.py], and
    records are sealed by [inventory.py].  On the jump station the Go service
    reads and writes the same encrypted file and serves it over HTTP.

    ** How it is modelled

    - A function that calls the outside world is an interaction tree over
      explicit calls (Effects.v): the hypervisor's process, SSH and SFTP, HTTP,
      DNS, files, the clock, the environment, randomness, the printed lines.
      A theorem about all runs ([runs]) holds whatever the outside world
      answers.  Exceptions are outcomes; SSH session objects live in a store
      that survives them, and a [RemoteHost] is an index into it.
    - Pure functions are Rocq functions.  Strings are the code points below
      256 (PyStr.v), regular expressions have a matcher with the order of a
      backtracking one (Regex.v), floats are binary64 (Float64.v), SHA-256,
      base64, UTF-8 and JSON are executable (Sha256.v, Bytes.v, Json.v).
      A Go string is the bytes it is of, and a Go function that returns an
      error has a result in a sum ([go_res]); a text of the client is held by
      the service as its UTF-8 encoding ([go_of]).
    - A polling loop carries fuel: [polls budget pause] tests of the clock,
      two more than the pauses that fit into the budget.  [clock_ok] says that
      the readings of a run do not go back and that a pause lasts at least as
      long as asked; under it [terminates] lemmas show that no loop exhausts
      its fuel.  The JSON reader starts with twice the length of the text and one
      more, enough by [loads_fuel] (JsonSyntax.v).

    ** The files

    - Prelude, PyStr, Exceptions, Paths, Effects, Reasoning, Values, Regex,
      Bytes, Sha256, JsonSyntax, Json, Float64: the language and what of its library the
      source uses; Reasoning.v has the judgements ([emits], [returns],
      [terminates], [wp], [guarded], [ensures]) and their rules, Worlds.v
      those about the states of a world a run goes along with ([kept]).
    - Inventory, Config, Seed, VirtualBox, SshClient, Website, Apache,
      InventoryService, Setup, Provision, Preflight, Cli: the module of the
      same name in lower case, its functions under their names.  CliParser:
      the arguments and the entry point of cli.py, over ArgParse, the part of
      the standard library's argparse (3.11) the source uses.  Seeder: the
      container's docker/seeder/seed.py and the two resolver scripts.
    - GoText: Go's strings, base64 and JSON, the last an instance of the same
      reader and writer (JsonSyntax.v) as Python's; GoService: crypto.go,
      inventory.go and the handlers of main.go; GoManifest: manifest.go and
      the start of main.go, over the flags and the table writer of Go.
    - Each [...Facts] file, SshNesting, Accounts, Restore, Hypervisor, Configured,
      CliGuarantees, GoDisk, GoRequests and GoConcurrent: the theorems.

    ** What the theorems show

    - Arguments (CliParserFacts, ArgParseFacts): whatever the argument vector,
      the parser leaves with the usage or gives the handler every attribute it
      reads; every command can be asked for; the confirmation of a teardown
      is always spelled out.
    - Commands (CliGuarantees, CliFacts): every run of [main], from the
      argument vector, ends, closes every connection, returns 0, 1 or 130 or
      leaves with the usage, and changes only the machines that the
      configuration it loaded gives the subcommand; [deploy] obeys the
      preflight and touches no guest before an image was exported;
      [configure] opens no session unless every guest was seen running, and
      returns only when each back end and the jump station went through every
      step of its configuration, over a connection to its own address
      (Configured); [teardown] asks first, changes the configuration's guests
      only, and writes the manifest last.
    - Against a hypervisor (Hypervisor): for any hypervisor that satisfies
      [HypervisorLaws], an interface with a concrete instance, in which the
      session of a machine that was stopped may keep it from being deleted for
      a while, tearing down is the removal of the cluster's machines from the
      collection, without an error if that while is no more than the ten
      seconds the attempts take, and else with an error that leaves the
      machine; provisioning is their registration.
    - Against a guest with accounts (Accounts): for any guest that satisfies
      [GuestLaws], no state a run of setup visits has neither the bootstrap
      account nor the new one with a way in.  Restoring the bootstrap account
      (Restore), against a guest that satisfies [AccountHostLaws], gives it
      its shell, its group, the key, as its own, and its sudo rule, tries to
      unlock its password, and takes nothing from another account; the laws
      speak of the files of authorised keys and of sudo rules only.
    - Setup, template, guests (SetupFacts, ProvisionFacts, ClusterFacts): the
      bootstrap account is disabled only after the new one was verified; no
      image is exported before its checks; the template is rolled back; a
      guest is started only with its seed, and returned only once it named
      itself; guests boot one at a time; ready means that both endpoints
      answered.
    - Sessions (SshFacts, SshNesting): connections are closed on every
      outcome, also nested; the sudo password goes to standard input only;
      privileged writes are staged and installed; waiting ends.
    - Hypervisor wrapper (VirtualBoxFacts): deletion, powering off, the
      optical slot, the choice of an address, the ends of the loops.
    - Data (Config, Inventory, Seed, Seeder, Website, Apache,
      InventoryServiceFacts, PreflightFacts): a configuration that loads is
      valid; the overlay merge; records survive encryption, and only what was
      sealed opens; the seed documents, read back by a reader of YAML, and the
      balancer's pool, read back by a reader of the virtual host; quoting; the
      pinned toolchain; the binary is rebuilt exactly when it is stale; the
      manifest keeps what it knew of the hosts it marks; the memory check.
    - The service (GoFacts, GoDisk, GoRequests, GoConcurrent): each side reads what the
      other wrote; against a file system that satisfies [DiskLaws] a
      registration replaces the datastore as a whole or not at all, and is the
      client's [upsert]; every request is answered, with the status its method,
      path and body ask for or, exactly when something failed, with an error,
      the lock is taken once or not at all, and only a valid registration
      writes; requests served at the same time are served
      as if in turn, without a deadlock.  The utility (GoManifestFacts):
      showing a manifest changes nothing and prints its records, and marking
      it is what teardown does, as a whole or not at all.

    ** Parameters

    TOML parsing ([TomlParser]), AES-256-GCM ([AEAD], with its laws in
    [AEADLaws]), the automation host's temporary directory ([TempDir]), the
    hypervisor ([Hypervisor]), the guest ([Guest], [AccountHost]), the
    service's file system ([Disk]) and the page template are code that is not of the package; each has a concrete instance for the examples.

    ** Not modelled

    The log messages, which have no effect the program reads (the
    configuration of logging is modelled).  Signals: [KeyboardInterrupt] has its clause in
    [main], but no call raises it.  Characters above 255.  Paths and
    the expansion of variables on Windows (Paths.v is the POSIX flavour; the
    Windows branch of the memory check is modelled).  What Go's
    log package writes, and the texts of its library's errors.  PowerShell wrappers, container files and the
    test suite, which are not of the package.  [__init__.py] only exports names.

    This file holds the notation, automation and generic lemmas that every
    component shares. *)

From stdpp Require Export base tactics list strings gmap pretty.
From Stdlib Require Export Ascii.

(** ** Automation *)

Create HintDb vmdeploy.

(** Case analysis on the first stuck [match] of the goal. *)
Ltac split_match :=
  match goal with
  | |- context [match ?x with _ => _ end] =>
      lazymatch x with
      | context [match _ with _ => _ end] => fail
      | _ => destruct x eqn:?
      end
  end.

Ltac split_matches := repeat (split_match; simplify_eq/=).

(** ** Lists *)

Section lists.
Context {A : Type}.
Implicit Types (l k : list A) (P : A → Prop).

Lemma existsb_False_Forall (f : A → bool) l :
  existsb f l = false ↔ Forall (λ x, f x = false) l.
Proof.
  induction l as [|x l IH]; simpl; [naive_solver|].
  rewrite orb_false_iff, Forall_cons, IH. done.
Qed.

Lemma find_Some_split (f : A → bool) l x :
  List.find f l = Some x →
  ∃ l1 l2, l = l1 ++ x :: l2 ∧ f x = true ∧ Forall (λ y, f y = false) l1.
Proof.
  induction l as [|y l IH]; simpl; [done|]. destruct (f y) eqn:Hy.
  - intros [= ->]. exists [], l. done.
  - intros (l1 & l2 & -> & ? & ?)%IH. exists (y :: l1), l2. auto.
Qed.

Lemma find_Some_elem (f : A → bool) l x : List.find f l = Some x → x ∈ l ∧ f x = true.
Proof.
  intros (l1 & l2 & -> & Hx & _)%find_Some_split. split; [|done].
  apply elem_of_app. right. left.
Qed.

Lemma find_None_Forall (f : A → bool) l :
  List.find f l = None ↔ Forall (λ y, f y = false) l.
Proof.
  induction l as [|y l IH]; simpl; [split; auto|].
  rewrite Forall_cons. destruct (f y) eqn:Hy.
  - split; [done|intros [? _]; congruence].
  - rewrite IH. split; [done|by intros [_ ?]].
Qed.

Lemma find_app (f : A → bool) l1 l2 :
  List.find f (l1 ++ l2) = match List.find f l1 with Some x => Some x | None => List.find f l2 end.
Proof. induction l1 as [|x l1 IH]; simpl; [done|]. by destruct (f x). Qed.
End lists.

(** [len(set(l)) != len(l)]: the code's duplicate test. *)
Definition has_duplicates {A} `{Countable A} (l : list A) : bool :=
  bool_decide (size (list_to_set l : gset A) ≠ length l).

Lemma size_list_to_set_le {A} `{Countable A} (l : list A) :
  size (list_to_set l : gset A) ≤ length l.
Proof.
  induction l as [|x l IH]; simpl; [done|].
  pose proof (size_union_alt ({[x]} : gset A) (list_to_set l)) as ->.
  rewrite size_singleton.
  assert (size ((list_to_set l : gset A) ∖ {[x]}) ≤ size (list_to_set l : gset A))
    by (apply subseteq_size; set_solver). lia.
Qed.

Lemma has_duplicates_false {A} `{Countable A} (l : list A) :
  has_duplicates l = false ↔ NoDup l.
Proof.
  unfold has_duplicates. rewrite bool_decide_eq_false. split.
  - intros Hn. apply dec_stable in Hn.
    induction l as [|x l IH]; simpl in *; [constructor|].
    rename Hn into Hs.
    pose proof (size_list_to_set_le l) as Hle.
    destruct (decide (x ∈ (list_to_set l : gset A))) as [Hin|Hni].
    + assert (({[x]} : gset A) ∪ list_to_set l = list_to_set l) as Hu by set_solver.
      rewrite Hu in Hs. lia.
    + rewrite size_union in Hs by set_solver. rewrite size_singleton in Hs.
      constructor; [|apply IH; lia].
      by rewrite elem_of_list_to_set in Hni.
  - intros Hnd. rewrite size_list_to_set by done. lia.
Qed.
