(* ===== verification/PyStr.v ===== *)
(** * Python strings

    A Python [str] is modelled as a [string] whose characters are the code
    points below 256, and every function is Python 3.11's on that range: the
    white space, line boundaries, lower casing and printability below are the
    interpreter's own tables restricted to it.  The functions carry the Python
    method's name with the prefix [py_]. *)

From S2P Require Import Prelude.

#[export] Set Default Goal Selector "!".

(** The double quote, which cannot stand in a literal. *)
Definition dq : string := String "034" "".
Definition nl : string := String "010" "".

(** ** Characters *)

Definition is_space (c : ascii) : bool :=
  let n := N_of_ascii c in
  ((9 <=? n)%N && (n <=? 13)%N) || ((28 <=? n)%N && (n <=? 32)%N)
  || (n =? 133)%N || (n =? 160)%N.

Definition is_linebreak (c : ascii) : bool :=
  let n := N_of_ascii c in
  ((10 <=? n)%N && (n <=? 13)%N) || ((28 <=? n)%N && (n <=? 30)%N)
  || (n =? 133)%N.

Definition in_range (lo hi c : ascii) : bool :=
  (N_of_ascii lo <=? N_of_ascii c)%N && (N_of_ascii c <=? N_of_ascii hi)%N.

Definition is_digit (c : ascii) : bool := in_range "0" "9" c.
Definition is_lower_az (c : ascii) : bool := in_range "a" "z" c.
Definition is_upper_az (c : ascii) : bool := in_range "A" "Z" c.
Definition is_alnum (c : ascii) : bool :=
  is_digit c || is_lower_az c || is_upper_az c.

Definition lower_char (c : ascii) : ascii :=
  let n := N_of_ascii c in
  if ((65 <=? n) && (n <=? 90))%N
     || ((192 <=? n) && (n <=? 222) && negb (n =? 215))%N
  then ascii_of_N (n + 32) else c.

Definition is_printable (c : ascii) : bool :=
  let n := N_of_ascii c in
  (32 <=? n)%N && negb ((127 <=? n)%N && (n <=? 160)%N) && negb (n =? 173)%N.

(** ** Character sets of a string *)

Fixpoint str_forall (p : ascii → bool) (s : string) : bool :=
  match s with "" => true | String c s => p c && str_forall p s end.

Fixpoint str_exists (p : ascii → bool) (s : string) : bool :=
  match s with "" => false | String c s => p c || str_exists p s end.

Definition has_char (c : ascii) : string → bool := str_exists (Ascii.eqb c).

(** ** str methods *)

Fixpoint lstrip_by (p : ascii → bool) (s : string) : string :=
  match s with
  | "" => ""
  | String c s' => if p c then lstrip_by p s' else s
  end.

Fixpoint rstrip_by (p : ascii → bool) (s : string) : string :=
  match s with
  | "" => ""
  | String c s' =>
      match rstrip_by p s' with
      | "" => if p c then "" else String c ""
      | r => String c r
      end
  end.

(** [s.strip()] and [s.strip(c)]. *)
Definition py_strip (s : string) : string := rstrip_by is_space (lstrip_by is_space s).
Definition py_strip_char (c : ascii) (s : string) : string :=
  rstrip_by (Ascii.eqb c) (lstrip_by (Ascii.eqb c) s).

Definition py_startswith (s p : string) : bool := String.prefix p s.

Fixpoint py_endswith (s p : string) : bool :=
  String.eqb s p || match s with "" => false | String _ s' => py_endswith s' p end.

(** [p in s]. *)
Fixpoint py_in (p s : string) : bool :=
  String.prefix p s || match s with "" => false | String _ s' => py_in p s' end.

Fixpoint py_lower (s : string) : string :=
  match s with "" => "" | String c s => String (lower_char c) (py_lower s) end.

(** [s.replace(c, by)] for a one-character [c]. *)
Fixpoint py_replace (c : ascii) (by_ : string) (s : string) : string :=
  match s with
  | "" => ""
  | String a s => (if Ascii.eqb a c then by_ else String a "") +:+ py_replace c by_ s
  end.

(** The text before and after the first [c]; [s.split(c, 1)] is the pair as a
    list, or [[s]] when there is none. *)
Fixpoint py_partition (c : ascii) (s : string) : option (string * string) :=
  match s with
  | "" => None
  | String a s' =>
      if Ascii.eqb a c then Some ("", s')
      else match py_partition c s' with
           | Some (l, r) => Some (String a l, r)
           | None => None
           end
  end.

(** The text before and after the last [c]: [s.rsplit(c, 1)]. *)
Fixpoint py_rpartition (c : ascii) (s : string) : option (string * string) :=
  match s with
  | "" => None
  | String a s' =>
      match py_rpartition c s' with
      | Some (l, r) => Some (String a l, r)
      | None => if Ascii.eqb a c then Some ("", s') else None
      end
  end.

Definition rsplit1_head (c : ascii) (s : string) : string :=
  match py_rpartition c s with Some (l, _) => l | None => s end.

(** [s.split(c)]: all the fields, one more than there are separators. *)
Fixpoint py_split_char (c : ascii) (s : string) : list string :=
  match s with
  | "" => [""]
  | String a s' =>
      if Ascii.eqb a c then "" :: py_split_char c s'
      else match py_split_char c s' with
           | [] => [String a ""]
           | f :: fs => String a f :: fs
           end
  end.

(** [s.splitlines()], with CRLF as one boundary. *)
Fixpoint py_splitlines (s : string) : list string :=
  match s with
  | "" => []
  | String c s' =>
      if is_linebreak c then
        match s' with
        | String "010" s'' =>
            if Ascii.eqb c "013" then "" :: py_splitlines s'' else "" :: py_splitlines s'
        | _ => "" :: py_splitlines s'
        end
      else match py_splitlines s' with
           | [] => [String c ""]
           | l :: ls => String c l :: ls
           end
  end.

(** [s.split()]: the words between runs of white space. *)
Fixpoint split_ws_go (s : string) : string * list string :=
  match s with
  | "" => ("", [])
  | String c s' =>
      let '(w, ws) := split_ws_go s' in
      if is_space c then ("", if String.eqb w "" then ws else w :: ws)
      else (String c w, ws)
  end.

Definition py_split (s : string) : list string :=
  let '(w, ws) := split_ws_go s in if String.eqb w "" then ws else w :: ws.

(** [sep.join(l)]. *)
Fixpoint py_join (sep : string) (l : list string) : string :=
  match l with
  | [] => ""
  | [s] => s
  | s :: l' => s +:+ sep +:+ py_join sep l'
  end.

(** Left justification: [s.ljust(n)] and the format [{s:<n}]. *)
Fixpoint spaces (n : nat) : string :=
  match n with O => "" | S n => String " " (spaces n) end.
Definition py_ljust (n : nat) (s : string) : string := s +:+ spaces (n - String.length s).

(** ** Numbers *)

(** [str(n)] of an integer, and [f"{n:o}"] of a non-negative one. *)
Definition str_of_Z (z : Z) : string := pretty z.

Fixpoint octal_go (fuel : nat) (n : N) (acc : string) : string :=
  match fuel with
  | O => acc
  | S fuel =>
      let acc := String (ascii_of_N (48 + n mod 8)) acc in
      if (n <? 8)%N then acc else octal_go fuel (n / 8) acc
  end.
Definition octal (n : N) : string := octal_go (S (N.size_nat n)) n "".

(** [int(s)] of a non-empty run of digits. *)
Fixpoint digits_value (acc : Z) (s : string) : Z :=
  match s with
  | "" => acc
  | String c s => digits_value (acc * 10 + Z.of_N (N_of_ascii c - 48)) s
  end.
Definition int_of_digits (s : string) : Z := digits_value 0 s.

Definition hex_digit (n : N) : ascii :=
  if (n <? 10)%N then ascii_of_N (48 + n) else ascii_of_N (87 + n).
Definition hex_byte (c : ascii) : string :=
  String (hex_digit (N_of_ascii c / 16)) (String (hex_digit (N_of_ascii c mod 16)) "").

(** ** repr *)

Definition repr_char (q : ascii) (c : ascii) : string :=
  if Ascii.eqb c "\" then "\\"
  else if Ascii.eqb c q then String "\" (String q "")
  else if Ascii.eqb c "009" then "\t"
  else if Ascii.eqb c "010" then "\n"
  else if Ascii.eqb c "013" then "\r"
  else if is_printable c then String c ""
  else "\x" +:+ hex_byte c.

Fixpoint repr_body (q : ascii) (s : string) : string :=
  match s with "" => "" | String c s => repr_char q c +:+ repr_body q s end.

(** [repr(s)]: single quotes unless the text holds one and no double quote. *)
Definition py_repr (s : string) : string :=
  let q := (if has_char "'" s && negb (has_char "034" s) then "034" else "'")%char in
  String q (repr_body q s +:+ String q "").

Definition repr_list (l : list string) : string :=
  "[" +:+ py_join ", " (map py_repr l) +:+ "]".

(** ** Facts about prefixes *)

Lemma prefix_cons a p c s :
  String.prefix (String a p) (String c s) = Ascii.eqb a c && String.prefix p s.
Proof.
  cbn [String.prefix]. destruct (ascii_dec a c) as [->|Hne].
  - by rewrite Ascii.eqb_refl.
  - by apply Ascii.eqb_neq in Hne as ->.
Qed.

Lemma prefix_nil s : String.prefix "" s = true.
Proof. by destruct s. Qed.

Lemma prefix_app p s : String.prefix p (p +:+ s) = true.
Proof.
  induction p as [|a p IH]; [apply prefix_nil|].
  change (String a p +:+ s) with (String a (p +:+ s)).
  by rewrite prefix_cons, Ascii.eqb_refl, IH.
Qed.

Lemma prefix_split p s : String.prefix p s = true → ∃ r, s = p +:+ r.
Proof.
  revert s. induction p as [|a p IH]; intros s; [by exists s|].
  destruct s as [|c s]; [done|]. rewrite prefix_cons.
  intros [->%Ascii.eqb_eq [r ->]%IH]%andb_prop. by exists r.
Qed.

(** ** Facts about characters *)

Lemma str_app_cons c s s' : String c s +:+ s' = String c (s +:+ s').
Proof. done. Qed.

Lemma str_app_nil_r s : s +:+ "" = s.
Proof. induction s as [|c s IH]; [done|]. by rewrite str_app_cons, IH. Qed.

Lemma str_app_assoc s1 s2 s3 : (s1 +:+ s2) +:+ s3 = s1 +:+ s2 +:+ s3.
Proof. induction s1 as [|c s IH]; [done|]. by rewrite !str_app_cons, IH. Qed.

Lemma str_length_app s1 s2 : String.length (s1 +:+ s2) = String.length s1 + String.length s2.
Proof. induction s1 as [|c s IH]; [done|]. rewrite str_app_cons. simpl. by rewrite IH. Qed.

Lemma str_exists_app p s1 s2 : str_exists p (s1 +:+ s2) = str_exists p s1 || str_exists p s2.
Proof.
  induction s1 as [|c s IH]; [done|]. rewrite str_app_cons. simpl. by rewrite IH, orb_assoc.
Qed.

Lemma str_forall_app p s1 s2 : str_forall p (s1 +:+ s2) = str_forall p s1 && str_forall p s2.
Proof.
  induction s1 as [|c s IH]; [done|]. rewrite str_app_cons. simpl. by rewrite IH, andb_assoc.
Qed.

Lemma str_forall_negb p s : str_forall (λ c, negb (p c)) s = negb (str_exists p s).
Proof. induction s as [|c s IH]; [done|]. simpl. by rewrite IH, negb_orb. Qed.

Lemma has_char_app c s1 s2 : has_char c (s1 +:+ s2) = has_char c s1 || has_char c s2.
Proof. apply str_exists_app. Qed.

(** ** Facts about strip *)

Lemma lstrip_by_spec p s :
  lstrip_by p s = "" ∨ ∃ c r, lstrip_by p s = String c r ∧ p c = false.
Proof.
  induction s as [|c s IH]; simpl; [by left|].
  destruct (p c) eqn:Hc; [done|right; eauto].
Qed.

Lemma rstrip_by_idemp p s : rstrip_by p (rstrip_by p s) = rstrip_by p s.
Proof.
  induction s as [|c s IH]; simpl; [done|].
  destruct (rstrip_by p s) as [|c' s'] eqn:Hr.
  - destruct (p c) eqn:Hc; simpl; [done|]. by rewrite Hc.
  - simpl in *. by rewrite IH.
Qed.

Lemma rstrip_by_head p c s :
  p c = false → ∃ r, rstrip_by p (String c s) = String c r.
Proof. intros Hc. simpl. destruct (rstrip_by p s); rewrite ?Hc; eauto. Qed.

Lemma strip_by_idemp p s :
  let t := rstrip_by p (lstrip_by p s) in rstrip_by p (lstrip_by p t) = t.
Proof.
  cbv zeta. destruct (lstrip_by_spec p s) as [->|(c & r & -> & Hc)]; [done|].
  destruct (rstrip_by_head p c r Hc) as [r' Hr]. rewrite Hr. simpl lstrip_by.
  rewrite Hc, <- Hr. apply rstrip_by_idemp.
Qed.

Lemma py_strip_idemp s : py_strip (py_strip s) = py_strip s.
Proof. apply strip_by_idemp. Qed.

(** ** Facts about split and join *)

Lemma str_exists_split p c s :
  str_exists p s = false → Forall (λ f, str_exists p f = false) (py_split_char c s).
Proof.
  induction s as [|a s IH]; simpl; [by repeat constructor|].
  rewrite orb_false_iff. intros [Ha Hs]. specialize (IH Hs).
  destruct (Ascii.eqb a c); [by constructor|].
  inversion IH as [|f fs Hf Hfs Heq]; constructor; simpl; by rewrite ?Ha.
Qed.

Lemma str_exists_join p sep l :
  str_exists p sep = false → Forall (λ f, str_exists p f = false) l →
  str_exists p (py_join sep l) = false.
Proof.
  intros Hsep. induction 1 as [|f fs Hf Hfs IH]; [done|].
  destruct fs as [|f' fs]; [done|]. cbn [py_join] in *.
  by rewrite !str_exists_app, Hf, Hsep, IH.
Qed.

(** Fields without the separator come back from their joined text. *)
Lemma split_char_one c s : has_char c s = false → py_split_char c s = [s].
Proof.
  induction s as [|a s IH]; [done|]. unfold has_char. simpl.
  intros [Ha Hs]%orb_false_iff. rewrite Ascii.eqb_sym, Ha. by rewrite IH.
Qed.

Lemma split_char_app c s t :
  has_char c s = false → py_split_char c (s +:+ String c t) = s :: py_split_char c t.
Proof.
  induction s as [|a s IH]; intros Hs.
  - change ("" +:+ String c t) with (String c t). simpl. by rewrite Ascii.eqb_refl.
  - unfold has_char in Hs. simpl in Hs. apply orb_false_iff in Hs as [Ha Hs].
    rewrite str_app_cons. cbn [py_split_char]. by rewrite Ascii.eqb_sym, Ha, IH.
Qed.

Lemma split_join c l :
  l ≠ [] → Forall (λ s, has_char c s = false) l →
  py_split_char c (py_join (String c "") l) = l.
Proof.
  intros Hne Hl. induction Hl as [|s l Hs Hl IH]; [done|].
  destruct l as [|s' l]; [by apply split_char_one|].
  change (py_join (String c "") (s :: s' :: l))
    with (s +:+ String c (py_join (String c "") (s' :: l))).
  rewrite split_char_app by done. by rewrite IH.
Qed.

Lemma py_join_cons sep a k : k ≠ [] → py_join sep (a :: k) = a +:+ sep +:+ py_join sep k.
Proof. by destruct k. Qed.

Lemma py_join_app sep l k :
  l ≠ [] → k ≠ [] → py_join sep (l ++ k) = py_join sep l +:+ sep +:+ py_join sep k.
Proof.
  intros Hl Hk. induction l as [|x l IH]; [done|]. destruct l as [|y l].
  - by apply (py_join_cons sep x k).
  - rewrite (py_join_cons sep x (y :: l)) by done.
    rewrite !str_app_assoc, <- IH by done. by apply (py_join_cons sep x ((y :: l) ++ k)).
Qed.

(** A field that is itself joined can be joined with the others. *)
Lemma py_join_flat sep l1 l l2 :
  l ≠ [] → py_join sep (l1 ++ [py_join sep l] ++ l2) = py_join sep (l1 ++ l ++ l2).
Proof.
  intros Hl.
  assert (py_join sep ([py_join sep l] ++ l2) = py_join sep (l ++ l2)) as H.
  { destruct l2 as [|y l2]; [by rewrite !app_nil_r|].
    by rewrite (py_join_app _ l), (py_join_app _ [_]). }
  destruct l1 as [|x l1]; [done|]. rewrite !(py_join_app _ (x :: l1)), H; try done.
  by destruct l.
Qed.

Lemma has_char_join c sep l :
  has_char c sep = false → Forall (λ s, has_char c s = false) l → has_char c (py_join sep l) = false.
Proof. apply str_exists_join. Qed.

(** A number is written with digits and a minus sign. *)
Lemma pretty_N_char_digit x : is_digit (pretty_N_char x) = true.
Proof. unfold pretty_N_char. by repeat case_match. Qed.

Lemma str_of_Z_chars p (z : Z) :
  (∀ c, is_digit c = true → p c = false) → p "-"%char = false → str_exists p (str_of_Z z) = false.
Proof.
  intros Hd Hm.
  assert (∀ x s, str_exists p s = false → str_exists p (pretty_N_go x s) = false) as Hgo.
  { intros x. induction (N.lt_wf_0 x) as [x _ IH]. intros s Hs.
    destruct (decide (0 < x)%N) as [Hx|Hx].
    - rewrite pretty_N_go_step by done. apply IH; [by apply N.div_lt|].
      simpl. by rewrite Hd, Hs by apply pretty_N_char_digit.
    - assert (x = 0%N) as -> by lia. by rewrite pretty_N_go_0. }
  assert (∀ x : N, str_exists p (pretty x) = false) as HN.
  { intros x. unfold pretty, pretty_N. case_decide; [|by apply Hgo]. simpl. by rewrite Hd. }
  unfold str_of_Z, pretty, pretty_Z. destruct z; simpl; [by rewrite Hd|apply HN|].
  rewrite Hm. apply HN.
Qed.
