(* ===== verification/Exceptions.v ===== *)
(** * The exception hierarchy (exceptions.py)

    An exception value is a constructor carrying the arguments its class is
    built from.  [class_of] and [base] give the class tree, [isinstance] the
    test an [except] clause performs, and [str_exn] the text [str(exc)]
    returns, which some callers embed in their own messages.  The classes
    after [WebsiteFetchError] are the built-in ones the code raises or
    catches. *)

From S2P Require Import Prelude PyStr.

Inductive exn : Type :=
  | VmDeployError (msg : string)
  | ConfigurationError (msg : string)
  | SSHConnectionError (msg : string)
  | RemoteCommandError (command : string) (exit_status : Z) (stdout stderr : string)
  | VirtualBoxError (args_used : list string) (exit_status : Z) (stderr : string)
  | ProvisioningTimeoutError (msg : string)
  | InventoryError (msg : string)
  | DecryptionError (msg : string)
  | WebsiteFetchError (msg : string)
  | OSError (msg : string)
  | ValueError (msg : string)
  | UnicodeError (msg : string)
  | LookupError (msg : string)
  | LibraryError (msg : string)
  | OverflowError (msg : string)
  | RuntimeError (msg : string)
  | AttributeError (msg : string)
  | KeyboardInterrupt
  | SystemExit (status : Z).

Inductive exn_class : Type :=
  | CException | CVmDeployError | CConfigurationError | CSSHConnectionError
  | CRemoteCommandError | CVirtualBoxError | CProvisioningTimeoutError
  | CInventoryError | CDecryptionError | CWebsiteFetchError
  | COSError | CValueError | CUnicodeError | CLookupError | CLibraryError
  | COverflowError | CRuntimeError | CAttributeError | CKeyboardInterrupt
  | CSystemExit.

#[export] Instance exn_class_eq_dec : EqDecision exn_class.
Proof. solve_decision. Defined.

Definition class_of (e : exn) : exn_class :=
  match e with
  | VmDeployError _ => CVmDeployError
  | ConfigurationError _ => CConfigurationError
  | SSHConnectionError _ => CSSHConnectionError
  | RemoteCommandError _ _ _ _ => CRemoteCommandError
  | VirtualBoxError _ _ _ => CVirtualBoxError
  | ProvisioningTimeoutError _ => CProvisioningTimeoutError
  | InventoryError _ => CInventoryError
  | DecryptionError _ => CDecryptionError
  | WebsiteFetchError _ => CWebsiteFetchError
  | OSError _ => COSError
  | ValueError _ => CValueError
  | UnicodeError _ => CUnicodeError
  | LookupError _ => CLookupError
  | LibraryError _ => CLibraryError
  | OverflowError _ => COverflowError
  | RuntimeError _ => CRuntimeError
  | AttributeError _ => CAttributeError
  | KeyboardInterrupt => CKeyboardInterrupt
  | SystemExit _ => CSystemExit
  end.

(** The base class each [class] statement names; the root above [Exception]
    and the two classes beside it is left out. *)
Definition base (c : exn_class) : option exn_class :=
  match c with
  | CException | CKeyboardInterrupt | CSystemExit => None
  | CVmDeployError => Some CException
  | CConfigurationError | CSSHConnectionError | CRemoteCommandError
  | CVirtualBoxError | CProvisioningTimeoutError | CInventoryError
  | CWebsiteFetchError => Some CVmDeployError
  | CDecryptionError => Some CInventoryError
  | CUnicodeError => Some CValueError
  | COSError | CValueError | CLookupError | CLibraryError | COverflowError
  | CRuntimeError | CAttributeError => Some CException
  end.

Inductive subclass : exn_class → exn_class → Prop :=
  | subclass_refl c : subclass c c
  | subclass_base c b d : base c = Some b → subclass b d → subclass c d.

(** The tree has depth four, so four steps reach the root. *)
Fixpoint subclassb (fuel : nat) (c d : exn_class) : bool :=
  bool_decide (c = d) ||
  match fuel, base c with
  | S fuel, Some b => subclassb fuel b d
  | _, _ => false
  end.

Definition isinstance (e : exn) (c : exn_class) : bool := subclassb 4 (class_of e) c.

Definition or_empty (s : string) : string :=
  if String.eqb (py_strip s) "" then "<empty>" else py_strip s.

Definition str_exn (e : exn) : string :=
  match e with
  | RemoteCommandError command exit_status _ stderr =>
      "Remote command exited with status " +:+ str_of_Z exit_status +:+ ": "
        +:+ command +:+ nl +:+ "stderr: " +:+ or_empty stderr
  | VirtualBoxError args_used exit_status stderr =>
      "VBoxManage " +:+ py_join " " args_used +:+ " failed with status "
        +:+ str_of_Z exit_status +:+ ": " +:+ or_empty stderr
  | VmDeployError m | ConfigurationError m | SSHConnectionError m
  | ProvisioningTimeoutError m | InventoryError m | DecryptionError m
  | WebsiteFetchError m | OSError m | ValueError m | UnicodeError m
  | LookupError m | LibraryError m | OverflowError m | RuntimeError m
  | AttributeError m => m
  | KeyboardInterrupt => ""
  | SystemExit status => str_of_Z status
  end.

(** ** Facts *)

Lemma subclassb_spec c d : subclassb 4 c d = true ↔ subclass c d.
Proof.
  split.
  - generalize 4 as n. intros n. revert c.
    induction n as [|n IH]; intros c; simpl; rewrite orb_true_iff, bool_decide_eq_true.
    + intros [->|?]; [constructor|done].
    + intros [->|Hb]; [constructor|]. destruct (base c) as [b|] eqn:Eb; [|done].
      econstructor; eauto.
  - induction 1 as [c|c b d Hb Hs IH]; [by destruct c|].
    by destruct c; simplify_eq/=; destruct d.
Qed.

Lemma isinstance_spec e c : isinstance e c = true ↔ subclass (class_of e) c.
Proof. apply subclassb_spec. Qed.

(** The classes this package defines, as opposed to the built-in ones. *)
Definition package_error (e : exn) : bool := isinstance e CVmDeployError.

(** ** Fallible pure code *)

(** A result of pure code that may raise. *)
Abbreviation res A := (exn + A)%type.

#[export] Instance res_ret : MRet (sum exn) := λ A a, inr a.
#[export] Instance res_bind : MBind (sum exn) := λ A B f m,
  match m with inl e => inl e | inr a => f a end.

Lemma res_bind_inr {A B} (f : A → res B) m b :
  (m ≫= f) = inr b ↔ ∃ a, m = inr a ∧ f a = inr b.
Proof.
  destruct m as [e|a]; cbn; split; [done|by intros (? & ? & ?)|eauto|].
  by intros (? & [= ->] & ?).
Qed.

Lemma res_bind_inl {A B} (f : A → res B) m e :
  (m ≫= f) = inl e ↔ m = inl e ∨ ∃ a, m = inr a ∧ f a = inl e.
Proof.
  destruct m as [e'|a]; cbn; split.
  - intros [= ->]. by left.
  - by intros [[= ->]|(? & ? & _)].
  - eauto.
  - by intros [?|(? & [= ->] & ?)].
Qed.
