(* ===== verification/Paths.v ===== *)
(** * pathlib and os.path

    The paths of the automation host, in the POSIX flavour of [pathlib]: a
    root and the components left once empty ones and single dots are dropped.
    [Path] parses, [str_path] prints, and the accessors are those of
    [PurePosixPath] in Python 3.11. *)

From S2P Require Import Prelude PyStr.

Record path : Type := MkPath { p_root : string; p_parts : list string }.

#[export] Instance path_eq_dec : EqDecision path.
Proof. solve_decision. Defined.

Definition kept_part (s : string) : bool := negb (String.eqb s "") && negb (String.eqb s ".").

Definition path_root (s : string) : string :=
  if py_startswith s "///" then "/"
  else if py_startswith s "//" then "//"
  else if py_startswith s "/" then "/" else "".

(** [Path(s)]. *)
Definition Path (s : string) : path :=
  MkPath (path_root s) (List.filter kept_part (py_split_char "/" s)).

(** [str(p)], which is also [p.as_posix()]. *)
Definition str_path (p : path) : string :=
  match p_parts p with
  | [] => if String.eqb (p_root p) "" then "." else p_root p
  | parts => p_root p +:+ py_join "/" parts
  end.

(** [p / s]. *)
Definition path_div (p : path) (s : string) : path :=
  let q := Path s in
  if String.eqb (p_root q) "" then MkPath (p_root p) (p_parts p ++ p_parts q) else q.

Definition parent (p : path) : path := MkPath (p_root p) (removelast (p_parts p)).
Definition path_name (p : path) : string := List.last (p_parts p) "".

(** The last dot of a name splits stem and suffix, unless it is the first or
    the last character. *)
Definition split_suffix (name : string) : string * string :=
  match py_rpartition "." name with
  | Some (l, r) =>
      if String.eqb l "" || String.eqb r "" then (name, "") else (l, String "." r)
  | None => (name, "")
  end.
Definition path_suffix (p : path) : string := (split_suffix (path_name p)).2.
Definition path_stem (p : path) : string := (split_suffix (path_name p)).1.

(** [p.with_name(n)]; [None] where it raises [ValueError]. *)
Definition with_name (p : path) (n : string) : option path :=
  if String.eqb (path_name p) "" then None
  else if String.eqb n "" || has_char "/" n || String.eqb n "." then None
  else Some (MkPath (p_root p) (removelast (p_parts p) ++ [n])).

(** [p.with_suffix(s)]; [None] where it raises [ValueError]. *)
Definition with_suffix (p : path) (s : string) : option path :=
  if has_char "/" s || (negb (String.eqb s "") && negb (py_startswith s "."))
     || String.eqb s "." || String.eqb (path_name p) "" then None
  else Some (MkPath (p_root p) (removelast (p_parts p) ++ [path_stem p +:+ s])).

(** ** os.path.expandvars *)

Section expandvars.
(** [os.environ]. *)
Context (environ : list (string * string)).

Definition env_get (name : string) : option string :=
  snd <$> List.find (λ kv, String.eqb kv.1 name) environ.

Definition is_word (c : ascii) : bool := is_alnum c || Ascii.eqb c "_".

(** Where the scan stands: in plain text, after a dollar, inside the name of
    [$name] or of [${name}]. *)
Inductive scan : Type := Plain | Dollar | InName (name : string) | InBrace (name : string).

Definition subst_name (name : string) : string :=
  match env_get name with Some v => v | None => String "$" name end.
Definition subst_brace (name : string) : string :=
  match env_get name with Some v => v | None => "${" +:+ name +:+ "}" end.

Fixpoint expand_go (m : scan) (s : string) : string :=
  match s with
  | "" =>
      match m with
      | Plain => ""
      | Dollar => "$"
      | InName n => subst_name n
      | InBrace n => "${" +:+ n
      end
  | String c s' =>
      match m with
      | Plain => if Ascii.eqb c "$" then expand_go Dollar s' else String c (expand_go Plain s')
      | Dollar =>
          if is_word c then expand_go (InName (String c "")) s'
          else if Ascii.eqb c "{" && has_char "}" s' then expand_go (InBrace "") s'
          else if Ascii.eqb c "$" then String "$" (expand_go Dollar s')
          else String "$" (String c (expand_go Plain s'))
      | InName n =>
          if is_word c then expand_go (InName (n +:+ String c "")) s'
          else subst_name n +:+
               (if Ascii.eqb c "$" then expand_go Dollar s' else String c (expand_go Plain s'))
      | InBrace n =>
          if Ascii.eqb c "}" then subst_brace n +:+ expand_go Plain s'
          else expand_go (InBrace (n +:+ String c "")) s'
      end
  end.

Definition expandvars (s : string) : string := expand_go Plain s.
End expandvars.

(** [os.path.expanduser] once the home directory is known: [home] is that of
    the current user for [~] and of the named one for [~name]. *)
Definition tilde_user (s : string) : option (option string * string) :=
  match s with
  | String "~" r =>
      match py_partition "/" r with
      | Some ("", _) => Some (None, r)
      | Some (u, tl) => Some (Some u, String "/" tl)
      | None => if String.eqb r "" then Some (None, "") else Some (Some r, "")
      end
  | _ => None
  end.

Definition expand_home (home tl : string) : string :=
  let r := rstrip_by (Ascii.eqb "/") home +:+ tl in
  if String.eqb r "" then "/" else r.

(** ** Facts *)

Lemma parent_div p s :
  p_root (Path s) = "" → length (p_parts (Path s)) = 1 → parent (path_div p s) = p.
Proof.
  intros Hr Hl. unfold path_div, parent. rewrite Hr.
  destruct (p_parts (Path s)) as [|x [|]]; try discriminate.
  cbn. rewrite removelast_last. by destruct p.
Qed.

(** The characters of a path are those it was parsed from, and slashes. *)
Lemma str_path_chars p s :
  p "/"%char = false → p "."%char = false → str_exists p s = false →
  str_exists p (str_path (Path s)) = false.
Proof.
  intros Hslash Hdot Hs. unfold str_path, Path. simpl.
  assert (str_exists p (path_root s) = false) as Hroot.
  { unfold path_root.
    destruct (py_startswith s "///"), (py_startswith s "//"), (py_startswith s "/");
      simpl; by rewrite ?Hslash. }
  assert (Forall (λ f, str_exists p f = false) (List.filter kept_part (py_split_char "/" s))) as Hf.
  { apply Forall_forall. intros f [Hf _]%list_elem_of_In%filter_In.
    pose proof (str_exists_split p "/" s Hs) as Hall. rewrite Forall_forall in Hall.
    by apply Hall, list_elem_of_In. }
  destruct (List.filter _ _) as [|f fs].
  - destruct (String.eqb _ _); simpl; [by rewrite Hdot|done].
  - rewrite str_exists_app, Hroot.
    apply (str_exists_join p "/" (f :: fs)); [simpl; by rewrite Hslash|done].
Qed.

Lemma py_rpartition_app c s l r :
  py_rpartition c s = Some (l, r) → s = l +:+ String c r.
Proof.
  revert l r. induction s as [|a s IH]; intros l r; simpl; [done|].
  destruct (py_rpartition c s) as [[l' r']|].
  - intros [= <- <-]. rewrite str_app_cons. by erewrite IH.
  - destruct (Ascii.eqb_spec a c) as [->|]; [by intros [= <- <-]|done].
Qed.

Lemma split_suffix_app name : (split_suffix name).1 +:+ (split_suffix name).2 = name.
Proof.
  unfold split_suffix. destruct (py_rpartition "." name) as [[l r]|] eqn:H.
  - case_match; simpl; [apply str_app_nil_r|]. by rewrite (py_rpartition_app _ _ _ _ H).
  - apply str_app_nil_r.
Qed.

Lemma split_no_sep c s : Forall (λ f, has_char c f = false) (py_split_char c s).
Proof.
  induction s as [|a s IH]; simpl; [by repeat constructor|].
  destruct (Ascii.eqb a c) eqn:Ha; [by constructor|].
  inversion IH as [|f fs Hf Hfs Heq]; constructor; try done; unfold has_char in *; simpl;
    by rewrite Ascii.eqb_sym, Ha.
Qed.

Lemma path_name_no_slash s : has_char "/" (path_name (Path s)) = false.
Proof.
  unfold path_name, Path. simpl.
  assert (Forall (λ f, has_char "/" f = false) (List.filter kept_part (py_split_char "/" s))) as Hf.
  { apply Forall_forall. intros f [Hf _]%list_elem_of_In%filter_In.
    pose proof (split_no_sep "/" s) as Hall. rewrite Forall_forall in Hall.
    by apply Hall, list_elem_of_In. }
  induction Hf as [|x l Hx Hl IH]; [done|]. simpl. by destruct l.
Qed.

(** [p.with_name(f"{p.stem}{mid}{p.suffix}")] succeeds on a path with a name. *)
Lemma with_name_between s mid :
  path_name (Path s) ≠ "" → has_char "/" mid = false → 2 ≤ String.length mid →
  with_name (Path s) (path_stem (Path s) +:+ mid +:+ path_suffix (Path s)) =
  Some (MkPath (p_root (Path s))
    (removelast (p_parts (Path s)) ++ [path_stem (Path s) +:+ mid +:+ path_suffix (Path s)])).
Proof.
  intros Hn Hmid Hlen. unfold with_name.
  pose proof (path_name_no_slash s) as Hs.
  rewrite <- (split_suffix_app (path_name (Path s))), has_char_app in Hs.
  apply orb_false_iff in Hs as [Hs1 Hs2].
  destruct (String.eqb_spec (path_name (Path s)) "") as [?|_]; [done|].
  fold (path_stem (Path s)) (path_suffix (Path s)) in *.
  set (n := path_stem (Path s) +:+ mid +:+ path_suffix (Path s)).
  assert (2 ≤ String.length n) as Hl by (unfold n; rewrite !str_length_app; lia).
  assert (has_char "/" n = false) as Hc.
  { unfold n. by rewrite !has_char_app, Hs1, Hmid, Hs2. }
  destruct (String.eqb_spec n "") as [->|_]; [simpl in Hl; lia|].
  destruct (String.eqb_spec n ".") as [->|_]; [simpl in Hl; lia|].
  by rewrite Hc.
Qed.

(** A path is printed in a form that parses to it. *)
Lemma path_str_path s : Path (str_path (Path s)) = Path s.
Proof.
  change (Path s) with (MkPath (path_root s) (List.filter kept_part (py_split_char "/" s))).
  unfold str_path. cbn [p_root p_parts].
  set (parts := List.filter kept_part (py_split_char "/" s)).
  assert (Forall (λ f, has_char "/" f = false ∧ kept_part f = true) parts) as Hf.
  { apply Forall_forall. intros f [Hf Hk]%list_elem_of_In%filter_In. split; [|done].
    pose proof (split_no_sep "/" s) as Hall. rewrite Forall_forall in Hall. by apply Hall, list_elem_of_In. }
  assert (path_root s = "" ∨ path_root s = "/" ∨ path_root s = "//") as Hr.
  { unfold path_root. destruct (py_startswith s "///"), (py_startswith s "//"), (py_startswith s "/"); auto. }
  destruct parts as [|f l] eqn:Hp; [by destruct Hr as [->|[->| ->]]|]. clear Hp parts.
  assert (List.filter kept_part (py_split_char "/" (py_join "/" (f :: l))) = f :: l) as Hkept.
  { rewrite split_join; [|done|by eapply Forall_impl; [exact Hf|]; intros ? []].
    induction Hf as [|g l' [_ Hk] _ IH]; [done|]. cbn. by rewrite Hk, IH. }
  apply Forall_cons in Hf as [[Hc Hk] _]. destruct f as [|c f]; [done|].
  assert (∃ j, py_join "/" (String c f :: l) = String c j) as [j Hj] by (destruct l; eexists; done).
  rewrite Hj in *. cbn [has_char str_exists] in Hc. apply orb_false_iff in Hc as [Hc%Ascii.eqb_neq _].
  unfold Path. f_equal.
  - apply Ascii.eqb_neq in Hc. unfold path_root at 1, py_startswith.
    destruct Hr as [->|[->| ->]]; rewrite ?str_app_cons, ?(eq_refl : "" +:+ String c j = String c j), ?prefix_cons, ?Hc; done.
  - rewrite <- Hkept. by destruct Hr as [->|[->| ->]].
Qed.
