(* ===== verification/Effects.v ===== *)
(** * Programs as interaction trees over explicit effects

    The package is a sequence of calls to the outside world: the VBoxManage
    process, the clock, the file system, SSH sessions, HTTP and DNS.  A
    function of the package is modelled by a tree whose nodes are those calls
    ([eff]), branching on the response the world gives ([resp]).  Nothing is
    assumed about the responses, so a theorem about all runs of a program
    holds whatever the outside world does.

    Python's exceptions are outcomes ([Raise]), and the mutable objects the
    code shares, the SSH sessions, live in a [store] that survives a raise. *)

From S2P Require Import Prelude PyStr Exceptions Paths.

(** ** Calls and responses *)

Abbreviation bytes := (list Byte.byte).

(** A call that may raise [OSError]. *)
Inductive io (A : Type) : Type := IoOk (a : A) | IoErr (msg : string).
Arguments IoOk {A} _.
Arguments IoErr {A} _.

(** [subprocess.run] with a captured, decoded output. *)
Inductive proc_resp : Type :=
  | Completed (returncode : Z) (stdout stderr : string)
  | TimeoutExpired
  | ProcOSError (msg : string).

(** [SSHClient.connect]: a connection, a refused authentication, or any of
    the transport's failures. *)
Inductive connect_resp : Type :=
  | Connected (conn : Z)
  | AuthenticationFailed (msg : string)
  | ConnectFailed (msg : string).

(** [exec_command] with both streams read to the end. *)
Inductive exec_resp : Type :=
  | Executed (status : Z) (stdout stderr : string)
  | ExecFailed (msg : string).

(** [requests.get]. *)
Inductive http_resp : Type :=
  | HttpStatus (status_code : Z) (body : bytes)
  | RequestException (msg : string).

(** [requests.get(url, stream=True)] read by [iter_content]: the status, the
    text of the error [raise_for_status] would raise, the bytes received, and
    the error that broke the transfer off, if any. *)
Inductive stream_resp : Type :=
  | Stream (status_code : Z) (status_text : string) (received : bytes) (broken : option string)
  | StreamException (msg : string).

(** [os.sysconf]: absent on the platform, an error, or a value. *)
Inductive sysconf_resp : Type := SysconfMissing | SysconfError | SysconfValue (v : Z).

(** [os.ReadFile] of the Go service: [NotExist] is what [os.IsNotExist] tells. *)
Inductive read_resp : Type := Contents (b : bytes) | NotExist | ReadFailed (msg : string).

(** The operations of the Go service on an open or a named file. *)
Inductive file_op : Type :=
  | FileWrite (name : string) (payload : bytes)
  | FileSync (name : string)
  | FileClose (name : string)
  | FileChmod (name : string) (mode : N)
  | FileRename (from to : string)
  | FileRemove (name : string).

(** The operations of the Go service on its [sync.RWMutex]. *)
Inductive lock_op : Type := RLock | RUnlock | Lock | Unlock.

Inductive eff : Type :=
  | Subprocess (argv : list string) (timeout : Z)
  | Monotonic
  | Sleep (nanoseconds : Z)
  | UtcNow
  | Environ
  | PasswdDir (user : option string)
  | Urandom (n : nat)
  | IsFile (p : path)
  | PathExists (p : path)
  | Mkdir (p : path)
  | Unlink (p : path)
  | Chmod (p : path) (mode : N)
  | StatSize (p : path)
  | ReadBytes (p : path)
  | WriteBytes (p : path) (payload : bytes)
  | GetAddrInfo (host : string)
  | UdpProbe (host : string) (port : Z)
  | HttpGet (url : string) (timeout : Z)
  | HttpStream (url : string) (timeout : Z)
  | SshConnect (host user : string) (key : path) (timeout : Z)
  | SshClose (conn : Z)
  | SshExec (conn : Z) (command : string) (stdin : option string) (timeout : Z)
  | SftpOpen (conn : Z)
  | SftpClose (sftp : Z)
  | SftpWrite (sftp : Z) (remote : string) (payload : bytes)
  | SftpRead (sftp : Z) (remote : string)
  | SftpPut (sftp : Z) (loc remote : string)
  | Uuid4Hex
  | WriteIso (p : path) (label : string) (files : list (string * bytes))
  | GenerateEd25519
  | PlatformSystem
  | Sysconf (name : string)
  | WindowsAvailPhys
  | DiskFree (p : string)
  | PrintLine (line : string)
  | PrintHelp (prog : string)
  | PrintUsageError (prog message : string)
  | LogBasicConfig (level : Z)
  | LogSetLevel (logger : string) (level : Z)
  | GoReadFile (name : string)
  | GoCreateTemp (dir pattern : string)
  | GoFile (op : file_op)
  | GoRand (n : nat)
  | GoLock (op : lock_op)
  | GoMkdirAll (name : string) (mode : N)
  | GoStdout (text : string)
  | GoStderr (text : string)
  | GoServe (addr : string)
  | GoShutdown (seconds : Z).

Definition resp (e : eff) : Type :=
  match e with
  | Subprocess _ _ => proc_resp
  | Monotonic => Z
  | Sleep _ | SshClose _ | PrintLine _ | PrintHelp _ | PrintUsageError _ _
  | LogBasicConfig _ | LogSetLevel _ _ | GoLock _ | GoStderr _ => unit
  | GoReadFile _ => read_resp
  | GoCreateTemp _ _ => io string
  | GoFile _ | GoMkdirAll _ _ | GoStdout _ | GoShutdown _ => io unit
  | GoServe _ => option string
  | GoRand _ => io bytes
  | UtcNow | Uuid4Hex | PlatformSystem => string
  | GenerateEd25519 => bytes * string
  | Sysconf _ => sysconf_resp
  | WindowsAvailPhys => option Z
  | DiskFree _ => io Z
  | Environ => list (string * string)
  | PasswdDir _ => option string
  | Urandom _ => bytes
  | IsFile _ | PathExists _ => bool
  | Mkdir _ | Unlink _ | Chmod _ _ | WriteBytes _ _ | SftpClose _
  | SftpWrite _ _ _ | SftpPut _ _ _ | WriteIso _ _ _ => io unit
  | StatSize _ => io Z
  | ReadBytes _ | SftpRead _ _ => io bytes
  | GetAddrInfo _ => option (list string)
  | UdpProbe _ _ => io string
  | HttpGet _ _ => http_resp
  | HttpStream _ _ => stream_resp
  | SshConnect _ _ _ _ => connect_resp
  | SshExec _ _ _ _ => exec_resp
  | SftpOpen _ => io Z
  end.

#[global] Arguments resp : simpl never.

(** A call together with the response it got. *)
Record event : Type := Ev { ev_eff : eff; ev_resp : resp ev_eff }.
Abbreviation trace := (list event).

(** ** Trees *)

Inductive tree (A : Type) : Type :=
  | Done (a : A)
  | Vis (e : eff) (k : resp e → tree A).
Arguments Done {A} _.
Arguments Vis {A} _ _.

Fixpoint tbind {A B} (p : tree A) (f : A → tree B) : tree B :=
  match p with
  | Done a => f a
  | Vis e k => Vis e (λ r, tbind (k r) f)
  end.

(** A run of a tree: the calls it makes, in order, with their responses. *)
Inductive exec {A} : tree A → trace → A → Prop :=
  | exec_done a : exec (Done a) [] a
  | exec_vis e k r t a : exec (k r) t a → exec (Vis e k) (Ev e r :: t) a.

(** ** Programs *)

(** An SSH session object: the Paramiko client and SFTP channel it holds. *)
Record session : Type := Session { s_client : option Z; s_sftp : option Z }.
Abbreviation store := (list session).

Inductive outcome (A : Type) : Type :=
  | Ok (a : A)
  | Raise (e : exn)
  | OutOfFuel.
Arguments Ok {A} _.
Arguments Raise {A} _.
Arguments OutOfFuel {A}.

Definition M (A : Type) : Type := store → tree (outcome A * store).

Definition ret {A} (a : A) : M A := λ s, Done (Ok a, s).
Definition raise {A} (e : exn) : M A := λ s, Done (Raise e, s).
Definition out_of_fuel {A} : M A := λ s, Done (OutOfFuel, s).
Definition call (e : eff) : M (resp e) := λ s, Vis e (λ r, Done (Ok r, s)).
Definition get_store : M store := λ s, Done (Ok s, s).
Definition put_store (s' : store) : M unit := λ _, Done (Ok tt, s').

Definition bind {A B} (m : M A) (f : A → M B) : M B := λ s,
  tbind (m s) (λ '(o, s'), match o with
    | Ok a => f a s'
    | Raise e => Done (Raise e, s')
    | OutOfFuel => Done (OutOfFuel, s')
    end).

(** [try: m except c: h], for the exceptions [h] handles. *)
Definition catch {A} (m : M A) (h : exn → option (M A)) : M A := λ s,
  tbind (m s) (λ '(o, s'), match o with
    | Raise e => match h e with Some m' => m' s' | None => Done (Raise e, s') end
    | _ => Done (o, s')
    end).

(** [try: m finally: fin]: an exception of [fin] replaces the outcome. *)
Definition finally {A} (m : M A) (fin : M unit) : M A := λ s,
  tbind (m s) (λ '(o, s'), match o with
    | OutOfFuel => Done (OutOfFuel, s')
    | _ => tbind (fin s') (λ '(o', s''), match o' with
        | Ok _ => Done (o, s'')
        | Raise e => Done (Raise e, s'')
        | OutOfFuel => Done (OutOfFuel, s'')
        end)
    end).

Declare Scope prog_scope.
Delimit Scope prog_scope with prog.
Notation "x <- c1 ;; c2" := (bind c1 (λ x, c2))
  (at level 100, c1 at next level, right associativity) : prog_scope.
Notation "'let*' pat ':=' c1 'in' c2" := (bind c1 (λ pat, c2))
  (at level 100, pat pattern, c1 at next level, right associativity) : prog_scope.
Notation "c1 ;; c2" := (bind c1 (λ _, c2))
  (at level 100, right associativity) : prog_scope.
Open Scope prog_scope.

Definition when (b : bool) (m : M unit) : M unit := if b then m else ret tt.

(** [for x in l: f(x)]. *)
Fixpoint for_each {A} (l : list A) (f : A → M unit) : M unit :=
  match l with
  | [] => ret tt
  | x :: l => f x ;; for_each l f
  end.

(** An [OSError] response becomes the exception. *)
Definition lift_io {A} (r : io A) : M A :=
  match r with IoOk a => ret a | IoErr m => raise (OSError m) end.

(** [except c as exc: raise (f exc) from exc]. *)
Definition rewrap {A} (m : M A) (c : exn_class) (f : exn → exn) : M A :=
  catch m (λ e, if isinstance e c then Some (raise (f e)) else None).

(** A run of a program from one store to another. *)
Definition runs {A} (m : M A) (s : store) (t : trace) (o : outcome A) (s' : store) : Prop :=
  exec (m s) t (o, s').

(** ** Loops *)

(** [while time.monotonic() < deadline: body], where [body] yields [Some] to
    leave the loop.  The fuel bounds the number of tests of the clock. *)
Fixpoint while_before {A} (fuel : nat) (deadline : Z) (body : M (option A)) : M (option A) :=
  match fuel with
  | O => out_of_fuel
  | S fuel =>
      now <- call Monotonic ;;
      if (now <? deadline)%Z then
        r <- body ;;
        match r with
        | Some a => ret (Some a)
        | None => while_before fuel deadline body
        end
      else ret None
  end.

(** The same loop with variables [st] that live across iterations: [inr]
    leaves the loop, [inl] goes on; at the deadline the variables are left. *)
Fixpoint while_with {S A} (fuel : nat) (deadline : Z) (st : S) (body : S → M (S + A)) : M (S + A) :=
  match fuel with
  | O => out_of_fuel
  | S fuel =>
      now <- call Monotonic ;;
      if (now <? deadline)%Z then
        r <- body st ;;
        match r with
        | inr a => ret (inr a)
        | inl st => while_with fuel deadline st body
        end
      else ret (inl st)
  end.

Definition seconds (n : Z) : Z := n * 1000000000.

(** Tests of the clock a loop with this time budget and this pause between
    attempts can make. *)
Definition polls (budget pause : Z) : nat := 2 + Z.to_nat (budget / pause).

(** ** Running against a world *)

(** A world with state [W]: its response to each call. *)
Definition handler (W : Type) : Type := ∀ e : eff, W → resp e * W.

Fixpoint interp {W A} (h : handler W) (p : tree A) (w : W) : A * W * trace :=
  match p with
  | Done a => (a, w, [])
  | Vis e k =>
      let '(r, w') := h e w in
      let '(a, w'', t) := interp h (k r) w' in
      (a, w'', Ev e r :: t)
  end.

(** The run of a program from a store with no session. *)
Definition run_in {W A} (h : handler W) (m : M A) (w : W) : outcome A * W * trace :=
  let '((o, _), w', t) := interp h (m []) w in (o, w', t).

Definition outcome_in {W A} (h : handler W) (m : M A) (w : W) : outcome A :=
  (run_in h m w).1.1.
Definition trace_in {W A} (h : handler W) (m : M A) (w : W) : trace := (run_in h m w).2.

(** Responses for the calls a particular world does not care about. *)
Definition default_resp (e : eff) : resp e :=
  match e with
  | Subprocess _ _ => Completed 0 "" ""
  | Monotonic => 0%Z
  | Sleep _ | SshClose _ | PrintLine _ | PrintHelp _ | PrintUsageError _ _
  | LogBasicConfig _ | LogSetLevel _ _ | GoLock _ | GoStderr _ => tt
  | GoReadFile _ => NotExist
  | GoCreateTemp dir _ => IoOk (dir +:+ "/tmp")
  | GoFile _ | GoMkdirAll _ _ | GoStdout _ | GoShutdown _ => IoOk tt
  | GoServe _ => None
  | GoRand n => IoOk (replicate n Byte.x00)
  | UtcNow => "2024-01-01T00:00:00Z"
  | Uuid4Hex => "0123456789abcdef0123456789abcdef"
  | Environ => []
  | PasswdDir _ => None
  | Urandom n => replicate n Byte.x00
  | IsFile _ | PathExists _ => false
  | Mkdir _ | Unlink _ | Chmod _ _ | WriteBytes _ _ | SftpClose _
  | SftpWrite _ _ _ | SftpPut _ _ _ | WriteIso _ _ _ => IoOk tt
  | StatSize _ => IoOk 0%Z
  | ReadBytes _ | SftpRead _ _ => IoErr "no such file"
  | GetAddrInfo _ => None
  | UdpProbe _ _ => IoErr "network unreachable"
  | HttpGet _ _ => RequestException "connection refused"
  | HttpStream _ _ => StreamException "connection refused"
  | GenerateEd25519 => ([Byte.x4b], "ssh-ed25519 AAAA")
  | PlatformSystem => "Linux"
  | Sysconf _ => SysconfMissing
  | WindowsAvailPhys => None
  | DiskFree _ => IoErr "no such path"
  | SshConnect _ _ _ _ => Connected 1
  | SshExec _ _ _ _ => Executed 0 "" ""
  | SftpOpen _ => IoOk 1%Z
  end.

(** ** Small helpers the components share *)

Definition lift_res {A} (r : res A) : M A :=
  match r with inl e => raise e | inr a => ret a end.
