(* ===== verification/Reasoning.v ===== *)
(** * Reasoning about runs

    [exec] and [runs] are inverted operator by operator, then packaged as
    judgements the components use:

    - [emits I X m]: every call of every run of [m] satisfies [I], and an
      exception satisfies [X]; [returns m Q]: a normal result satisfies [Q];
    - [wp m s Q]: every run of [m] from [s] ends with [Q] of its calls, its
      outcome and its store;
    - [guarded G B m]: a call that is [B] comes after one that is [G];
      [ensures G m c]: a result that passes [c] witnesses such a call;
    - [terminates m]: no run of [m] exhausts its fuel, provided the clock of
      the run respects the pauses the run asked for ([clock_ok]);
    - [interp] produces runs, so a concrete world yields witnesses. *)

From S2P Require Import Prelude PyStr Exceptions Paths Effects.

#[export] Set Default Goal Selector "!".

(** ** Inversion of runs *)

Lemma exec_inv {A} (p : tree A) t a :
  exec p t a →
  match p with
  | Done b => t = [] ∧ a = b
  | Vis e k => ∃ r t', t = Ev e r :: t' ∧ exec (k r) t' a
  end.
Proof. destruct 1; eauto. Qed.

Lemma exec_tbind {A B} (p : tree A) (f : A → tree B) t b :
  exec (tbind p f) t b ↔ ∃ t1 t2 a, t = t1 ++ t2 ∧ exec p t1 a ∧ exec (f a) t2 b.
Proof.
  split.
  - revert t. induction p as [a|e k IH]; intros t; simpl.
    + intros H. exists [], t, a. eauto using exec.
    + intros (r & t' & -> & H)%exec_inv.
      apply IH in H as (t1 & t2 & a & -> & H1 & H2).
      exists (Ev e r :: t1), t2, a. eauto using exec.
  - intros (t1 & t2 & a & -> & H1 & H2).
    induction H1; simpl; eauto using exec.
Qed.

Lemma Ok_inj {A} (a b : A) : Ok a = Ok b → a = b.
Proof. by intros [= ->]. Qed.

Section runs.
Context {A B : Type}.
Implicit Types (s : store) (t : trace).

Lemma runs_ret (a : A) s t o s' : runs (ret a) s t o s' ↔ t = [] ∧ o = Ok a ∧ s' = s.
Proof.
  split; [intros [-> [= -> ->]]%exec_inv; done|intros (-> & -> & ->); constructor].
Qed.

Lemma runs_raise e s t (o : outcome A) s' :
  runs (raise e) s t o s' ↔ t = [] ∧ o = Raise e ∧ s' = s.
Proof.
  split; [intros [-> [= -> ->]]%exec_inv; done|intros (-> & -> & ->); constructor].
Qed.

Lemma runs_call e s t o s' :
  runs (call e) s t o s' ↔ ∃ r, t = [Ev e r] ∧ o = Ok r ∧ s' = s.
Proof.
  split.
  - intros (r & t' & -> & H)%exec_inv. apply exec_inv in H as [-> [= -> ->]]. eauto.
  - intros (r & -> & -> & ->). repeat constructor.
Qed.

Lemma runs_out_of_fuel s t (o : outcome A) s' :
  runs out_of_fuel s t o s' ↔ t = [] ∧ o = OutOfFuel ∧ s' = s.
Proof.
  split; [intros [-> [= -> ->]]%exec_inv; done|intros (-> & -> & ->); constructor].
Qed.

Lemma runs_bind (m : M A) (f : A → M B) s t o s' :
  runs (bind m f) s t o s' ↔
  (∃ a s1 t1 t2, t = t1 ++ t2 ∧ runs m s t1 (Ok a) s1 ∧ runs (f a) s1 t2 o s') ∨
  (∃ e, o = Raise e ∧ runs m s t (Raise e) s') ∨
  (o = OutOfFuel ∧ runs m s t OutOfFuel s').
Proof.
  unfold runs, bind. rewrite exec_tbind. split.
  - intros (t1 & t2 & [[a|e|] s1] & -> & H1 & H2).
    + left. eauto 10.
    + apply exec_inv in H2 as [-> [= -> ->]]. rewrite app_nil_r. eauto.
    + apply exec_inv in H2 as [-> [= -> ->]]. rewrite app_nil_r. eauto.
  - intros [(a & s1 & t1 & t2 & -> & H1 & H2)|[(e & -> & H)|[-> H]]].
    + exists t1, t2, (Ok a, s1). eauto.
    + exists t, [], (Raise e, s'). rewrite app_nil_r. eauto using exec_done.
    + exists t, [], (OutOfFuel, s'). rewrite app_nil_r. eauto using exec_done.
Qed.

Lemma runs_catch (m : M A) h s t o s' :
  runs (catch m h) s t o s' ↔
  (∃ e m' s1 t1 t2, t = t1 ++ t2 ∧ runs m s t1 (Raise e) s1 ∧ h e = Some m' ∧
     runs m' s1 t2 o s') ∨
  (runs m s t o s' ∧ match o with Raise e => h e = None | _ => True end).
Proof.
  unfold runs, catch. rewrite exec_tbind. split.
  - intros (t1 & t2 & [[a|e|] s1] & -> & H1 & H2).
    + apply exec_inv in H2 as [-> [= -> ->]]. rewrite app_nil_r. eauto.
    + destruct (h e) as [m'|] eqn:He; [left; eauto 10|].
      apply exec_inv in H2 as [-> [= -> ->]]. rewrite app_nil_r. eauto.
    + apply exec_inv in H2 as [-> [= -> ->]]. rewrite app_nil_r. eauto.
  - intros [(e & m' & s1 & t1 & t2 & -> & H1 & He & H2)|[H Ho]].
    + exists t1, t2, (Raise e, s1). by rewrite He.
    + exists t, [], (o, s'). rewrite app_nil_r. split_and!; [done..|].
      destruct o; rewrite ?Ho; constructor.
Qed.

Lemma runs_finally (m : M A) (fin : M unit) s t o s' :
  runs (finally m fin) s t o s' ↔
  (o = OutOfFuel ∧ runs m s t OutOfFuel s') ∨
  (∃ o1 s1 t1 t2 o2, t = t1 ++ t2 ∧ runs m s t1 o1 s1 ∧ o1 ≠ OutOfFuel ∧
     runs fin s1 t2 o2 s' ∧
     o = match o2 with Ok _ => o1 | Raise e => Raise e | OutOfFuel => OutOfFuel end).
Proof.
  unfold runs, finally. rewrite exec_tbind. split.
  - intros (t1 & t2 & [o1 s1] & -> & H1 & H2).
    assert (o1 = OutOfFuel ∧ exec (Done (@OutOfFuel A, s1)) t2 (o, s') ∨
      o1 ≠ OutOfFuel ∧ exec (tbind (fin s1) (λ '(o', s''), match o' with
        | Ok _ => Done (o1, s'') | Raise e => Done (Raise e, s'')
        | OutOfFuel => Done (OutOfFuel, s'') end)) t2 (o, s')) as [[-> H3]|[Hne H3]].
    { destruct o1; [right|right|left]; done. }
    { apply exec_inv in H3 as [-> [= -> ->]]. rewrite app_nil_r. eauto. }
    apply exec_tbind in H3 as (t3 & t4 & [o2 s2] & -> & H3 & H4).
    right. exists o1, s1, t1, t3, o2.
    destruct o2; apply exec_inv in H4 as [-> [= -> ->]]; by rewrite app_nil_r.
  - intros [[-> H]|(o1 & s1 & t1 & t2 & o2 & -> & H1 & Hne & H2 & ->)].
    + exists t, [], (OutOfFuel, s'). rewrite app_nil_r. eauto using exec_done.
    + exists t1, t2, (o1, s1). split_and!; [done..|].
      destruct o1; try done; apply exec_tbind; exists t2, [], (o2, s');
        rewrite app_nil_r; destruct o2; eauto using exec_done.
Qed.
End runs.

Lemma runs_get_store s t o s' : runs get_store s t o s' ↔ t = [] ∧ o = Ok s ∧ s' = s.
Proof.
  split; [intros [-> [= -> ->]]%exec_inv; done|intros (-> & -> & ->); constructor].
Qed.

Lemma runs_put_store s1 s t o s' :
  runs (put_store s1) s t o s' ↔ t = [] ∧ o = Ok tt ∧ s' = s1.
Proof.
  split; [intros [-> [= -> ->]]%exec_inv; done|intros (-> & -> & ->); constructor].
Qed.

(** Turns a hypothesis about a run of a composed program into facts about the
    runs of its parts. *)
Ltac run_inv1 H :=
  lazymatch type of H with
  | runs (ret _) _ _ _ _ =>
      apply runs_ret in H; destruct H as (? & ? & ?); simplify_eq
  | runs (raise _) _ _ _ _ =>
      apply runs_raise in H; destruct H as (? & ? & ?); simplify_eq
  | runs (call _) _ _ _ _ =>
      apply runs_call in H; destruct H as (? & ? & ? & ?); simplify_eq
  | runs get_store _ _ _ _ =>
      apply runs_get_store in H; destruct H as (? & ? & ?); simplify_eq
  | runs (put_store _) _ _ _ _ =>
      apply runs_put_store in H; destruct H as (? & ? & ?); simplify_eq
  | runs (when ?b _) _ _ _ _ => unfold when in H; destruct b eqn:?; run_inv1 H
  | runs (if ?b then _ else _) _ _ _ _ => destruct b eqn:?
  end.

(** ** Results *)

(** Every normal result of [m] satisfies [Q]. *)
Definition returns {A} (m : M A) (Q : A → Prop) : Prop :=
  ∀ s t a s', runs m s t (Ok a) s' → Q a.

Lemma returns_ret {A} (a : A) (Q : A → Prop) : Q a → returns (ret a) Q.
Proof. intros HQ s t b s' H. by run_inv1 H. Qed.

Lemma returns_raise {A} e (Q : A → Prop) : returns (raise e) Q.
Proof. intros s t b s' H. by run_inv1 H. Qed.

Lemma returns_bind {A B} (m : M A) (f : A → M B) R Q :
  returns m R → (∀ a, R a → returns (f a) Q) → returns (bind m f) Q.
Proof.
  intros Hm Hf s t b s' H.
  apply runs_bind in H as [(a & s1 & t1 & t2 & -> & H1 & H2)|[(e & ? & _)|[? _]]]; [|done..].
  eapply Hf; eauto.
Qed.

Lemma returns_true {A} (m : M A) : returns m (λ _, True).
Proof. by intros s t a s' _. Qed.

Lemma returns_catch {A} (m : M A) h Q :
  returns m Q → (∀ e m', h e = Some m' → returns m' Q) → returns (catch m h) Q.
Proof.
  intros Hm Hh s t a s' H.
  apply runs_catch in H as [(e & m' & s1 & t1 & t2 & -> & H1 & He & H2)|[H _]]; [|eauto].
  eapply Hh; eauto.
Qed.

(** ** Calls and exceptions *)

(** Every call of every run of [m] satisfies [I], every exception [X]. *)
Definition emits {A} (I : event → Prop) (X : exn → Prop) (m : M A) : Prop :=
  ∀ s t o s', runs m s t o s' → Forall I t ∧ ∀ e, o = Raise e → X e.

Section emits.
Context (I : event → Prop) (X : exn → Prop).

Lemma emits_ret {A} (a : A) : emits I X (ret a).
Proof. intros s t o s' H. by run_inv1 H. Qed.

Lemma emits_raise {A} e : X e → emits I X (raise (A:=A) e).
Proof. intros HX s t o s' H. run_inv1 H. split; [done|by intros ? [= <-]]. Qed.

Lemma emits_call e : (∀ r, I (Ev e r)) → emits I X (call e).
Proof. intros HI s t o s' H. run_inv1 H. split; [by constructor|done]. Qed.

Lemma emits_get_store : emits I X get_store.
Proof. intros s t o s' H. by run_inv1 H. Qed.

Lemma emits_put_store s1 : emits I X (put_store s1).
Proof. intros s t o s' H. by run_inv1 H. Qed.

Lemma emits_out_of_fuel {A} : emits I X (out_of_fuel (A:=A)).
Proof. by intros s t o s' (-> & -> & ->)%runs_out_of_fuel. Qed.

Lemma emits_bind_returns {A B} (m : M A) (f : A → M B) R :
  emits I X m → returns m R → (∀ a, R a → emits I X (f a)) → emits I X (bind m f).
Proof.
  intros Hm HR Hf s t b s' H.
  apply runs_bind in H as [(a & s1 & t1 & t2 & -> & H1 & H2)|[(e & -> & H)|[-> H]]].
  - destruct (Hm _ _ _ _ H1) as [Ht1 _].
    destruct (Hf a (HR _ _ _ _ H1) _ _ _ _ H2) as [Ht2 ?].
    split; [by apply Forall_app|done].
  - destruct (Hm _ _ _ _ H) as [? He]. split; [done|intros ? [= <-]; by apply He].
  - destruct (Hm _ _ _ _ H). done.
Qed.

Lemma emits_bind {A B} (m : M A) (f : A → M B) :
  emits I X m → (∀ a, emits I X (f a)) → emits I X (bind m f).
Proof. intros Hm Hf. eapply emits_bind_returns; eauto using returns_true. Qed.

Lemma emits_weaken {A} (I' : event → Prop) (X' : exn → Prop) (m : M A) :
  emits I' X' m → (∀ e, I' e → I e) → (∀ e, X' e → X e) → emits I X m.
Proof.
  intros Hm HI HX s t o s' H. destruct (Hm _ _ _ _ H) as [Ht Ho].
  split; [by eapply Forall_impl|eauto].
Qed.

Lemma emits_catch {A} (X' : exn → Prop) (m : M A) h :
  emits I X' m →
  (∀ e, X' e → match h e with Some m' => emits I X m' | None => X e end) →
  emits I X (catch m h).
Proof.
  intros Hm Hh s t o s' H.
  apply runs_catch in H as [(e & m' & s1 & t1 & t2 & -> & H1 & He & H2)|[H Ho]].
  - destruct (Hm _ _ _ _ H1) as [Ht1 HX]. specialize (Hh e (HX _ eq_refl)).
    rewrite He in Hh. destruct (Hh _ _ _ _ H2) as [Ht2 ?].
    split; [by apply Forall_app|done].
  - destruct (Hm _ _ _ _ H) as [Ht HX]. split; [done|]. intros e ->.
    specialize (Hh e (HX _ eq_refl)). by rewrite Ho in Hh.
Qed.

Lemma emits_finally {A} (m : M A) (fin : M unit) :
  emits I X m → emits I X fin → emits I X (finally m fin).
Proof.
  intros Hm Hfin s t o s' H.
  apply runs_finally in H
    as [[-> H]|(o1 & s1 & t1 & t2 & o2 & -> & H1 & _ & H2 & ->)].
  - destruct (Hm _ _ _ _ H). done.
  - destruct (Hm _ _ _ _ H1), (Hfin _ _ _ _ H2).
    split; [by apply Forall_app|destruct o2; naive_solver].
Qed.

Lemma emits_when b (m : M unit) : (b = true → emits I X m) → emits I X (when b m).
Proof. destruct b; [eauto|intros _; apply emits_ret]. Qed.

Lemma emits_lift_io {A} (r : io A) :
  (∀ m, X (OSError m)) → emits I X (lift_io r).
Proof. intros HX. destruct r; [apply emits_ret|by apply emits_raise]. Qed.

Lemma emits_for_each {A} (l : list A) (f : A → M unit) :
  (∀ x, x ∈ l → emits I X (f x)) → emits I X (for_each l f).
Proof.
  induction l as [|x l IH]; intros Hf; simpl; [apply emits_ret|].
  apply emits_bind; [|intros _; apply IH; intros y ?]; apply Hf; by constructor.
Qed.

Lemma emits_while_before {A} fuel deadline (body : M (option A)) :
  (∀ r, I (Ev Monotonic r)) → emits I X body → emits I X (while_before fuel deadline body).
Proof.
  intros Hm Hb. induction fuel as [|fuel IH]; simpl; [apply emits_out_of_fuel|].
  apply emits_bind; [by apply emits_call|]. intros now. destruct (_ <? _)%Z; [|apply emits_ret].
  apply emits_bind; [done|]. intros [?|]; [apply emits_ret|done].
Qed.
End emits.

Lemma returns_while_before {A} fuel deadline (body : M (option A)) Q :
  returns body (λ r, ∀ a, r = Some a → Q a) →
  returns (while_before fuel deadline body) (λ r, ∀ a, r = Some a → Q a).
Proof.
  intros Hb. induction fuel as [|fuel IH]; simpl.
  { intros s t a s' (_ & ? & _)%runs_out_of_fuel. done. }
  eapply returns_bind; [apply returns_true|]. intros now _.
  destruct (_ <? _)%Z; [|by apply returns_ret].
  eapply returns_bind; [exact Hb|]. intros [a|] Ha; [by apply returns_ret|done].
Qed.

Lemma emits_catch_same {A} I X (m : M A) h :
  emits I X m → (∀ e m', h e = Some m' → X e → emits I X m') → emits I X (catch m h).
Proof.
  intros Hm Hh. eapply emits_catch; [done|]. intros e HX.
  destruct (h e) eqn:He; eauto.
Qed.

(** One syntax-directed step of an [emits] goal; the calls of other functions
    are left to the caller's lemmas. *)
Ltac emits_step :=
  lazymatch goal with
  | |- emits _ _ (ret _) => apply emits_ret
  | |- emits _ _ (raise _) => apply emits_raise
  | |- emits _ _ get_store => apply emits_get_store
  | |- emits _ _ (put_store _) => apply emits_put_store
  | |- emits _ _ (call _) => refine (emits_call _ _ _ _); intros ?
  | |- emits _ _ (bind _ _) => apply emits_bind; [|intros ?]
  | |- emits _ _ (when _ _) => apply emits_when; intros ?
  | |- emits _ _ (lift_io _) => apply emits_lift_io; intros ?
  | |- emits _ _ (for_each _ _) => apply emits_for_each; intros ? ?
  | |- emits _ _ (while_before _ _ _) => apply emits_while_before; [intros ?|]
  | |- emits _ _ (finally _ _) => apply emits_finally
  | |- emits _ _ (match ?x with _ => _ end) => destruct x eqn:?
  end.
Ltac emits_auto := repeat (emits_step || (progress eauto with vmdeploy)).

(** ** Termination *)

(** The clock of a run: readings never go back, and a pause of [d] passes at
    least [d] before the next reading. *)
Fixpoint clock_ok (now : Z) (t : trace) : Prop :=
  match t with
  | [] => True
  | Ev e r :: t =>
      match e return resp e → Prop with
      | Monotonic => λ r, (now ≤ r)%Z ∧ clock_ok r t
      | Sleep d => λ _, clock_ok (now + d) t
      | _ => λ _, clock_ok now t
      end r
  end.

Fixpoint clock_end (now : Z) (t : trace) : Z :=
  match t with
  | [] => now
  | Ev e r :: t =>
      match e return resp e → Z with
      | Monotonic => λ r, clock_end r t
      | Sleep d => λ _, clock_end (now + d) t
      | _ => λ _, clock_end now t
      end r
  end.

Lemma clock_ok_app now t1 t2 :
  clock_ok now (t1 ++ t2) ↔ clock_ok now t1 ∧ clock_ok (clock_end now t1) t2.
Proof.
  revert now. induction t1 as [|[e r] t1 IH]; intros now; [simpl; tauto|].
  destruct e; simpl; rewrite ?IH; tauto.
Qed.

Lemma clock_end_app now t1 t2 :
  clock_end now (t1 ++ t2) = clock_end (clock_end now t1) t2.
Proof.
  revert now. induction t1 as [|[e r] t1 IH]; intros now; [done|].
  by destruct e; simpl; rewrite ?IH.
Qed.

(** A run whose pauses are not negative ends no earlier than it began. *)
Definition no_negative_pause (ev : event) : Prop :=
  match ev_eff ev with Sleep d => (0 ≤ d)%Z | _ => True end.

Lemma clock_end_le now t :
  Forall no_negative_pause t → clock_ok now t → (now ≤ clock_end now t)%Z.
Proof.
  intros Ht. revert now. induction Ht as [|[e r] t He Ht IH]; intros now; [simpl; lia|].
  destruct e; simpl; try (intros; by apply IH); unfold no_negative_pause in He; simpl in He.
  - intros [Hr Hc]. specialize (IH r Hc). lia.
  - intros Hc. specialize (IH _ Hc). lia.
Qed.

(** No run of [m] whose clock is in order exhausts its fuel. *)
Definition terminates {A} (m : M A) : Prop :=
  ∀ now s t o s', runs m s t o s' → clock_ok now t → o ≠ OutOfFuel.

Lemma terminates_ret {A} (a : A) : terminates (ret a).
Proof. intros now s t o s' H _. by run_inv1 H. Qed.
Lemma terminates_raise {A} e : terminates (raise (A:=A) e).
Proof. intros now s t o s' H _. by run_inv1 H. Qed.
Lemma terminates_call e : terminates (call e).
Proof. intros now s t o s' H _. by run_inv1 H. Qed.
Lemma terminates_get_store : terminates get_store.
Proof. intros now s t o s' H _. by run_inv1 H. Qed.
Lemma terminates_put_store s1 : terminates (put_store s1).
Proof. intros now s t o s' H _. by run_inv1 H. Qed.
Lemma terminates_lift_io {A} (r : io A) : terminates (lift_io r).
Proof. destruct r; [apply terminates_ret|apply terminates_raise]. Qed.

Lemma terminates_bind {A B} (m : M A) (f : A → M B) :
  terminates m → (∀ a, terminates (f a)) → terminates (bind m f).
Proof.
  intros Hm Hf now s t o s' H Hc.
  apply runs_bind in H as [(a & s1 & t1 & t2 & -> & H1 & H2)|[(e & -> & H)|[-> H]]].
  - apply clock_ok_app in Hc as [_ Hc]. exact (Hf _ _ _ _ _ _ H2 Hc).
  - done.
  - by destruct (Hm _ _ _ _ _ H Hc).
Qed.

Lemma terminates_catch {A} (m : M A) h :
  terminates m → (∀ e m', h e = Some m' → terminates m') → terminates (catch m h).
Proof.
  intros Hm Hh now s t o s' H Hc.
  apply runs_catch in H as [(e & m' & s1 & t1 & t2 & -> & H1 & He & H2)|[H _]].
  - apply clock_ok_app in Hc as [_ Hc]. exact (Hh _ _ He _ _ _ _ _ H2 Hc).
  - exact (Hm _ _ _ _ _ H Hc).
Qed.

Lemma terminates_finally {A} (m : M A) (fin : M unit) :
  terminates m → terminates fin → terminates (finally m fin).
Proof.
  intros Hm Hfin now s t o s' H Hc.
  apply runs_finally in H as [[-> H]|(o1 & s1 & t1 & t2 & o2 & -> & H1 & Hne & H2 & ->)].
  - exact (Hm _ _ _ _ _ H Hc).
  - apply clock_ok_app in Hc as [_ Hc]. destruct o2; [done..|].
    by destruct (Hfin _ _ _ _ _ H2 Hc).
Qed.

Lemma terminates_when b m : terminates m → terminates (when b m).
Proof. intros Hm. destruct b; [done|apply terminates_ret]. Qed.

Lemma terminates_for_each {A} (l : list A) f :
  (∀ x, x ∈ l → terminates (f x)) → terminates (for_each l f).
Proof.
  induction l as [|x l IH]; intros Hf; simpl; [apply terminates_ret|].
  apply terminates_bind; [|intros _; apply IH; intros y ?]; apply Hf; by constructor.
Qed.

(** The body of a polling loop: it terminates, and each time it asks for
    another round it has paused for at least [pause]. *)
Definition pauses {A} (pause : Z) (body : M (option A)) : Prop :=
  ∀ now s t o s', runs body s t o s' → clock_ok now t →
    o ≠ OutOfFuel ∧ (o = Ok None → (now + pause ≤ clock_end now t)%Z).

Lemma while_before_fuel {A} pause fuel deadline (body : M (option A)) now s t o s' :
  (0 < pause)%Z → pauses pause body →
  runs (while_before (S fuel) deadline body) s t o s' → clock_ok now t →
  (deadline - now ≤ pause * Z.of_nat fuel)%Z → o ≠ OutOfFuel.
Proof.
  intros Hp Hb. revert now s t. induction fuel as [|fuel IH]; intros now s t H Hc Hd.
  all: cbn [while_before] in H.
  all: apply runs_bind in H as [(n & s1 & t1 & t2 & -> & H1 & H2)|[(e & -> & H)|[-> H]]];
    [|done|run_inv1 H].
  all: run_inv1 H1; simpl in Hc; destruct Hc as [Hn Hc].
  all: destruct (_ <? _)%Z eqn:Hlt; [|by run_inv1 H2].
  { apply Z.ltb_lt in Hlt. simpl in *. lia. }
  apply Z.ltb_lt in Hlt.
  apply runs_bind in H2 as [(r & s2 & t3 & t4 & -> & H3 & H4)|[(e & -> & H3)|[-> H3]]].
  - apply clock_ok_app in Hc as [Hc3 Hc4].
    destruct (Hb _ _ _ _ _ H3 Hc3) as [_ Hpause].
    destruct r as [a|]; [by run_inv1 H4|]. specialize (Hpause eq_refl).
    eapply (IH _ _ _ H4 Hc4). lia.
  - done.
  - by destruct (Hb _ _ _ _ _ H3 Hc).
Qed.

(** The fuel [polls budget pause] is enough for a loop whose deadline is at
    most [budget] away. *)
Lemma while_before_polls {A} pause budget deadline (body : M (option A)) now s t o s' :
  (0 < pause)%Z → pauses pause body →
  runs (while_before (polls budget pause) deadline body) s t o s' → clock_ok now t →
  (deadline ≤ now + budget)%Z → o ≠ OutOfFuel.
Proof.
  intros Hp Hb H Hc Hd. unfold polls in H.
  eapply (while_before_fuel pause (S (Z.to_nat (budget / pause)))); eauto.
  pose proof (Z.mul_succ_div_gt budget pause Hp).
  destruct (decide (0 ≤ budget / pause)%Z); [lia|].
  assert (budget < 0)%Z; [|nia].
  destruct (decide (0 ≤ budget)%Z); [|lia].
  pose proof (Z.div_pos budget pause). lia.
Qed.

#[export] Hint Resolve terminates_ret terminates_raise terminates_call
  terminates_get_store terminates_put_store terminates_lift_io : vmdeploy.

Ltac terminates_step :=
  lazymatch goal with
  | |- terminates (bind _ _) => apply terminates_bind; [|intros ?]
  | |- terminates (call ?e) => refine (terminates_call e)
  | |- terminates (when _ _) => apply terminates_when
  | |- terminates (for_each _ _) => apply terminates_for_each; intros ? ?
  | |- terminates (finally _ _) => apply terminates_finally
  | |- terminates (match ?x with _ => _ end) => destruct x eqn:?
  end.
Ltac terminates_auto := repeat (terminates_step || (progress eauto with vmdeploy)).

(** ** Worlds *)

Lemma interp_exec {W A} (h : handler W) (p : tree A) w :
  exec p (interp h p w).2 (interp h p w).1.1.
Proof.
  revert w. induction p as [a|e k IH]; intros w; simpl; [constructor|].
  destruct (h e w) as [r w'] eqn:Hh. specialize (IH r w').
  destruct (interp h (k r) w') as [[a w''] t] eqn:Hi. simpl in *. by constructor.
Qed.

(** A program has a run in every world. *)
Lemma run_in_runs {W A} (h : handler W) (m : M A) w :
  ∃ s', runs m [] (trace_in h m w) (outcome_in h m w) s'.
Proof.
  unfold trace_in, outcome_in, run_in, runs. pose proof (interp_exec h (m []) w) as H.
  destruct (interp h (m []) w) as [[[o s'] w'] t]. by exists s'.
Qed.

Lemma emits_lift_res {A} I X (r : res A) :
  (∀ e, r = inl e → X e) → emits I X (lift_res r).
Proof. intros HX. destruct r; [apply emits_raise; auto|apply emits_ret]. Qed.

Lemma returns_lift_res {A} (r : res A) (Q : A → Prop) :
  (∀ a, r = inr a → Q a) → returns (lift_res r) Q.
Proof. intros HQ. destruct r; [apply returns_raise|apply returns_ret; auto]. Qed.

Lemma terminates_lift_res {A} (r : res A) : terminates (lift_res r).
Proof. destruct r; [apply terminates_raise|apply terminates_ret]. Qed.
#[export] Hint Resolve terminates_lift_res : vmdeploy.

Lemma returns_bind_res {A B} (r : res A) (f : A → M B) Q :
  (∀ a, r = inr a → returns (f a) Q) → returns (bind (lift_res r) f) Q.
Proof.
  intros Hf. eapply (returns_bind _ _ (λ a, r = inr a)); [|done].
  by apply returns_lift_res.
Qed.

Lemma returns_bind_any {A B} (m : M A) (f : A → M B) Q :
  (∀ a, returns (f a) Q) → returns (bind m f) Q.
Proof. intros Hf. eapply returns_bind; [apply returns_true|by intros a _]. Qed.

Lemma emits_bind_res {A B} I X (r : res A) (f : A → M B) :
  (∀ e, r = inl e → X e) → (∀ a, r = inr a → emits I X (f a)) →
  emits I X (bind (lift_res r) f).
Proof.
  intros Hr Hf. eapply (emits_bind_returns I X _ _ (λ a, r = inr a)).
  - by apply emits_lift_res.
  - by apply returns_lift_res.
  - done.
Qed.

(** ** Postconditions over the calls made *)

(** Every run of [m] from [s] ends with [Q] of its calls, outcome and store. *)
Definition wp {A} (m : M A) (s : store) (Q : trace → outcome A → store → Prop) : Prop :=
  ∀ t o s', runs m s t o s' → Q t o s'.

Section wp.
Context {A B : Type}.
Implicit Types (s : store).

Lemma wp_conseq (m : M A) s (Q Q' : trace → outcome A → store → Prop) :
  wp m s Q → (∀ t o s', Q t o s' → Q' t o s') → wp m s Q'.
Proof. intros Hm HQ t o s' H. eauto. Qed.

Lemma wp_ret (a : A) s (Q : trace → outcome A → store → Prop) : Q [] (Ok a) s → wp (ret a) s Q.
Proof. intros HQ t o s' H. by run_inv1 H. Qed.

Lemma wp_raise e s (Q : trace → outcome A → store → Prop) :
  Q [] (Raise e) s → wp (raise e) s Q.
Proof. intros HQ t o s' H. by run_inv1 H. Qed.

Lemma wp_call e s (Q : trace → outcome (resp e) → store → Prop) :
  (∀ r, Q [Ev e r] (Ok r) s) → wp (call e) s Q.
Proof. intros HQ t o s' H. by run_inv1 H. Qed.

(** The continuation of a bind, once the first part has made the calls [t1]. *)
Definition bind_post (f : A → M B) (Q : trace → outcome B → store → Prop)
    (t1 : trace) (o : outcome A) (s : store) : Prop :=
  match o with
  | Ok a => wp (f a) s (λ t2 o2, Q (t1 ++ t2) o2)
  | Raise e => Q t1 (Raise e) s
  | OutOfFuel => Q t1 OutOfFuel s
  end.

Lemma wp_bind (m : M A) (f : A → M B) s Q : wp m s (bind_post f Q) → wp (bind m f) s Q.
Proof.
  intros Hm t o s' H.
  apply runs_bind in H as [(a & s1 & t1 & t2 & -> & H1 & H2)|[(e & -> & H)|[-> H]]].
  - exact (Hm _ _ _ H1 _ _ _ H2).
  - exact (Hm _ _ _ H).
  - exact (Hm _ _ _ H).
Qed.

Lemma wp_lift_io (r : io A) s (Q : trace → outcome A → store → Prop) :
  (∀ a, r = IoOk a → Q [] (Ok a) s) → (∀ m, r = IoErr m → Q [] (Raise (OSError m)) s) →
  wp (lift_io r) s Q.
Proof. intros Ha Hm. destruct r; [apply wp_ret; auto|apply wp_raise; auto]. Qed.

Lemma wp_catch (m : M A) h s (Q : trace → outcome A → store → Prop) :
  wp m s (λ t1 o s1, match o with
    | Raise e => match h e with
        | Some m' => wp m' s1 (λ t2 o2, Q (t1 ++ t2) o2)
        | None => Q t1 (Raise e) s1
        end
    | _ => Q t1 o s1
    end) → wp (catch m h) s Q.
Proof.
  intros Hm t o s' H.
  apply runs_catch in H as [(e & m' & s1 & t1 & t2 & -> & H1 & He & H2)|[H Ho]].
  - specialize (Hm _ _ _ H1). simpl in Hm. rewrite He in Hm. exact (Hm _ _ _ H2).
  - specialize (Hm _ _ _ H). destruct o as [a|e|]; [done| |done]. by rewrite Ho in Hm.
Qed.

Lemma wp_finally (m : M A) fin s (Q : trace → outcome A → store → Prop) :
  wp m s (λ t1 o s1, match o with
    | OutOfFuel => Q t1 OutOfFuel s1
    | _ => wp fin s1 (λ t2 o2, Q (t1 ++ t2)
             match o2 with Ok _ => o | Raise e => Raise e | OutOfFuel => OutOfFuel end)
    end) → wp (finally m fin) s Q.
Proof.
  intros Hm t o s' H.
  apply runs_finally in H as [[-> H]|(o1 & s1 & t1 & t2 & o2 & -> & H1 & Hne & H2 & ->)].
  - exact (Hm _ _ _ H).
  - specialize (Hm _ _ _ H1). destruct o1; [exact (Hm _ _ _ H2)|exact (Hm _ _ _ H2)|done].
Qed.

Lemma wp_rewrap (m : M A) c f s (Q : trace → outcome A → store → Prop) :
  wp m s (λ t o s1, match o with
    | Raise e => Q t (Raise (if isinstance e c then f e else e)) s1
    | _ => Q t o s1
    end) → wp (rewrap m c f) s Q.
Proof.
  intros Hm. apply wp_catch. eapply wp_conseq; [exact Hm|].
  intros t [a|e|] s1 HQ; [done| |done]. destruct (isinstance e c); [|done].
  apply wp_raise. by rewrite app_nil_r.
Qed.

(** A loop on the clock leaves by its body, or at a reading past the
    deadline. *)
Lemma runs_while_before fuel deadline (body : M (option A)) s t o s' :
  runs (while_before fuel deadline body) s t o s' →
  match o with
  | Ok (Some a) => ∃ s1 t1 t2, t = t1 ++ t2 ∧ runs body s1 t2 (Ok (Some a)) s'
  | Ok None => ∃ t1 n, t = t1 ++ [Ev Monotonic n] ∧ (deadline ≤ n)%Z
  | Raise e => ∃ s1 t1 t2, t = t1 ++ t2 ∧ runs body s1 t2 (Raise e) s'
  | OutOfFuel => True
  end.
Proof.
  revert s t. induction fuel as [|fuel IH]; intros s t H; simpl in H.
  { by apply runs_out_of_fuel in H as (-> & -> & ->). }
  apply runs_bind in H as [(n & s1 & t1 & t2 & -> & H1 & H2)|[(e & -> & H)|[-> H]]];
    [|by run_inv1 H|done].
  run_inv1 H1. destruct (_ <? _)%Z eqn:Hlt.
  - apply runs_bind in H2 as [(r & s2 & t3 & t4 & -> & H3 & H4)|[(e & -> & H3)|[-> H3]]].
    + destruct r as [a|].
      * run_inv1 H4. eexists _, _, _. split; [|exact H3]. by rewrite app_nil_r.
      * apply IH in H4. rewrite app_assoc.
        destruct o as [[a|]|e|]; [| | |done];
          [destruct H4 as (s3 & t5 & t6 & -> & H5)|destruct H4 as (t5 & n' & -> & H5)
          |destruct H4 as (s3 & t5 & t6 & -> & H5)]; rewrite app_assoc; eauto.
    + eexists _, _, _. split; [done|exact H3].
    + done.
  - run_inv1 H2. apply Z.ltb_ge in Hlt. by exists [], x.
Qed.
End wp.

(** One operator of the program of a [wp] goal. *)
Ltac wp_step :=
  lazymatch goal with
  | |- wp (bind _ _) _ _ => apply wp_bind
  | |- wp (call ?e) ?s ?Q => refine (wp_call e s Q _); intros ?
  | |- wp (ret _) _ _ => apply wp_ret
  | |- wp (raise _) _ _ => apply wp_raise
  | |- wp (lift_io _) _ _ => apply wp_lift_io; intros ? ?
  | |- wp (rewrap _ _ _) _ _ => apply wp_rewrap
  | |- wp (catch _ _) _ _ => apply wp_catch
  | |- wp (match ?x with _ => _ end) _ _ => destruct x eqn:?
  | |- bind_post _ _ _ _ _ => cbn [bind_post]
  end.

(** ** Bodies of polling loops *)

Section pauses.
Context {A B : Type} (pause : Z).

Lemma pauses_some (a : A) : pauses pause (ret (Some a)).
Proof. intros now s t o s' H _. by run_inv1 H. Qed.

Lemma pauses_raise e : pauses pause (raise (A:=option A) e).
Proof. intros now s t o s' H _. by run_inv1 H. Qed.

Lemma pauses_sleep : pauses pause (call (Sleep pause) ;; ret (@None A)).
Proof.
  intros now s t o s' H Hc.
  apply runs_bind in H as [(a & s1 & t1 & t2 & -> & H1 & H2)|[(e & -> & H)|[-> H]]];
    [|by run_inv1 H|by run_inv1 H].
  run_inv1 H1. run_inv1 H2. split; [done|]. intros _. simpl. lia.
Qed.

Lemma pauses_bind (m : M B) (f : B → M (option A)) :
  terminates m → emits no_negative_pause (λ _, True) m → (∀ a, pauses pause (f a)) →
  pauses pause (bind m f).
Proof.
  intros Hm He Hf now s t o s' H Hc.
  apply runs_bind in H as [(a & s1 & t1 & t2 & -> & H1 & H2)|[(e & -> & H)|[-> H]]].
  - apply clock_ok_app in Hc as [Hc1 Hc2]. destruct (Hf a _ _ _ _ _ H2 Hc2) as [Ho Hn].
    split; [done|]. intros Ho'. specialize (Hn Ho'). rewrite clock_end_app.
    destruct (He _ _ _ _ H1) as [Hneg _]. pose proof (clock_end_le _ _ Hneg Hc1). lia.
  - done.
  - by destruct (Hm _ _ _ _ _ H Hc).
Qed.

(** [deadline = time.monotonic() + budget], then a loop that pauses, then
    whatever follows. *)
Lemma terminates_poll (budget : Z) (body : M (option A)) (f : option A → M B) :
  (0 < pause)%Z → pauses pause body → (∀ r, terminates (f r)) →
  terminates (now <- call Monotonic ;;
    r <- while_before (polls budget pause) (now + budget)%Z body ;; f r).
Proof.
  intros Hp Hb Hf now s t o s' H Hc.
  apply runs_bind in H as [(n & s1 & t1 & t2 & -> & H1 & H2)|[(e & -> & H)|[-> H]]];
    [|done|by run_inv1 H].
  run_inv1 H1. simpl in Hc. destruct Hc as [Hn Hc].
  apply runs_bind in H2 as [(r & s2 & t3 & t4 & -> & H3 & H4)|[(e & -> & H3)|[-> H3]]].
  - apply clock_ok_app in Hc as [_ Hc]. exact (Hf _ _ _ _ _ _ H4 Hc).
  - done.
  - exfalso. eapply while_before_polls; [exact Hp|exact Hb|exact H3|exact Hc|lia|done].
Qed.
End pauses.

(** ** Polling loops with variables *)

Section while_with.
Context {S A : Type}.

(** A round terminates, and has paused when it asks for another one. *)
Definition round_pauses (pause : Z) (m : M (S + A)) : Prop :=
  ∀ now s t o s', runs m s t o s' → clock_ok now t →
    o ≠ OutOfFuel ∧ (∀ st', o = Ok (inl st') → (now + pause ≤ clock_end now t)%Z).
Definition pauses_with (pause : Z) (body : S → M (S + A)) : Prop :=
  ∀ st, round_pauses pause (body st).

Lemma round_pauses_leave pause (a : A) : round_pauses pause (ret (inr a)).
Proof. intros now s t o s' H _. by run_inv1 H. Qed.

Lemma round_pauses_raise pause e : round_pauses pause (raise e).
Proof. intros now s t o s' H _. by run_inv1 H. Qed.

Lemma round_pauses_sleep pause (st : S) : round_pauses pause (call (Sleep pause) ;; ret (inl st)).
Proof.
  intros now s t o s' H Hc.
  apply runs_bind in H as [(a & s1 & t1 & t2 & -> & H1 & H2)|[(e & -> & H)|[-> H]]];
    [|by run_inv1 H|by run_inv1 H].
  run_inv1 H1. run_inv1 H2. split; [done|]. intros st' _. simpl. lia.
Qed.

Lemma round_pauses_bind {B} pause (m : M B) (f : B → M (S + A)) :
  terminates m → emits no_negative_pause (λ _, True) m → (∀ a, round_pauses pause (f a)) →
  round_pauses pause (bind m f).
Proof.
  intros Hm He Hf now s t o s' H Hc.
  apply runs_bind in H as [(a & s1 & t1 & t2 & -> & H1 & H2)|[(e & -> & H)|[-> H]]].
  - apply clock_ok_app in Hc as [Hc1 Hc2]. destruct (Hf a _ _ _ _ _ H2 Hc2) as [Ho Hn].
    split; [done|]. intros st' Ho'. specialize (Hn _ Ho'). rewrite clock_end_app.
    destruct (He _ _ _ _ H1) as [Hneg _]. pose proof (clock_end_le _ _ Hneg Hc1). lia.
  - done.
  - by destruct (Hm _ _ _ _ _ H Hc).
Qed.

Lemma while_with_fuel pause fuel deadline st (body : S → M (S + A)) now s t o s' :
  (0 < pause)%Z → pauses_with pause body →
  runs (while_with (Datatypes.S fuel) deadline st body) s t o s' → clock_ok now t →
  (deadline - now ≤ pause * Z.of_nat fuel)%Z → o ≠ OutOfFuel.
Proof.
  intros Hp Hb. revert st now s t. induction fuel as [|fuel IH]; intros st now s t H Hc Hd.
  all: cbn [while_with] in H.
  all: apply runs_bind in H as [(n & s1 & t1 & t2 & -> & H1 & H2)|[(e & -> & H)|[-> H]]];
    [|done|run_inv1 H].
  all: run_inv1 H1; simpl in Hc; destruct Hc as [Hn Hc].
  all: destruct (_ <? _)%Z eqn:Hlt; [|by run_inv1 H2].
  { apply Z.ltb_lt in Hlt. simpl in *. lia. }
  apply Z.ltb_lt in Hlt.
  apply runs_bind in H2 as [(r & s2 & t3 & t4 & -> & H3 & H4)|[(e & -> & H3)|[-> H3]]].
  - apply clock_ok_app in Hc as [Hc3 Hc4].
    destruct (Hb _ _ _ _ _ _ H3 Hc3) as [_ Hpause].
    destruct r as [st'|a]; [|by run_inv1 H4]. specialize (Hpause _ eq_refl).
    eapply (IH _ _ _ _ H4 Hc4). lia.
  - done.
  - by destruct (Hb _ _ _ _ _ _ H3 Hc).
Qed.

Lemma terminates_while_with pause budget st (body : S → M (S + A)) :
  (0 < pause)%Z → pauses_with pause body →
  ∀ now s t o s' deadline,
    runs (while_with (polls budget pause) deadline st body) s t o s' → clock_ok now t →
    (deadline ≤ now + budget)%Z → o ≠ OutOfFuel.
Proof.
  intros Hp Hb now s t o s' deadline H Hc Hd. unfold polls in H.
  eapply (while_with_fuel pause (Datatypes.S (Z.to_nat (budget / pause)))); eauto.
  pose proof (Z.mul_succ_div_gt budget pause Hp).
  destruct (decide (0 ≤ budget / pause)%Z); [lia|].
  assert (budget < 0)%Z; [|nia].
  destruct (decide (0 ≤ budget)%Z); [|lia].
  pose proof (Z.div_pos budget pause). lia.
Qed.

Lemma emits_while_with I X fuel deadline st (body : S → M (S + A)) :
  (∀ r, I (Ev Monotonic r)) → (∀ st, emits I X (body st)) →
  emits I X (while_with fuel deadline st body).
Proof.
  intros Hm Hb. revert st. induction fuel as [|fuel IH]; intros st; simpl; [apply emits_out_of_fuel|].
  apply emits_bind; [by apply emits_call|]. intros now. destruct (_ <? _)%Z; [|apply emits_ret].
  apply emits_bind; [done|]. intros [?|?]; [done|apply emits_ret].
Qed.

(** How the loop can end. *)
Lemma runs_while_with fuel deadline st (body : S → M (S + A)) s t o s' :
  runs (while_with fuel deadline st body) s t o s' →
  match o with
  | Ok (inr a) => ∃ st1 s1 t1 t2, t = t1 ++ t2 ∧ runs (body st1) s1 t2 (Ok (inr a)) s'
  | Ok (inl _) => ∃ t1 n, t = t1 ++ [Ev Monotonic n] ∧ (deadline ≤ n)%Z
  | Raise e => ∃ st1 s1 t1 t2, t = t1 ++ t2 ∧ runs (body st1) s1 t2 (Raise e) s'
  | OutOfFuel => True
  end.
Proof.
  revert st s t. induction fuel as [|fuel IH]; intros st s t H; simpl in H.
  { by apply runs_out_of_fuel in H as (-> & -> & ->). }
  apply runs_bind in H as [(n & s1 & t1 & t2 & -> & H1 & H2)|[(e & -> & H)|[-> H]]];
    [|by run_inv1 H|done].
  run_inv1 H1. destruct (_ <? _)%Z eqn:Hlt.
  - apply runs_bind in H2 as [(r & s2 & t3 & t4 & -> & H3 & H4)|[(e & -> & H3)|[-> H3]]].
    + destruct r as [st'|a].
      * apply IH in H4. rewrite app_assoc.
        destruct o as [[st2|a]|e|]; [| | |done];
          [destruct H4 as (t5 & n' & -> & H5)|destruct H4 as (st3 & s3 & t5 & t6 & -> & H5)
          |destruct H4 as (st3 & s3 & t5 & t6 & -> & H5)]; rewrite app_assoc; eauto 6.
      * run_inv1 H4. eexists _, _, _, _. split; [|exact H3]. by rewrite app_nil_r.
    + eexists _, _, _, _. split; [done|exact H3].
    + done.
  - run_inv1 H2. apply Z.ltb_ge in Hlt. by exists [], x.
Qed.
End while_with.

(** ** One call before another *)

(** Every call of [t] that is [B] comes after one that is [G]. *)
Definition preceded (G B : event → Prop) (t : trace) : Prop :=
  ∀ t1 ev t2, t = t1 ++ ev :: t2 → B ev → Exists G t1.

(** In every run of [m], a call that is [B] comes after one that is [G]. *)
Definition guarded (G B : event → Prop) {A} (m : M A) : Prop :=
  ∀ s t o s', runs m s t o s' → preceded G B t.

(** A normal result of [m] that passes [c] witnesses a call that is [G]. *)
Definition ensures (G : event → Prop) {A} (m : M A) (c : A → bool) : Prop :=
  ∀ s t a s', runs m s t (Ok a) s' → c a = true → Exists G t.

Section guarded.
Context (G B : event → Prop).

Lemma preceded_never t : Forall (λ ev, ¬ B ev) t → preceded G B t.
Proof.
  intros Ht t1 ev t2 -> HB. apply Forall_app in Ht as [_ [? _]%Forall_cons]. done.
Qed.

Lemma preceded_app t1 t2 : preceded G B t1 → Exists G t1 ∨ preceded G B t2 → preceded G B (t1 ++ t2).
Proof.
  intros H1 H2 u1 ev u2 Heq HB.
  apply app_eq_inv in Heq as [(k & -> & Hk)|(k & -> & Hk)].
  - destruct k as [|ev' k]; [|simplify_eq/=; by eapply H1].
    simpl in Hk. rewrite app_nil_r in H2. destruct H2 as [H2|H2].
    + done.
    + specialize (H2 [] ev u2 (eq_sym Hk) HB). by apply Exists_nil in H2.
  - apply Exists_app. destruct H2 as [?|H2]; [by left|right]. eapply H2; eauto.
Qed.

Lemma guarded_never {A} (m : M A) : emits (λ ev, ¬ B ev) (λ _, True) m → guarded G B m.
Proof. intros Hm s t o s' H. apply preceded_never. by destruct (Hm _ _ _ _ H). Qed.

(** Once a result that passes [c] has witnessed [G], whatever follows may be
    [B]. *)
Lemma guarded_bind_ensures {A B'} (m : M A) (f : A → M B') (c : A → bool) :
  guarded G B m → ensures G m c → (∀ a, c a = false → guarded G B (f a)) → guarded G B (bind m f).
Proof.
  intros Hm Hc Hf s t o s' H.
  apply runs_bind in H as [(a & s1 & t1 & t2 & -> & H1 & H2)|[(e & -> & H)|[-> H]]]; [|by eapply Hm..].
  apply preceded_app; [by eapply Hm|]. destruct (c a) eqn:Ha; [left; by eapply Hc|right; by eapply Hf].
Qed.

Lemma guarded_bind_returns {A B'} (m : M A) (f : A → M B') R :
  guarded G B m → returns m R → (∀ a, R a → guarded G B (f a)) → guarded G B (bind m f).
Proof.
  intros Hm HR Hf s t o s' H.
  apply runs_bind in H as [(a & s1 & t1 & t2 & -> & H1 & H2)|[(e & -> & H)|[-> H]]]; [|by eapply Hm..].
  apply preceded_app; [by eapply Hm|right; eapply Hf; eauto].
Qed.

Lemma guarded_bind {A B'} (m : M A) (f : A → M B') :
  guarded G B m → (∀ a, guarded G B (f a)) → guarded G B (bind m f).
Proof. intros Hm Hf. by apply (guarded_bind_ensures _ _ (λ _, false)). Qed.

Lemma guarded_ret {A} (a : A) : guarded G B (ret a).
Proof. apply guarded_never, emits_ret. Qed.
Lemma guarded_raise {A} e : guarded G B (raise (A:=A) e).
Proof. by apply guarded_never, emits_raise. Qed.

Lemma guarded_catch {A} (m : M A) h :
  guarded G B m → (∀ e m', h e = Some m' → guarded G B m') → guarded G B (catch m h).
Proof.
  intros Hm Hh s t o s' H.
  apply runs_catch in H as [(e & m' & s1 & t1 & t2 & -> & H1 & He & H2)|[H _]]; [|by eapply Hm].
  apply preceded_app; [by eapply Hm|]. right. by eapply Hh.
Qed.

Lemma guarded_when b (m : M unit) : (b = true → guarded G B m) → guarded G B (when b m).
Proof. destruct b; [auto|intros _; apply guarded_ret]. Qed.

Lemma guarded_for_each {A} (l : list A) (f : A → M unit) :
  (∀ x, x ∈ l → guarded G B (f x)) → guarded G B (for_each l f).
Proof.
  induction l as [|x l IH]; intros Hf; simpl; [apply guarded_ret|].
  apply guarded_bind; [|intros _; apply IH; intros y ?]; apply Hf; by constructor.
Qed.

Lemma guarded_finally {A} (m : M A) fin : guarded G B m → guarded G B fin → guarded G B (finally m fin).
Proof.
  intros Hm Hfin s t o s' H.
  apply runs_finally in H as [[-> H]|(o1 & s1 & t1 & t2 & o2 & -> & H1 & _ & H2 & ->)]; [by eapply Hm|].
  apply preceded_app; [by eapply Hm|right; by eapply Hfin].
Qed.
End guarded.

(** ** Results that witness a call *)

Section ensures.
Context (G : event → Prop).

Lemma ensures_raise {A} e (c : A → bool) : ensures G (raise e) c.
Proof. intros s t a s' H. by run_inv1 H. Qed.

(** Either the first result witnesses the call, or what follows does. *)
Lemma ensures_bind_or {A B} (m : M A) (f : A → M B) p c :
  ensures G m p → (∀ a, p a = false → ensures G (f a) c) → ensures G (bind m f) c.
Proof.
  intros Hm Hf s t b s' H Hc.
  apply runs_bind in H as [(a & s1 & t1 & t2 & -> & H1 & H2)|[(e & [=] & _)|[[=] _]]].
  apply Exists_app. destruct (p a) eqn:Hp; [left; by eapply Hm|right; by eapply Hf].
Qed.

Lemma ensures_bind_l {A B} (m : M A) (f : A → M B) c :
  ensures G m (λ _, true) → ensures G (bind m f) c.
Proof. intros Hm. by eapply ensures_bind_or. Qed.

Lemma ensures_bind_r {A B} (m : M A) (f : A → M B) c :
  (∀ a, ensures G (f a) c) → ensures G (bind m f) c.
Proof. intros Hf. by apply (ensures_bind_or _ _ (λ _, false)). Qed.

Lemma ensures_weaken {A} (G' : event → Prop) (m : M A) c :
  ensures G' m c → (∀ ev, G' ev → G ev) → ensures G m c.
Proof. intros Hm HG s t a s' H Hc. eapply Exists_impl; [by eapply Hm|done]. Qed.
End ensures.

(** The parts of the run of a sequence that returned. *)
Ltac runs_ok H :=
  apply runs_bind in H as [(? & ? & ? & ? & -> & ?H & H)|[(? & [=] & _)|[[=] _]]].
