(* ===== verification/Worlds.v ===== *)
(** * Programs against a world with a state

    A world answers the calls of a run and changes with them: [along answers]
    is the path of its states.  [kept] is a judgement about the states a run
    visits: one property at every point, also of a run that is broken off or
    raises, and another at the end of a run that returns. *)

From S2P Require Import Prelude Exceptions Paths Effects Reasoning.

#[export] Set Default Goal Selector "!".

(** ** Paths *)

Section along.
Context {W : Type} (answers : W → event → W → Prop).

(** The world goes along with the calls of a run. *)
Inductive along : W → trace → W → Prop :=
  | along_nil w : along w [] w
  | along_cons w ev w1 t w2 : answers w ev w1 → along w1 t w2 → along w (ev :: t) w2.

Lemma along_cons_inv w ev t w' : along w (ev :: t) w' → ∃ w1, answers w ev w1 ∧ along w1 t w'.
Proof. intros H. inversion H; subst; eauto. Qed.

Lemma along_nil_inv w w' : along w [] w' → w' = w.
Proof. by inversion 1. Qed.

Lemma along_app w t1 t2 w' : along w (t1 ++ t2) w' ↔ ∃ w1, along w t1 w1 ∧ along w1 t2 w'.
Proof.
  split.
  - revert w. induction t1 as [|ev t1 IH]; intros w H; [exists w; by split; [constructor|]|].
    apply along_cons_inv in H as (w1 & Ha & (w2 & H1 & H2)%IH).
    exists w2. split; [by econstructor|done].
  - intros (w1 & H1 & H2). induction H1; [done|]. econstructor; eauto.
Qed.

Lemma along_one w ev w' : along w [ev] w' ↔ answers w ev w'.
Proof.
  split; [|intros H; econstructor; [exact H|constructor]].
  intros (w1 & Ha & ->%along_nil_inv)%along_cons_inv. done.
Qed.

(** What every answer to these calls keeps. *)
Lemma along_keeps (P : W → Prop) (I : event → Prop) w t w' :
  (∀ w ev w', I ev → answers w ev w' → P w → P w') → Forall I t → along w t w' → P w → P w'.
Proof.
  intros HI Ht Hp. induction Hp as [|w ev w1 t w2 Ha Hp IH]; [done|].
  apply Forall_cons in Ht as [Hev Ht]. eauto.
Qed.
End along.

(** A handler is a world: each call has one answer. *)
Definition handled {W} (h : handler W) (w : W) (ev : event) (w' : W) : Prop :=
  h (ev_eff ev) w = (ev_resp ev, w').

Lemma interp_along {W A} (h : handler W) (p : tree A) w :
  along (handled h) w (interp h p w).2 (interp h p w).1.2.
Proof.
  revert w. induction p as [a|e k IH]; intros w; simpl; [constructor|].
  destruct (h e w) as [r w1] eqn:Hh. specialize (IH r w1).
  destruct (interp h (k r) w1) as [[a w2] t]. by econstructor.
Qed.

(** A run in a world, with the states of the world along. *)
Lemma run_in_along {W A} (h : handler W) (m : M A) w :
  ∃ s', runs m [] (trace_in h m w) (outcome_in h m w) s' ∧
    along (handled h) w (trace_in h m w) (run_in h m w).1.2.
Proof.
  destruct (run_in_runs h m w) as [s' H]. exists s'. split; [exact H|].
  unfold trace_in, run_in. pose proof (interp_along h (m []) w) as Hp.
  by destruct (interp h (m []) w) as [[[o s1] w1] t].
Qed.

(** ** A judgement about the states on the way *)

Section kept.
Context {W : Type} (answers : W → event → W → Prop).
Implicit Types (S P R : W → Prop).

(** From a state in [P], every state a run of [m] visits is in [S], and one
    it returns in is in [Q]. *)
Definition kept {A} S P (m : M A) (Q : A → W → Prop) : Prop :=
  ∀ s t o s' w, runs m s t o s' → P w →
    (∀ t1 t2 w1, t = t1 ++ t2 → along answers w t1 w1 → S w1) ∧
    ∀ a w', o = Ok a → along answers w t w' → Q a w'.

Section rules.
Context {A B : Type}.

Lemma kept_ret S P (a : A) (Q : A → W → Prop) : (∀ w, P w → S w ∧ Q a w) → kept S P (ret a) Q.
Proof.
  intros HQ s t o s' w (-> & -> & ->)%runs_ret HP. split.
  - intros t1 t2 w1 [-> ->]%eq_sym%app_nil ->%along_nil_inv. by apply HQ.
  - intros b w' [= <-] ->%along_nil_inv. by apply HQ.
Qed.

Lemma kept_raise S P e (Q : A → W → Prop) : (∀ w, P w → S w) → kept S P (raise e) Q.
Proof.
  intros HS s t o s' w (-> & -> & ->)%runs_raise HP. split; [|done].
  intros t1 t2 w1 [-> ->]%eq_sym%app_nil ->%along_nil_inv. by apply HS.
Qed.

Lemma kept_call S P e (Q : resp e → W → Prop) :
  (∀ w, P w → S w) → (∀ w r w', answers w (Ev e r) w' → P w → S w' ∧ Q r w') → kept S P (call e) Q.
Proof.
  intros HS HQ s t o s' w (r & -> & -> & ->)%runs_call HP. split.
  - intros [|ev [|ev' t1]] t2 w1 Ht Hp; simplify_eq/=.
    + apply along_nil_inv in Hp as ->. by apply HS.
    + apply along_one in Hp. by apply (HQ w r).
  - intros a w' [= <-] Hp%along_one. by apply (HQ w r).
Qed.

Lemma kept_conseq S S' P P' (m : M A) (Q Q' : A → W → Prop) :
  kept S' P' m Q' → (∀ w, S' w → S w) → (∀ w, P w → P' w) → (∀ a w, Q' a w → Q a w) → kept S P m Q.
Proof.
  intros Hm HS HP HQ s t o s' w H Hw. destruct (Hm _ _ _ _ _ H (HP _ Hw)) as [H1 H2].
  split; [intros; by eapply HS, H1|intros; by eapply HQ, H2].
Qed.

(** A program followed by another, however the first one ends. *)
Lemma kept_then S R t1 t2 w :
  (∀ ta tb w1, t1 = ta ++ tb → along answers w ta w1 → S w1) →
  (∀ w1, along answers w t1 w1 → R w1) →
  (∀ w1, R w1 → ∀ ta tb w2, t2 = ta ++ tb → along answers w1 ta w2 → S w2) →
  ∀ ta tb w1, t1 ++ t2 = ta ++ tb → along answers w ta w1 → S w1.
Proof.
  intros H1 HR H2 ta tb w1 Ht Hp.
  apply app_eq_inv in Ht as [(k & -> & ->)|(k & -> & ->)].
  - apply (H1 ta k w1 eq_refl Hp).
  - apply along_app in Hp as (w2 & Hp1 & Hp2). exact (H2 w2 (HR w2 Hp1) k tb w1 eq_refl Hp2).
Qed.

Lemma kept_bind S P (K : A → W → Prop) (m : M A) (f : A → M B) (Q : B → W → Prop) :
  kept S P m K → (∀ a, kept S (K a) (f a) Q) → kept S P (bind m f) Q.
Proof.
  intros Hm Hf s t o s' w H HP.
  apply runs_bind in H as [(a & s1 & t1 & t2 & -> & H1 & H2)|[(e & -> & H)|[-> H]]].
  - destruct (Hm _ _ _ _ _ H1 HP) as [HS1 HR]. split.
    + eapply (kept_then S (K a)); [exact HS1|by intros; apply HR|].
      intros w1 HR1. by apply (Hf a _ _ _ _ _ H2 HR1).
    + intros b w' Ho (w1 & Hp1 & Hp2)%along_app.
      by apply (Hf a _ _ _ _ _ H2 (HR _ _ eq_refl Hp1)).
  - split; [by apply (Hm _ _ _ _ _ H HP)|done].
  - split; [by apply (Hm _ _ _ _ _ H HP)|done].
Qed.
End rules.

Section handlers.
Context {A : Type}.

(** A run ends in one of the states it visits. *)
Lemma kept_end S P (m : M A) (Q : A → W → Prop) s t o s' w w' :
  kept S P m Q → runs m s t o s' → P w → along answers w t w' → S w'.
Proof.
  intros Hm H HP Hp. destruct (Hm _ _ _ _ _ H HP) as [HS _]. apply (HS t [] w'); [|done].
  by rewrite app_nil_r.
Qed.

Lemma kept_catch S P (m : M A) h (Q : A → W → Prop) :
  kept S P m Q → (∀ e m', h e = Some m' → kept S S m' Q) → kept S P (catch m h) Q.
Proof.
  intros Hm Hh s t o s' w H HP.
  apply runs_catch in H as [(e & m' & s1 & t1 & t2 & -> & H1 & He & H2)|[H _]]; [|by apply (Hm _ _ _ _ _ H HP)].
  assert (∀ w1, along answers w t1 w1 → S w1) as HS1 by (intros; by eapply kept_end).
  split.
  - eapply (kept_then S S); [by apply (Hm _ _ _ _ _ H1 HP)|exact HS1|].
    intros w1 HSw. by apply (Hh _ _ He _ _ _ _ _ H2 HSw).
  - intros a w' Ho (w1 & Hp1 & Hp2)%along_app. by apply (Hh _ _ He _ _ _ _ _ H2 (HS1 _ Hp1)).
Qed.

Lemma kept_finally S P (m : M A) fin (Q : A → W → Prop) :
  kept S P m Q → kept S S fin (λ _, S) → (∀ a, kept S (Q a) fin (λ _, Q a)) → kept S P (finally m fin) Q.
Proof.
  intros Hm Hf HQ s t o s' w H HP.
  apply runs_finally in H as [[-> H]|(o1 & s1 & t1 & t2 & o2 & -> & H1 & _ & H2 & ->)].
  { split; [by apply (Hm _ _ _ _ _ H HP)|done]. }
  assert (∀ w1, along answers w t1 w1 → S w1) as HS1 by (intros; by eapply kept_end).
  split.
  - eapply (kept_then S S); [by apply (Hm _ _ _ _ _ H1 HP)|exact HS1|].
    intros w1 HSw. by apply (Hf _ _ _ _ _ H2 HSw).
  - intros a w' Ho (w1 & Hp1 & Hp2)%along_app. destruct o2 as [u| |]; [subst o1|done..].
    destruct (Hm _ _ _ _ _ H1 HP) as [_ HR].
    exact (proj2 (HQ a _ _ _ _ _ H2 (HR _ _ eq_refl Hp1)) u w' eq_refl Hp2).
Qed.

(** Calls each of which keeps the property. *)
Lemma kept_emits S P I (m : M A) :
  emits I (λ _, True) m → (∀ w ev w', I ev → answers w ev w' → P w → P w') → (∀ w, P w → S w) →
  kept S P m (λ _, P).
Proof.
  intros Hm HI HS s t o s' w H HP. destruct (Hm _ _ _ _ H) as [Ht _]. split.
  - intros t1 t2 w1 -> Hp. apply Forall_app in Ht as [Ht _]. by eapply HS, along_keeps.
  - intros a w' _ Hp. by eapply along_keeps.
Qed.
End handlers.
End kept.
