(* ===== verification/Values.v ===== *)
(** * Dictionaries and document values

    A Python [dict] with string keys is an association list in insertion
    order with distinct keys ([wf_dict]); [dict_get] is [d.get(k)] and
    [dict_set] is [d[k] = v], which replaces in place or appends.  [value] is
    what [tomllib] and [json] return. *)

From S2P Require Import Prelude PyStr.

#[export] Set Default Goal Selector "!".

Section dict.
Context {A : Type}.
Implicit Types (d : list (string * A)) (k : string) (v : A).

Fixpoint dict_get k d : option A :=
  match d with
  | [] => None
  | (k', v) :: d => if String.eqb k' k then Some v else dict_get k d
  end.

Fixpoint dict_set k v d : list (string * A) :=
  match d with
  | [] => [(k, v)]
  | (k', v') :: d => if String.eqb k' k then (k', v) :: d else (k', v') :: dict_set k v d
  end.

Definition dict_keys d : list string := map fst d.
Definition dict_in k d : bool := match dict_get k d with Some _ => true | None => false end.

Lemma dict_get_set k k' v d :
  dict_get k (dict_set k' v d) = if String.eqb k' k then Some v else dict_get k d.
Proof.
  induction d as [|[k0 v0] d IH]; simpl; [done|].
  destruct (String.eqb_spec k0 k') as [->|Hne]; simpl; destruct (String.eqb_spec k' k) as [->|?].
  - done.
  - done.
  - by destruct (String.eqb_spec k0 k).
  - by rewrite IH.
Qed.

Lemma dict_get_set_eq k v d : dict_get k (dict_set k v d) = Some v.
Proof. by rewrite dict_get_set, String.eqb_refl. Qed.

Lemma dict_get_set_ne k k' v d : k' ≠ k → dict_get k (dict_set k' v d) = dict_get k d.
Proof. intros. rewrite dict_get_set. by destruct (String.eqb_spec k' k). Qed.

Lemma dict_get_elem k v d : dict_get k d = Some v → (k, v) ∈ d.
Proof.
  induction d as [|[k0 v0] d IH]; simpl; [done|].
  destruct (String.eqb_spec k0 k) as [->|?]; [intros [= ->]; left|right; auto].
Qed.

Lemma dict_get_None k d : dict_get k d = None ↔ k ∉ dict_keys d.
Proof.
  induction d as [|[k0 v0] d IH]; simpl; [split; [intros _; apply not_elem_of_nil|done]|].
  rewrite not_elem_of_cons, <- IH.
  destruct (String.eqb_spec k0 k) as [->|?]; naive_solver.
Qed.

Lemma dict_keys_set k v d :
  dict_keys (dict_set k v d) = if dict_in k d then dict_keys d else dict_keys d ++ [k].
Proof.
  unfold dict_in. induction d as [|[k0 v0] d IH]; simpl; [done|].
  destruct (String.eqb_spec k0 k) as [->|?]; simpl; [done|].
  rewrite IH. by destruct (dict_get k d).
Qed.

Lemma NoDup_dict_set k v d : NoDup (dict_keys d) → NoDup (dict_keys (dict_set k v d)).
Proof.
  intros Hd. rewrite dict_keys_set. unfold dict_in. destruct (dict_get k d) eqn:Hk; [done|].
  apply dict_get_None in Hk. apply NoDup_app. split_and!; [done| |apply NoDup_singleton].
  by intros x Hx ->%list_elem_of_singleton.
Qed.

Lemma dict_set_same k v d : dict_get k d = Some v → dict_set k v d = d.
Proof.
  induction d as [|[k0 v0] d IH]; simpl; [done|].
  destruct (String.eqb_spec k0 k) as [->|?]; [by intros [= ->]|intros; by rewrite IH].
Qed.
End dict.

Inductive value : Type :=
  | VStr (s : string)
  | VInt (z : Z)
  | VBool (b : bool)
  | VFloat (repr : string)
  | VDatetime (repr : string)
  | VNull
  | VList (l : list value)
  | VDict (d : list (string * value)).

Abbreviation dict := (list (string * value)).

(** Induction through the nested lists. *)
Section value_rect.
Context (P : value → Prop).
Context (Hstr : ∀ s, P (VStr s)) (Hint : ∀ z, P (VInt z)) (Hbool : ∀ b, P (VBool b)).
Context (Hfloat : ∀ s, P (VFloat s)) (Hdate : ∀ s, P (VDatetime s)) (Hnull : P VNull).
Context (Hlist : ∀ l, Forall P l → P (VList l)).
Context (Hdict : ∀ d, Forall (λ kv, P kv.2) d → P (VDict d)).

Fixpoint value_nested_ind (v : value) : P v :=
  match v with
  | VStr s => Hstr s
  | VInt z => Hint z
  | VBool b => Hbool b
  | VFloat s => Hfloat s
  | VDatetime s => Hdate s
  | VNull => Hnull
  | VList l => Hlist l
      ((fix go l : Forall P l :=
          match l with
          | [] => Forall_nil_2 _
          | x :: l => Forall_cons_2 _ _ _ (value_nested_ind x) (go l)
          end) l)
  | VDict d => Hdict d
      ((fix go d : Forall (λ kv, P kv.2) d :=
          match d with
          | [] => Forall_nil_2 _
          | kv :: d => Forall_cons_2 _ _ _ (value_nested_ind kv.2) (go d)
          end) d)
  end.
End value_rect.

(** Distinct keys, at every depth: what makes an association list a [dict]. *)
Fixpoint wf_value (v : value) : Prop :=
  match v with
  | VList l => (fix go l := match l with [] => True | x :: l => wf_value x ∧ go l end) l
  | VDict d =>
      NoDup (dict_keys d) ∧
      (fix go (d : dict) := match d with [] => True | kv :: d => wf_value kv.2 ∧ go d end) d
  | _ => True
  end.

Definition wf_dict (d : dict) : Prop := wf_value (VDict d).

Lemma wf_dict_spec d : wf_dict d ↔ NoDup (dict_keys d) ∧ Forall (λ kv, wf_value kv.2) d.
Proof.
  unfold wf_dict. simpl. apply and_iff_compat_l.
  induction d as [|kv d IH]; [split; [constructor|done]|]. by rewrite Forall_cons, IH.
Qed.

Lemma wf_dict_get d k v : wf_dict d → dict_get k d = Some v → wf_value v.
Proof.
  intros [_ Hd]%wf_dict_spec Hk%dict_get_elem. by rewrite Forall_forall in Hd; apply Hd in Hk.
Qed.

Lemma wf_dict_set d k v : wf_dict d → wf_value v → wf_dict (dict_set k v d).
Proof.
  rewrite !wf_dict_spec. intros [Hn Hd] Hv. split; [by apply NoDup_dict_set|]. clear Hn.
  induction Hd as [|[k0 v0] d Hx Hd IH]; simpl; [by repeat constructor|].
  destruct (String.eqb k0 k); by constructor.
Qed.
