(* ===== verification/Regex.v ===== *)
(** * Regular expressions

    The patterns of the source are anchored sequences of literals and of
    repeated character classes with captures.  [rx A] is such a pattern with
    captures of type [A], as the list of its matches at a position in the order
    a backtracking matcher tries them, each with the text left over;
    [re_match] takes the first, and [re_scan] is the left-to-right search of
    [findall] and [finditer].  The [elem_of_] lemmas give the language of each
    operator. *)

From S2P Require Import Prelude PyStr.

#[export] Set Default Goal Selector "!".

Definition rx (A : Type) : Type := string → list (A * string).

(** ** Patterns *)

Definition rx_ret {A} (a : A) : rx A := λ s, [(a, s)].

Definition rx_bind {A B} (p : rx A) (f : A → rx B) : rx B := λ s,
  flat_map (λ '(a, r), f a r) (p s).

(** A literal text. *)
Fixpoint rx_lit (w : string) : rx unit := λ s,
  match w with
  | "" => [(tt, s)]
  | String c w =>
      match s with
      | String c' s => if Ascii.eqb c c' then rx_lit w s else []
      | "" => []
      end
  end.

(** One character of a class. *)
Definition rx_char (p : ascii → bool) : rx string := λ s,
  match s with
  | String c r => if p c then [(String c "", r)] else []
  | "" => []
  end.

(** [p*], greedy. *)
Fixpoint rx_many (p : ascii → bool) (s : string) : list (string * string) :=
  match s with
  | "" => [("", "")]
  | String c r =>
      if p c then map (λ '(w, r'), (String c w, r')) (rx_many p r) ++ [("", s)]
      else [("", s)]
  end.

(** [p{0,n}], greedy. *)
Fixpoint rx_upto (p : ascii → bool) (n : nat) (s : string) : list (string * string) :=
  match n, s with
  | S n, String c r =>
      if p c then map (λ '(w, r'), (String c w, r')) (rx_upto p n r) ++ [("", s)]
      else [("", s)]
  | _, _ => [("", s)]
  end.

(** [p+] and [p{1,n}]. *)
Definition rx_some (p : ascii → bool) : rx string :=
  rx_bind (rx_char p) (λ c, rx_bind (rx_many p) (λ w, rx_ret (c +:+ w))).
Definition rx_some_upto (p : ascii → bool) (n : nat) : rx string :=
  rx_bind (rx_char p) (λ c, rx_bind (rx_upto p (n - 1)) (λ w, rx_ret (c +:+ w))).

(** [p?]: with it first, then without. *)
Definition rx_opt {A} (p : rx A) : rx (option A) := λ s,
  map (λ '(a, r), (Some a, r)) (p s) ++ [(None, s)].

Definition rx_alt {A} (p q : rx A) : rx A := λ s, p s ++ q s.

(** [$]: at the end, or before a final newline. *)
Definition rx_end : rx unit := λ s,
  if String.eqb s "" || String.eqb s nl then [(tt, s)] else [].

(** [$] in MULTILINE mode: at the end, or before a newline. *)
Definition rx_eol : rx unit := λ s,
  match s with
  | "" => [(tt, s)]
  | String c _ => if Ascii.eqb c "010" then [(tt, s)] else []
  end.

Declare Scope rx_scope.
Delimit Scope rx_scope with rx.
Notation "x ⇐ p ⨾ q" := (rx_bind p (λ x, q))
  (at level 100, p at next level, right associativity) : rx_scope.
Notation "p ⨾ q" := (rx_bind p (λ _, q))
  (at level 100, right associativity) : rx_scope.

(** The class of [.]. *)
Definition not_newline (c : ascii) : bool := negb (Ascii.eqb c "010").

(** ** Matching *)

(** [re.match(p, s)]: the captures of the first match at the start. *)
Definition re_match {A} (p : rx A) (s : string) : option A := fst <$> head (p s).

(** The matches of [p] from left to right, none overlapping.  [bol] says
    whether the position is the start of a line, [skip] how much of the last
    match is still ahead; [anchored] is a leading [^] in MULTILINE mode.  No
    pattern of the source matches the empty text. *)
Fixpoint re_scan {A} (p : rx A) (anchored bol : bool) (skip : nat) (s : string) : list A :=
  match s with
  | "" => []
  | String c s' =>
      match skip with
      | S skip => re_scan p anchored (Ascii.eqb c "010") skip s'
      | O =>
          match (if anchored && negb bol then None else head (p s)) with
          | Some (a, r) =>
              a :: re_scan p anchored (Ascii.eqb c "010")
                     (String.length s' - String.length r) s'
          | None => re_scan p anchored (Ascii.eqb c "010") 0 s'
          end
      end
  end.

(** [re.findall(r"^p", s, re.MULTILINE)], and [re.finditer(p, s)]. *)
Definition re_findall_lines {A} (p : rx A) (s : string) : list A := re_scan p true true 0 s.
Definition re_finditer {A} (p : rx A) (s : string) : list A := re_scan p false true 0 s.

(** ** Facts *)

Section facts.
Context {A B : Type}.

Lemma elem_of_rx_bind (p : rx A) (f : A → rx B) s b r :
  (b, r) ∈ rx_bind p f s ↔ ∃ a r', (a, r') ∈ p s ∧ (b, r) ∈ f a r'.
Proof.
  unfold rx_bind. rewrite list_elem_of_In, in_flat_map. split.
  - intros ([a r'] & H1 & H2). exists a, r'. by rewrite !list_elem_of_In.
  - intros (a & r' & H1 & H2). exists (a, r'). by rewrite <- !list_elem_of_In.
Qed.

Lemma elem_of_rx_ret (a a' : A) s r : (a', r) ∈ rx_ret a s ↔ a' = a ∧ r = s.
Proof. unfold rx_ret. rewrite list_elem_of_singleton. naive_solver. Qed.
End facts.

Lemma elem_of_rx_lit w s u r : (u, r) ∈ rx_lit w s ↔ s = w +:+ r.
Proof.
  revert s. induction w as [|c w IH]; intros s; simpl.
  - rewrite list_elem_of_singleton. destruct u. change ("" +:+ r) with r. naive_solver.
  - destruct s as [|c' s]; [split; [by intros ?%elem_of_nil|done]|].
    destruct (Ascii.eqb_spec c c') as [->|Hne].
    + rewrite IH, str_app_cons. naive_solver.
    + rewrite elem_of_nil, str_app_cons. naive_solver.
Qed.

Lemma elem_of_rx_char p s w r :
  (w, r) ∈ rx_char p s ↔ ∃ c, w = String c "" ∧ s = String c r ∧ p c = true.
Proof.
  unfold rx_char. destruct s as [|c s]; [rewrite elem_of_nil; naive_solver|].
  destruct (p c) eqn:Hc; rewrite ?list_elem_of_singleton, ?elem_of_nil.
  - split; [intros [= -> ->]; eauto|by intros (? & -> & [= -> ->] & _)].
  - split; [done|intros (? & _ & [= -> ->] & ?); congruence].
Qed.

Lemma elem_of_rx_many p s w r :
  (w, r) ∈ rx_many p s ↔ s = w +:+ r ∧ str_forall p w = true.
Proof.
  revert w. induction s as [|c s IH]; intros w; simpl.
  - rewrite list_elem_of_singleton. destruct w; simpl; [change ("" +:+ r) with r|]; naive_solver.
  - destruct (p c) eqn:Hc; rewrite ?elem_of_app, !list_elem_of_singleton; split.
    + intros [([w' r'] & [= -> ->] & [-> Hw]%IH)%list_elem_of_fmap|[= -> ->]]; [|done].
      rewrite str_app_cons. simpl. by rewrite Hc.
    + intros [Hs Hw]. destruct w as [|c' w]; [right; by rewrite Hs|left].
      rewrite str_app_cons in Hs. injection Hs as <- Hs. simpl in Hw. rewrite Hc in Hw.
      apply list_elem_of_fmap. exists (w, r). split; [done|by apply IH].
    + by intros [= -> ->].
    + intros [Hs Hw]. destruct w as [|c' w]; [by rewrite Hs|].
      rewrite str_app_cons in Hs. injection Hs as <- Hs. simpl in Hw. by rewrite Hc in Hw.
Qed.

Lemma elem_of_rx_upto p n s w r :
  (w, r) ∈ rx_upto p n s ↔ s = w +:+ r ∧ str_forall p w = true ∧ String.length w ≤ n.
Proof.
  revert n w. induction s as [|c s IH]; intros n w.
  { destruct n; simpl; rewrite list_elem_of_singleton;
      destruct w; simpl; try (change ("" +:+ r) with r); naive_solver lia. }
  destruct n as [|n]; simpl.
  { rewrite list_elem_of_singleton. destruct w; simpl; [change ("" +:+ r) with r|];
      naive_solver lia. }
  destruct (p c) eqn:Hc; rewrite ?elem_of_app, !list_elem_of_singleton; split.
  - intros [([w' r'] & [= -> ->] & (-> & Hw & Hl)%IH)%list_elem_of_fmap|[= -> ->]].
    + rewrite str_app_cons. simpl. rewrite Hc. split_and!; [done..|lia].
    + split_and!; [done..|simpl; lia].
  - intros (Hs & Hw & Hl). destruct w as [|c' w]; [right; by rewrite Hs|left].
    rewrite str_app_cons in Hs. injection Hs as <- Hs. simpl in Hw, Hl. rewrite Hc in Hw.
    apply list_elem_of_fmap. exists (w, r). split; [done|apply IH; split_and!; [done..|lia]].
  - intros [= -> ->]. split_and!; [done..|simpl; lia].
  - intros (Hs & Hw & Hl). destruct w as [|c' w]; [by rewrite Hs|].
    rewrite str_app_cons in Hs. injection Hs as <- Hs. simpl in Hw. by rewrite Hc in Hw.
Qed.

Lemma elem_of_rx_some p s w r :
  (w, r) ∈ rx_some p s ↔ s = w +:+ r ∧ str_forall p w = true ∧ w ≠ "".
Proof.
  unfold rx_some. rewrite elem_of_rx_bind. split.
  - intros (a & r' & (c & -> & -> & Hc)%elem_of_rx_char & H).
    apply elem_of_rx_bind in H as (b & r2 & [-> Hb]%elem_of_rx_many & [-> ->]%elem_of_rx_ret).
    split_and!; [done| |done]. change (p c && str_forall p b = true). by rewrite Hc.
  - intros (-> & Hw & Hne). destruct w as [|c w]; [done|]. simpl in Hw.
    apply andb_prop in Hw as [Hc Hw].
    exists (String c ""), (w +:+ r). rewrite elem_of_rx_char. split; [by exists c|].
    apply elem_of_rx_bind. exists w, r. by rewrite elem_of_rx_many, elem_of_rx_ret.
Qed.

Lemma elem_of_rx_some_upto p n s w r :
  1 ≤ n →
  (w, r) ∈ rx_some_upto p n s ↔
  s = w +:+ r ∧ str_forall p w = true ∧ 1 ≤ String.length w ≤ n.
Proof.
  intros Hn. unfold rx_some_upto. rewrite elem_of_rx_bind. split.
  - intros (a & r' & (c & -> & -> & Hc)%elem_of_rx_char & H).
    apply elem_of_rx_bind in H as (b & r2 & (-> & Hb & Hl)%elem_of_rx_upto & [-> ->]%elem_of_rx_ret).
    split_and!; [done|change (p c && str_forall p b = true); by rewrite Hc| |];
      rewrite str_length_app; simpl; lia.
  - intros (-> & Hw & Hl & Hu). destruct w as [|c w]; [simpl in Hl; lia|]. simpl in Hw, Hu.
    apply andb_prop in Hw as [Hc Hw].
    exists (String c ""), (w +:+ r). rewrite elem_of_rx_char. split; [by exists c|].
    apply elem_of_rx_bind. exists w, r. rewrite elem_of_rx_upto, elem_of_rx_ret.
    split_and!; [done..|lia|done|done].
Qed.

Lemma elem_of_rx_end s u r : (u, r) ∈ rx_end s ↔ r = s ∧ (s = "" ∨ s = nl).
Proof.
  unfold rx_end. destruct u. destruct (String.eqb_spec s "") as [->|]; simpl;
    [rewrite list_elem_of_singleton; naive_solver|].
  destruct (String.eqb_spec s nl) as [->|]; rewrite ?list_elem_of_singleton, ?elem_of_nil;
    naive_solver.
Qed.

(** A suffix of a text that starts at a line boundary. *)
Definition line_end (s : string) : Prop := s = "" ∨ ∃ r, s = String "010" r.

Lemma elem_of_rx_eol s u r : (u, r) ∈ rx_eol s ↔ r = s ∧ line_end s.
Proof.
  unfold rx_eol, line_end. destruct u. destruct s as [|c s]; simpl.
  - rewrite list_elem_of_singleton. naive_solver.
  - destruct (Ascii.eqb_spec c "010") as [->|]; rewrite ?list_elem_of_singleton, ?elem_of_nil;
      naive_solver.
Qed.

Lemma re_match_is_Some {A} (p : rx A) s : is_Some (re_match p s) ↔ ∃ x, x ∈ p s.
Proof.
  unfold re_match. destruct (p s) as [|x l]; simpl.
  - split; [by intros [? ?]|by intros [? ?%elem_of_nil]].
  - split; [by exists x; left|eauto].
Qed.

Lemma re_match_Some {A} (p : rx A) s a : re_match p s = Some a → ∃ r, (a, r) ∈ p s.
Proof.
  unfold re_match. destruct (p s) as [|[a' r] l]; simpl; [done|]. intros [= ->].
  exists r. left.
Qed.

(** A prefix of a text that ends at the start of a line. *)
Definition line_start (s : string) : Prop := s = "" ∨ ∃ r, s = r +:+ nl.

(** What the search finds is a match at a position of the text, at the start
    of a line if the pattern is anchored. *)
Lemma re_scan_sound {A} (p : rx A) anchored bol skip s a pre :
  (bol = true → line_start pre) → a ∈ re_scan p anchored bol skip s →
  ∃ l m r, pre +:+ s = l +:+ m ∧ (a, r) ∈ p m ∧ (anchored = true → line_start l).
Proof.
  revert pre bol skip. induction s as [|c s IH]; intros pre bol skip Hpre Ha; simpl in Ha.
  { by apply elem_of_nil in Ha. }
  assert (∀ k, a ∈ re_scan p anchored (Ascii.eqb c "010") k s →
    ∃ l m r, pre +:+ String c s = l +:+ m ∧ (a, r) ∈ p m ∧ (anchored = true → line_start l))
    as Hnext.
  { intros k Hk. apply (IH (pre +:+ String c "")) in Hk as (l & m & r & He & Hm & Hl).
    - exists l, m, r. by rewrite <- He, str_app_assoc.
    - intros ->%Ascii.eqb_eq. right. by exists pre. }
  destruct skip as [|skip]; [|eauto].
  destruct (anchored && negb bol) eqn:Hanch; [eauto|].
  destruct (p (String c s)) as [|[a' r] rest] eqn:Hp; simpl in Ha; [eauto|].
  apply elem_of_cons in Ha as [->|Ha]; [|eauto].
  exists pre, (String c s), r. rewrite Hp. split_and!; [done|left|].
  intros ->. apply Hpre. by destruct bol.
Qed.

Lemma re_findall_lines_sound {A} (p : rx A) s a :
  a ∈ re_findall_lines p s →
  ∃ l m r, s = l +:+ m ∧ (a, r) ∈ p m ∧ line_start l.
Proof.
  intros (l & m & r & He & Hm & Hl)%(re_scan_sound p _ _ _ _ _ ""); [|by left].
  exists l, m, r. eauto.
Qed.
