(* ===== verification/Bytes.v ===== *)
(** * Bytes, UTF-8 and base64

    [utf8_encode] and [utf8_decode] are the codec on the code points below
    256.  [b64encode] is [base64.b64encode]; [b64decode] is
    [base64.b64decode(_, validate=True)], a transcription of the strict mode
    of CPython 3.11's [binascii.a2b_base64], a loop over the characters with
    the position in the current quad, the bits left over and whether padding
    has begun. *)

From S2P Require Import Prelude PyStr Effects.
From Stdlib Require Import Zify ZifyN Lia Wf_nat Strings.Byte.

#[export] Set Default Goal Selector "!".

#[export] Instance byte_eq_decision : EqDecision Byte.byte := Byte.byte_eq_dec.

Definition byte_N (b : Byte.byte) : N := Byte.to_N b.
Definition N_byte (n : N) : Byte.byte := byte_of_ascii (ascii_of_N n).

(** ** UTF-8 *)

Definition utf8_encode_char (c : ascii) : bytes :=
  let n := N_of_ascii c in
  if (n <? 128)%N then [byte_of_ascii c]
  else [N_byte (192 + n / 64); N_byte (128 + n mod 64)].

Fixpoint utf8_encode (s : string) : bytes :=
  match s with "" => [] | String c s => utf8_encode_char c ++ utf8_encode s end.

(** [None] is [UnicodeDecodeError], or a code point of 256 or more. *)
Fixpoint utf8_decode (b : bytes) : option string :=
  match b with
  | [] => Some ""
  | x :: b1 =>
      let n := byte_N x in
      if (n <? 128)%N then String (ascii_of_byte x) <$> utf8_decode b1
      else if (n =? 194)%N || (n =? 195)%N then
        match b1 with
        | y :: b2 =>
            let m := byte_N y in
            if (128 <=? m)%N && (m <? 192)%N
            then String (ascii_of_N ((n - 192) * 64 + (m - 128))) <$> utf8_decode b2
            else None
        | [] => None
        end
      else None
  end.

(** [decode("utf-8", errors="replace")].  A question mark stands for the
    replacement character, and one for each byte of a character of 256 or
    more, neither of which is among the characters modelled. *)
Fixpoint utf8_decode_replace (b : bytes) : string :=
  match b with
  | [] => ""
  | x :: b1 =>
      let n := byte_N x in
      if (n <? 128)%N then String (ascii_of_byte x) (utf8_decode_replace b1)
      else
        let skip := String "?" (utf8_decode_replace b1) in
        if (n =? 194)%N || (n =? 195)%N then
          match b1 with
          | y :: b2 =>
              let m := byte_N y in
              if (128 <=? m)%N && (m <? 192)%N
              then String (ascii_of_N ((n - 192) * 64 + (m - 128))) (utf8_decode_replace b2)
              else skip
          | [] => skip
          end
        else skip
  end.

(** [encode("ascii")] and [decode("ascii")]. *)
Definition is_ascii (c : ascii) : bool := (N_of_ascii c <? 128)%N.
Definition ascii_encode (s : string) : option bytes :=
  if str_forall is_ascii s then Some (utf8_encode s) else None.
Definition ascii_decode (b : bytes) : option string :=
  if forallb (λ x, byte_N x <? 128)%N b then utf8_decode b else None.

(** [bytes.hex()]. *)
Fixpoint hex_of_bytes (b : bytes) : string :=
  match b with
  | [] => ""
  | x :: b => hex_byte (ascii_of_byte x) +:+ hex_of_bytes b
  end.

(** ** base64 *)

Definition b64_char (n : N) : ascii :=
  if (n <? 26)%N then ascii_of_N (65 + n)
  else if (n <? 52)%N then ascii_of_N (71 + n)
  else if (n <? 62)%N then ascii_of_N (n - 4)
  else if (n =? 62)%N then "+" else "/".

Definition b64_value (c : ascii) : option N :=
  let n := N_of_ascii c in
  if is_upper_az c then Some (n - 65)%N
  else if is_lower_az c then Some (n - 71)%N
  else if is_digit c then Some (n + 4)%N
  else if Ascii.eqb c "+" then Some 62%N
  else if Ascii.eqb c "/" then Some 63%N
  else None.

Fixpoint b64encode (b : bytes) : string :=
  match b with
  | [] => ""
  | [x] =>
      let n := (byte_N x * 65536)%N in
      String (b64_char (n / 262144)) (String (b64_char (n / 4096 mod 64)) "==")
  | [x; y] =>
      let n := (byte_N x * 65536 + byte_N y * 256)%N in
      String (b64_char (n / 262144)) (String (b64_char (n / 4096 mod 64))
        (String (b64_char (n / 64 mod 64)) "="))
  | x :: y :: z :: b =>
      let n := (byte_N x * 65536 + byte_N y * 256 + byte_N z)%N in
      String (b64_char (n / 262144)) (String (b64_char (n / 4096 mod 64))
        (String (b64_char (n / 64 mod 64)) (String (b64_char (n mod 64)) (b64encode b))))
  end.

(** [quad] is the position in the current group of four, [left] the bits of
    its last character not yet emitted, [pads] the padding seen since the last
    data character and [padding] whether any was seen at all. *)
Fixpoint a2b_strict (quad : nat) (left : N) (pads : nat) (padding : bool) (s : string)
    : option bytes :=
  match s with
  | "" => match quad with O => Some [] | _ => None end
  | String c s' =>
      if Ascii.eqb c "=" then
        if (2 <=? quad) && (4 <=? quad + S pads) then
          if String.eqb s' "" then Some [] else None
        else a2b_strict quad left (if 2 <=? quad then S pads else pads) true s'
      else
        match b64_value c with
        | None => None
        | Some v =>
            if padding then None else
            match quad with
            | O => a2b_strict 1 v 0 padding s'
            | 1 => (N_byte (left * 4 + v / 16)%N ::.) <$> a2b_strict 2 (v mod 16)%N 0 padding s'
            | 2 => (N_byte (left * 16 + v / 4)%N ::.) <$> a2b_strict 3 (v mod 4)%N 0 padding s'
            | _ => (N_byte (left * 64 + v)%N ::.) <$> a2b_strict 0 0 0 padding s'
            end
        end
  end.

Definition b64decode (s : string) : option bytes :=
  if py_startswith s "=" then None else a2b_strict 0 0 0 false s.

(** ** UTF-8 facts *)

Lemma utf8_encode_char_decode c b :
  utf8_decode (utf8_encode_char c ++ b) = String c <$> utf8_decode b.
Proof. by destruct c as [[] [] [] [] [] [] [] []]. Qed.

Lemma utf8_decode_encode s : utf8_decode (utf8_encode s) = Some s.
Proof.
  induction s as [|c s IH]; [done|]. cbn [utf8_encode].
  by rewrite utf8_encode_char_decode, IH.
Qed.

Lemma utf8_decode_replace_decode b s : utf8_decode b = Some s → utf8_decode_replace b = s.
Proof.
  revert s. induction b as [b IH] using (induction_ltof1 _ length); unfold ltof in IH.
  intros s. destruct b as [|x b1]; simpl; [by intros [= <-]|].
  destruct (byte_N x <? 128)%N.
  { intros (s1 & Hs & ->)%fmap_Some. f_equal. apply IH; [simpl; lia|done]. }
  destruct (_ || _); [|done]. destruct b1 as [|y b2]; [done|]. destruct (_ && _); [|done].
  intros (s1 & Hs & ->)%fmap_Some. f_equal. apply IH; [simpl; lia|done].
Qed.

Lemma ascii_encode_decode s b : ascii_encode s = Some b → ascii_decode b = Some s.
Proof.
  unfold ascii_encode, ascii_decode. destruct (str_forall is_ascii s) eqn:Hs; [|done].
  intros [= <-]. rewrite utf8_decode_encode.
  assert (forallb (λ x, byte_N x <? 128)%N (utf8_encode s) = true) as ->; [|done].
  induction s as [|c s IH]; [done|]. cbn [str_forall] in Hs.
  apply andb_prop in Hs as [Hc Hs]. cbn [utf8_encode]. rewrite forallb_app, IH by done.
  by destruct c as [[] [] [] [] [] [] [] []].
Qed.

(** ** base64 facts *)

Lemma N_byte_N x : N_byte (byte_N x) = x.
Proof. by destruct x. Qed.

Lemma byte_N_lt x : (byte_N x < 256)%N.
Proof. apply Byte.to_N_bounded || by destruct x. Qed.

Definition b64_char_good (n : N) : bool :=
  bool_decide (b64_value (b64_char n) = Some n) && negb (Ascii.eqb (b64_char n) "=").

Lemma b64_char_all : forallb b64_char_good (N.of_nat <$> seq 0 64) = true.
Proof. by vm_compute. Qed.

Lemma b64_char_ok n :
  (n < 64)%N → b64_value (b64_char n) = Some n ∧ Ascii.eqb (b64_char n) "=" = false.
Proof.
  intros Hn. pose proof b64_char_all as H. rewrite forallb_forall in H.
  assert (b64_char_good n = true) as Hg.
  { apply H, list_elem_of_In, list_elem_of_fmap. exists (N.to_nat n).
    rewrite elem_of_seq. lia. }
  apply andb_prop in Hg as [H1%bool_decide_eq_true H2%negb_true_iff]. done.
Qed.

Lemma a2b_data quad left pads n s :
  (n < 64)%N →
  a2b_strict quad left pads false (String (b64_char n) s) =
  match quad with
  | O => a2b_strict 1 n 0 false s
  | 1 => (N_byte (left * 4 + n / 16)%N ::.) <$> a2b_strict 2 (n mod 16)%N 0 false s
  | 2 => (N_byte (left * 16 + n / 4)%N ::.) <$> a2b_strict 3 (n mod 4)%N 0 false s
  | _ => (N_byte (left * 64 + n)%N ::.) <$> a2b_strict 0 0%N 0 false s
  end.
Proof. intros [Hv He]%b64_char_ok. cbn [a2b_strict]. by rewrite He, Hv. Qed.

Ltac Zify.zify_post_hook ::= Z.div_mod_to_equations.

Ltac b64_quads :=
  repeat (rewrite a2b_data by (pose proof byte_N_lt; lia));
  cbn [a2b_strict fmap option_fmap option_map].

Lemma a2b_b64encode b : a2b_strict 0 0%N 0 false (b64encode b) = Some b.
Proof.
  induction b as [b IH] using (induction_ltof1 _ (@length _)); unfold ltof in IH.
  destruct b as [|x [|y [|z b]]]; [done|..]; cbn [b64encode]; cbv zeta;
    pose proof (byte_N_lt x); try pose proof (byte_N_lt y); try pose proof (byte_N_lt z).
  - repeat (rewrite a2b_data by lia; cbv iota). cbn -[N.mul N.add N.div N.modulo N_byte].
    do 2 f_equal. rewrite <- (N_byte_N x) at 3. f_equal. lia.
  - repeat (rewrite a2b_data by lia; cbv iota). cbn -[N.mul N.add N.div N.modulo N_byte].
    rewrite <- (N_byte_N x) at 5. rewrite <- (N_byte_N y) at 5. repeat f_equal; lia.
  - repeat (rewrite a2b_data by lia; cbv iota). rewrite IH by (simpl; lia).
    cbn -[N.mul N.add N.div N.modulo N_byte].
    rewrite <- (N_byte_N x) at 7. rewrite <- (N_byte_N y) at 7.
    rewrite <- (N_byte_N z) at 7. repeat f_equal; lia.
Qed.

Lemma b64encode_not_padding b : py_startswith (b64encode b) "=" = false.
Proof.
  assert (∀ n s, (n < 64)%N → py_startswith (String (b64_char n) s) "=" = false) as H.
  { intros n s [_ Hn]%b64_char_ok. unfold py_startswith.
    by rewrite prefix_cons, Ascii.eqb_sym, Hn. }
  destruct b as [|x [|y [|z b]]]; [done|..]; cbn [b64encode]; apply H;
    pose proof (byte_N_lt x); try pose proof (byte_N_lt y); try pose proof (byte_N_lt z); lia.
Qed.

Lemma b64decode_encode b : b64decode (b64encode b) = Some b.
Proof. unfold b64decode. by rewrite b64encode_not_padding, a2b_b64encode. Qed.

Ltac Zify.zify_post_hook ::= idtac.
