(* ===== verification/Sha256.v ===== *)
(** * SHA-256

    [hashlib.sha256], executable: the padding, the message schedule and the
    compression of FIPS 180-4 on 32-bit words held in [N], and the digest as
    bytes and as hexadecimal text. *)

From S2P Require Import Prelude PyStr Effects Bytes.

#[export] Set Default Goal Selector "!".

(** ** Words *)

Definition w32 (n : N) : N := N.land n 4294967295.
Definition add32 (a b : N) : N := w32 (a + b).
Definition rotr (k x : N) : N := N.lor (N.shiftr x k) (w32 (N.shiftl x (32 - k))).
Definition not32 (x : N) : N := N.lxor x 4294967295.
Definition xor3 (a b c : N) : N := N.lxor a (N.lxor b c).

Definition big_sigma0 (x : N) : N := xor3 (rotr 2 x) (rotr 13 x) (rotr 22 x).
Definition big_sigma1 (x : N) : N := xor3 (rotr 6 x) (rotr 11 x) (rotr 25 x).
Definition small_sigma0 (x : N) : N := xor3 (rotr 7 x) (rotr 18 x) (N.shiftr x 3).
Definition small_sigma1 (x : N) : N := xor3 (rotr 17 x) (rotr 19 x) (N.shiftr x 10).
Definition choose (x y z : N) : N := N.lxor (N.land x y) (N.land (not32 x) z).
Definition majority (x y z : N) : N := xor3 (N.land x y) (N.land x z) (N.land y z).

Definition round_constants : list N :=
  [1116352408; 1899447441; 3049323471; 3921009573; 961987163; 1508970993;
   2453635748; 2870763221; 3624381080; 310598401; 607225278; 1426881987;
   1925078388; 2162078206; 2614888103; 3248222580; 3835390401; 4022224774;
   264347078; 604807628; 770255983; 1249150122; 1555081692; 1996064986;
   2554220882; 2821834349; 2952996808; 3210313671; 3336571891; 3584528711;
   113926993; 338241895; 666307205; 773529912; 1294757372; 1396182291;
   1695183700; 1986661051; 2177026350; 2456956037; 2730485921; 2820302411;
   3259730800; 3345764771; 3516065817; 3600352804; 4094571909; 275423344;
   430227734; 506948616; 659060556; 883997877; 958139571; 1322822218;
   1537002063; 1747873779; 1955562222; 2024104815; 2227730452; 2361852424;
   2428436474; 2756734187; 3204031479; 3329325298]%N.

(** The eight working words. *)
Record hash_state : Type := HashState {
  ha : N; hb : N; hc : N; hd : N; he : N; hf : N; hg : N; hh : N }.

Definition initial_state : hash_state :=
  HashState 1779033703 3144134277 1013904242 2773480762
    1359893119 2600822924 528734635 1541459225.

Definition add_state (x y : hash_state) : hash_state :=
  HashState (add32 (ha x) (ha y)) (add32 (hb x) (hb y)) (add32 (hc x) (hc y)) (add32 (hd x) (hd y))
    (add32 (he x) (he y)) (add32 (hf x) (hf y)) (add32 (hg x) (hg y)) (add32 (hh x) (hh y)).

(** ** Compression *)

(** The schedule, latest word first: 16 words of the block and 48 more. *)
Definition next_word (w : list N) : N :=
  add32 (add32 (small_sigma1 (nth 1 w 0%N)) (nth 6 w 0%N))
    (add32 (small_sigma0 (nth 14 w 0%N)) (nth 15 w 0%N)).
Definition schedule (block : list N) : list N :=
  rev (Nat.iter 48 (λ w, next_word w :: w) (rev block)).

Definition hash_round (s : hash_state) (kw : N * N) : hash_state :=
  let t1 := add32 (add32 (add32 (hh s) (big_sigma1 (he s))) (choose (he s) (hf s) (hg s)))
              (add32 kw.1 kw.2) in
  let t2 := add32 (big_sigma0 (ha s)) (majority (ha s) (hb s) (hc s)) in
  HashState (add32 t1 t2) (ha s) (hb s) (hc s) (add32 (hd s) t1) (he s) (hf s) (hg s).

Definition compress (s : hash_state) (block : list N) : hash_state :=
  add_state s (fold_left hash_round (combine round_constants (schedule block)) s).

(** ** Messages *)

Fixpoint be_bytes (k : nat) (n : N) : bytes :=
  match k with
  | O => []
  | S k => be_bytes k (N.shiftr n 8) ++ [N_byte (N.land n 255)]
  end.

Definition be_word (a b c d : Byte.byte) : N :=
  ((byte_N a * 256 + byte_N b) * 256 + byte_N c) * 256 + byte_N d.

Fixpoint words_of (b : bytes) : list N :=
  match b with
  | x :: y :: z :: u :: b => be_word x y z u :: words_of b
  | _ => []
  end.

(** The message, a one bit, zeros to 56 modulo 64, and its length in bits. *)
Definition padded (b : bytes) : bytes :=
  let n := N.of_nat (length b) in
  b ++ [N_byte 128] ++ replicate (N.to_nat ((119 - n mod 64) mod 64)) (N_byte 0)
    ++ be_bytes 8 (n * 8).

Fixpoint absorb (s : hash_state) (ws : list N) : hash_state :=
  match ws with
  | a0 :: a1 :: a2 :: a3 :: a4 :: a5 :: a6 :: a7 :: a8 :: a9 :: a10 :: a11 :: a12 :: a13 :: a14
      :: a15 :: ws =>
      absorb (compress s [a0; a1; a2; a3; a4; a5; a6; a7; a8; a9; a10; a11; a12; a13; a14; a15]) ws
  | _ => s
  end.

Definition state_bytes (s : hash_state) : bytes :=
  concat (map (be_bytes 4) [ha s; hb s; hc s; hd s; he s; hf s; hg s; hh s]).

(** [hashlib.sha256(b).digest()] and [.hexdigest()]. *)
Definition sha256 (b : bytes) : bytes := state_bytes (absorb initial_state (words_of (padded b))).
Definition sha256_hex (b : bytes) : string := hex_of_bytes (sha256 b).

(** ** Facts *)

(** The test vectors of the standard. *)
Example sha256_empty :
  sha256_hex [] = "e3b0c44298fc1c149afbf4c8996fb92427ae41e4649b934ca495991b7852b855".
Proof. by vm_compute. Qed.
Example sha256_abc :
  sha256_hex (utf8_encode "abc") = "ba7816bf8f01cfea414140de5dae2223b00361a396177a9cb410ff61f20015ad".
Proof. by vm_compute. Qed.
Example sha256_two_blocks :
  sha256_hex (utf8_encode "abcdbcdecdefdefgefghfghighijhijkijkljklmklmnlmnomnopnopq") =
  "248d6a61d20638b8e5c026930c3e6039a33ce45964ff2167f6ecedd419db06c1".
Proof. by vm_compute. Qed.

Lemma be_bytes_length k n : length (be_bytes k n) = k.
Proof. revert n. induction k as [|k IH]; intros n; simpl; [done|]. rewrite length_app, IH. simpl. lia. Qed.

Lemma sha256_length b : length (sha256 b) = 32.
Proof.
  unfold sha256. generalize (absorb initial_state (words_of (padded b))). intros s.
  unfold state_bytes. cbn [map concat]. by rewrite !length_app, !be_bytes_length.
Qed.

(** A digest is 64 hexadecimal digits, so it needs no quoting in a command. *)
Definition is_hex (c : ascii) : bool := is_digit c || in_range "a" "f" c.

Lemma hex_of_bytes_hex b : str_forall is_hex (hex_of_bytes b) = true.
Proof.
  induction b as [|x b IH]; [done|]. cbn [hex_of_bytes]. rewrite str_forall_app, IH, andb_true_r.
  by destruct x.
Qed.

Lemma hex_of_bytes_length b : String.length (hex_of_bytes b) = 2 * length b.
Proof.
  induction b as [|x b IH]; [done|]. cbn [hex_of_bytes]. rewrite str_length_app, IH.
  simpl length. destruct x; cbn; lia.
Qed.

Lemma sha256_hex_digits b :
  str_forall is_hex (sha256_hex b) = true ∧ String.length (sha256_hex b) = 64.
Proof. split; [apply hex_of_bytes_hex|]. unfold sha256_hex. by rewrite hex_of_bytes_length, sha256_length. Qed.
