(* ===== verification/JsonSyntax.v ===== *)
(** * The syntax of JSON texts

    The layout with an indent of two and the reader that undoes it, over what
    differs between implementations: how the characters of a string are
    written and read, the literals, and what a repeated key does to an object.
    Python's instance is Json.v, Go's GoText.v.

    The reader recurses on fuel; [parse_more] and [loads_fuel] show that the
    fuel [loads] starts with is enough, whatever the text. *)

From Stdlib Require Import Wf_nat.
From S2P Require Import Prelude PyStr Values.

#[export] Set Default Goal Selector "!".

(** ** Writing *)

Fixpoint insert_key {A} (kv : string * A) (d : list (string * A)) : list (string * A) :=
  match d with
  | [] => [kv]
  | kv' :: d' => if String.leb kv.1 kv'.1 then kv :: d else kv' :: insert_key kv d'
  end.
Definition sort_keys {A} (d : list (string * A)) : list (string * A) := foldr insert_key [] d.

Fixpoint sort_value (v : value) : value :=
  match v with
  | VList l => VList (map sort_value l)
  | VDict d => VDict (sort_keys (map (λ kv, (kv.1, sort_value kv.2)) d))
  | v => v
  end.

Definition newline (level : nat) : string := nl +:+ spaces (2 * level).

Section writing.
Context (chars : string → string).

Definition write_string (s : string) : string := dq +:+ chars s +:+ dq.

(** The members are written in the order of the dictionary. *)
Fixpoint write_value (level : nat) (v : value) : string :=
  match v with
  | VStr s => write_string s
  | VInt z => str_of_Z z
  | VBool b => if b then "true" else "false"
  | VFloat r => r
  | VDatetime r => r
  | VNull => "null"
  | VList [] => "[]"
  | VList l =>
      "[" +:+ newline (S level) +:+ py_join ("," +:+ newline (S level)) (map (write_value (S level)) l)
      +:+ newline level +:+ "]"
  | VDict [] => "{}"
  | VDict d =>
      "{" +:+ newline (S level)
      +:+ py_join ("," +:+ newline (S level))
            (map (λ kv, write_string kv.1 +:+ ": " +:+ write_value (S level) kv.2) d)
      +:+ newline level +:+ "}"
  end.
End writing.

(** ** Reading *)

Definition json_space (c : ascii) : bool :=
  Ascii.eqb c " " || Ascii.eqb c "009" || Ascii.eqb c "010" || Ascii.eqb c "013".
Definition skip_ws (s : string) : string := lstrip_by json_space s.

(** The text after the prefix [p]. *)
Fixpoint after (p s : string) : option string :=
  match p, s with
  | "", _ => Some s
  | String a p, String b s => if Ascii.eqb a b then after p s else None
  | _, "" => None
  end.

(** The rest of the text after the character [c]. *)
Definition expect (c : ascii) (s : string) : option string :=
  match s with String c' r => if Ascii.eqb c' c then Some r else None | "" => None end.

Section reading.
(** A string after its opening quote; a literal or a number; a member that is
    added to those before it. *)
Context (scan : string → option (string * string)) (atom : string → option (value * string)).
Context (add : string → value → dict → dict).

(** A value at the head of the text; the items of an array after its bracket;
    the members of an object after its brace. *)
Fixpoint parse_value (fuel : nat) (s : string) : option (value * string) :=
  match fuel with
  | O => None
  | S fuel =>
      match expect "034" s with
      | Some s1 => match scan s1 with Some (w, r) => Some (VStr w, r) | None => None end
      | None =>
          match expect "[" s with
          | Some s1 =>
              match expect "]" (skip_ws s1) with
              | Some r => Some (VList [], r)
              | None =>
                  match parse_items fuel (skip_ws s1) with
                  | Some (l, r) => Some (VList l, r)
                  | None => None
                  end
              end
          | None =>
              match expect "{" s with
              | Some s1 =>
                  match expect "}" (skip_ws s1) with
                  | Some r => Some (VDict [], r)
                  | None =>
                      match parse_members fuel [] (skip_ws s1) with
                      | Some (d, r) => Some (VDict d, r)
                      | None => None
                      end
                  end
              | None => atom s
              end
          end
      end
  end
with parse_items (fuel : nat) (s : string) : option (list value * string) :=
  match fuel with
  | O => None
  | S fuel =>
      match parse_value fuel s with
      | None => None
      | Some (v, r) =>
          match expect "]" (skip_ws r) with
          | Some r => Some ([v], r)
          | None =>
              match expect "," (skip_ws r) with
              | Some r =>
                  match parse_items fuel (skip_ws r) with
                  | Some (l, r) => Some (v :: l, r)
                  | None => None
                  end
              | None => None
              end
          end
      end
  end
with parse_members (fuel : nat) (acc : dict) (s : string) : option (dict * string) :=
  match fuel with
  | O => None
  | S fuel =>
      match expect "034" s with
      | None => None
      | Some s1 =>
          match scan s1 with
          | None => None
          | Some (k, r) =>
              match expect ":" (skip_ws r) with
              | None => None
              | Some r =>
                  match parse_value fuel (skip_ws r) with
                  | None => None
                  | Some (v, r) =>
                      match expect "}" (skip_ws r) with
                      | Some r => Some (add k v acc, r)
                      | None =>
                          match expect "," (skip_ws r) with
                          | Some r => parse_members fuel (add k v acc) (skip_ws r)
                          | None => None
                          end
                      end
                  end
              end
          end
      end
  end.

Definition loads (s : string) : option value :=
  match parse_value (S (2 * String.length s)) (skip_ws s) with
  | Some (v, r) => if String.eqb (skip_ws r) "" then Some v else None
  | None => None
  end.
End reading.

(** ** Reading back what was written *)

Lemma skip_ws_space n s : skip_ws (spaces n +:+ s) = skip_ws s.
Proof. by induction n. Qed.

Lemma skip_ws_newline level s : skip_ws (newline level +:+ s) = skip_ws s.
Proof. unfold newline. rewrite str_app_assoc. apply (skip_ws_space (2 * level)). Qed.

Lemma skip_ws_head c s : json_space c = false → skip_ws (String c s) = String c s.
Proof. intros Hc. unfold skip_ws. simpl. by rewrite Hc. Qed.

Lemma skip_ws_lit c s : json_space c = false → skip_ws (String c "" +:+ s) = String c s.
Proof. apply skip_ws_head. Qed.

(** Values without numbers, dates or duplicate keys. *)
Fixpoint plain (v : value) : bool :=
  match v with
  | VStr _ | VBool _ | VNull => true
  | VList l => forallb plain l
  | VDict d => negb (has_duplicates (dict_keys d)) && forallb (λ kv, plain kv.2) d
  | _ => false
  end.

Fixpoint vsize (v : value) : nat :=
  match v with
  | VList l => S (sum_list_with (λ v, S (vsize v)) l)
  | VDict d => S (sum_list_with (λ kv, S (vsize kv.2)) d)
  | _ => 1
  end.

(** The same value with other strings. *)
Fixpoint convert (f : string → string) (v : value) : value :=
  match v with
  | VStr s => VStr (f s)
  | VList l => VList (map (convert f) l)
  | VDict d => VDict (map (λ kv, (f kv.1, convert f kv.2)) d)
  | v => v
  end.

Lemma convert_id v : convert id v = v.
Proof.
  induction v as [s|z|b|f|f| |l IH|d IH] using value_nested_ind; try done; cbn [convert]; f_equal;
    induction IH as [|x k Hx Hk IHk]; try done; cbn [map]; rewrite Hx, IHk; by try destruct x.
Qed.

(** What a written value starts with. *)
Definition opens_value (s : string) : Prop :=
  ∃ c r, s = String c r ∧ json_space c = false ∧ Ascii.eqb c "]" = false.

Section read_back.
Context (chars : string → string) (scan : string → option (string * string)).
Context (atom : string → option (value * string)) (add : string → value → dict → dict).
Context (f : string → string).

#[local] Abbreviation written := (write_value chars).
#[local] Abbreviation string_of := (write_string chars).
#[local] Abbreviation pvalue := (parse_value scan atom add).
#[local] Abbreviation pitems := (parse_items scan atom add).
#[local] Abbreviation pmembers := (parse_members scan atom add).

(** What was written for a string is read as [f] of it. *)
Hypothesis scan_chars : ∀ w r, scan (chars w +:+ dq +:+ r) = Some (f w, r).
Hypothesis atom_words : ∀ r, atom ("null" +:+ r) = Some (VNull, r) ∧
  atom ("true" +:+ r) = Some (VBool true, r) ∧ atom ("false" +:+ r) = Some (VBool false, r).
Hypothesis add_new : ∀ k v d, k ∉ dict_keys d → add k v d = d ++ [(k, v)].
Hypothesis f_inj : ∀ a b, f a = f b → a = b.

Lemma write_value_opens level v : plain v = true → opens_value (written level v).
Proof.
  unfold opens_value.
  destruct v as [s|z|[]|fl|dt| |[|x l]|[|kv d]]; try done; intros _; by eexists _, _.
Qed.

Lemma opens_app s r : opens_value s → opens_value (s +:+ r).
Proof. intros (c & w & -> & ?). exists c, (w +:+ r). by rewrite str_app_cons. Qed.

Lemma opens_skip s : opens_value s → skip_ws s = s.
Proof. intros (c & r & -> & Hc & _). by apply skip_ws_head. Qed.

Lemma opens_expect s : opens_value s → expect "]" s = None.
Proof. intros (c & r & -> & _ & Hc). simpl. by rewrite Hc. Qed.

Definition parses (v : value) : Prop :=
  ∀ level rest fuel, vsize v ≤ fuel →
    pvalue fuel (written level v +:+ rest) = Some (convert f v, rest).

Lemma join_opens l level level' w :
  l ≠ [] → forallb plain l = true →
  opens_value (py_join ("," +:+ newline level) (map (written level) l) +:+ newline level' +:+ w).
Proof.
  destruct l as [|v l]; [done|]. intros _ Hp. simpl in Hp. apply andb_prop in Hp as [Hp _].
  destruct l as [|v' l]; cbn [map py_join]; [by apply opens_app, write_value_opens|].
  rewrite str_app_assoc. by apply opens_app, write_value_opens.
Qed.

Lemma parse_items_write l level level' rest fuel :
  l ≠ [] → Forall parses l → forallb plain l = true →
  sum_list_with (λ v, S (vsize v)) l ≤ fuel →
  pitems fuel (py_join ("," +:+ newline level) (map (written level) l)
    +:+ newline level' +:+ "]" +:+ rest) = Some (map (convert f) l, rest).
Proof.
  intros Hne Hl. revert fuel Hne. induction Hl as [|v l Hv Hl IH]; intros fuel Hne Hp Hf; [done|].
  simpl in Hp, Hf. apply andb_prop in Hp as [Hpv Hpl].
  destruct fuel as [|fuel]; [lia|]. cbn [parse_items].
  destruct l as [|v' l].
  - cbn [map py_join]. rewrite Hv by lia. by rewrite skip_ws_newline.
  - pose proof (join_opens (v' :: l) level level' ("]" +:+ rest) ltac:(done) Hpl) as Hopen.
    specialize (IH fuel ltac:(done) Hpl ltac:(simpl in *; lia)).
    change (map (written level) (v :: v' :: l))
      with (written level v :: map (written level) (v' :: l)).
    set (rest_items := map (written level) (v' :: l)) in *.
    assert (py_join ("," +:+ newline level) (written level v :: rest_items) =
      written level v +:+ ("," +:+ newline level) +:+ py_join ("," +:+ newline level) rest_items)
      as -> by done.
    rewrite !str_app_assoc, Hv by lia. rewrite skip_ws_lit by done. cbn [expect Ascii.eqb Bool.eqb].
    rewrite skip_ws_newline, (opens_skip _ Hopen), IH. done.
Qed.

#[local] Abbreviation convert_members := (map (λ kv, (f kv.1, convert f kv.2))).

Lemma convert_keys d : NoDup (dict_keys d) → NoDup (dict_keys ([] ++ convert_members d)).
Proof.
  intros Hd. unfold dict_keys. rewrite app_nil_l, map_map. cbn [fst].
  rewrite <- (map_map fst f). apply NoDup_fmap_2_strong; [|done]. intros a b _ _. apply f_inj.
Qed.

(** One written member. *)
Definition write_member (level : nat) (kv : string * value) : string :=
  string_of kv.1 +:+ ": " +:+ written level kv.2.

Lemma parse_members_write d level level' rest fuel acc :
  d ≠ [] → Forall (λ kv, parses kv.2) d → forallb (λ kv, plain kv.2) d = true →
  NoDup (dict_keys (acc ++ convert_members d)) →
  sum_list_with (λ kv, S (vsize kv.2)) d ≤ fuel →
  pmembers fuel acc (py_join ("," +:+ newline level) (map (write_member level) d)
    +:+ newline level' +:+ "}" +:+ rest) = Some (acc ++ convert_members d, rest).
Proof.
  intros Hne Hd. revert fuel acc Hne.
  induction Hd as [|[k v] d Hv Hd IH]; intros fuel acc Hne Hp Hnd Hf; [done|].
  simpl in Hp, Hf, Hv. apply andb_prop in Hp as [Hpv Hpd].
  destruct fuel as [|fuel]; [lia|].
  assert (f k ∉ dict_keys acc) as Hk.
  { unfold dict_keys in Hnd. rewrite map_app in Hnd. simpl in Hnd.
    apply NoDup_app in Hnd as (_ & Hdisj & _). intros Hin. apply (Hdisj _ Hin). left. }
  assert (∀ w, pmembers (S fuel) acc (write_member level (k, v) +:+ w) =
    match expect "}" (skip_ws w) with
    | Some r => Some (acc ++ [(f k, convert f v)], r)
    | None => match expect "," (skip_ws w) with
              | Some r => pmembers fuel (acc ++ [(f k, convert f v)]) (skip_ws r)
              | None => None
              end
    end) as Hone.
  { intros w. unfold write_member, write_string. cbn [fst snd]. rewrite !str_app_assoc.
    cbn [parse_members]. change (expect "034" (dq +:+ ?x)) with (Some x). cbv iota.
    rewrite scan_chars. change (": " +:+ ?x) with (String ":" (String " " x)).
    rewrite (skip_ws_head ":") by done. cbn [expect Ascii.eqb Bool.eqb].
    change (skip_ws (String " " ?x)) with (skip_ws x).
    rewrite (opens_skip (written level v +:+ w)) by by apply opens_app, write_value_opens.
    rewrite Hv by lia. by rewrite add_new. }
  destruct d as [|kv' d].
  - cbn [map py_join]. rewrite Hone. by rewrite skip_ws_newline.
  - change (map (write_member level) ((k, v) :: kv' :: d))
      with (write_member level (k, v) :: map (write_member level) (kv' :: d)).
    set (rest_members := map (write_member level) (kv' :: d)) in *.
    assert (py_join ("," +:+ newline level) (write_member level (k, v) :: rest_members) =
      write_member level (k, v) +:+ ("," +:+ newline level)
        +:+ py_join ("," +:+ newline level) rest_members) as -> by done.
    rewrite !str_app_assoc, Hone. rewrite skip_ws_lit by done. cbn [expect Ascii.eqb Bool.eqb].
    rewrite skip_ws_newline. rewrite opens_skip.
    + rewrite IH; [by rewrite <- app_assoc|done|done|by rewrite <- app_assoc|simpl in *; lia].
    + unfold rest_members. destruct d as [|kv'' d]; cbn [map py_join];
        unfold opens_value, write_member, write_string; rewrite ?str_app_assoc;
        by eexists _, _.
Qed.

Lemma plain_parses v : plain v = true → parses v.
Proof.
  induction v as [s|z|b|fl|dt| |l IH|d IH] using value_nested_ind; intros Hp level rest fuel Hf;
    try done; (destruct fuel as [|fuel]; [simpl in Hf; lia|]).
  - cbn [write_value]. unfold write_string. rewrite !str_app_assoc.
    cbn [parse_value]. change (expect "034" (dq +:+ ?x)) with (Some x). cbv iota.
    by rewrite scan_chars.
  - destruct (atom_words rest) as (_ & Ht & Hfa). destruct b; cbn [parse_value]; [apply Ht|apply Hfa].
  - cbn [parse_value]. apply atom_words.
  - simpl in Hp, Hf. destruct l as [|v l]; [done|].
    assert (Forall parses (v :: l)) as Hl.
    { rewrite forallb_forall in Hp. rewrite Forall_forall in *. intros x Hx. apply IH; [done|].
      by apply Hp, list_elem_of_In. }
    cbn [write_value]. rewrite !str_app_assoc.
    assert (∀ w, pvalue (S fuel) ("[" +:+ w) =
      match expect "]" (skip_ws w) with
      | Some r => Some (VList [], r)
      | None => match pitems fuel (skip_ws w) with
                | Some (l, r) => Some (VList l, r) | None => None end
      end) as -> by done.
    rewrite skip_ws_newline.
    pose proof (join_opens (v :: l) (S level) level ("]" +:+ rest) ltac:(done) Hp) as Hopen.
    rewrite (opens_skip _ Hopen), (opens_expect _ Hopen).
    rewrite parse_items_write; [done|done|done|done|simpl in *; lia].
  - cbn [plain] in Hp. apply andb_prop in Hp as [Hnd Hp].
    apply negb_true_iff, has_duplicates_false in Hnd.
    destruct d as [|kv d]; [done|].
    assert (Forall (λ kv, parses kv.2) (kv :: d)) as Hd.
    { rewrite forallb_forall in Hp. rewrite Forall_forall in *. intros x Hx. apply IH; [done|].
      by apply Hp, list_elem_of_In. }
    cbn [write_value]. rewrite !str_app_assoc. fold (write_member (S level)).
    assert (∀ w, pvalue (S fuel) ("{" +:+ w) =
      match expect "}" (skip_ws w) with
      | Some r => Some (VDict [], r)
      | None => match pmembers fuel [] (skip_ws w) with
                | Some (d, r) => Some (VDict d, r) | None => None end
      end) as -> by done.
    rewrite skip_ws_newline.
    assert (∃ w, py_join ("," +:+ newline (S level)) (map (write_member (S level)) (kv :: d))
      +:+ newline level +:+ "}" +:+ rest = String "034" w) as [w Hw].
    { destruct d as [|kv' d]; cbn [map py_join]; unfold write_member, write_string;
        rewrite ?str_app_assoc; by eexists. }
    change (map _ (kv :: d)) with (map (write_member (S level)) (kv :: d)).
    rewrite Hw, skip_ws_head by done. cbn [expect Ascii.eqb Bool.eqb]. rewrite <- Hw.
    rewrite parse_members_write; [done|done|done|done|by apply convert_keys|simpl in *; lia].
Qed.

(** ** The size of a written value *)

Lemma join_length sep l :
  sum_list_with String.length l ≤ String.length (py_join sep l).
Proof.
  induction l as [|s l IH]; [simpl; lia|]. destruct l as [|s' l]; [simpl; lia|].
  change (py_join sep (s :: s' :: l)) with (s +:+ sep +:+ py_join sep (s' :: l)).
  rewrite !str_length_app. simpl in *. lia.
Qed.

Lemma vsize_write level v : plain v = true → S (vsize v) ≤ 2 * String.length (written level v).
Proof.
  revert level. induction v as [s|z|b|fl|dt| |l IH|d IH] using value_nested_ind; intros level Hp;
    try done.
  - simpl. unfold write_string. rewrite !str_length_app. simpl. lia.
  - destruct b; simpl; lia.
  - simpl. lia.
  - destruct l as [|v l]; [simpl; lia|]. simpl in Hp. cbn [write_value vsize].
    rewrite !str_length_app.
    pose proof (join_length ("," +:+ newline (S level)) (map (written (S level)) (v :: l))) as Hj.
    assert (sum_list_with (λ v, S (vsize v)) (v :: l) ≤
      2 * sum_list_with String.length (map (written (S level)) (v :: l))) as Hs.
    { clear Hj. change (plain v && forallb plain l) with (forallb plain (v :: l)) in Hp.
      induction IH as [|x k Hx Hk IHk]; [simpl; lia|]. simpl in Hp.
      apply andb_prop in Hp as [Hpx Hpk]. specialize (Hx (S level) Hpx). specialize (IHk Hpk).
      simpl. lia. }
    simpl in *. lia.
  - destruct d as [|kv d]; [simpl; lia|]. cbn [plain] in Hp. apply andb_prop in Hp as [_ Hp].
    cbn [write_value vsize]. rewrite !str_length_app.
    fold (write_member (S level)).
    change (map _ (kv :: d)) with (map (write_member (S level)) (kv :: d)).
    pose proof (join_length ("," +:+ newline (S level)) (map (write_member (S level)) (kv :: d))) as Hj.
    assert (sum_list_with (λ kv, S (vsize kv.2)) (kv :: d) ≤
      2 * sum_list_with String.length (map (write_member (S level)) (kv :: d))) as Hs.
    { clear Hj. induction IH as [|x k Hx Hk IHk]; [simpl; lia|]. simpl in Hp.
      apply andb_prop in Hp as [Hpx Hpk]. specialize (Hx (S level) Hpx). specialize (IHk Hpk).
      assert (String.length (written (S level) x.2) ≤ String.length (write_member (S level) x))
        by (unfold write_member; rewrite !str_length_app; lia).
      cbn [map sum_list_with]. lia. }
    simpl in *. lia.
Qed.

(** White space after the value is no part of it. *)
Lemma loads_write_space v rest :
  plain v = true → skip_ws rest = "" → loads scan atom add (written 0 v +:+ rest) = Some (convert f v).
Proof.
  intros Hp Hr. unfold loads. rewrite (opens_skip _ (opens_app _ _ (write_value_opens 0 v Hp))).
  rewrite (plain_parses v Hp 0 rest); [by rewrite Hr|].
  pose proof (vsize_write 0 v Hp). rewrite str_length_app. lia.
Qed.

Lemma loads_write v : plain v = true → loads scan atom add (written 0 v) = Some (convert f v).
Proof. intros Hp. rewrite <- (str_app_nil_r (written 0 v)). by apply loads_write_space. Qed.

End read_back.

(** ** Sorting the keys *)

Lemma insert_key_keys {A} (kv : string * A) d :
  dict_keys (insert_key kv d) ≡ₚ kv.1 :: dict_keys d.
Proof.
  induction d as [|kv' d IH]; simpl; [done|]. destruct (String.leb _ _); [done|].
  simpl. rewrite IH. apply Permutation_swap.
Qed.

Lemma sort_keys_keys {A} (d : list (string * A)) : dict_keys (sort_keys d) ≡ₚ dict_keys d.
Proof. induction d as [|kv d IH]; simpl; [done|]. rewrite insert_key_keys. by constructor. Qed.

Lemma forallb_insert_key {A} (p : string * A → bool) kv d :
  forallb p (insert_key kv d) = p kv && forallb p d.
Proof.
  induction d as [|kv' d IH]; simpl; [done|]. destruct (String.leb _ _); [done|].
  simpl. rewrite IH. by destruct (p kv), (p kv').
Qed.

Lemma forallb_sort_keys {A} (p : string * A → bool) d : forallb p (sort_keys d) = forallb p d.
Proof. induction d as [|kv d IH]; simpl; [done|]. by rewrite forallb_insert_key, IH. Qed.

Lemma dict_get_insert_key {A} k (kv : string * A) d :
  kv.1 ∉ dict_keys d →
  dict_get k (insert_key kv d) = if String.eqb kv.1 k then Some kv.2 else dict_get k d.
Proof.
  destruct kv as [k0 v0]. simpl. induction d as [|[k1 v1] d IH]; simpl; intros Hni; [done|].
  apply not_elem_of_cons in Hni as [Hne Hni]. destruct (String.leb k0 k1); [done|].
  simpl. rewrite IH by done. destruct (String.eqb_spec k1 k) as [->|]; [|done].
  by destruct (String.eqb_spec k0 k).
Qed.

(** Sorting does not change what a key gives. *)
Lemma dict_get_sort_keys {A} k (d : list (string * A)) :
  NoDup (dict_keys d) → dict_get k (sort_keys d) = dict_get k d.
Proof.
  induction d as [|[k0 v0] d IH]; simpl; [done|]. intros [Hni Hnd]%NoDup_cons.
  rewrite dict_get_insert_key; [|by rewrite sort_keys_keys]. simpl. by rewrite IH.
Qed.

Lemma plain_sort v : plain v = true → plain (sort_value v) = true.
Proof.
  induction v as [s|z|b|f|f| |l IH|d IH] using value_nested_ind; intros Hp; try done.
  - simpl in *. rewrite forallb_forall in *. intros x (y & <- & Hy)%in_map_iff.
    rewrite Forall_forall in IH. apply IH; [by apply list_elem_of_In|by apply Hp].
  - cbn [plain sort_value] in *. apply andb_prop in Hp as [Hnd Hp].
    apply negb_true_iff, has_duplicates_false in Hnd.
    rewrite forallb_sort_keys. apply andb_true_intro. split.
    + apply negb_true_iff, has_duplicates_false.
      rewrite sort_keys_keys. unfold dict_keys. rewrite map_map. by simpl.
    + rewrite forallb_forall in *. intros kv (y & <- & Hy)%in_map_iff. simpl.
      rewrite Forall_forall in IH. apply IH; [by apply list_elem_of_In|by apply Hp].
Qed.

(** ** Enough fuel *)

Lemma expect_length c s r : expect c s = Some r → String.length r < String.length s.
Proof.
  destruct s as [|c' s]; simpl; [done|]. destruct (Ascii.eqb _ _); [|done]. intros [= ->]. lia.
Qed.

Lemma skip_ws_length s : String.length (skip_ws s) ≤ String.length s.
Proof.
  unfold skip_ws. induction s as [|c s IH]; simpl; [lia|]. destruct (json_space c); simpl; lia.
Qed.

Section lengths.
Context (scan : string → option (string * string)) (atom : string → option (value * string)).
Context (add : string → value → dict → dict).
Hypothesis scan_length : ∀ s w r, scan s = Some (w, r) → String.length r < String.length s.
Hypothesis atom_length : ∀ s v r, atom s = Some (v, r) → String.length r < String.length s.

#[local] Abbreviation pvalue := (parse_value scan atom add).
#[local] Abbreviation pitems := (parse_items scan atom add).
#[local] Abbreviation pmembers := (parse_members scan atom add).

#[local] Ltac unroll :=
  cbn [parse_value parse_items parse_members]; fold pvalue; fold pitems; fold pmembers.

Lemma parse_lengths fuel :
  (∀ s v r, pvalue fuel s = Some (v, r) → String.length r < String.length s) ∧
  (∀ s l r, pitems fuel s = Some (l, r) → String.length r < String.length s) ∧
  (∀ acc s d r, pmembers fuel acc s = Some (d, r) → String.length r < String.length s).
Proof.
  induction fuel as [|fuel (IHv & IHi & IHm)]; [done|]. split_and!.
  - intros s v r. unroll.
    destruct (expect "034" s) as [s1|] eqn:E1; [apply expect_length in E1|].
    { destruct (scan s1) as [[w r']|] eqn:E2; [|done]. intros [= _ <-].
      apply scan_length in E2. lia. }
    destruct (expect "[" s) as [s2|] eqn:E2; [apply expect_length in E2|].
    { pose proof (skip_ws_length s2).
      destruct (expect "]" (skip_ws s2)) as [r1|] eqn:E3.
      - apply expect_length in E3. intros [= _ <-]. lia.
      - destruct (pitems fuel _) as [[l r1]|] eqn:E4; [|done].
        apply IHi in E4. intros [= _ <-]. lia. }
    destruct (expect "{" s) as [s3|] eqn:E3; [apply expect_length in E3|apply atom_length].
    pose proof (skip_ws_length s3). destruct (expect "}" (skip_ws s3)) as [r1|] eqn:E4.
    + apply expect_length in E4. intros [= _ <-]. lia.
    + destruct (pmembers fuel _ _) as [[d r1]|] eqn:E5; [|done].
      apply IHm in E5. intros [= _ <-]. lia.
  - intros s l r. unroll. destruct (pvalue fuel s) as [[v r1]|] eqn:E1; [|done].
    apply IHv in E1. pose proof (skip_ws_length r1).
    destruct (expect "]" (skip_ws r1)) as [r2|] eqn:E2.
    { apply expect_length in E2. intros [= _ <-]. lia. }
    destruct (expect "," (skip_ws r1)) as [r2|] eqn:E3; [|done]. apply expect_length in E3.
    pose proof (skip_ws_length r2).
    destruct (pitems fuel _) as [[l' r3]|] eqn:E4; [|done]. apply IHi in E4.
    intros [= _ <-]. lia.
  - intros acc s d r. unroll.
    destruct (expect "034" s) as [s1|] eqn:E1; [|done]. apply expect_length in E1.
    destruct (scan s1) as [[k r1]|] eqn:E2; [|done]. apply scan_length in E2.
    pose proof (skip_ws_length r1).
    destruct (expect ":" (skip_ws r1)) as [r2|] eqn:E3; [|done]. apply expect_length in E3.
    pose proof (skip_ws_length r2).
    destruct (pvalue fuel _) as [[v r3]|] eqn:E4; [|done]. apply IHv in E4.
    pose proof (skip_ws_length r3).
    destruct (expect "}" (skip_ws r3)) as [r4|] eqn:E5.
    { apply expect_length in E5. intros [= _ <-]. lia. }
    destruct (expect "," (skip_ws r3)) as [r4|] eqn:E6; [|done]. apply expect_length in E6.
    pose proof (skip_ws_length r4). intros E7%IHm. lia.
Qed.

(** With fuel for the length of the text, more fuel changes nothing. *)
Lemma parse_more fuel more :
  fuel ≤ more →
  (∀ s, 2 * String.length s < fuel → pvalue more s = pvalue fuel s) ∧
  (∀ s, S (2 * String.length s) < fuel → pitems more s = pitems fuel s) ∧
  (∀ acc s, S (2 * String.length s) < fuel → pmembers more acc s = pmembers fuel acc s).
Proof.
  revert more. induction fuel as [|fuel IH]; intros more Hle; [split_and!; intros; lia|].
  destruct more as [|more]; [lia|]. destruct (IH more ltac:(lia)) as (IHv & IHi & IHm).
  split_and!.
  - intros s Hf. unroll.
    destruct (expect "034" s) as [s1|] eqn:E1; [done|].
    destruct (expect "[" s) as [s2|] eqn:E2.
    { apply expect_length in E2. pose proof (skip_ws_length s2). by rewrite IHi by lia. }
    destruct (expect "{" s) as [s3|] eqn:E3; [|done].
    apply expect_length in E3. pose proof (skip_ws_length s3). by rewrite IHm by lia.
  - intros s Hf. unroll.
    rewrite IHv by lia. destruct (pvalue fuel s) as [[v r1]|] eqn:E1; [|done].
    apply (proj1 (parse_lengths fuel)) in E1. pose proof (skip_ws_length r1).
    destruct (expect "]" (skip_ws r1)); [done|].
    destruct (expect "," (skip_ws r1)) as [r2|] eqn:E3; [|done]. apply expect_length in E3.
    pose proof (skip_ws_length r2). by rewrite IHi by lia.
  - intros acc s Hf. unroll.
    destruct (expect "034" s) as [s1|] eqn:E1; [|done]. apply expect_length in E1.
    destruct (scan s1) as [[k r1]|] eqn:E2; [|done]. apply scan_length in E2.
    pose proof (skip_ws_length r1).
    destruct (expect ":" (skip_ws r1)) as [r2|] eqn:E3; [|done]. apply expect_length in E3.
    pose proof (skip_ws_length r2). rewrite IHv by lia.
    destruct (pvalue fuel _) as [[v r3]|] eqn:E4; [|done].
    apply (proj1 (parse_lengths fuel)) in E4. pose proof (skip_ws_length r3).
    destruct (expect "}" (skip_ws r3)); [done|].
    destruct (expect "," (skip_ws r3)) as [r4|] eqn:E6; [|done]. apply expect_length in E6.
    pose proof (skip_ws_length r4). by rewrite IHm by lia.
Qed.

Lemma loads_fuel s fuel :
  S (2 * String.length s) ≤ fuel →
  pvalue fuel (skip_ws s) = pvalue (S (2 * String.length s)) (skip_ws s).
Proof.
  intros Hf. pose proof (skip_ws_length s). apply (parse_more _ _ Hf). lia.
Qed.
End lengths.
