(* ===== verification/Json.v ===== *)
(** * JSON, as the json module reads and writes it

    [json_dumps] is [json.dumps(v, indent=2, sort_keys=True)] and [json_loads]
    is [json.loads(s)], on texts whose characters, escapes included, are code
    points below 256: [None] stands for [JSONDecodeError] and for a text
    outside that range.  Floating-point literals keep their text.  The layout
    and the reader are those of JsonSyntax.v. *)

From Stdlib Require Import Wf_nat.
From S2P Require Import Prelude PyStr Values.
From S2P Require Export JsonSyntax.

#[export] Set Default Goal Selector "!".

(** ** Writing *)

Definition json_escape (c : ascii) : string :=
  if Ascii.eqb c "034" then "\" +:+ dq
  else if Ascii.eqb c "\" then "\\"
  else if Ascii.eqb c "010" then "\n"
  else if Ascii.eqb c "013" then "\r"
  else if Ascii.eqb c "009" then "\t"
  else if Ascii.eqb c "012" then "\f"
  else if Ascii.eqb c "008" then "\b"
  else if in_range " " "~" c then String c ""
  else "\u00" +:+ hex_byte c.

Fixpoint json_chars (s : string) : string :=
  match s with "" => "" | String c s => json_escape c +:+ json_chars s end.

Definition json_dumps (v : value) : string := write_value json_chars 0 (sort_value v).

(** ** Reading *)

Definition hex_value (c : ascii) : option N :=
  let n := N_of_ascii c in
  if is_digit c then Some (n - 48)%N
  else if in_range "a" "f" c then Some (n - 87)%N
  else if in_range "A" "F" c then Some (n - 55)%N
  else None.

Definition hex4 (a b c d : ascii) : option N :=
  match hex_value a, hex_value b, hex_value c, hex_value d with
  | Some a, Some b, Some c, Some d => Some (a * 4096 + b * 256 + c * 16 + d)%N
  | _, _, _, _ => None
  end.

Definition simple_escape (e : ascii) : option ascii :=
  if Ascii.eqb e "034" then Some "034"%char
  else if Ascii.eqb e "\" then Some "\"%char
  else if Ascii.eqb e "/" then Some "/"%char
  else if Ascii.eqb e "b" then Some "008"%char
  else if Ascii.eqb e "f" then Some "012"%char
  else if Ascii.eqb e "n" then Some "010"%char
  else if Ascii.eqb e "r" then Some "013"%char
  else if Ascii.eqb e "t" then Some "009"%char
  else None.

Definition cons_fst (c : ascii) (p : string * string) : string * string := (String c p.1, p.2).

(** The rest of a string after its opening quote. *)
Fixpoint scan_string (s : string) : option (string * string) :=
  match s with
  | "" => None
  | String c s1 =>
      if Ascii.eqb c "034" then Some ("", s1)
      else if Ascii.eqb c "\" then
        match s1 with
        | String e s2 =>
            if Ascii.eqb e "u" then
              match s2 with
              | String h1 (String h2 (String h3 (String h4 s3))) =>
                  match hex4 h1 h2 h3 h4 with
                  | Some n =>
                      if (n <? 256)%N then cons_fst (ascii_of_N n) <$> scan_string s3 else None
                  | None => None
                  end
              | _ => None
              end
            else
              match simple_escape e with
              | Some c' => cons_fst c' <$> scan_string s2
              | None => None
              end
        | "" => None
        end
      else if (N_of_ascii c <? 32)%N then None
      else cons_fst c <$> scan_string s1
  end.

Fixpoint take_while (p : ascii → bool) (s : string) : string * string :=
  match s with
  | "" => ("", "")
  | String c s' => if p c then let '(w, r) := take_while p s' in (String c w, r) else ("", s)
  end.

(** The three parts of a number: the integer, the fraction, the exponent. *)
Definition number_int (s : string) : option (string * string) :=
  match s with
  | String c r =>
      if Ascii.eqb c "0" then Some ("0", r)
      else if is_digit c then Some (take_while is_digit s) else None
  | "" => None
  end.

Definition number_frac (s : string) : string * string :=
  match s with
  | String "." r =>
      let '(w, r') := take_while is_digit r in
      if String.eqb w "" then ("", s) else (String "." w, r')
  | _ => ("", s)
  end.

Definition number_exp (s : string) : string * string :=
  match s with
  | String e r =>
      if Ascii.eqb e "e" || Ascii.eqb e "E" then
        let '(sign, r1) := match r with
          | String g r1 => if Ascii.eqb g "+" || Ascii.eqb g "-" then (String g "", r1) else ("", r)
          | "" => ("", r)
          end in
        let '(w, r2) := take_while is_digit r1 in
        if String.eqb w "" then ("", s) else (String e (sign +:+ w), r2)
      else ("", s)
  | "" => ("", s)
  end.

Definition parse_number (s : string) : option (value * string) :=
  let '(neg, s1) := match s with String "-" r => (true, r) | _ => (false, s) end in
  match number_int s1 with
  | None => None
  | Some (digits, r) =>
      let '(frac, r1) := number_frac r in
      let '(ex, r2) := number_exp r1 in
      if String.eqb frac "" && String.eqb ex "" then
        let n := int_of_digits digits in Some (VInt (if neg : bool then - n else n)%Z, r2)
      else Some (VFloat ((if neg then "-" else "") +:+ digits +:+ frac +:+ ex), r2)
  end.

Definition parse_atom (s : string) : option (value * string) :=
  match after "null" s with Some r => Some (VNull, r) | None =>
  match after "true" s with Some r => Some (VBool true, r) | None =>
  match after "false" s with Some r => Some (VBool false, r) | None =>
  match after "NaN" s with Some r => Some (VFloat "nan", r) | None =>
  match after "Infinity" s with Some r => Some (VFloat "inf", r) | None =>
  match after "-Infinity" s with Some r => Some (VFloat "-inf", r) | None =>
  parse_number s end end end end end end.

Definition json_loads (s : string) : option value := loads scan_string parse_atom dict_set s.

(** ** Reading back what was written *)

Lemma scan_escape c r :
  scan_string (json_escape c +:+ r) = cons_fst c <$> scan_string r.
Proof. by destruct c as [[] [] [] [] [] [] [] []]. Qed.

Lemma scan_json_chars w r : scan_string (json_chars w +:+ dq +:+ r) = Some (w, r).
Proof.
  induction w as [|c w IH]; [done|]. cbn [json_chars].
  by rewrite str_app_assoc, scan_escape, IH.
Qed.

Lemma dict_set_new {A} k (v : A) d : k ∉ dict_keys d → dict_set k v d = d ++ [(k, v)].
Proof.
  induction d as [|[k' v'] d IH]; [done|]. simpl. rewrite not_elem_of_cons. intros [Hne Hk].
  destruct (String.eqb_spec k' k) as [->|]; [done|]. by rewrite IH.
Qed.

Lemma parse_words r : parse_atom ("null" +:+ r) = Some (VNull, r) ∧
  parse_atom ("true" +:+ r) = Some (VBool true, r) ∧ parse_atom ("false" +:+ r) = Some (VBool false, r).
Proof. done. Qed.

(** Reading back a dumped value gives the value with its keys sorted. *)
Lemma json_loads_dumps v : plain v = true → json_loads (json_dumps v) = Some (sort_value v).
Proof.
  intros Hp. unfold json_loads, json_dumps.
  rewrite (loads_write json_chars scan_string parse_atom dict_set id); [by rewrite convert_id|..].
  - apply scan_json_chars.
  - apply parse_words.
  - intros k w d. apply dict_set_new.
  - done.
  - by apply plain_sort.
Qed.

(** ** Enough fuel *)

Lemma scan_string_length s : ∀ w r, scan_string s = Some (w, r) → String.length r < String.length s.
Proof.
  induction s as [s IH] using (induction_ltof1 _ String.length); unfold ltof in IH.
  intros w r. destruct s as [|c s1]; simpl; [done|].
  destruct (Ascii.eqb c "034"); [intros [= <- <-]; lia|].
  assert (∀ c' s2, String.length s2 ≤ String.length s1 →
    cons_fst c' <$> scan_string s2 = Some (w, r) → String.length r < S (String.length s1)) as Hstep.
  { intros c' s2 Hl. destruct (scan_string s2) as [[w' r']|] eqn:H; simpl; [|done].
    intros [= _ <-]. apply IH in H; simpl in *; lia. }
  destruct (Ascii.eqb c "\").
  - destruct s1 as [|e s2]; [done|]. destruct (Ascii.eqb e "u").
    + destruct s2 as [|h1 [|h2 [|h3 [|h4 s3]]]]; try done.
      destruct (hex4 h1 h2 h3 h4) as [n|]; [|done]. destruct (n <? 256)%N; [|done].
      apply Hstep. simpl. lia.
    + destruct (simple_escape e); [|done]. apply Hstep. simpl. lia.
  - destruct (_ <? 32)%N; [done|]. by apply Hstep.
Qed.

Lemma after_length p s r : p ≠ "" → after p s = Some r → String.length r < String.length s.
Proof.
  assert (∀ p s r, after p s = Some r → String.length r + String.length p ≤ String.length s) as H.
  { clear. induction p as [|a p IH]; intros [|b s] r; simpl; try done.
    - intros [= <-]. simpl. lia.
    - intros [= <-]. simpl. lia.
    - destruct (Ascii.eqb a b); [|done]. intros ?%IH. lia. }
  intros Hp Ha%H. destruct p; simpl in *; [done|lia].
Qed.

Lemma take_while_length p s : String.length (take_while p s).2 ≤ String.length s.
Proof.
  induction s as [|c s IH]; simpl; [lia|]. destruct (p c); [|simpl; lia].
  destruct (take_while p s) as [w r]. simpl in *. lia.
Qed.

Lemma number_frac_length s : String.length (number_frac s).2 ≤ String.length s.
Proof.
  unfold number_frac. destruct s as [|c r]; [done|].
  assert (String.length (let '(w, r') := take_while is_digit r in
    if String.eqb w "" then ("", String c r) else (String "." w, r')).2 ≤ S (String.length r)) as H.
  { pose proof (take_while_length is_digit r). destruct (take_while is_digit r) as [w r'].
    destruct (String.eqb w ""); simpl in *; lia. }
  destruct c as [[] [] [] [] [] [] [] []]; exact H || (simpl; lia).
Qed.

Lemma number_exp_length s : String.length (number_exp s).2 ≤ String.length s.
Proof.
  unfold number_exp. destruct s as [|e r]; [done|].
  destruct (Ascii.eqb e "e" || Ascii.eqb e "E"); [|done].
  destruct (match r with
    | String g r1 => if Ascii.eqb g "+" || Ascii.eqb g "-" then (String g "", r1) else ("", r)
    | "" => ("", r) end) as [sign r1] eqn:Hs.
  assert (String.length r1 ≤ String.length r) as Hr.
  { destruct r as [|g r2]; [by simplify_eq|]. destruct (_ || _); simplify_eq; simpl; lia. }
  pose proof (take_while_length is_digit r1). destruct (take_while is_digit r1) as [w r2].
  destruct (String.eqb w ""); simpl in *; lia.
Qed.

Lemma parse_number_length s v r : parse_number s = Some (v, r) → String.length r < String.length s.
Proof.
  unfold parse_number.
  assert (∀ neg s1, String.length s1 ≤ String.length s →
    match number_int s1 with
    | None => None
    | Some (digits, r) =>
        let '(frac, r1) := number_frac r in
        let '(ex, r2) := number_exp r1 in
        if String.eqb frac "" && String.eqb ex "" then
          let n := int_of_digits digits in Some (VInt (if neg : bool then - n else n)%Z, r2)
        else Some (VFloat ((if neg then "-" else "") +:+ digits +:+ frac +:+ ex), r2)
    end = Some (v, r) → String.length r < String.length s) as H.
  { intros neg s1 Hs1. destruct (number_int s1) as [[digits r0]|] eqn:Hi; [|done].
    assert (String.length r0 < String.length s1) as Hr0.
    { unfold number_int in Hi. destruct s1 as [|c r1]; [done|].
      destruct (Ascii.eqb c "0"); [simplify_eq; simpl; lia|].
      destruct (is_digit c) eqn:Hd; [|done]. simpl in Hi. rewrite Hd in Hi.
      pose proof (take_while_length is_digit r1). destruct (take_while is_digit r1) as [w r2].
      simplify_eq. simpl in *. lia. }
    pose proof (number_frac_length r0). destruct (number_frac r0) as [frac r1]. simpl in *.
    pose proof (number_exp_length r1). destruct (number_exp r1) as [ex r2]. simpl in *.
    cbv zeta. destruct (String.eqb frac "" && String.eqb ex ""); intros [= _ <-]; lia. }
  destruct s as [|c s']; [by apply (H false)|].
  destruct c as [[] [] [] [] [] [] [] []]; (apply (H true) || apply (H false)); simpl; lia.
Qed.

Lemma parse_atom_length s v r : parse_atom s = Some (v, r) → String.length r < String.length s.
Proof.
  unfold parse_atom.
  repeat match goal with
  | |- context [after ?p s] =>
      destruct (after p s) as [?|] eqn:?; [intros [= _ <-]; by apply (after_length p)|]
  end.
  apply parse_number_length.
Qed.

Lemma json_loads_fuel s fuel :
  S (2 * String.length s) ≤ fuel →
  parse_value scan_string parse_atom dict_set fuel (skip_ws s) =
    parse_value scan_string parse_atom dict_set (S (2 * String.length s)) (skip_ws s).
Proof. apply loads_fuel; [apply scan_string_length|apply parse_atom_length]. Qed.
