(* ===== verification/Inventory.v ===== *)
(** * The encrypted host registry (inventory.py)

    Records, key files, the encrypted payload and [upsert].  AES-GCM is the
    parameter [AEAD]; the properties that need it assume [AEADLaws]. *)

From S2P Require Import Prelude PyStr Exceptions Paths Effects Reasoning Values Bytes Json.

#[export] Set Default Goal Selector "!".

Definition KEY_BYTES : nat := 32.
Definition NONCE_BYTES : nat := 12.
Definition TAG_BYTES : nat := 16.

(** [AESGCM(key).encrypt(nonce, data, None)] and [.decrypt]; [None] is
    [InvalidTag]. *)
Class AEAD := {
  aead_seal : bytes → bytes → bytes → bytes;
  aead_open : bytes → bytes → bytes → option bytes }.

(** What the code relies on: opening is exact, and a tag is 16 bytes. *)
Class AEADLaws (aead : AEAD) : Prop := {
  aead_open_seal key nonce plaintext sealed :
    aead_open key nonce sealed = Some plaintext ↔ sealed = aead_seal key nonce plaintext;
  aead_seal_length key nonce plaintext :
    length (aead_seal key nonce plaintext) = length plaintext + TAG_BYTES }.

(** Bytes that are the code points of a text. *)
Fixpoint latin1 (s : string) : bytes :=
  match s with "" => [] | String c s => byte_of_ascii c :: latin1 s end.
Fixpoint latin1_text (b : bytes) : string :=
  match b with [] => "" | x :: b => String (ascii_of_byte x) (latin1_text b) end.

(** ** Records *)

Record InventoryRecord : Type := MkRecord {
  r_hostname : string;
  r_role : string;
  r_ipv4 : string;
  r_ipv6 : string;
  r_status : string;
  r_status_timestamp : string;
  r_state : string;
  r_state_timestamp : string }.

#[export] Instance InventoryRecord_eq_dec : EqDecision InventoryRecord.
Proof. solve_decision. Defined.

Definition _REQUIRED_FIELDS : list string :=
  ["hostname"; "role"; "ipv4"; "ipv6"; "status"; "status_timestamp"; "state"; "state_timestamp"].

Definition to_dict (r : InventoryRecord) : dict :=
  [("hostname", VStr (r_hostname r)); ("role", VStr (r_role r)); ("ipv4", VStr (r_ipv4 r));
   ("ipv6", VStr (r_ipv6 r)); ("status", VStr (r_status r));
   ("status_timestamp", VStr (r_status_timestamp r)); ("state", VStr (r_state r));
   ("state_timestamp", VStr (r_state_timestamp r))].

(** [repr] and [str] of a decoded value. *)
Fixpoint repr_value (v : value) : string :=
  match v with
  | VStr s => py_repr s
  | VInt z => str_of_Z z
  | VBool b => if b then "True" else "False"
  | VFloat r => r
  | VDatetime r => r
  | VNull => "None"
  | VList l => "[" +:+ py_join ", " (map repr_value l) +:+ "]"
  | VDict d => "{" +:+ py_join ", " (map (λ kv, py_repr kv.1 +:+ ": " +:+ repr_value kv.2) d) +:+ "}"
  end.
Definition str_value (v : value) : string := match v with VStr s => s | v => repr_value v end.

Fixpoint insert_str (x : string) (l : list string) : list string :=
  match l with
  | [] => [x]
  | y :: l' => if String.leb x y then x :: l else y :: insert_str x l'
  end.
Definition sorted_strs (l : list string) : list string := foldr insert_str [] l.

Definition from_dict (payload : dict) : res InventoryRecord :=
  let missing := List.filter (λ k, negb (dict_in k payload)) _REQUIRED_FIELDS in
  match missing with
  | _ :: _ => inl (InventoryError
      ("Inventory record is missing required field(s): " +:+ repr_list (sorted_strs missing)))
  | [] =>
      let field k := str_value (default VNull (dict_get k payload)) in
      inr (MkRecord (field "hostname") (field "role") (field "ipv4") (field "ipv6")
             (field "status") (field "status_timestamp") (field "state") (field "state_timestamp"))
  end.

(** ** Keys *)

Definition wrong_key_length (n : nat) : exn :=
  InventoryError ("AES-256 key must be " +:+ pretty KEY_BYTES +:+ " bytes, got " +:+ pretty n).

(** The texts of the base64 and Unicode errors. *)
Definition b64_error : string := "Incorrect padding".
Definition ascii_error : string := "'ascii' codec can't decode the key".

Definition generate_key : M bytes := call (Urandom KEY_BYTES).

Definition write_key_file (key : bytes) (p : path) : M unit :=
  if negb (length key =? KEY_BYTES) then raise (wrong_key_length (length key))
  else
    rewrap (r <- call (Mkdir (parent p)) ;; lift_io r ;;
            r <- call (WriteBytes p (latin1 (b64encode key))) ;; lift_io r)
      COSError (λ exc, InventoryError
        ("Cannot write inventory key to " +:+ str_path p +:+ ": " +:+ str_exn exc)) ;;
    catch (r <- call (Chmod p 384) ;; lift_io r)
      (λ e, if isinstance e COSError then Some (ret tt) else None).

Definition load_key (p : path) : M bytes :=
  raw <- call (ReadBytes p) ;;
  match raw with
  | IoErr exc => raise (InventoryError
      ("Cannot read inventory key at " +:+ str_path p +:+ ": " +:+ exc))
  | IoOk raw =>
      match ascii_decode raw with
      | None => raise (InventoryError
          ("Inventory key at " +:+ str_path p +:+ " is not ASCII base64: " +:+ ascii_error))
      | Some text =>
          match b64decode (py_strip text) with
          | None => raise (InventoryError
              ("Inventory key at " +:+ str_path p +:+ " is not valid base64: " +:+ b64_error))
          | Some key =>
              if length key =? KEY_BYTES then ret key
              else raise (InventoryError
                ("Inventory key at " +:+ str_path p +:+ " decodes to " +:+ pretty (length key)
                 +:+ " bytes, expected " +:+ pretty KEY_BYTES))
          end
      end
  end.

Definition load_or_create_key (p : path) : M bytes :=
  present <- call (IsFile p) ;;
  if present : bool then load_key p
  else key <- generate_key ;; write_key_file key p ;; ret key.

(** ** Payloads *)

Section payloads.
Context {aead : AEAD}.

Definition plaintext_of (records : list InventoryRecord) : bytes :=
  utf8_encode (json_dumps (VList (map (λ r, VDict (to_dict r)) records))).

Definition encrypt_records (records : list InventoryRecord) (key : bytes) : M bytes :=
  if negb (length key =? KEY_BYTES) then raise (wrong_key_length (length key))
  else
    nonce <- call (Urandom NONCE_BYTES) ;;
    ret (latin1 (b64encode (nonce ++ aead_seal key nonce (plaintext_of records)))).

Fixpoint parse_records (index : nat) (decoded : list value) : res (list InventoryRecord) :=
  match decoded with
  | [] => inr []
  | VDict entry :: decoded =>
      r ← from_dict entry;
      rs ← parse_records (S index) decoded;
      inr (r :: rs)
  | _ :: _ => inl (InventoryError
      ("Inventory entry " +:+ pretty index +:+ " is not a JSON object"))
  end.

Definition type_name (v : value) : string :=
  match v with
  | VStr _ => "str" | VInt _ => "int" | VBool _ => "bool" | VFloat _ => "float"
  | VDatetime _ => "datetime" | VNull => "NoneType" | VList _ => "list" | VDict _ => "dict"
  end.

Definition json_error : string := "the plaintext".

Definition decode_plaintext (plaintext : bytes) : res (list InventoryRecord) :=
  match utf8_decode plaintext ≫= json_loads with
  | None => inl (InventoryError
      ("Decrypted inventory is not valid UTF-8 JSON: " +:+ json_error))
  | Some (VList decoded) => parse_records 0 decoded
  | Some v => inl (InventoryError
      ("Decrypted inventory must be a JSON array, got " +:+ type_name v))
  end.

Definition decrypt_records (blob key : bytes) : res (list InventoryRecord) :=
  if negb (length key =? KEY_BYTES) then inl (wrong_key_length (length key))
  else
    match b64decode (latin1_text blob) with
    | None => inl (DecryptionError ("Inventory payload is not valid base64: " +:+ b64_error))
    | Some raw =>
        if length raw <? NONCE_BYTES + TAG_BYTES then
          inl (DecryptionError ("Inventory payload is " +:+ pretty (length raw)
            +:+ " bytes, too short to contain a " +:+ pretty NONCE_BYTES +:+ "-byte nonce and "
            +:+ pretty TAG_BYTES +:+ "-byte tag"))
        else
          match aead_open key (take NONCE_BYTES raw) (drop NONCE_BYTES raw) with
          | None => inl (DecryptionError
              ("Inventory payload failed AES-256-GCM authentication; the key is wrong "
               +:+ "or the ciphertext was truncated, corrupted, or tampered with"))
          | Some plaintext => decode_plaintext plaintext
          end
    end.
End payloads.

(** ** The registry *)

Fixpoint upsert (records : list InventoryRecord) (candidate : InventoryRecord) :
    list InventoryRecord :=
  match records with
  | [] => [candidate]
  | existing :: records =>
      if String.eqb (r_hostname existing) (r_hostname candidate) then candidate :: records
      else existing :: upsert records candidate
  end.

(** ** Facts *)

Lemma latin1_text_latin1 s : latin1_text (latin1 s) = s.
Proof. induction s as [|c s IH]; [done|]. simpl. by rewrite ascii_of_byte_of_ascii, IH. Qed.

Definition b64_alphabet (c : ascii) : bool :=
  is_alnum c || Ascii.eqb c "+" || Ascii.eqb c "/" || Ascii.eqb c "=".

Lemma b64_char_alphabet n : (n < 64)%N → b64_alphabet (b64_char n) = true.
Proof.
  intros Hn.
  assert (forallb (λ n, b64_alphabet (b64_char n)) (N.of_nat <$> seq 0 64) = true) as H
    by by vm_compute.
  rewrite forallb_forall in H. apply H, list_elem_of_In, list_elem_of_fmap.
  exists (N.to_nat n). rewrite elem_of_seq. lia.
Qed.

Lemma b64encode_alphabet b : str_forall b64_alphabet (b64encode b) = true.
Proof.
  induction b as [b IH] using (induction_ltof1 _ (@length _)); unfold ltof in IH.
  assert (∀ x s, (x < 64)%N → str_forall b64_alphabet (String (b64_char x) s)
    = str_forall b64_alphabet s) as Hc.
  { intros x s Hx. simpl. by rewrite b64_char_alphabet. }
  destruct b as [|x [|y [|z b]]]; [done|..]; cbn [b64encode]; cbv zeta;
    pose proof (byte_N_lt x); try pose proof (byte_N_lt y); try pose proof (byte_N_lt z);
    rewrite !Hc; try done; try (apply N.mod_lt; lia); try (apply N.Div0.div_lt_upper_bound; lia).
  apply IH. simpl. lia.
Qed.

Lemma str_forall_impl (p q : ascii → bool) s :
  (∀ c, p c = true → q c = true) → str_forall p s = true → str_forall q s = true.
Proof.
  intros H. induction s as [|c s IH]; [done|]. simpl. intros [Hc Hs]%andb_prop.
  by rewrite (H _ Hc), IH.
Qed.

Lemma b64_is_ascii c : b64_alphabet c = true → is_ascii c = true.
Proof. by destruct c as [[] [] [] [] [] [] [] []]. Qed.

Lemma b64_not_space c : b64_alphabet c = true → negb (is_space c) = true.
Proof. by destruct c as [[] [] [] [] [] [] [] []]. Qed.

Lemma latin1_ascii s : str_forall is_ascii s = true → ascii_decode (latin1 s) = Some s.
Proof.
  intros Hs. apply ascii_encode_decode. unfold ascii_encode. rewrite Hs. f_equal.
  induction s as [|c s IH]; [done|]. simpl in Hs. apply andb_prop in Hs as [Hc Hs].
  simpl. rewrite IH by done. unfold utf8_encode_char. unfold is_ascii in Hc. by rewrite Hc.
Qed.

Lemma strip_no_space s : str_forall (λ c, negb (is_space c)) s = true → py_strip s = s.
Proof.
  intros Hs. assert (lstrip_by is_space s = s) as Hl.
  { destruct s as [|c s]; [done|]. simpl in *. by destruct (is_space c). }
  unfold py_strip. rewrite Hl. clear Hl. induction s as [|c s IH]; [done|]. simpl in *.
  apply andb_prop in Hs as [Hc Hs]. rewrite IH by done. destruct s; [|done].
  by destruct (is_space c).
Qed.

(** The text of a key file decodes to the key. *)
Lemma key_text key :
  ascii_decode (latin1 (b64encode key)) = Some (b64encode key) ∧
  py_strip (b64encode key) = b64encode key.
Proof.
  pose proof (b64encode_alphabet key) as H. split.
  - apply latin1_ascii. eapply str_forall_impl; [apply b64_is_ascii|done].
  - apply strip_no_space. eapply str_forall_impl; [apply b64_not_space|done].
Qed.

Definition inventory_error (e : exn) : Prop :=
  class_of e = CInventoryError ∨ class_of e = CDecryptionError.

Lemma from_dict_error payload e : from_dict payload = inl e → class_of e = CInventoryError.
Proof. unfold from_dict. case_match; [done|]. by intros [= <-]. Qed.

Lemma parse_records_error index l e : parse_records index l = inl e → class_of e = CInventoryError.
Proof.
  revert index. induction l as [|v l IH]; intros index; simpl; [done|].
  destruct v; try by intros [= <-].
  intros [?%from_dict_error|(r & _ & H)]%res_bind_inl; [done|].
  by apply res_bind_inl in H as [?%IH|(? & _ & ?)].
Qed.

Lemma decode_plaintext_error p e : decode_plaintext p = inl e → class_of e = CInventoryError.
Proof.
  unfold decode_plaintext. destruct (utf8_decode p ≫= json_loads) as [[]|]; try by intros [= <-].
  apply parse_records_error.
Qed.

Lemma records_plain rs : plain (VList (map (λ r, VDict (to_dict r)) rs)) = true.
Proof.
  cbn [plain]. induction rs as [|r rs IH]; [done|]. cbn [map forallb]. rewrite IH, andb_true_r.
  cbn [plain to_dict forallb snd]. rewrite !andb_true_r. by vm_compute.
Qed.

Lemma from_sorted_dict r :
  ∃ d, sort_value (VDict (to_dict r)) = VDict d ∧ from_dict d = inr r.
Proof. eexists. split; [reflexivity|]. by destruct r. Qed.

Lemma parse_sorted_records index rs :
  parse_records index (map sort_value (map (λ r, VDict (to_dict r)) rs)) = inr rs.
Proof.
  revert index. induction rs as [|r rs IH]; intros index; [done|]. cbn [map].
  destruct (from_sorted_dict r) as (d & -> & Hd). cbn [parse_records].
  rewrite Hd. cbn [mbind res_bind]. by rewrite IH.
Qed.

(** The plaintext of the records decodes to the records. *)
Lemma decode_plaintext_of rs : decode_plaintext (plaintext_of rs) = inr rs.
Proof.
  unfold decode_plaintext, plaintext_of. rewrite utf8_decode_encode.
  change (Some ?x ≫= json_loads) with (json_loads x).
  rewrite json_loads_dumps by apply records_plain. apply parse_sorted_records.
Qed.

Lemma load_key_returns p : returns (load_key p) (λ key, length key = KEY_BYTES).
Proof.
  unfold load_key. apply returns_bind_any. intros [raw|exc]; [|apply returns_raise].
  destruct (ascii_decode raw); [|apply returns_raise].
  destruct (b64decode _) as [key|]; [|apply returns_raise].
  destruct (Nat.eqb_spec (length key) KEY_BYTES); [by apply returns_ret|apply returns_raise].
Qed.

(** Key material is read and written, and nothing else happens. *)
Definition key_call (ev : event) : Prop :=
  match ev_eff ev with
  | ReadBytes _ | WriteBytes _ _ | Mkdir _ | Chmod _ _ | IsFile _ | Urandom _ => True
  | _ => False
  end.

Lemma load_key_emits p : emits key_call (λ e, class_of e = CInventoryError) (load_key p).
Proof. unfold load_key. by emits_auto. Qed.

Lemma write_key_file_emits key p :
  emits key_call (λ e, class_of e = CInventoryError) (write_key_file key p).
Proof.
  unfold write_key_file. destruct (negb _); [by apply emits_raise|].
  apply emits_bind; [|intros _].
  - unfold rewrap. apply (emits_catch _ _ (λ e, class_of e = COSError)); [by emits_auto|].
    intros e He. by destruct e; try done; apply emits_raise.
  - apply (emits_catch _ _ (λ e, class_of e = COSError)); [by emits_auto|].
    intros e He. by destruct e; try done; apply emits_ret.
Qed.

Lemma load_or_create_key_emits p :
  emits key_call (λ e, class_of e = CInventoryError) (load_or_create_key p).
Proof.
  unfold load_or_create_key, generate_key.
  apply emits_bind; [by emits_auto|intros present]. destruct present; [apply load_key_emits|].
  apply emits_bind; [refine (emits_call _ _ (Urandom _) _); done|intros key].
  apply emits_bind; [apply write_key_file_emits|intros _; apply emits_ret].
Qed.

(** ** Properties *)

(** [os.urandom(n)] returns [n] bytes. *)
Definition urandom_ok (ev : event) : Prop :=
  match ev with Ev (Urandom n) r => length (r : bytes) = n | _ => True end.

(** The payload is one sealed under the key, with the nonce it carries. *)
Definition sealed_payload {aead : AEAD} (blob key plaintext : bytes) : Prop :=
  ∃ nonce, length nonce = NONCE_BYTES ∧
    b64decode (latin1_text blob) = Some (nonce ++ aead_seal key nonce plaintext).

Lemma encrypt_opens {aead : AEAD} {laws : AEADLaws aead} records key s t blob s' :
  runs (encrypt_records records key) s t (Ok blob) s' → Forall urandom_ok t →
  decrypt_records blob key = inr records.
Proof.
  intros H Ht. unfold encrypt_records in H.
  destruct (Nat.eqb_spec (length key) KEY_BYTES) as [Hk|Hk]; cbn [negb] in H; [|run_inv1 H].
  apply runs_bind in H as [(nonce & s1 & t1 & t2 & -> & H1 & H2)|[(e & [=] & _)|[[=] _]]].
  apply runs_call in H1 as (n & -> & [= <-] & ->). apply runs_ret in H2 as (-> & [= ->] & ->).
  apply Forall_app in Ht as [[Hn _]%Forall_cons _]. cbn [urandom_ok] in Hn.
  unfold decrypt_records. rewrite Hk, Nat.eqb_refl. cbn [negb].
  rewrite latin1_text_latin1, b64decode_encode, length_app, Hn, aead_seal_length.
  destruct (Nat.ltb_spec (NONCE_BYTES + (length (plaintext_of records) + TAG_BYTES))
    (NONCE_BYTES + TAG_BYTES)) as [?|_]; [lia|].
  rewrite take_app_length', drop_app_length' by done.
  rewrite (proj2 (aead_open_seal key nonce (plaintext_of records) _) eq_refl).
  apply decode_plaintext_of.
Qed.

(** What is encrypted decrypts to the same records, in the same order,
    whatever texts the records hold. *)
Theorem encrypt_decrypt {aead : AEAD} {laws : AEADLaws aead} records key s t blob s' :
  runs (encrypt_records records key) s t (Ok blob) s' → Forall urandom_ok t →
  decrypt_records blob key = inr records.
Proof. apply encrypt_opens. Qed.

(** A cipher that satisfies the laws: the tag is the sixteen first bytes of
    the key. *)
Definition toy_tag (key : bytes) : bytes := take TAG_BYTES (key ++ replicate TAG_BYTES Byte.x00).
Definition toy_aead : AEAD := {|
  aead_seal key nonce plaintext := plaintext ++ toy_tag key;
  aead_open key nonce sealed :=
    let n := length sealed - TAG_BYTES in
    if decide (drop n sealed = toy_tag key) then Some (take n sealed) else None |}.

Lemma toy_tag_length key : length (toy_tag key) = TAG_BYTES.
Proof. unfold toy_tag. rewrite length_take, length_app, length_replicate. lia. Qed.

Lemma toy_laws : AEADLaws toy_aead.
Proof.
  split; cbn [aead_open aead_seal toy_aead].
  - intros key nonce plaintext sealed. cbv zeta. split.
    + case_decide as Hd; [|done]. intros [= <-]. by rewrite <- Hd, take_drop.
    + intros ->. rewrite length_app, toy_tag_length, Nat.add_sub.
      rewrite drop_app_length, take_app_length. by rewrite decide_True.
  - intros. by rewrite length_app, toy_tag_length.
Qed.

Definition sample_key : bytes := replicate 32 Byte.x41.
Definition sample_record : InventoryRecord :=
  MkRecord "web-1" "backend" "10.0.0.5" "" "Deployed" "2024-01-01T00:00:00Z" "Active"
    ("caf" +:+ String "233" (dq +:+ "\")).
Definition sample_blob : bytes :=
  match outcome_in (λ e w, (default_resp e, w)) (encrypt_records (aead := toy_aead)
    [sample_record] sample_key) tt with Ok b => b | _ => [] end.

Lemma encrypt_decrypt_witness :
  decrypt_records (aead := toy_aead) sample_blob sample_key = inr [sample_record].
Proof.
  destruct (run_in_runs (λ e (w : unit), (default_resp e, w))
    (encrypt_records (aead := toy_aead) [sample_record] sample_key) tt) as [s' H].
  refine (encrypt_decrypt (laws := toy_laws) [sample_record] sample_key [] _ sample_blob s' _ _).
  - exact H.
  - vm_compute. by repeat constructor.
Defined.

(** C34: decryption under a key of 32 bytes accepts exactly the payloads sealed
    under that key: for those the result is the decoding of the plaintext
    that was sealed, and for every other payload, damaged, truncated, not
    base64 or sealed under another key, it is [DecryptionError]. *)
Theorem decrypt_only_sealed {aead : AEAD} {laws : AEADLaws aead} blob key :
  length key = KEY_BYTES →
  (∀ plaintext, sealed_payload blob key plaintext →
     decrypt_records blob key = decode_plaintext plaintext) ∧
  ((¬ ∃ plaintext, sealed_payload blob key plaintext) ↔
   ∃ e, decrypt_records blob key = inl e ∧ class_of e = CDecryptionError).
Proof.
  intros Hk.
  assert (∀ plaintext, sealed_payload blob key plaintext →
    decrypt_records blob key = decode_plaintext plaintext) as Hok.
  { intros p (nonce & Hn & Hb). unfold decrypt_records. rewrite Hk, Nat.eqb_refl. cbn [negb].
    rewrite Hb, length_app, Hn, aead_seal_length.
    destruct (Nat.ltb_spec (NONCE_BYTES + (length p + TAG_BYTES)) (NONCE_BYTES + TAG_BYTES))
      as [?|_]; [lia|].
    rewrite take_app_length', drop_app_length' by done.
    by rewrite (proj2 (aead_open_seal key nonce p _) eq_refl). }
  split; [done|]. split.
  - intros Hno. unfold decrypt_records in *. rewrite Hk, Nat.eqb_refl. cbn [negb].
    destruct (b64decode (latin1_text blob)) as [raw|] eqn:Hb; [|by eexists].
    destruct (Nat.ltb_spec (length raw) (NONCE_BYTES + TAG_BYTES)); [by eexists|].
    destruct (aead_open _ _ _) as [p|] eqn:Ho; [|by eexists].
    exfalso. apply Hno. exists p, (take NONCE_BYTES raw). split; [rewrite length_take; lia|].
    apply aead_open_seal in Ho. by rewrite <- Ho, take_drop.
  - intros (e & He & Hc) (p & Hp). rewrite (Hok p Hp) in He.
    apply decode_plaintext_error in He. congruence.
Qed.

Lemma decrypt_only_sealed_witness :
  ∃ e, decrypt_records (aead := toy_aead) sample_blob (replicate 32 Byte.x42) = inl e ∧
    class_of e = CDecryptionError.
Proof.
  apply (proj2 (decrypt_only_sealed (laws := toy_laws) sample_blob (replicate 32 Byte.x42)
    ltac:(done))).
  intros (p & nonce & Hn & Hb).
  assert (last <$> b64decode (latin1_text sample_blob) = Some (Some Byte.x41)) as Hl
    by by vm_compute.
  rewrite Hb in Hl. cbn [aead_seal toy_aead fmap option_fmap option_map] in Hl.
  rewrite !last_app in Hl. vm_compute in Hl. done.
Defined.

(** A key file with this content gives this key. *)
Definition key_reads (p : path) (payload key : bytes) : Prop :=
  ∀ s t o s', runs (load_key p) s t o s' →
    (∀ r, Ev (ReadBytes p) r ∈ t → r = IoOk payload) → o = Ok key.

Lemma write_key_file_reads key p s t s1 :
  runs (write_key_file key p) s t (Ok tt) s1 →
  length key = KEY_BYTES ∧
  ∃ payload, Ev (WriteBytes p payload) (IoOk tt) ∈ t ∧ key_reads p payload key.
Proof.
  intros H. unfold write_key_file in H.
  destruct (Nat.eqb_spec (length key) KEY_BYTES) as [Hk|Hk]; cbn [negb] in H; [|run_inv1 H].
  split; [done|]. exists (latin1 (b64encode key)). split.
  - apply runs_bind in H as [(u & s2 & t1 & t2 & -> & H1 & _)|[(e & [=] & _)|[[=] _]]].
    apply elem_of_app. left.
    apply runs_catch in H1 as [(e & m' & s3 & t3 & t4 & -> & _ & He & H1)|[H1 _]].
    { case_match; simplify_eq. run_inv1 H1. }
    apply runs_bind in H1 as [(r & s3 & t3 & t4 & -> & _ & H1)|[(e & [=] & _)|[[=] _]]].
    apply runs_bind in H1 as [(u' & s4 & t5 & t6 & -> & _ & H1)|[(e & [=] & _)|[[=] _]]].
    apply runs_bind in H1 as [(r' & s5 & t7 & t8 & -> & H2 & H1)|[(e & [=] & _)|[[=] _]]].
    apply runs_call in H2 as (r'' & -> & [= <-] & ->).
    destruct r' as [[]|exc]; [|by apply runs_raise in H1 as (_ & ? & _)].
    rewrite !elem_of_app. do 2 right. left. left.
  - intros s2 t2 o s3 H2 Hread. unfold load_key in H2.
    apply runs_bind in H2 as [(r & s4 & t3 & t4 & -> & H3 & H4)|[(e & -> & H3)|[-> H3]]];
      [|by run_inv1 H3..].
    apply runs_call in H3 as (r' & -> & [= <-] & ->).
    rewrite (Hread r) in H4 by (apply elem_of_app; left; left).
    destruct (key_text key) as [Ht Hs]. rewrite Ht, Hs, b64decode_encode, Hk in H4.
    cbn [Nat.eqb KEY_BYTES] in H4. by run_inv1 H4.
Qed.

(** Two readings of the same content agree. *)
Lemma load_key_reads p s t key s1 :
  runs (load_key p) s t (Ok key) s1 →
  ∃ payload, Ev (ReadBytes p) (IoOk payload) ∈ t ∧ key_reads p payload key.
Proof.
  intros H. unfold load_key in H.
  apply runs_bind in H as [(r & s2 & t1 & t2 & -> & H1 & H)|[(e & [=] & _)|[[=] _]]].
  apply runs_call in H1 as (r' & -> & [= <-] & ->).
  destruct r as [payload|exc]; [|run_inv1 H]. exists payload. split; [left|].
  intros s3 t3 o s4 H3 Hread. unfold load_key in H3.
  apply runs_bind in H3 as [(r & s5 & t4 & t5 & -> & H4 & H3)|[(e & -> & H3)|[-> H3]]];
    [|by run_inv1 H3..].
  apply runs_call in H4 as (r' & -> & [= <-] & ->).
  rewrite (Hread r) in H3 by (apply elem_of_app; left; left).
  destruct (ascii_decode payload); [|run_inv1 H]. destruct (b64decode _); [|run_inv1 H].
  destruct (_ =? _); [|run_inv1 H]. run_inv1 H. by run_inv1 H3.
Qed.

(** A key that was written is the key that is read back: a key file
    whose content is what [write_key_file] wrote gives the key, and a key that
    [load_key] returns always has 32 bytes. *)
Theorem key_file_round_trip key p s t s1 :
  runs (write_key_file key p) s t (Ok tt) s1 →
  length key = KEY_BYTES ∧
  ∃ payload, Ev (WriteBytes p payload) (IoOk tt) ∈ t ∧
    ∀ s2 t2 o s3, runs (load_key p) s2 t2 o s3 →
      (∀ r, Ev (ReadBytes p) r ∈ t2 → r = IoOk payload) → o = Ok key.
Proof. apply write_key_file_reads. Qed.

Definition quiet_world : handler unit := λ e w, (default_resp e, w).

Lemma key_file_round_trip_witness :
  let p := Path "/keys/inventory.key" in
  ∃ payload, Ev (WriteBytes p payload) (IoOk tt) ∈ trace_in quiet_world (write_key_file sample_key p) tt ∧
    ∀ s2 t2 o s3, runs (load_key p) s2 t2 o s3 →
      (∀ r, Ev (ReadBytes p) r ∈ t2 → r = IoOk payload) → o = Ok sample_key.
Proof.
  intros p. destruct (run_in_runs quiet_world (write_key_file sample_key p) tt) as [s' H].
  assert (outcome_in quiet_world (write_key_file sample_key p) tt = Ok tt) as Ho by by vm_compute.
  rewrite Ho in H. exact (proj2 (key_file_round_trip _ _ _ _ _ H)).
Defined.

Definition record_of (hostname : string) (records : list InventoryRecord) : option InventoryRecord :=
  List.find (λ r, String.eqb (r_hostname r) hostname) records.

Lemma upsert_hostnames records c :
  r_hostname <$> upsert records c =
  if bool_decide (r_hostname c ∈ r_hostname <$> records) then r_hostname <$> records
  else (r_hostname <$> records) ++ [r_hostname c].
Proof.
  induction records as [|r records IH]; simpl; [done|].
  destruct (String.eqb_spec (r_hostname r) (r_hostname c)) as [He|Hne].
  - rewrite bool_decide_eq_true_2 by (rewrite He; left). by rewrite fmap_cons, He.
  - rewrite fmap_cons, IH. case_bool_decide as Hin.
    + by rewrite bool_decide_eq_true_2 by (by right).
    + rewrite bool_decide_eq_false_2; [done|]. by intros [|]%elem_of_cons.
Qed.

Lemma upsert_lookup records c h :
  record_of h (upsert records c) =
  if String.eqb (r_hostname c) h then Some c else record_of h records.
Proof.
  unfold record_of. induction records as [|r records IH]; simpl; [done|].
  destruct (String.eqb_spec (r_hostname r) (r_hostname c)) as [He|Hne]; simpl.
  - rewrite He. by destruct (String.eqb (r_hostname c) h).
  - destruct (String.eqb_spec (r_hostname r) h) as [<-|]; [|done].
    by destruct (String.eqb_spec (r_hostname c) (r_hostname r)); [congruence|].
Qed.

Lemma upsert_NoDup records c :
  NoDup (r_hostname <$> records) → NoDup (r_hostname <$> upsert records c).
Proof.
  intros Hn. rewrite upsert_hostnames. case_bool_decide; [done|].
  apply NoDup_app. split_and!; [done| |apply NoDup_singleton].
  by intros x Hx ->%list_elem_of_singleton.
Qed.

(** [upsert] is a map update that keeps positions: looking a host up gives
    the new record for the candidate's host and the old answer for every
    other; a host already present keeps its place and the others theirs, a new
    host comes last; hostnames stay distinct; and a second time changes
    nothing. *)
Theorem upsert_spec records candidate :
  (∀ h, record_of h (upsert records candidate) =
     if String.eqb (r_hostname candidate) h then Some candidate else record_of h records) ∧
  r_hostname <$> upsert records candidate =
    (if bool_decide (r_hostname candidate ∈ r_hostname <$> records) then r_hostname <$> records
     else (r_hostname <$> records) ++ [r_hostname candidate]) ∧
  (NoDup (r_hostname <$> records) → NoDup (r_hostname <$> upsert records candidate)) ∧
  upsert (upsert records candidate) candidate = upsert records candidate.
Proof.
  split_and!; eauto using upsert_lookup, upsert_hostnames, upsert_NoDup.
  induction records as [|r records IH]; simpl; [by rewrite String.eqb_refl|].
  destruct (String.eqb_spec (r_hostname r) (r_hostname candidate)) as [He|Hne]; simpl.
  - by rewrite String.eqb_refl.
  - rewrite IH. by destruct (String.eqb_spec (r_hostname r) (r_hostname candidate)).
Qed.
