(* ===== verification/Config.v ===== *)
(** * Cluster configuration (config.py)

    The configuration records, the field readers, the deep merge of the local
    overlay over the base document, and [load_cluster_config].  TOML parsing
    is the parameter [TomlParser]; everything after it is the source's own
    code.  [valid_config] states what a loaded configuration guarantees. *)

From S2P Require Import Prelude PyStr Exceptions Paths Effects Reasoning Values Bytes.

#[export] Set Default Goal Selector "!".

(** [tomllib.loads]: the document, or the text of the parse error. *)
Class TomlParser := tomllib_loads : string → string + dict.

Definition _MIN_PORT : Z := 1.
Definition _MAX_PORT : Z := 65535.
Definition _MIN_MEMORY_MB : Z := 512.

Inductive HostRole : Type := JUMP | BACKEND.

#[export] Instance HostRole_eq_dec : EqDecision HostRole.
Proof. solve_decision. Defined.

Definition role_value (r : HostRole) : string :=
  match r with JUMP => "jump" | BACKEND => "backend" end.

Record SSHConfig : Type := MkSSHConfig {
  user : string;
  key_path : path;
  connect_timeout_seconds : Z;
  command_timeout_seconds : Z }.

Record VirtualBoxConfig : Type := MkVirtualBoxConfig {
  vboxmanage : path;
  template_vm : string;
  template_ova : path;
  template_image_ref : string;
  memory_mb : Z;
  cpus : Z;
  boot_timeout_seconds : Z }.

Record HostConfig : Type := MkHostConfig {
  vm_name : string;
  hostname : string;
  role : HostRole;
  http_port : Z }.

Record InventoryConfig : Type := MkInventoryConfig {
  service_port : Z;
  remote_dir : string;
  key_file : path;
  datastore_name : string;
  manifest_file : path }.

Record WebsiteConfig : Type := MkWebsiteConfig {
  source_url : string;
  archive_url : string;
  document_root : string }.

Record BuildConfig : Type := MkBuildConfig {
  go_version : string;
  go_sha256 : string }.

Record ClusterConfig : Type := MkClusterConfig {
  ssh : SSHConfig;
  virtualbox : VirtualBoxConfig;
  jump : HostConfig;
  backends : list HostConfig;
  inventory : InventoryConfig;
  website : WebsiteConfig;
  build : BuildConfig }.

Definition all_hosts (config : ClusterConfig) : list HostConfig :=
  jump config :: backends config.

Definition vm_names (config : ClusterConfig) : list string := vm_name <$> all_hosts config.

(** ** Field readers *)

Definition _section (data : dict) (name : string) : res dict :=
  match dict_get name data with
  | Some (VDict d) => inr d
  | _ => inl (ConfigurationError
      ("Missing or malformed [" +:+ name +:+ "] table in cluster configuration"))
  end.

Definition _require_str (section : dict) (key context : string) : res string :=
  let error := ConfigurationError
    ("[" +:+ context +:+ "] requires a non-empty string field '" +:+ key +:+ "'") in
  match dict_get key section with
  | Some (VStr s) => if String.eqb (py_strip s) "" then inl error else inr (py_strip s)
  | _ => inl error
  end.

Definition _optional_str (section : dict) (key default : string) : string :=
  match dict_get key section with
  | Some (VStr s) => if String.eqb (py_strip s) "" then default else py_strip s
  | _ => default
  end.

Definition _require_int (section : dict) (key context : string) (minimum : Z) : res Z :=
  match dict_get key section with
  | Some (VInt n) =>
      if (n <? minimum)%Z then
        inl (ConfigurationError ("[" +:+ context +:+ "] field '" +:+ key
          +:+ "' must be >= " +:+ str_of_Z minimum +:+ ", got " +:+ str_of_Z n))
      else inr n
  | _ => inl (ConfigurationError
      ("[" +:+ context +:+ "] requires an integer field '" +:+ key +:+ "'"))
  end.

Definition _require_port (section : dict) (key context : string) : res Z :=
  port ← _require_int section key context _MIN_PORT;
  if (_MAX_PORT <? port)%Z then
    inl (ConfigurationError ("[" +:+ context +:+ "] field '" +:+ key
      +:+ "' must be <= " +:+ str_of_Z _MAX_PORT +:+ ", got " +:+ str_of_Z port))
  else inr port.

(** [os.path.expanduser]. *)
Definition expanduser (s : string) : M string :=
  match tilde_user s with
  | None => ret s
  | Some (None, tl) =>
      environ <- call Environ ;;
      match env_get environ "HOME" with
      | Some home => ret (expand_home home tl)
      | None =>
          home <- call (PasswdDir None) ;;
          ret (match home with Some h => expand_home h tl | None => s end)
      end
  | Some (Some name, tl) =>
      home <- call (PasswdDir (Some name)) ;;
      ret (match home with Some h => expand_home h tl | None => s end)
  end.

Definition _require_path (section : dict) (key context : string) : M path :=
  raw_value <- lift_res (_require_str section key context) ;;
  environ <- call Environ ;;
  expanded <- expanduser (expandvars environ raw_value) ;;
  if has_char "%" expanded || has_char "$" expanded then
    raise (ConfigurationError ("[" +:+ context +:+ "] field '" +:+ key
      +:+ "' still contains an unexpanded environment variable after expansion: "
      +:+ py_repr expanded +:+ ". Check the variable is set."))
  else ret (Path expanded).

Definition backend_context (index : nat) : string := "backend[" +:+ pretty index +:+ "]".

Definition parse_backend (index : nat) (entry : value) : res HostConfig :=
  match entry with
  | VDict e =>
      let context := backend_context index in
      vm ← _require_str e "vm_name" context;
      hn ← _require_str e "hostname" context;
      port ← _require_port e "http_port" context;
      inr (MkHostConfig vm hn BACKEND port)
  | _ => inl (ConfigurationError ("[[backend]] entry " +:+ pretty index +:+ " is not a table"))
  end.

Fixpoint parse_entries (index : nat) (raw : list value) : res (list HostConfig) :=
  match raw with
  | [] => inr []
  | entry :: raw =>
      b ← parse_backend index entry;
      bs ← parse_entries (S index) raw;
      inr (b :: bs)
  end.

Definition _parse_backends (raw : option value) : res (list HostConfig) :=
  match raw with
  | Some (VList raw) =>
      if decide (length raw < 2) then
        inl (ConfigurationError
          ("At least two [[backend]] tables are required to validate load balancing distribution, found "
           +:+ pretty (length raw)))
      else
        bs ← parse_entries 0 raw;
        let names := vm_name <$> bs in
        if has_duplicates names then
          inl (ConfigurationError ("Duplicate backend vm_name values: " +:+ repr_list names))
        else inr bs
  | _ => inl (ConfigurationError
      "Cluster configuration requires an array of [[backend]] tables")
  end.

(** ** The overlay *)

(** One key of the overlay against what the base holds for it. *)
Fixpoint merge_value (existing : option value) (v : value) {struct v} : value :=
  match existing, v with
  | Some (VDict base), VDict overlay =>
      VDict
        ((fix go (merged : dict) (overlay : list (string * value)) : dict :=
            match overlay with
            | [] => merged
            | (key, x) :: overlay =>
                go (dict_set key (merge_value (dict_get key merged) x) merged) overlay
            end) base overlay)
  | _, _ => v
  end.

Fixpoint _deep_merge (merged overlay : dict) : dict :=
  match overlay with
  | [] => merged
  | (key, x) :: overlay =>
      _deep_merge (dict_set key (merge_value (dict_get key merged) x) merged) overlay
  end.

(** ** Loading *)

Definition utf8_error : string := "'utf-8' codec can't decode the document".

Section load.
Context {toml : TomlParser}.

Definition _load_toml (p : path) : M dict :=
  raw <- call (ReadBytes p) ;;
  match raw with
  | IoErr exc => raise (ConfigurationError
      ("Cannot read cluster configuration at " +:+ str_path p +:+ ": " +:+ exc))
  | IoOk raw_bytes =>
      match utf8_decode raw_bytes with
      | None => raise (ConfigurationError
          ("Invalid TOML in " +:+ str_path p +:+ ": " +:+ utf8_error))
      | Some text =>
          match tomllib_loads text with
          | inl exc => raise (ConfigurationError
              ("Invalid TOML in " +:+ str_path p +:+ ": " +:+ exc))
          | inr document => ret document
          end
      end
  end.

Definition local_overlay_path (p : path) : M path :=
  match with_name p (path_stem p +:+ ".local" +:+ path_suffix p) with
  | Some q => ret q
  | None => raise (ValueError (py_repr (str_path p) +:+ " has an empty name"))
  end.

Definition _validate_cross_references (config : ClusterConfig) : res unit :=
  if has_duplicates (vm_names config) then
    inl (ConfigurationError
      ("Cluster vm_name values must be unique, got " +:+ repr_list (vm_names config)))
  else if bool_decide (template_vm (virtualbox config) ∈ vm_names config) then
    inl (ConfigurationError
      ("template_vm '" +:+ template_vm (virtualbox config)
       +:+ "' collides with a cluster VM name; the golden template must remain a separate machine"))
  else if (service_port (inventory config) =? http_port (jump config))%Z then
    inl (ConfigurationError
      ("inventory.service_port (" +:+ str_of_Z (service_port (inventory config))
       +:+ ") collides with jump.http_port (" +:+ str_of_Z (http_port (jump config)) +:+ ")"))
  else inr tt.

(** [os.environ.get("VMDEPLOY_SSH_USER")] written into the [ssh] table. *)
Definition override_user (environ : list (string * string)) (document : dict) : dict :=
  let env_user := py_strip (default "" (env_get environ "VMDEPLOY_SSH_USER")) in
  if String.eqb env_user "" then document
  else match dict_get "ssh" document with
       | Some (VDict ssh_section) =>
           dict_set "ssh" (VDict (dict_set "user" (VStr env_user) ssh_section)) document
       | _ => document
       end.

Definition build_config (document : dict) : M ClusterConfig :=
  ssh_table <- lift_res (_section document "ssh") ;;
  vbox_table <- lift_res (_section document "virtualbox") ;;
  jump_table <- lift_res (_section document "jump") ;;
  inventory_table <- lift_res (_section document "inventory") ;;
  website_table <- lift_res (_section document "website") ;;
  build_table <- lift_res (_section document "build") ;;
  ssh_user <- lift_res (_require_str ssh_table "user" "ssh") ;;
  ssh_key <- _require_path ssh_table "key_path" "ssh" ;;
  connect_timeout <- lift_res (_require_int ssh_table "connect_timeout_seconds" "ssh" 1) ;;
  command_timeout <- lift_res (_require_int ssh_table "command_timeout_seconds" "ssh" 1) ;;
  vbox_exe <- _require_path vbox_table "vboxmanage" "virtualbox" ;;
  template <- lift_res (_require_str vbox_table "template_vm" "virtualbox") ;;
  ova <- _require_path vbox_table "template_ova" "virtualbox" ;;
  let image_ref := _optional_str vbox_table "template_image_ref" "" in
  memory <- lift_res (_require_int vbox_table "memory_mb" "virtualbox" _MIN_MEMORY_MB) ;;
  ncpus <- lift_res (_require_int vbox_table "cpus" "virtualbox" 1) ;;
  boot <- lift_res (_require_int vbox_table "boot_timeout_seconds" "virtualbox" 30) ;;
  jump_vm <- lift_res (_require_str jump_table "vm_name" "jump") ;;
  jump_hostname <- lift_res (_require_str jump_table "hostname" "jump") ;;
  jump_port <- lift_res (_require_port jump_table "http_port" "jump") ;;
  backend_hosts <- lift_res (_parse_backends (dict_get "backend" document)) ;;
  inv_port <- lift_res (_require_port inventory_table "service_port" "inventory") ;;
  inv_dir <- lift_res (_require_str inventory_table "remote_dir" "inventory") ;;
  inv_key <- _require_path inventory_table "key_file" "inventory" ;;
  inv_store <- lift_res (_require_str inventory_table "datastore_name" "inventory") ;;
  inv_manifest <- _require_path inventory_table "manifest_file" "inventory" ;;
  site_url <- lift_res (_require_str website_table "source_url" "website") ;;
  site_archive <- lift_res (_require_str website_table "archive_url" "website") ;;
  site_root <- lift_res (_require_str website_table "document_root" "website") ;;
  go_v <- lift_res (_require_str build_table "go_version" "build") ;;
  go_sha <- lift_res (_require_str build_table "go_sha256" "build") ;;
  let config :=
    MkClusterConfig
      (MkSSHConfig ssh_user ssh_key connect_timeout command_timeout)
      (MkVirtualBoxConfig vbox_exe template ova image_ref memory ncpus boot)
      (MkHostConfig jump_vm jump_hostname JUMP jump_port)
      backend_hosts
      (MkInventoryConfig inv_port inv_dir inv_key inv_store inv_manifest)
      (MkWebsiteConfig site_url site_archive site_root)
      (MkBuildConfig go_v go_sha) in
  lift_res (_validate_cross_references config) ;;
  ret config.

Definition load_cluster_config (p : path) : M ClusterConfig :=
  document <- _load_toml p ;;
  overlay_path <- local_overlay_path p ;;
  present <- call (IsFile overlay_path) ;;
  document <-
    (if present : bool then
       overlay <- _load_toml overlay_path ;; ret (_deep_merge document overlay)
     else ret document) ;;
  environ <- call Environ ;;
  build_config (override_user environ document).
End load.

(** ** What a loaded configuration guarantees *)

Definition required_text (s : string) : Prop := s ≠ "" ∧ py_strip s = s.
Definition is_port (n : Z) : Prop := (1 ≤ n ≤ 65535)%Z.
Definition expanded_path (p : path) : Prop :=
  has_char "%" (str_path p) = false ∧ has_char "$" (str_path p) = false.

Record valid_host (r : HostRole) (h : HostConfig) : Prop := {
  vh_vm : required_text (vm_name h);
  vh_hostname : required_text (hostname h);
  vh_role : role h = r;
  vh_port : is_port (http_port h) }.

Record valid_config (c : ClusterConfig) : Prop := {
  vc_jump : valid_host JUMP (jump c);
  vc_backends : Forall (valid_host BACKEND) (backends c);
  vc_two_backends : 2 ≤ length (backends c);
  vc_vm_names : NoDup (vm_names c);
  vc_template : template_vm (virtualbox c) ∉ vm_names c;
  vc_template_text : required_text (template_vm (virtualbox c));
  vc_ports_differ : service_port (inventory c) ≠ http_port (jump c);
  vc_service_port : is_port (service_port (inventory c));
  vc_user : required_text (user (ssh c));
  vc_timeouts : (1 ≤ connect_timeout_seconds (ssh c))%Z ∧ (1 ≤ command_timeout_seconds (ssh c))%Z;
  vc_sizing : (512 ≤ memory_mb (virtualbox c))%Z ∧ (1 ≤ cpus (virtualbox c))%Z;
  vc_boot : (30 ≤ boot_timeout_seconds (virtualbox c))%Z;
  vc_inventory_text : required_text (remote_dir (inventory c)) ∧
                      required_text (datastore_name (inventory c));
  vc_website_text : required_text (source_url (website c)) ∧
                    required_text (archive_url (website c)) ∧
                    required_text (document_root (website c));
  vc_build_text : required_text (go_version (build c)) ∧ required_text (go_sha256 (build c));
  vc_paths : Forall expanded_path
    [key_path (ssh c); vboxmanage (virtualbox c); template_ova (virtualbox c);
     key_file (inventory c); manifest_file (inventory c)] }.

Lemma _require_str_text section key context s :
  _require_str section key context = inr s → required_text s.
Proof.
  unfold _require_str. repeat case_match; intros; simplify_eq.
  split; [by apply String.eqb_neq|apply py_strip_idemp].
Qed.

Lemma _require_int_min section key context minimum n :
  _require_int section key context minimum = inr n → (minimum ≤ n)%Z.
Proof. unfold _require_int. repeat case_match; intros; simplify_eq. lia. Qed.

Lemma _require_port_range section key context n :
  _require_port section key context = inr n → is_port n.
Proof.
  unfold _require_port. intros (m & Hm & H)%res_bind_inr.
  apply _require_int_min in Hm. case_match; simplify_eq.
  unfold is_port, _MIN_PORT, _MAX_PORT in *. lia.
Qed.

Lemma _require_path_expanded section key context :
  returns (_require_path section key context) expanded_path.
Proof.
  unfold _require_path. eapply returns_bind; [apply returns_true|]. intros raw _.
  eapply returns_bind; [apply returns_true|]. intros environ _.
  eapply returns_bind; [apply returns_true|]. intros expanded _.
  destruct (has_char "%" expanded || has_char "$" expanded) eqn:H; [apply returns_raise|].
  apply orb_false_iff in H as [H1 H2]. apply returns_ret. by split; apply str_path_chars.
Qed.

Lemma parse_backend_valid index entry h :
  parse_backend index entry = inr h → valid_host BACKEND h.
Proof.
  unfold parse_backend. destruct entry; try done.
  intros (vm & Hvm & (hn & Hhn & (port & Hport & [= <-])%res_bind_inr)%res_bind_inr)%res_bind_inr.
  constructor; simpl; eauto using _require_str_text, _require_port_range.
Qed.

Lemma parse_entries_valid index raw hs :
  parse_entries index raw = inr hs → length hs = length raw ∧ Forall (valid_host BACKEND) hs.
Proof.
  revert index hs. induction raw as [|e raw IH]; intros index hs; simpl; [by intros [= <-]|].
  intros (b & Hb & (bs & Hbs & [= <-])%res_bind_inr)%res_bind_inr.
  apply IH in Hbs as [Hl Hbs]. apply parse_backend_valid in Hb. simpl. auto.
Qed.

Lemma _parse_backends_valid raw hs :
  _parse_backends raw = inr hs →
  2 ≤ length hs ∧ Forall (valid_host BACKEND) hs ∧ NoDup (vm_name <$> hs).
Proof.
  unfold _parse_backends. destruct raw as [[]|]; try done. case_decide; [done|].
  intros (bs & [Hl Hbs]%parse_entries_valid & Hd)%res_bind_inr.
  destruct (has_duplicates _) eqn:Hdup; simplify_eq.
  apply has_duplicates_false in Hdup. split_and!; [lia|done|done].
Qed.

Lemma _validate_cross_references_ok config :
  _validate_cross_references config = inr tt →
  NoDup (vm_names config) ∧ (template_vm (virtualbox config) ∉ vm_names config) ∧
  service_port (inventory config) ≠ http_port (jump config).
Proof.
  unfold _validate_cross_references.
  destruct (has_duplicates _) eqn:Hdup; [done|]. apply has_duplicates_false in Hdup.
  case_bool_decide; [done|]. case_match; [done|]. intros _.
  split_and!; [done..|]. by apply Z.eqb_neq.
Qed.

Section load_facts.
Context {toml : TomlParser}.

Lemma build_config_valid document : returns (build_config document) valid_config.
Proof.
  unfold build_config.
  repeat match goal with
  | |- returns (bind (lift_res _) _) _ => apply returns_bind_res; intros ? ?
  | |- returns (bind (_require_path _ _ _) _) _ =>
      eapply returns_bind; [apply _require_path_expanded|intros ? ?]
  | _ => progress cbv zeta
  end.
  apply returns_ret.
  repeat match goal with
  | u : unit |- _ => destruct u
  | H : _require_str _ _ _ = inr _ |- _ => apply _require_str_text in H
  | H : _require_port _ _ _ = inr _ |- _ => apply _require_port_range in H
  | H : _require_int _ _ _ _ = inr _ |- _ => apply _require_int_min in H
  | H : _parse_backends _ = inr _ |- _ => apply _parse_backends_valid in H as (? & ? & ?)
  | H : _validate_cross_references _ = inr _ |- _ =>
      apply _validate_cross_references_ok in H as (? & ? & ?)
  end.
  split; simpl; try done.
  by repeat (apply Forall_cons; split; [done|]).
Qed.

(** Reading a document never fails with anything but [ConfigurationError]. *)
Definition config_error (e : exn) : Prop := class_of e = CConfigurationError.

(** Loading looks at files and the environment and changes nothing. *)
Definition reads_only (ev : event) : Prop :=
  match ev_eff ev with
  | ReadBytes _ | IsFile _ | Environ | PasswdDir _ => True
  | _ => False
  end.

Lemma _section_error data name e : _section data name = inl e → config_error e.
Proof. unfold _section. repeat case_match; by intros [= <-]. Qed.

Lemma _require_str_error section key context e :
  _require_str section key context = inl e → config_error e.
Proof. unfold _require_str. repeat case_match; by intros [= <-]. Qed.

Lemma _require_int_error section key context minimum e :
  _require_int section key context minimum = inl e → config_error e.
Proof. unfold _require_int. repeat case_match; by intros [= <-]. Qed.

Lemma _require_port_error section key context e :
  _require_port section key context = inl e → config_error e.
Proof.
  unfold _require_port.
  intros [H|(n & _ & H)]%res_bind_inl; [by eapply _require_int_error|].
  case_match; by simplify_eq.
Qed.

Lemma parse_backend_error index entry e : parse_backend index entry = inl e → config_error e.
Proof.
  unfold parse_backend. destruct entry; try by intros [= <-].
  repeat (intros [H|(? & _ & H)]%res_bind_inl; [eauto using _require_str_error, _require_port_error|revert H]).
  done.
Qed.

Lemma parse_entries_error index raw e : parse_entries index raw = inl e → config_error e.
Proof.
  revert index. induction raw as [|x raw IH]; intros index; simpl; [done|].
  intros [?%parse_backend_error|(? & _ & H)]%res_bind_inl; [done|].
  by apply res_bind_inl in H as [?%IH|(? & _ & ?)].
Qed.

Lemma _parse_backends_error raw e : _parse_backends raw = inl e → config_error e.
Proof.
  unfold _parse_backends. destruct raw as [[]|]; try by intros [= <-].
  case_decide; [by intros [= <-]|].
  intros [?%parse_entries_error|(bs & _ & Hdup)]%res_bind_inl; [done|].
  cbv zeta in Hdup. case_match; by simplify_eq.
Qed.

Lemma _validate_cross_references_error config e :
  _validate_cross_references config = inl e → config_error e.
Proof. unfold _validate_cross_references. repeat case_match; by intros [= <-]. Qed.

Lemma expanduser_emits s : emits reads_only config_error (expanduser s).
Proof. unfold expanduser. by emits_auto. Qed.

Lemma _require_path_emits section key context :
  emits reads_only config_error (_require_path section key context).
Proof.
  unfold _require_path. apply emits_bind_res; [apply _require_str_error|intros raw _].
  emits_step; [by emits_auto|]. emits_step; [apply expanduser_emits|]. by emits_auto.
Qed.

Lemma _load_toml_emits p : emits reads_only config_error (_load_toml p).
Proof. unfold _load_toml. by emits_auto. Qed.

Lemma build_config_emits document : emits reads_only config_error (build_config document).
Proof.
  unfold build_config.
  repeat match goal with
  | |- emits _ _ (bind (lift_res _) _) => apply emits_bind_res; [|intros ? _]
  | |- emits _ _ (bind (_require_path _ _ _) _) =>
      apply emits_bind; [apply _require_path_emits|intros ?]
  | |- emits _ _ (ret _) => apply emits_ret
  | _ => progress cbv zeta
  end;
  eauto using _section_error, _require_str_error, _require_int_error, _require_port_error,
    _parse_backends_error, _validate_cross_references_error.
Qed.
End load_facts.

(** ** The overlay merge *)

Lemma merge_value_dict base overlay :
  merge_value (Some (VDict base)) (VDict overlay) = VDict (_deep_merge base overlay).
Proof.
  revert base. induction overlay as [|[k x] overlay IH]; intros base; [done|].
  apply (IH (dict_set k (merge_value (dict_get k base) x) base)).
Qed.

Lemma merge_value_scalar existing v :
  (∀ d, v ≠ VDict d) ∨ (∀ d, existing ≠ Some (VDict d)) → merge_value existing v = v.
Proof.
  intros H. destruct existing as [[| | | | | | |b]|]; try by destruct v.
  destruct v; try done. exfalso. destruct H as [H|H]; by eapply H.
Qed.

Lemma dict_get_deep_merge overlay base k :
  NoDup (dict_keys overlay) →
  dict_get k (_deep_merge base overlay) =
  match dict_get k overlay with
  | None => dict_get k base
  | Some v => Some (merge_value (dict_get k base) v)
  end.
Proof.
  revert base. induction overlay as [|[k' v'] overlay IH]; intros base; simpl; [done|].
  intros [Hni Hnd]%NoDup_cons. rewrite IH by done.
  destruct (String.eqb_spec k' k) as [->|Hne].
  - apply dict_get_None in Hni as ->. by rewrite dict_get_set_eq.
  - by rewrite dict_get_set_ne.
Qed.

Lemma wf_deep_merge overlay base :
  wf_dict base → wf_dict overlay → wf_dict (_deep_merge base overlay).
Proof.
  assert (∀ v e, (∀ x, e = Some x → wf_value x) → wf_value v → wf_value (merge_value e v)) as Hv.
  { induction v as [| | | | | |l _|overlay' IH] using value_nested_ind; intros e He Hv;
      try (rewrite merge_value_scalar by (left; done); done).
    destruct e as [[| | | | | | |base']|];
      try (rewrite merge_value_scalar by (right; done); done).
    rewrite merge_value_dict. specialize (He _ eq_refl).
    apply wf_dict_spec in Hv as [_ Hv]. change (wf_dict (_deep_merge base' overlay')).
    change (wf_dict base') in He. revert base' He.
    induction overlay' as [|[k x] o IHo]; intros base' Hb; [done|].
    apply Forall_cons in IH as [IHx IH], Hv as [Hx Hv]. simpl. apply IHo; [done..|].
    apply wf_dict_set; [done|]. apply IHx; [|done]. intros y Hy. by eapply wf_dict_get. }
  intros Hb Ho. assert (wf_value (merge_value (Some (VDict base)) (VDict overlay))) as H.
  { apply Hv; [by intros x [= <-]|done]. }
  by rewrite merge_value_dict in H.
Qed.

(** A field of a document, by its path through the tables. *)
Fixpoint lookup_path (ks : list string) (d : dict) : option value :=
  match ks with
  | [] => None
  | [k] => dict_get k d
  | k :: ks =>
      match dict_get k d with Some (VDict d') => lookup_path ks d' | _ => None end
  end.

(** The overlay says nothing about the field: some table on the way is absent. *)
Fixpoint silent_on (ks : list string) (d : dict) : Prop :=
  match ks with
  | [] => False
  | k :: ks =>
      match dict_get k d with
      | None => True
      | Some (VDict d') => silent_on ks d'
      | Some _ => False
      end
  end.

Definition is_table (v : value) : bool := match v with VDict _ => true | _ => false end.

Lemma lookup_path_overlay ks base overlay v :
  wf_dict overlay → lookup_path ks overlay = Some v → is_table v = false →
  lookup_path ks (_deep_merge base overlay) = Some v.
Proof.
  revert base overlay. induction ks as [|k ks IH]; intros base overlay Hwf; [done|].
  pose proof (proj1 (wf_dict_spec _) Hwf) as [Hnd _].
  destruct ks as [|k' ks]; simpl; rewrite dict_get_deep_merge by done.
  - intros -> Hv. rewrite merge_value_scalar; [done|left; by destruct v].
  - destruct (dict_get k overlay) as [[| | | | | | |o']|] eqn:Ho; try done. intros Hl Hv.
    pose proof (wf_dict_get _ _ _ Hwf Ho) as Hwf'.
    destruct (dict_get k base) as [[| | | | | | |b']|];
      try (rewrite merge_value_scalar by (by right); done).
    rewrite merge_value_dict. by apply IH.
Qed.

Lemma lookup_path_base ks base overlay v :
  wf_dict overlay → lookup_path ks base = Some v → silent_on ks overlay →
  lookup_path ks (_deep_merge base overlay) = Some v.
Proof.
  revert base overlay. induction ks as [|k ks IH]; intros base overlay Hwf; [done|].
  pose proof (proj1 (wf_dict_spec _) Hwf) as [Hnd _].
  destruct ks as [|k' ks]; cbn [lookup_path silent_on]; rewrite dict_get_deep_merge by done;
    destruct (dict_get k overlay) as [[| | | | | | |o']|] eqn:Ho; try done.
  destruct (dict_get k base) as [[| | | | | | |b']|]; try done. intros Hl Hs.
  rewrite merge_value_dict. apply IH; [by eapply wf_dict_get|done..].
Qed.

(** ** Properties of loading *)

(** A world whose files and environment are given. *)
Definition file_world (files : list (path * bytes)) (environ : list (string * string)) :
    handler unit := λ e w,
  (match e return resp e with
   | ReadBytes p =>
       match List.find (λ f, bool_decide (f.1 = p)) files with
       | Some f => IoOk f.2
       | None => IoErr "No such file or directory"
       end
   | IsFile p => existsb (λ f, bool_decide (f.1 = p)) files
   | Environ => environ
   | e => default_resp e
   end, w).

Section sample.
Definition sample_backend (n : string) : value :=
  VDict [("vm_name", VStr n); ("hostname", VStr n); ("http_port", VInt 80)].

Definition sample_document : dict :=
  [("ssh", VDict [("user", VStr "deploy"); ("key_path", VStr "~/.ssh/id_ed25519");
     ("connect_timeout_seconds", VInt 10); ("command_timeout_seconds", VInt 120)]);
   ("virtualbox", VDict [("vboxmanage", VStr "$VBOX/VBoxManage");
     ("template_vm", VStr "golden"); ("template_ova", VStr "/srv/golden.ova");
     ("memory_mb", VInt 1024); ("cpus", VInt 1); ("boot_timeout_seconds", VInt 300)]);
   ("jump", VDict [("vm_name", VStr "jump"); ("hostname", VStr "jump"); ("http_port", VInt 80)]);
   ("backend", VList [sample_backend "web-1"; sample_backend "web-2"]);
   ("inventory", VDict [("service_port", VInt 8080); ("remote_dir", VStr "/opt/inventory");
     ("key_file", VStr "/etc/vmdeploy/key"); ("datastore_name", VStr "inventory.enc");
     ("manifest_file", VStr "manifest.json")]);
   ("website", VDict [("source_url", VStr "http://example.org");
     ("archive_url", VStr "http://example.org/a.zip"); ("document_root", VStr "/var/www/html")]);
   ("build", VDict [("go_version", VStr "1.22"); ("go_sha256", VStr "abc")])].

#[local] Instance sample_toml : TomlParser := λ text,
  if String.eqb text "" then inl "empty document" else inr sample_document.

Definition sample_path : path := Path "/etc/vmdeploy/cluster.toml".

Definition sample_world : handler unit :=
  file_world [(sample_path, utf8_encode "document")] [("HOME", "/root"); ("VBOX", "/usr/bin")].

Definition sample_config : ClusterConfig :=
  let host r n := MkHostConfig n n r 80 in
  MkClusterConfig
    (MkSSHConfig "deploy" (Path "/root/.ssh/id_ed25519") 10 120)
    (MkVirtualBoxConfig (Path "/usr/bin/VBoxManage") "golden" (Path "/srv/golden.ova") "" 1024 1 300)
    (host JUMP "jump") [host BACKEND "web-1"; host BACKEND "web-2"]
    (MkInventoryConfig 8080 "/opt/inventory" (Path "/etc/vmdeploy/key") "inventory.enc"
      (Path "manifest.json"))
    (MkWebsiteConfig "http://example.org" "http://example.org/a.zip" "/var/www/html")
    (MkBuildConfig "1.22" "abc").

Example sample_loads :
  outcome_in sample_world (load_cluster_config sample_path) tt = Ok sample_config.
Proof. by vm_compute. Qed.
End sample.

Lemma load_cluster_config_returns (toml : TomlParser) p : returns (load_cluster_config p) valid_config.
Proof.
  unfold load_cluster_config. do 5 (apply returns_bind_any; intros ?). apply build_config_valid.
Qed.

(** C25: every configuration that [load_cluster_config] returns, from any files
    and any environment, satisfies [valid_config]: required texts are stripped
    and not empty, numbers are in range, no path holds an unexpanded variable,
    there are at least two back ends, the VM names are pairwise distinct and
    differ from the template's, and the inventory port is not the jump host's
    Apache port. *)
Theorem load_cluster_config_valid (toml : TomlParser) p s t c s' :
  runs (load_cluster_config p) s t (Ok c) s' → valid_config c.
Proof.
  apply load_cluster_config_returns.
Qed.

Lemma load_cluster_config_valid_witness : valid_config sample_config.
Proof.
  destruct (run_in_runs sample_world (load_cluster_config (toml := sample_toml) sample_path) tt)
    as [s' H].
  rewrite sample_loads in H. exact (load_cluster_config_valid sample_toml _ _ _ _ _ H).
Defined.

Lemma local_overlay_path_emits s :
  path_name (Path s) ≠ "" → emits reads_only config_error (local_overlay_path (Path s)).
Proof.
  intros Hn. unfold local_overlay_path. rewrite with_name_between by (simpl; done || lia).
  apply emits_ret.
Qed.

Lemma load_cluster_config_reads (toml : TomlParser) p :
  emits reads_only (λ _, True) (load_cluster_config p).
Proof.
  assert (∀ q, emits reads_only (λ _, True) (_load_toml q)) as Hload.
  { intros q. by eapply emits_weaken; [apply _load_toml_emits|..]. }
  unfold load_cluster_config. apply emits_bind; [apply Hload|intros d1].
  apply emits_bind; [|intros q].
  { unfold local_overlay_path. destruct (with_name _ _); [apply emits_ret|by apply emits_raise]. }
  apply emits_bind; [by emits_auto|intros present].
  apply emits_bind; [destruct present; [|apply emits_ret];
    apply emits_bind; [apply Hload|intros ?; apply emits_ret]|intros d2].
  apply emits_bind; [by emits_auto|intros env].
  by eapply emits_weaken; [apply build_config_emits|..].
Qed.

Lemma reads_only_clock now t : Forall reads_only t → clock_ok now t.
Proof. intros H. revert now. induction H as [|[[] r] t He H IH]; intros now; simpl; try done; apply IH. Qed.

Lemma expanduser_terminates s : terminates (expanduser s).
Proof. unfold expanduser. by terminates_auto. Qed.

Lemma load_cluster_config_terminates (toml : TomlParser) p : terminates (load_cluster_config p).
Proof.
  unfold load_cluster_config, _load_toml, local_overlay_path, build_config, _require_path.
  repeat (cbv zeta; (terminates_step || (progress eauto using expanduser_terminates with vmdeploy))).
Qed.

(** C26: loading a configuration only reads: it looks at files and at the
    environment and does nothing else, and whatever it finds there, a missing
    file, bytes that are no UTF-8, a malformed document or a bad value, the
    one exception it raises is [ConfigurationError]. *)
Theorem load_cluster_config_errors (toml : TomlParser) f s t o s' :
  path_name (Path f) ≠ "" →
  runs (load_cluster_config (Path f)) s t o s' →
  Forall reads_only t ∧ o ≠ OutOfFuel ∧ ∀ e, o = Raise e → class_of e = CConfigurationError.
Proof.
  intros Hn H.
  assert (emits reads_only config_error (load_cluster_config (Path f))) as He.
  { unfold load_cluster_config.
    apply emits_bind; [apply _load_toml_emits|intros d1].
    apply emits_bind; [by apply local_overlay_path_emits|intros q].
    apply emits_bind; [by emits_auto|intros present].
    apply emits_bind; [|intros d2; emits_step; [by emits_auto|apply build_config_emits]].
    destruct present; [|apply emits_ret].
    apply emits_bind; [apply _load_toml_emits|intros ?; apply emits_ret]. }
  destruct (He _ _ _ _ H) as [Ht HX]. split_and!; [done| |done].
  exact (load_cluster_config_terminates toml _ 0%Z _ _ _ _ H (reads_only_clock _ _ Ht)).
Qed.

Lemma load_cluster_config_errors_witness :
  path_name sample_path ≠ "" ∧
  outcome_in (file_world [(sample_path, [])] []) (load_cluster_config (toml := sample_toml) sample_path) tt
    = Raise (ConfigurationError "Invalid TOML in /etc/vmdeploy/cluster.toml: empty document") ∧
  Forall reads_only
    (trace_in (file_world [(sample_path, [])] []) (load_cluster_config (toml := sample_toml) sample_path) tt).
Proof.
  split; [done|]. split; [by vm_compute|].
  destruct (run_in_runs (file_world [(sample_path, [])] [])
    (load_cluster_config (toml := sample_toml) sample_path) tt) as [s' H].
  exact (proj1 (load_cluster_config_errors sample_toml "/etc/vmdeploy/cluster.toml" _ _ _ _
    ltac:(done) H)).
Defined.

(** The overlay is merged table by table, at every depth: a field that is
    not a table and that the overlay gives has the overlay's value in the
    merged document, a field of the base on which the overlay is silent keeps
    its value, and merging two documents with distinct keys leaves the keys
    distinct. *)
Theorem deep_merge_overlays base overlay :
  wf_dict base → wf_dict overlay →
  wf_dict (_deep_merge base overlay) ∧
  (∀ ks v, lookup_path ks overlay = Some v → is_table v = false →
     lookup_path ks (_deep_merge base overlay) = Some v) ∧
  (∀ ks v, lookup_path ks base = Some v → silent_on ks overlay →
     lookup_path ks (_deep_merge base overlay) = Some v).
Proof.
  intros Hb Ho. split_and!; eauto using wf_deep_merge, lookup_path_overlay, lookup_path_base.
Qed.

Lemma deep_merge_overlays_witness :
  let overlay := [("ssh", VDict [("user", VStr "alice")])] in
  lookup_path ["ssh"; "user"] (_deep_merge sample_document overlay) = Some (VStr "alice") ∧
  lookup_path ["ssh"; "connect_timeout_seconds"] (_deep_merge sample_document overlay)
    = Some (VInt 10).
Proof.
  destruct (deep_merge_overlays sample_document [("ssh", VDict [("user", VStr "alice")])])
    as (_ & Hover & Hbase).
  - cbn. repeat split; try (apply (bool_decide_unpack _); by vm_compute).
  - cbn. repeat split; try (apply (bool_decide_unpack _); by vm_compute).
  - split; [by apply Hover|by apply Hbase].
Defined.
