(* ===== verification/Seed.v ===== *)
(** * The cloud-init seed (seed.py)

    The validators, the two documents and [build_seed_iso].  Writing the image
    itself is pycdlib's work, the call [WriteIso] with the volume label and the
    files.  What the user data says is shown by a reader of the YAML subset it
    is in ([read_yaml]), which knows nothing of how it is written. *)

From S2P Require Import Prelude PyStr Exceptions Paths Effects Reasoning Regex Bytes.

#[export] Set Default Goal Selector "!".

Definition SEED_VOLUME_LABEL : string := "cidata".

Definition is_hyphen_alnum (c : ascii) : bool := is_alnum c || Ascii.eqb c "-".
Definition is_name_start (c : ascii) : bool := is_lower_az c || Ascii.eqb c "_".
Definition is_name_char (c : ascii) : bool :=
  is_lower_az c || is_digit c || Ascii.eqb c "_" || Ascii.eqb c "-".

Definition _HOSTNAME_PATTERN : rx unit :=
  (rx_char is_alnum ⨾
   rx_opt (rx_upto is_hyphen_alnum 61 ⨾ rx_char is_alnum) ⨾ rx_end)%rx.

Definition _USERNAME_PATTERN : rx unit :=
  (rx_char is_name_start ⨾ rx_upto is_name_char 31 ⨾ rx_end)%rx.

Definition _PUBLIC_KEY_TYPES : list string :=
  ["ssh-ed25519"; "ssh-rsa"; "ecdsa-sha2-nistp256"; "ecdsa-sha2-nistp384"; "ecdsa-sha2-nistp521";
   "sk-ssh-ed25519@openssh.com"; "sk-ecdsa-sha2-nistp256@openssh.com"].

Definition _yaml_quote (value : string) : string := "'" +:+ py_replace "'" "''" value +:+ "'".

Definition _validate_hostname (hostname : string) : res unit :=
  match re_match _HOSTNAME_PATTERN hostname with
  | Some _ => inr tt
  | None => inl (VmDeployError
      ("invalid hostname " +:+ py_repr hostname
       +:+ ": must be 1-63 characters of letters, digits, "
       +:+ "or inner hyphens, and must not start or end with a hyphen"))
  end.

Definition _validate_username (username : string) : res unit :=
  match re_match _USERNAME_PATTERN username with
  | Some _ => inr tt
  | None => inl (VmDeployError
      ("invalid username " +:+ py_repr username
       +:+ ": must start with a lowercase letter or underscore "
       +:+ "and contain only lowercase letters, digits, underscores, or hyphens (32 max)"))
  end.

Definition _validate_public_key (public_key : string) : res string :=
  let candidate := py_strip public_key in
  if String.eqb candidate "" then
    inl (VmDeployError "the deployer public key is empty; nothing could log in to the guest")
  else if has_char "010" candidate || has_char "013" candidate then
    inl (VmDeployError
      "the deployer public key spans multiple lines; supply exactly one OpenSSH public key")
  else if existsb (py_startswith candidate) _PUBLIC_KEY_TYPES then inr candidate
  else
    let preview := List.hd "" (py_split candidate) in
    inl (VmDeployError
      ("unrecognised public key type " +:+ py_repr preview +:+ "; expected one of "
       +:+ repr_list _PUBLIC_KEY_TYPES +:+ ". "
       +:+ "Note this must be the .pub file, not the private key.")).

(** The lines of the two documents. *)
Definition user_data_lines (hostname username key : string) : list string :=
  ["#cloud-config";
   "hostname: " +:+ _yaml_quote hostname;
   "fqdn: " +:+ _yaml_quote hostname;
   "preserve_hostname: false";
   "manage_etc_hosts: true";
   "ssh_deletekeys: true";
   "users:";
   "  - name: " +:+ _yaml_quote username;
   "    shell: /bin/bash";
   "    lock_passwd: true";
   "    sudo: 'ALL=(ALL) NOPASSWD:ALL'";
   "    ssh_authorized_keys:";
   "      - " +:+ _yaml_quote key;
   "ssh_pwauth: false";
   "disable_root: true";
   ""].

Definition render_user_data (hostname username public_key : string) : res string :=
  _ ← _validate_hostname hostname;
  _ ← _validate_username username;
  key ← _validate_public_key public_key;
  inr (py_join nl (user_data_lines hostname username key)).

Definition meta_data_lines (hostname instance_id : string) : list string :=
  ["instance-id: " +:+ _yaml_quote instance_id;
   "local-hostname: " +:+ _yaml_quote hostname;
   ""].

Definition render_meta_data (hostname instance_id : string) : res string :=
  _ ← _validate_hostname hostname;
  inr (py_join nl (meta_data_lines hostname instance_id)).

(** [instance_id or f"{hostname}-{uuid.uuid4().hex[:12]}"]. *)
Definition resolve_instance_id (hostname : string) (instance_id : option string) : M string :=
  match instance_id with
  | Some ((String _ _) as i) => ret i
  | _ => hex <- call Uuid4Hex ;; ret (hostname +:+ "-" +:+ String.substring 0 12 hex)
  end.

Definition build_seed_iso (destination : path) (hostname username public_key : string)
    (instance_id : option string) : M path :=
  resolved_id <- resolve_instance_id hostname instance_id ;;
  user_data <- lift_res (render_user_data hostname username public_key) ;;
  meta_data <- lift_res (render_meta_data hostname resolved_id) ;;
  r <- call (Mkdir (parent destination)) ;; lift_io r ;;
  r <- call (Unlink destination) ;; lift_io r ;;
  r <- call (WriteIso destination SEED_VOLUME_LABEL
         [("user-data", utf8_encode user_data); ("meta-data", utf8_encode meta_data)]) ;;
  match r with
  | IoErr error => raise (VmDeployError
      ("could not write the seed ISO to " +:+ str_path destination +:+ ": " +:+ error))
  | IoOk _ => ret destination
  end.

(** ** The languages of the patterns *)

(** A text, possibly followed by the one newline the dollar lets through. *)
Definition or_newline (P : string → Prop) (s : string) : Prop := P s ∨ ∃ l, s = l +:+ nl ∧ P l.

(** An RFC 1123 label: one to 63 letters, digits and hyphens, with a letter or
    digit at both ends. *)
Definition rfc1123_label (l : string) : Prop :=
  (∃ c, l = String c "" ∧ is_alnum c = true) ∨
  (∃ a mid b, l = String a (mid +:+ String b "") ∧ is_alnum a = true ∧ is_alnum b = true ∧
     str_forall is_hyphen_alnum mid = true ∧ String.length mid ≤ 61).

Definition posix_name (l : string) : Prop :=
  ∃ c w, l = String c w ∧ is_name_start c = true ∧ str_forall is_name_char w = true ∧
    String.length w ≤ 31.

Lemma elem_of_rx_opt {A} (p : rx A) s x r :
  (x, r) ∈ rx_opt p s ↔ (∃ a, x = Some a ∧ (a, r) ∈ p s) ∨ (x = None ∧ r = s).
Proof.
  unfold rx_opt. rewrite elem_of_app, list_elem_of_singleton, list_elem_of_fmap. split.
  - intros [([a r'] & [= -> ->] & H)|[= -> ->]]; eauto.
  - intros [(a & -> & H)|[-> ->]]; [left; by exists (a, r)|by right].
Qed.

Lemma or_newline_end P l tl : (tl = "" ∨ tl = nl) → P l → or_newline P (l +:+ tl).
Proof.
  intros [->| ->] Hl; [left; by rewrite str_app_nil_r|right; by exists l].
Qed.

Lemma validate_hostname_spec hostname :
  _validate_hostname hostname = inr tt ↔ or_newline rfc1123_label hostname.
Proof.
  assert (_validate_hostname hostname = inr tt ↔ is_Some (re_match _HOSTNAME_PATTERN hostname)) as ->.
  { unfold _validate_hostname. destruct (re_match _ _); split; intros H; eauto; [done|].
    by destruct H. }
  rewrite re_match_is_Some. unfold _HOSTNAME_PATTERN. split.
  - intros ([u r] & H).
    apply elem_of_rx_bind in H as (w1 & r1 & (a & -> & -> & Ha)%elem_of_rx_char & H).
    apply elem_of_rx_bind in H as (o & r2 & Ho%elem_of_rx_opt & [-> Hend]%elem_of_rx_end).
    destruct Ho as [(w & _ & Hw)|[_ ->]].
    + apply elem_of_rx_bind in Hw as (mid & r3 & (-> & Hm & Hlen)%elem_of_rx_upto & Hb).
      apply elem_of_rx_char in Hb as (b & -> & -> & Hb).
      change (String a (mid +:+ String b r2)) with (String a "" +:+ mid +:+ String b "" +:+ r2).
      rewrite <- (str_app_assoc mid), <- str_app_assoc.
      apply or_newline_end; [done|]. right. by exists a, mid, b.
    + match goal with |- or_newline _ (String a ?t) => change (String a t) with (String a "" +:+ t) end.
      apply or_newline_end; [done|]. left. by exists a.
  - assert (∀ l tl, rfc1123_label l → tl = "" ∨ tl = nl → ∃ x, x ∈ _HOSTNAME_PATTERN (l +:+ tl)) as H.
    { intros l tl Hl Htl. exists (tt, tl). unfold _HOSTNAME_PATTERN. apply elem_of_rx_bind.
      destruct Hl as [(c & -> & Hc)|(a & mid & b & -> & Ha & Hb & Hm & Hlen)].
      - exists (String c ""), tl. rewrite elem_of_rx_char. split; [by exists c|].
        apply elem_of_rx_bind. exists None, tl. rewrite elem_of_rx_opt, elem_of_rx_end. auto.
      - exists (String a ""), (mid +:+ String b tl). rewrite elem_of_rx_char. split.
        { exists a. split_and!; [done| |done]. by rewrite str_app_cons, str_app_assoc. }
        apply elem_of_rx_bind. exists (Some (String b "")), tl.
        rewrite elem_of_rx_opt, elem_of_rx_end. split; [|auto]. left. eexists. split; [done|].
        apply elem_of_rx_bind. exists mid, (String b tl). rewrite elem_of_rx_upto, elem_of_rx_char.
        split; [done|by exists b]. }
    intros [Hl|(l & -> & Hl)].
    + destruct (H hostname "" Hl ltac:(by left)) as [x Hx]. rewrite str_app_nil_r in Hx. by exists x.
    + apply H; [done|by right].
Qed.

Lemma validate_username_spec username :
  _validate_username username = inr tt ↔ or_newline posix_name username.
Proof.
  assert (_validate_username username = inr tt ↔ is_Some (re_match _USERNAME_PATTERN username)) as ->.
  { unfold _validate_username. destruct (re_match _ _); split; intros H; eauto; [done|].
    by destruct H. }
  rewrite re_match_is_Some. unfold _USERNAME_PATTERN. split.
  - intros ([u r] & H).
    apply elem_of_rx_bind in H as (w1 & r1 & (a & -> & -> & Ha)%elem_of_rx_char & H).
    apply elem_of_rx_bind in H as (w & r2 & (-> & Hw & Hl)%elem_of_rx_upto & [-> Hend]%elem_of_rx_end).
    rewrite <- str_app_cons. apply or_newline_end; [done|]. by exists a, w.
  - assert (∀ l tl, posix_name l → tl = "" ∨ tl = nl → ∃ x, x ∈ _USERNAME_PATTERN (l +:+ tl)) as H.
    { intros l tl (c & w & -> & Hc & Hw & Hl) Htl. exists (tt, tl). unfold _USERNAME_PATTERN.
      apply elem_of_rx_bind. exists (String c ""), (w +:+ tl). rewrite elem_of_rx_char.
      split; [by exists c|]. apply elem_of_rx_bind. exists w, tl.
      by rewrite elem_of_rx_upto, elem_of_rx_end. }
    intros [Hl|(l & -> & Hl)].
    + destruct (H username "" Hl ltac:(by left)) as [x Hx]. rewrite str_app_nil_r in Hx. by exists x.
    + apply H; [done|by right].
Qed.

(** ** Quoting *)

(** A reader of YAML single-quoted scalars: the text up to the closing quote,
    a doubled quote being one quote. *)
Fixpoint yaml_unquote_body (s : string) : option (string * string) :=
  match s with
  | "" => None
  | String c s1 =>
      if Ascii.eqb c "'" then
        match s1 with
        | String c2 s2 =>
            if Ascii.eqb c2 "'" then (λ p, (String "'" p.1, p.2)) <$> yaml_unquote_body s2
            else Some ("", s1)
        | "" => Some ("", "")
        end
      else (λ p, (String c p.1, p.2)) <$> yaml_unquote_body s1
  end.
Definition yaml_unquote (s : string) : option (string * string) :=
  match s with
  | String c s => if Ascii.eqb c "'" then yaml_unquote_body s else None
  | "" => None
  end.

Lemma yaml_unquote_quote v : yaml_unquote (_yaml_quote v) = Some (v, "").
Proof.
  unfold yaml_unquote, _yaml_quote. change (Ascii.eqb "'" "'") with true. cbv iota.
  change ("'" +:+ py_replace "'" "''" v +:+ "'") with (String "'" (py_replace "'" "''" v +:+ "'")).
  cbn [Ascii.eqb Bool.eqb]. induction v as [|c v IH]; [done|].
  cbn [py_replace]. destruct (Ascii.eqb_spec c "'") as [->|Hne].
  - rewrite str_app_assoc. change ("''" +:+ ?x) with (String "'" (String "'" x)).
    cbn [yaml_unquote_body Ascii.eqb Bool.eqb]. by rewrite IH.
  - rewrite str_app_assoc. change (String c "" +:+ ?x) with (String c x).
    cbn [yaml_unquote_body]. apply Ascii.eqb_neq in Hne. by rewrite Hne, IH.
Qed.

Lemma yaml_quote_no_newline v : has_char "010" v = false → has_char "010" (_yaml_quote v) = false.
Proof.
  intros Hv. unfold _yaml_quote. rewrite !has_char_app. cbn [orb].
  assert (has_char "010" (py_replace "'" "''" v) = false) as ->; [|done].
  induction v as [|c v IH]; [done|]. unfold has_char in Hv. simpl in Hv.
  apply orb_false_iff in Hv as [Hc Hv]. cbn [py_replace]. rewrite has_char_app, IH by done.
  rewrite orb_false_r. destruct (Ascii.eqb c "'"); [done|]. unfold has_char. simpl. by rewrite Hc.
Qed.

Definition vm_deploy_error (e : exn) : Prop := class_of e = CVmDeployError.

Lemma render_user_data_inr h u k doc :
  render_user_data h u k = inr doc →
  _validate_hostname h = inr tt ∧ _validate_username u = inr tt ∧
  _validate_public_key k = inr (py_strip k) ∧
  doc = py_join nl (user_data_lines h u (py_strip k)).
Proof.
  unfold render_user_data.
  intros ([] & Hh & ([] & Hu & (key & Hk & [= <-])%res_bind_inr)%res_bind_inr)%res_bind_inr.
  assert (key = py_strip k) as ->; [|done].
  unfold _validate_public_key in Hk. repeat case_match; by simplify_eq.
Qed.

Lemma validate_public_key_ok k key :
  _validate_public_key k = inr key →
  key ≠ "" ∧ has_char "010" key = false ∧ has_char "013" key = false ∧
  ∃ ty, ty ∈ _PUBLIC_KEY_TYPES ∧ py_startswith key ty = true.
Proof.
  unfold _validate_public_key.
  destruct (String.eqb_spec (py_strip k) ""); [done|].
  destruct (has_char "010" (py_strip k)) eqn:H1; [done|].
  destruct (has_char "013" (py_strip k)) eqn:H2; [done|]. cbn [orb].
  destruct (existsb _ _) eqn:Hex; [|done]. intros [= <-].
  apply existsb_exists in Hex as (ty & Hty & Hp). split_and!; [done..|].
  exists ty. by rewrite list_elem_of_In.
Qed.

Lemma render_error h u k e : render_user_data h u k = inl e → vm_deploy_error e.
Proof.
  unfold render_user_data, _validate_hostname, _validate_username, _validate_public_key.
  intros [H|([] & _ & [H|([] & _ & [H|(key & _ & ?)]%res_bind_inl)]%res_bind_inl)]%res_bind_inl;
    [| | |done]; repeat case_match; by simplify_eq.
Qed.

Lemma render_meta_error h i e : render_meta_data h i = inl e → vm_deploy_error e.
Proof.
  unfold render_meta_data, _validate_hostname.
  intros [H|([] & _ & ?)]%res_bind_inl; [|done]. repeat case_match; by simplify_eq.
Qed.

(** ** Reading a document back *)

(** A reader of the block mappings and sequences of YAML that the documents
    use, independent of how they are written: the scalars of the document, each
    with the keys that lead to it, an item of a sequence being the key "-". *)
Inductive yaml_scalar : Type :=
  | Quoted (s : string)
  | Plain (s : string).

Abbreviation yaml_entry := (list string * yaml_scalar)%type.

Definition yaml_value (s : string) : option yaml_scalar :=
  match s with
  | String "'" _ => match yaml_unquote s with Some (v, "") => Some (Quoted v) | _ => None end
  | "" => None
  | _ => Some (Plain s)
  end.

Fixpoint yaml_indent (s : string) : nat * string :=
  match s with
  | String " " r => let '(n, r) := yaml_indent r in (S n, r)
  | _ => (0, s)
  end.

Fixpoint yaml_key (s : string) : option (string * string) :=
  match s with
  | "" => None
  | String ":" r => Some ("", r)
  | String c r => (λ p, (String c p.1, p.2)) <$> yaml_key r
  end.

(** The keys a line of this indentation is below, the outermost first. *)
Definition yaml_open (stack : list (nat * string)) (n : nat) : list (nat * string) :=
  List.filter (λ e, e.1 <? n) stack.

Definition yaml_content (stack : list (nat * string)) (n : nat) (s : string) :
    option (list (nat * string) * list yaml_entry) :=
  match s with
  | String "'" _ => v ← yaml_value s; Some (stack, [(stack.*2, v)])
  | _ =>
      '(k, r) ← yaml_key s;
      match r with
      | "" => Some (stack ++ [(n, k)], [])
      | String " " r => v ← yaml_value r; Some (stack, [(stack.*2 ++ [k], v)])
      | _ => None
      end
  end.

Definition yaml_line (stack : list (nat * string)) (line : string) :
    option (list (nat * string) * list yaml_entry) :=
  let '(n, s) := yaml_indent line in
  match s with
  | "" | String "#" _ => Some (stack, [])
  | String "-" (String " " r) => yaml_content (yaml_open stack n ++ [(n, "-")]) (n + 2) r
  | _ => yaml_content (yaml_open stack n) n s
  end.

Fixpoint yaml_entries (stack : list (nat * string)) (lines : list string) : option (list yaml_entry) :=
  match lines with
  | [] => Some []
  | line :: lines =>
      '(stack, es) ← yaml_line stack line; rest ← yaml_entries stack lines; Some (es ++ rest)
  end.

Definition read_yaml (doc : string) : option (list yaml_entry) :=
  yaml_entries [] (py_split_char "010" doc).

Example read_yaml_nested :
  read_yaml (py_join nl ["a: 'x''y'"; "b:"; "  - c: d"; "    e:"; "      - 'f: g'"; "h: i"; ""]) =
  Some [(["a"], Quoted "x'y"); (["b"; "-"; "c"], Plain "d"); (["b"; "-"; "e"; "-"], Quoted "f: g");
        (["h"], Plain "i")].
Proof. by vm_compute. Qed.

Lemma yaml_value_quote v : yaml_value (_yaml_quote v) = Some (Quoted v).
Proof.
  unfold yaml_value. assert (∃ r, _yaml_quote v = String "'" r) as [r Hr] by by eexists.
  rewrite Hr, <- Hr. by rewrite yaml_unquote_quote.
Qed.

Lemma yaml_item stack n v : yaml_content stack n (_yaml_quote v) = Some (stack, [(stack.*2, Quoted v)]).
Proof.
  unfold yaml_content. assert (∃ r, _yaml_quote v = String "'" r) as [r Hr] by by eexists.
  rewrite Hr, <- Hr. by rewrite yaml_value_quote.
Qed.

Lemma yaml_entries_cons stack stack' line lines es rest :
  yaml_line stack line = Some (stack', es) → yaml_entries stack' lines = Some rest →
  yaml_entries stack (line :: lines) = Some (es ++ rest).
Proof. intros H1 H2. cbn [yaml_entries]. rewrite H1. cbn [mbind option_bind]. by rewrite H2. Qed.

Lemma user_data_entries hostname username key :
  yaml_entries [] (user_data_lines hostname username key) = Some
    [(["hostname"], Quoted hostname);
     (["fqdn"], Quoted hostname);
     (["preserve_hostname"], Plain "false");
     (["manage_etc_hosts"], Plain "true");
     (["ssh_deletekeys"], Plain "true");
     (["users"; "-"; "name"], Quoted username);
     (["users"; "-"; "shell"], Plain "/bin/bash");
     (["users"; "-"; "lock_passwd"], Plain "true");
     (["users"; "-"; "sudo"], Quoted "ALL=(ALL) NOPASSWD:ALL");
     (["users"; "-"; "ssh_authorized_keys"; "-"], Quoted key);
     (["ssh_pwauth"], Plain "false");
     (["disable_root"], Plain "true")].
Proof.
  unfold user_data_lines.
  etrans; [repeat (eapply yaml_entries_cons;
    [cbv -[yaml_value yaml_content _yaml_quote];
     first [exact (yaml_item _ _ _)
           |cbv -[yaml_value _yaml_quote]; rewrite yaml_value_quote; reflexivity
           |vm_compute; reflexivity]|]); reflexivity|reflexivity].
Qed.

(** ** Properties *)

(** C35: the user-data document is what its arguments say, and nothing they
    hold can add to it.  When it is rendered, for a hostname and an account
    without a newline, the hostname is an RFC 1123 label, the account a
    portable name and the key one line of a known type; the document is
    marked as one of cloud-init, and read as YAML it has exactly these
    entries: the hostname, twice; that it is kept in the hosts file and set
    anew, and that host keys are made anew; one user, the account, with its
    shell, locked for passwords, with sudo, and with one authorized key, the
    one given; password logins off and root disabled. *)
Theorem render_user_data_spec hostname username public_key doc :
  render_user_data hostname username public_key = inr doc →
  has_char "010" hostname = false → has_char "010" username = false →
  let key := py_strip public_key in
  rfc1123_label hostname ∧ posix_name username ∧
  (∃ ty, ty ∈ _PUBLIC_KEY_TYPES ∧ py_startswith key ty = true) ∧
  head (py_split_char "010" doc) = Some "#cloud-config" ∧
  read_yaml doc = Some
    [(["hostname"], Quoted hostname);
     (["fqdn"], Quoted hostname);
     (["preserve_hostname"], Plain "false");
     (["manage_etc_hosts"], Plain "true");
     (["ssh_deletekeys"], Plain "true");
     (["users"; "-"; "name"], Quoted username);
     (["users"; "-"; "shell"], Plain "/bin/bash");
     (["users"; "-"; "lock_passwd"], Plain "true");
     (["users"; "-"; "sudo"], Quoted "ALL=(ALL) NOPASSWD:ALL");
     (["users"; "-"; "ssh_authorized_keys"; "-"], Quoted key);
     (["ssh_pwauth"], Plain "false");
     (["disable_root"], Plain "true")].
Proof.
  intros (Hh & Hu & Hk & ->)%render_user_data_inr Hhn Hun key.
  apply validate_public_key_ok in Hk as (_ & Hkn & _ & Hty).
  assert (∀ P s, has_char "010" s = false → or_newline P s → P s) as Hno.
  { intros P s Hs [?|(l & -> & _)]; [done|]. rewrite has_char_app in Hs.
    by rewrite orb_true_r in Hs. }
  assert (py_split_char "010" (py_join nl (user_data_lines hostname username key)) =
    user_data_lines hostname username key) as Hs.
  { apply (split_join "010"); [done|]. unfold user_data_lines.
    repeat (apply Forall_cons; split); try done;
      rewrite has_char_app, yaml_quote_no_newline; done. }
  split_and!; [by apply Hno, validate_hostname_spec|by apply Hno, validate_username_spec|done|exact (f_equal head Hs)|].
  exact (eq_trans (f_equal (yaml_entries []) Hs) (user_data_entries _ _ _)).
Qed.

Definition sample_public_key : string := "ssh-ed25519 AAAAC3Nza operator's key ".

Lemma render_user_data_spec_witness :
  let doc := py_join nl (user_data_lines "web-1" "deploy" (py_strip sample_public_key)) in
  render_user_data "web-1" "deploy" sample_public_key = inr doc ∧
  (["users"; "-"; "ssh_authorized_keys"; "-"], Quoted "ssh-ed25519 AAAAC3Nza operator's key")
    ∈ default [] (read_yaml doc).
Proof.
  intros doc. assert (render_user_data "web-1" "deploy" sample_public_key = inr doc) as H
    by by vm_compute.
  split; [exact H|].
  destruct (render_user_data_spec _ _ _ _ H ltac:(done) ltac:(done)) as (_ & _ & _ & _ & Hs).
  rewrite Hs. do 9 apply list_elem_of_further. apply list_elem_of_here.
Defined.

(** The patterns end in a dollar and are used with [match], so a hostname or an
    account with a final newline is accepted, and its document has lines the
    template does not. *)
Lemma trailing_newline_accepted :
  _validate_hostname ("web-1" +:+ nl) = inr tt ∧ ¬ rfc1123_label ("web-1" +:+ nl) ∧
  ∃ doc, render_user_data ("web-1" +:+ nl) "deploy" sample_public_key = inr doc ∧
    length (py_split_char "010" doc) = 18.
Proof.
  split_and!; [by vm_compute| |by eexists; split; vm_compute].
  intros [(c & He & _)|(a & mid & b & He & Ha & Hb & Hm & _)]; [done|].
  assert (∀ c, is_alnum c = true → has_char "010" (String c "") = false) as Hone.
  { intros c Hc. by destruct c as [[] [] [] [] [] [] [] []]. }
  assert (has_char "010" mid = false) as Hmid.
  { clear -Hm. induction mid as [|c mid IH]; [done|]. simpl in Hm. apply andb_prop in Hm as [Hc Hm].
    unfold has_char. simpl. fold (has_char "010" mid). rewrite IH by done.
    by destruct c as [[] [] [] [] [] [] [] []]. }
  apply (f_equal (has_char "010")) in He.
  change (String a (mid +:+ String b "")) with (String a "" +:+ mid +:+ String b "") in He.
  rewrite (has_char_app "010" (String a "")), (has_char_app "010" mid), !Hone, Hmid in He by done.
  by vm_compute in He.
Qed.

(** The image a seed that was built holds. *)
Definition seed_image (destination : path) (hostname username public_key : string) (ev : event) : Prop :=
  ∃ i user_data meta_data,
    ev = Ev (WriteIso destination SEED_VOLUME_LABEL
      [("user-data", utf8_encode user_data); ("meta-data", utf8_encode meta_data)]) (IoOk tt) ∧
    render_user_data hostname username public_key = inr user_data ∧
    render_meta_data hostname i = inr meta_data.

Lemma build_seed_iso_writes destination hostname username public_key instance_id s t p s' :
  runs (build_seed_iso destination hostname username public_key instance_id) s t (Ok p) s' →
  ∃ t1 ev, t = t1 ++ [ev] ∧ seed_image destination hostname username public_key ev.
Proof.
  intros H. unfold build_seed_iso in H.
  apply runs_bind in H as [(i & s1 & t1 & t2 & -> & _ & H)|[(e & [=] & _)|[[=] _]]].
  apply runs_bind in H as [(ud & s2 & t3 & t4 & -> & H2 & H)|[(e & [=] & _)|[[=] _]]].
  apply runs_bind in H as [(md & s3 & t5 & t6 & -> & H3 & H)|[(e & [=] & _)|[[=] _]]].
  destruct (render_user_data hostname username public_key) as [e|ud'] eqn:Hu; cbn [lift_res] in H2;
    [run_inv1 H2|].
  destruct (render_meta_data hostname i) as [e|md'] eqn:Hm; cbn [lift_res] in H3; [run_inv1 H3|].
  apply runs_ret in H2 as (-> & [= ->] & ->). apply runs_ret in H3 as (-> & [= ->] & ->).
  do 4 runs_ok H.
  apply runs_bind in H as [(r3 & s8 & t15 & t16 & -> & H4 & H)|[(e & [=] & _)|[[=] _]]].
  apply runs_call in H4 as (r' & -> & [= <-] & ->).
  destruct r3 as [[]|exc]; [|run_inv1 H]. apply runs_ret in H as (-> & _ & ->).
  eexists _, _. split; [rewrite app_nil_r, !app_assoc; reflexivity|]. by exists i, ud', md'.
Qed.

(** A seed that was built holds what it should: one image was written,
    labelled [cidata] so that cloud-init finds it, with the user-data of the
    given hostname, account and key and a meta-data document of the same
    hostname, and nothing else; when the hostname, the account or the key is
    refused the error is [VmDeployError] and no file was touched. *)
Theorem build_seed_iso_spec destination hostname username public_key instance_id s t o s' :
  runs (build_seed_iso destination hostname username public_key instance_id) s t o s' →
  (o = Ok destination →
     ∃ t1 ev, t = t1 ++ [ev] ∧ seed_image destination hostname username public_key ev) ∧
  (∀ e, render_user_data hostname username public_key = inl e →
     o = Raise e ∧ vm_deploy_error e ∧ Forall (λ ev, ev_eff ev = Uuid4Hex) t).
Proof.
  intros H. split; [intros ->; by eapply build_seed_iso_writes|]. unfold build_seed_iso in H.
  apply runs_bind in H as [(i & s1 & t1 & t2 & -> & H1 & H)|H].
  2: { exfalso. revert H. clear. unfold resolve_instance_id.
    assert (∀ t o s s', runs (hex <- call Uuid4Hex ;;
      ret (hostname +:+ "-" +:+ String.substring 0 12 hex)) s t o s' → ∃ a, o = Ok a) as Hc.
    { intros t' o' s1 s2 H.
      apply runs_bind in H as [(a & s3 & t1 & t2 & -> & H1 & H2)|[(e & -> & H)|[-> H]]];
        [run_inv1 H2; eauto|by run_inv1 H..]. }
    intros [(e & -> & H)|[-> H]]; destruct instance_id as [[|c i]|];
      first [by run_inv1 H|by apply Hc in H as [? ?]]. }
  assert (Forall (λ ev, ev_eff ev = Uuid4Hex) t1) as Ht1.
  { revert H1. unfold resolve_instance_id.
    assert (emits (λ ev, ev_eff ev = Uuid4Hex) (λ _, True)
      (match instance_id with
       | Some ((String _ _) as i) => ret i
       | _ => hex <- call Uuid4Hex ;; ret (hostname +:+ "-" +:+ String.substring 0 12 hex)
       end)) as Hem; [|intros H1; apply (Hem _ _ _ _ H1)].
    destruct instance_id as [[|c i']|]; try apply emits_ret;
      (apply emits_bind; [refine (emits_call _ _ _ _); done|intros ?; apply emits_ret]). }
  intros e He. rewrite He in H. cbn [lift_res] in H.
  apply runs_bind in H as [(ud & s2 & t3 & t4 & -> & H2 & H)|[(e' & -> & H)|[-> H]]];
    [run_inv1 H2| |run_inv1 H].
  apply runs_raise in H as (-> & [= ->] & ->). rewrite app_nil_r.
  split_and!; [done|by eapply render_error|done].
Qed.

Lemma build_seed_iso_spec_witness :
  let p := Path "/srv/seeds/web-1-seed.iso" in
  let m := build_seed_iso p "web-1" "deploy" sample_public_key None in
  let world := (λ e w, (default_resp e, w)) : handler unit in
  outcome_in world m tt = Ok p ∧
  ∃ t1 ev, trace_in world m tt = t1 ++ [ev] ∧
    seed_image p "web-1" "deploy" sample_public_key ev.
Proof.
  intros p m world. assert (outcome_in world m tt = Ok p) as Ho by by vm_compute.
  split; [exact Ho|]. destruct (run_in_runs world m tt) as [s' H].
  exact (proj1 (build_seed_iso_spec _ _ _ _ _ _ _ _ _ H) Ho).
Defined.
