(* ===== verification/VirtualBox.v ===== *)
(** * The hypervisor wrapper (virtualbox.py)

    Every operation of [VBoxManage] as a program over the [Subprocess] call,
    with the parsers of its output and its polling loops.  Commands are
    argument vectors, as in the source. *)

From stdpp Require Import sorting.
From S2P Require Import Prelude PyStr Exceptions Paths Effects Reasoning Regex.

#[export] Set Default Goal Selector "!".

Definition _POLL_INTERVAL_SECONDS : Z := seconds 5.
Definition _APPLIANCE_TIMEOUT_SECONDS : Z := 3600.
Definition _VIRTUAL_IFACE_PREFIXES : list string :=
  ["docker"; "br-"; "veth"; "virbr"; "vboxnet"; "lo"; "tun"; "tap"; "cni"; "flannel"].

Definition _IPV4_PATTERN : rx unit :=
  (let octet := rx_some_upto is_digit 3 in
   octet ⨾ rx_lit "." ⨾ octet ⨾ rx_lit "." ⨾ octet ⨾ rx_lit "." ⨾ octet ⨾ rx_end)%rx.
Definition is_ipv4 (s : string) : bool :=
  match re_match _IPV4_PATTERN s with Some _ => true | None => false end.

Definition not_quote (c : ascii) : bool := negb (Ascii.eqb c "'").

Definition _NET_PROPERTY_PATTERN : rx (string * string * string) :=
  (rx_lit "/VirtualBox/GuestInfo/Net/" ⨾ index ⇐ rx_some is_digit ⨾ rx_lit "/" ⨾
   field ⇐ rx_alt (rx_lit "Name" ⨾ rx_ret "Name") (rx_lit "V4/IP" ⨾ rx_ret "V4/IP") ⨾
   rx_some is_space ⨾ rx_lit "=" ⨾ rx_some is_space ⨾
   rx_lit "'" ⨾ value ⇐ rx_many not_quote ⨾ rx_lit "'" ⨾
   rx_ret (index, field, value))%rx.

(** ** Machine states *)

Inductive VMState : Type := RUNNING | POWERED_OFF | SAVED | ABORTED | UNKNOWN | ABSENT.

#[export] Instance VMState_eq_dec : EqDecision VMState.
Proof. solve_decision. Defined.

Definition vmstate_value (s : VMState) : string :=
  match s with
  | RUNNING => "running"
  | POWERED_OFF => "poweroff"
  | SAVED => "saved"
  | ABORTED => "aborted"
  | UNKNOWN => "unknown"
  | ABSENT => "absent"
  end.

Definition vmstates : list VMState := [RUNNING; POWERED_OFF; SAVED; ABORTED; UNKNOWN; ABSENT].

Definition VMState_parse (raw : string) : VMState :=
  let normalised := py_lower (py_strip_char "034" (py_strip raw)) in
  default UNKNOWN (List.find (λ s, String.eqb (vmstate_value s) normalised) vmstates).

(** ** Running VBoxManage *)

Record ProcessResult : Type := MkProcessResult {
  args_used : list string;
  exit_status : Z;
  stdout : string;
  stderr : string }.

Definition result_ok (r : ProcessResult) : bool := (exit_status r =? 0)%Z.

Record VBoxManage : Type := MkVBoxManage { executable : path }.

Definition new_VBoxManage (exe : path) : M VBoxManage :=
  present <- call (IsFile exe) ;;
  if present : bool then ret (MkVBoxManage exe)
  else raise (VirtualBoxError [str_path exe] (-1) "VBoxManage executable not found").

Definition vbox_run (vbox : VBoxManage) (args : list string) (check : bool) (timeout : Z) :
    M ProcessResult :=
  completed <- call (Subprocess (str_path (executable vbox) :: args) timeout) ;;
  match completed with
  | TimeoutExpired =>
      raise (VirtualBoxError args (-1) ("timed out after " +:+ str_of_Z timeout +:+ "s"))
  | ProcOSError exc => raise (VirtualBoxError args (-1) exc)
  | Completed returncode out err =>
      let result := MkProcessResult args returncode out err in
      if check && negb (result_ok result)
      then raise (VirtualBoxError args (exit_status result) (stderr result))
      else ret result
  end.

Definition vbox_version (vbox : VBoxManage) : M string :=
  r <- vbox_run vbox ["--version"] true 120 ;; ret (py_strip (stdout r)).

(** A line of [list vms]: a quoted name, white space, an opening brace. *)
Definition vm_line : rx string :=
  (rx_lit dq ⨾ name ⇐ rx_some not_newline ⨾ rx_lit dq ⨾ rx_some is_space ⨾ rx_lit "{" ⨾
   rx_ret name)%rx.

Definition parse_vms (out : string) : list string := omap (re_match vm_line) (py_splitlines out).

Definition list_vms (vbox : VBoxManage) : M (list string) :=
  r <- vbox_run vbox ["list"; "vms"] true 120 ;; ret (parse_vms (stdout r)).

Definition vm_exists (vbox : VBoxManage) (vm_name : string) : M bool :=
  vms <- list_vms vbox ;; ret (bool_decide (vm_name ∈ vms)).

(** [line.split("=", 1)[1]]. *)
Definition after_char (c : ascii) (line : string) : string :=
  match py_partition c line with Some (_, r) => r | None => "" end.

Definition parse_state (out : string) : VMState :=
  match List.find (λ line, py_startswith line "VMState=") (py_splitlines out) with
  | Some line => VMState_parse (after_char "=" line)
  | None => UNKNOWN
  end.

Definition showvminfo (vm_name : string) : list string :=
  ["showvminfo"; vm_name; "--machinereadable"].

Definition vm_state (vbox : VBoxManage) (vm_name : string) : M VMState :=
  result <- vbox_run vbox (showvminfo vm_name) false 120 ;;
  ret (if result_ok result then parse_state (stdout result) else ABSENT).

Definition is_running (s : VMState) : bool := bool_decide (s = RUNNING).

(** ** Power *)

Definition power_off (vbox : VBoxManage) (vm_name : string) (wait_seconds : Z) : M unit :=
  s <- vm_state vbox vm_name ;;
  if negb (is_running s) then ret tt
  else
    vbox_run vbox ["controlvm"; vm_name; "acpipowerbutton"] false 120 ;;
    now <- call Monotonic ;;
    settled <- while_before (polls (seconds wait_seconds) _POLL_INTERVAL_SECONDS)
      (now + seconds wait_seconds)%Z
      (s <- vm_state vbox vm_name ;;
       if negb (is_running s) then ret (Some tt)
       else call (Sleep _POLL_INTERVAL_SECONDS) ;; ret None) ;;
    match settled with
    | Some _ => ret tt
    | None =>
        vbox_run vbox ["controlvm"; vm_name; "poweroff"] false 120 ;;
        call (Sleep _POLL_INTERVAL_SECONDS) ;;
        s <- vm_state vbox vm_name ;;
        if is_running s
        then raise (ProvisioningTimeoutError (vm_name +:+ " could not be powered off"))
        else ret tt
    end.

Definition start_headless (vbox : VBoxManage) (vm_name : string) : M unit :=
  s <- vm_state vbox vm_name ;;
  if is_running s then ret tt
  else vbox_run vbox ["startvm"; vm_name; "--type"; "headless"] true 300 ;; ret tt.

(** ** Appliances *)

Definition export_appliance (vbox : VBoxManage) (vm_name : string) (destination : path) : M unit :=
  s <- vm_state vbox vm_name ;;
  if is_running s then
    raise (VirtualBoxError ["export"; vm_name] (-1) "machine must be powered off before export")
  else
    r <- call (Mkdir (parent destination)) ;; lift_io r ;;
    old <- call (PathExists destination) ;;
    when old (r <- call (Unlink destination) ;; lift_io r) ;;
    vbox_run vbox ["export"; vm_name; "--output"; str_path destination; "--ovf20"] true
      _APPLIANCE_TIMEOUT_SECONDS ;;
    size <- call (StatSize destination) ;; lift_io size ;;
    ret tt.

Definition import_appliance (vbox : VBoxManage) (source : path) (vm_name : string) : M unit :=
  present <- call (IsFile source) ;;
  if negb present then
    raise (VirtualBoxError ["import"; str_path source] (-1) "appliance file not found")
  else
    vbox_run vbox ["import"; str_path source; "--vsys"; "0"; "--vmname"; vm_name] true
      _APPLIANCE_TIMEOUT_SECONDS ;;
    ret tt.

Definition configure (vbox : VBoxManage) (vm_name : string) (memory_mb cpus : Z) : M unit :=
  vbox_run vbox ["modifyvm"; vm_name; "--memory"; str_of_Z memory_mb; "--cpus"; str_of_Z cpus]
    true 120 ;;
  ret tt.

Definition set_bridge_adapter (vbox : VBoxManage) (vm_name bridge_interface : string) : M unit :=
  vbox_run vbox
    ["modifyvm"; vm_name; "--nic1"; "bridged"; "--bridgeadapter1"; bridge_interface] true 120 ;;
  ret tt.

Definition bridge_interface_of (vbox : VBoxManage) (vm_name : string) : M string :=
  result <- vbox_run vbox (showvminfo vm_name) false 120 ;;
  ret match List.find (λ line, py_startswith line "bridgeadapter1=")
              (py_splitlines (stdout result)) with
      | Some line => py_strip_char "034" (py_strip (after_char "=" line))
      | None => ""
      end.

(** ** The optical drive *)

Definition slot : Type := string * Z * Z.

Definition controller_line : rx string :=
  (rx_lit "storagecontrollername" ⨾ rx_some is_digit ⨾ rx_lit "=" ⨾ rx_lit dq ⨾
   name ⇐ rx_many not_newline ⨾ rx_lit dq ⨾ rx_eol ⨾ rx_ret name)%rx.

Definition slot_line (name : string) : rx (string * string * string) :=
  (rx_lit dq ⨾ rx_lit name ⨾ rx_lit "-" ⨾ port ⇐ rx_some is_digit ⨾ rx_lit "-" ⨾
   device ⇐ rx_some is_digit ⨾ rx_lit dq ⨾ rx_lit "=" ⨾ rx_lit dq ⨾
   medium ⇐ rx_many not_newline ⨾ rx_lit dq ⨾ rx_eol ⨾ rx_ret (port, device, medium))%rx.

Definition holds_optical (medium : string) : bool :=
  String.eqb medium "emptydrive" || py_endswith (py_lower medium) ".iso".

(** The slots of one controller: the one to use at once, or the free slot
    remembered so far. *)
Fixpoint scan_media (name : string) (media : list (string * string * string))
    (free_slot : option slot) : slot + option slot :=
  match media with
  | [] => inr free_slot
  | (port, device, medium) :: media =>
      let here := (name, int_of_digits port, int_of_digits device) in
      if holds_optical medium then inl here
      else
        scan_media name media
          (if String.eqb medium "none" && bool_decide (free_slot = None)
              && py_in "ide" (py_lower name)
           then Some here else free_slot)
  end.

Fixpoint scan_controllers (out : string) (controllers : list string) (free_slot : option slot) :
    slot + option slot :=
  match controllers with
  | [] => inr free_slot
  | name :: controllers =>
      match scan_media name (re_findall_lines (slot_line name) out) free_slot with
      | inl here => inl here
      | inr free_slot => scan_controllers out controllers free_slot
      end
  end.

Definition controllers_of (out : string) : list string := re_findall_lines controller_line out.

Definition find_slot (out : string) : option slot :=
  match scan_controllers out (controllers_of out) None with
  | inl here => Some here
  | inr free_slot => free_slot
  end.

Definition optical_slot (vbox : VBoxManage) (vm_name : string) : M slot :=
  info <- vbox_run vbox (showvminfo vm_name) false 120 ;;
  match find_slot (stdout info) with
  | Some s => ret s
  | None => raise (VirtualBoxError ["showvminfo"; vm_name] (-1)
      (vm_name +:+ " exposes no optical drive slot to attach a cloud-init seed to; "
       +:+ "storage controllers found: " +:+ repr_list (controllers_of (stdout info))))
  end.

Definition storageattach (vm_name : string) (s : slot) (medium : string) : list string :=
  let '(controller, port, device) := s in
  ["storageattach"; vm_name; "--storagectl"; controller; "--port"; str_of_Z port;
   "--device"; str_of_Z device; "--type"; "dvddrive"; "--medium"; medium].

Definition attach_optical (vbox : VBoxManage) (vm_name : string) (iso_path : path) : M unit :=
  s <- optical_slot vbox vm_name ;;
  vbox_run vbox (storageattach vm_name s (str_path iso_path)) true 120 ;;
  ret tt.

Definition detach_optical (vbox : VBoxManage) (vm_name : string) : M unit :=
  s <- catch (s <- optical_slot vbox vm_name ;; ret (Some s))
    (λ e, if isinstance e CVirtualBoxError then Some (ret None) else None) ;;
  match s with
  | None => ret tt
  | Some s => vbox_run vbox (storageattach vm_name s "emptydrive") false 120 ;; ret tt
  end.

(** ** Deletion *)

Definition unregister (vm_name : string) : list string := ["unregistervm"; vm_name; "--delete"].

Definition first_text (a b c : string) : string :=
  if String.eqb a "" then (if String.eqb b "" then c else b) else a.

(** [tries] attempts are left; the result is the last error, or [None] once gone. *)
Fixpoint delete_attempts (vbox : VBoxManage) (vm_name : string) (tries : nat) (last_error : string) :
    M (option string) :=
  match tries with
  | O => ret (Some last_error)
  | S tries =>
      result <- vbox_run vbox (unregister vm_name) false 300 ;;
      present <- vm_exists vbox vm_name ;;
      if negb present then ret None
      else
        call (Sleep _POLL_INTERVAL_SECONDS) ;;
        delete_attempts vbox vm_name tries
          (first_text (py_strip (stderr result)) (py_strip (stdout result)) "still registered")
  end.

Definition destroy (vbox : VBoxManage) (vm_name : string) (attempts : nat) : M unit :=
  present <- vm_exists vbox vm_name ;;
  if negb present then ret tt
  else
    power_off vbox vm_name 120 ;;
    failure <- delete_attempts vbox vm_name attempts "" ;;
    match failure with
    | None => ret tt
    | Some last_error => raise (VirtualBoxError (unregister vm_name) (-1)
        (vm_name +:+ " could not be deleted after " +:+ pretty attempts
         +:+ " attempts; last error: " +:+ last_error))
    end.

(** ** Snapshots *)

Definition has_snapshot (vbox : VBoxManage) (vm_name snapshot : string) : M bool :=
  result <- vbox_run vbox ["snapshot"; vm_name; "list"; "--machinereadable"] false 120 ;;
  ret (result_ok result && py_in ("=" +:+ dq +:+ snapshot +:+ dq) (stdout result)).

Definition delete_snapshot (vbox : VBoxManage) (vm_name snapshot : string) : M unit :=
  vbox_run vbox ["snapshot"; vm_name; "delete"; snapshot] false 300 ;; ret tt.

Definition take_snapshot (vbox : VBoxManage) (vm_name snapshot : string) : M unit :=
  present <- has_snapshot vbox vm_name snapshot ;;
  when present (delete_snapshot vbox vm_name snapshot) ;;
  vbox_run vbox ["snapshot"; vm_name; "take"; snapshot] true 300 ;;
  ret tt.

Definition restore_snapshot (vbox : VBoxManage) (vm_name snapshot : string) : M unit :=
  s <- vm_state vbox vm_name ;;
  if is_running s then
    raise (VirtualBoxError ["snapshot"; vm_name; "restore"] (-1)
      "machine must be powered off to restore")
  else vbox_run vbox ["snapshot"; vm_name; "restore"; snapshot] true 300 ;; ret tt.

(** ** Guest addresses *)

Definition guest_property (vbox : VBoxManage) (vm_name key : string) : M string :=
  result <- vbox_run vbox ["guestproperty"; "get"; vm_name; key] false 120 ;;
  let text := py_strip (stdout result) in
  ret (if negb (result_ok result) || negb (py_startswith text "Value:") then ""
       else py_strip (after_char ":" text)).

(** The two dictionaries the loop over the matches fills. *)
Fixpoint net_tables (ms : list (string * string * string)) (names ips : gmap Z string) :
    gmap Z string * gmap Z string :=
  match ms with
  | [] => (names, ips)
  | (index, field, value) :: ms =>
      let index := int_of_digits index in
      if String.eqb field "Name" then net_tables ms (<[index := value]> names) ips
      else net_tables ms names (<[index := value]> ips)
  end.

Definition parse_interfaces (out : string) : list (string * string) :=
  let '(names, ips) := net_tables (re_finditer _NET_PROPERTY_PATTERN out) ∅ ∅ in
  omap (λ index,
    address ← ips !! index;
    if is_ipv4 address
    then Some (default ("net" +:+ str_of_Z index) (names !! index), address)
    else None) (merge_sort Z.le (elements (dom ips))).

Definition guest_ipv4_interfaces (vbox : VBoxManage) (vm_name : string) :
    M (list (string * string)) :=
  result <- vbox_run vbox ["guestproperty"; "enumerate"; vm_name] false 120 ;;
  ret (if result_ok result then parse_interfaces (stdout result) else []).

Definition _resolve_ipv4 (hostname : string) : M string :=
  infos <- call (GetAddrInfo hostname) ;;
  ret match infos with
      | None => ""
      | Some infos => default "" (List.find is_ipv4 infos)
      end.

Definition _is_virtual_interface (name : string) : bool :=
  existsb (py_startswith (py_lower name)) _VIRTUAL_IFACE_PREFIXES.

Definition _is_usable_address (address : string) : bool :=
  negb (py_startswith address "127." || py_startswith address "169.254.").

Definition _same_slash24 (a b : string) : bool :=
  String.eqb (rsplit1_head "." a) (rsplit1_head "." b).

Definition is_candidate (i : string * string) : bool :=
  negb (_is_virtual_interface i.1) && _is_usable_address i.2.

Definition _select_lan_address (interfaces : list (string * string)) (host_lan : string) : string :=
  match map snd (List.filter is_candidate interfaces) with
  | [] => ""
  | (first :: _) as candidates =>
      let by_subnet :=
        if String.eqb host_lan "" then None
        else List.find (λ a, _same_slash24 a host_lan) candidates in
      match by_subnet with
      | Some a => a
      | None =>
          default first
            (List.find (λ a, py_startswith a "192.168." || py_startswith a "10.") candidates)
      end
  end.

Definition _host_lan_ipv4 : M string :=
  r <- call (UdpProbe "8.8.8.8" 80) ;;
  ret match r with
      | IoErr _ => ""
      | IoOk address => if is_ipv4 address then address else ""
      end.

Definition wait_for_guest_ip (vbox : VBoxManage) (vm_name hostname : string) (timeout_seconds : Z) :
    M string :=
  host_lan <- _host_lan_ipv4 ;;
  now <- call Monotonic ;;
  found <- while_before (polls (seconds timeout_seconds) _POLL_INTERVAL_SECONDS)
    (now + seconds timeout_seconds)%Z
    (interfaces <- guest_ipv4_interfaces vbox vm_name ;;
     let selected := _select_lan_address interfaces host_lan in
     if negb (String.eqb selected "") then ret (Some selected)
     else
       resolved <- _resolve_ipv4 hostname ;;
       if negb (String.eqb resolved "") then ret (Some resolved)
       else call (Sleep _POLL_INTERVAL_SECONDS) ;; ret None) ;;
  match found with
  | Some address => ret address
  | None => raise (ProvisioningTimeoutError
      ("Could not determine a reachable IPv4 address for " +:+ vm_name +:+ " (hostname "
       +:+ hostname +:+ ") within " +:+ str_of_Z timeout_seconds
       +:+ "s; check that the guest obtained a DHCP lease on its bridged adapter"))
  end.
