(* ===== verification/VirtualBoxFacts.v ===== *)
(** * What the hypervisor wrapper guarantees

    The calls each operation of [VirtualBox] makes, the machines it can change,
    the state it leaves a machine in, and the termination of its loops. *)

From S2P Require Import Prelude PyStr Exceptions Paths Effects Reasoning Regex VirtualBox.

#[export] Set Default Goal Selector "!".

(** ** One command *)

Definition run_outcome (args : list string) (check : bool) (timeout : Z) (r : proc_resp) :
    outcome ProcessResult :=
  match r with
  | TimeoutExpired =>
      Raise (VirtualBoxError args (-1) ("timed out after " +:+ str_of_Z timeout +:+ "s"))
  | ProcOSError exc => Raise (VirtualBoxError args (-1) exc)
  | Completed rc out err =>
      if check && negb (rc =? 0)%Z then Raise (VirtualBoxError args rc err)
      else Ok (MkProcessResult args rc out err)
  end.

Section commands.
Context (vbox : VBoxManage).

Definition vbox_call (args : list string) (timeout : Z) : eff :=
  Subprocess (str_path (executable vbox) :: args) timeout.

Lemma wp_vbox_run args check timeout s (Q : trace → outcome ProcessResult → store → Prop) :
  (∀ r : proc_resp, Q [Ev (vbox_call args timeout) r] (run_outcome args check timeout r) s) →
  wp (vbox_run vbox args check timeout) s Q.
Proof.
  intros HQ. unfold vbox_run. apply wp_bind. refine (wp_call _ _ _ _). intros r.
  cbn [bind_post]. specialize (HQ r). destruct r as [rc out err| |exc]; simpl in HQ.
  - unfold result_ok. cbn [exit_status stderr]. destruct (check && negb (rc =? 0)%Z).
    + by apply wp_raise.
    + by apply wp_ret.
  - by apply wp_raise.
  - by apply wp_raise.
Qed.

Lemma emits_vbox_run I X args check timeout :
  (∀ r, I (Ev (vbox_call args timeout) r)) →
  (∀ st msg, X (VirtualBoxError args st msg)) →
  emits I X (vbox_run vbox args check timeout).
Proof.
  intros HI HX s. change (wp (vbox_run vbox args check timeout) s
    (λ t o s', Forall I t ∧ ∀ e, o = Raise e → X e)).
  apply wp_vbox_run. intros r. split; [by repeat constructor|]. intros e.
  destruct r; simpl; repeat case_match; intros; simplify_eq; apply HX.
Qed.

Lemma terminates_vbox_run args check timeout : terminates (vbox_run vbox args check timeout).
Proof. unfold vbox_run. by terminates_auto. Qed.

(** ** Looking at a machine *)

(** The event is an answer of [showvminfo] that the machine is in [st]. *)
Definition state_answer (vm_name : string) (st : VMState) (ev : event) : Prop :=
  ∃ rc out err, ev = Ev (vbox_call (showvminfo vm_name) 120) (Completed rc out err) ∧
    st = if (rc =? 0)%Z then parse_state out else ABSENT.

(** The event is a successful [list vms] that answers [vms]. *)
Definition listing (vms : list string) (ev : event) : Prop :=
  ∃ out err, ev = Ev (vbox_call ["list"; "vms"] 120) (Completed 0 out err) ∧ vms = parse_vms out.

Definition vbox_error (e : exn) : Prop := class_of e = CVirtualBoxError.

Lemma wp_vm_state vm_name s (Q : trace → outcome VMState → store → Prop) :
  (∀ ev st, state_answer vm_name st ev → Q [ev] (Ok st) s) →
  (∀ ev e, ev_eff ev = vbox_call (showvminfo vm_name) 120 → vbox_error e → Q [ev] (Raise e) s) →
  wp (vm_state vbox vm_name) s Q.
Proof.
  intros Hok Herr. unfold vm_state. apply wp_bind, wp_vbox_run.
  intros [rc out err| |exc]; simpl.
  - apply wp_ret. apply Hok. by exists rc, out, err.
  - by apply Herr.
  - by apply Herr.
Qed.

Lemma wp_vm_exists vm_name s (Q : trace → outcome bool → store → Prop) :
  (∀ ev vms, listing vms ev → Q [ev] (Ok (bool_decide (vm_name ∈ vms))) s) →
  (∀ ev e, ev_eff ev = vbox_call ["list"; "vms"] 120 → vbox_error e → Q [ev] (Raise e) s) →
  wp (vm_exists vbox vm_name) s Q.
Proof.
  intros Hok Herr. unfold vm_exists, list_vms. apply wp_bind, wp_bind, wp_vbox_run.
  intros [rc out err| |exc]; simpl; [|by apply Herr..].
  destruct (Z.eqb_spec rc 0) as [->|]; simpl; [|by apply Herr].
  repeat (apply wp_ret; cbn [bind_post]). apply Hok. by exists out, err.
Qed.

(** ** What a command can change *)

(** The machine a call changes, if it changes one. *)
Definition changes (ev : event) : option string :=
  match ev_eff ev with
  | Subprocess (_ :: cmd :: vm :: args) _ =>
      if bool_decide (cmd ∈ ["controlvm"; "unregistervm"; "modifyvm"; "startvm"; "storageattach"])
      then Some vm
      else if String.eqb cmd "snapshot" && negb (bool_decide (head args = Some "list"))
      then Some vm
      else if String.eqb cmd "import" then List.nth_error args 3
      else None
  | _ => None
  end.

(** Every machine the call changes is one of [vms]. *)
Definition touches (vms : list string) (ev : event) : Prop :=
  ∀ vm, changes ev = Some vm → vm ∈ vms.

(** Only hypervisor commands, the clock and pauses, on no other machine. *)
Definition vm_call (vms : list string) (ev : event) : Prop :=
  touches vms ev ∧
  match ev_eff ev with
  | Subprocess (exe :: _) _ => exe = str_path (executable vbox)
  | Monotonic => True
  | Sleep d => (0 ≤ d)%Z
  | _ => False
  end.

Definition vm_error (e : exn) : Prop :=
  class_of e = CVirtualBoxError ∨ class_of e = CProvisioningTimeoutError.

Lemma vm_call_quiet vms args timeout r :
  changes (Ev (vbox_call args timeout) r) = None → vm_call vms (Ev (vbox_call args timeout) r).
Proof. intros Hc. split; [|done]. intros vm. by rewrite Hc. Qed.

Lemma vm_call_on vms vm args timeout r :
  changes (Ev (vbox_call args timeout) r) = Some vm → vm ∈ vms →
  vm_call vms (Ev (vbox_call args timeout) r).
Proof. intros Hc Hin. split; [|done]. intros vm'. rewrite Hc. by intros [= <-]. Qed.

Lemma vm_call_pause vms ev : vm_call vms ev → no_negative_pause ev.
Proof. intros [_ H]. unfold no_negative_pause. by destruct (ev_eff ev). Qed.

Lemma vm_state_emits vms vm_name : emits (vm_call vms) vm_error (vm_state vbox vm_name).
Proof.
  unfold vm_state. apply emits_bind; [|intros ?; apply emits_ret].
  apply emits_vbox_run; [intros; by apply vm_call_quiet|by left].
Qed.

Lemma vm_exists_emits vms vm_name : emits (vm_call vms) vm_error (vm_exists vbox vm_name).
Proof.
  unfold vm_exists, list_vms.
  apply emits_bind; [apply emits_bind; [|intros ?; apply emits_ret]|intros ?; apply emits_ret].
  apply emits_vbox_run; [intros; by apply vm_call_quiet|by left].
Qed.

Lemma vm_state_terminates vm_name : terminates (vm_state vbox vm_name).
Proof. unfold vm_state. apply terminates_bind; [apply terminates_vbox_run|by terminates_auto]. Qed.

Lemma vm_exists_terminates vm_name : terminates (vm_exists vbox vm_name).
Proof.
  unfold vm_exists, list_vms. pose proof terminates_vbox_run. by terminates_auto.
Qed.
End commands.

#[export] Hint Resolve terminates_vbox_run vm_state_terminates vm_exists_terminates : vmdeploy.

(** Emission goals about commands on the machine [vm]. *)
Ltac vm_emits :=
  repeat match goal with
  | |- emits _ _ (vm_state _ _) => apply vm_state_emits
  | |- emits _ _ (vm_exists _ _) => apply vm_exists_emits
  | |- emits _ _ (vbox_run _ _ _ _) =>
      apply emits_vbox_run;
        [intros; first [by apply vm_call_quiet
                       |eapply vm_call_on; [reflexivity|set_solver]]
        |by left]
  | |- emits _ _ (call Monotonic) => refine (emits_call _ _ _ _); intros ?; by split
  | |- emits _ _ (call (Sleep _)) => refine (emits_call _ _ _ _); intros ?; by split
  | |- emits _ _ (raise _) => apply emits_raise; first [by left|by right]
  | |- vm_call _ _ (Ev Monotonic _) => by split
  | _ => emits_step
  end.

(** ** Powering off *)

Section power.
Context (vbox : VBoxManage) (vm_name : string).

(** The run ends with an answer that the machine is not running. *)
Definition ends_stopped (t : trace) : Prop :=
  ∃ t' ev st, t = t' ++ [ev] ∧ state_answer vbox vm_name st ev ∧ st ≠ RUNNING.

Lemma ends_stopped_app t1 t2 : ends_stopped t2 → ends_stopped (t1 ++ t2).
Proof. intros (t' & ev & st & -> & ?). exists (t1 ++ t'), ev, st. by rewrite app_assoc. Qed.

Lemma ends_stopped_one ev st : state_answer vbox vm_name st ev → st ≠ RUNNING → ends_stopped [ev].
Proof. intros. by exists [], ev, st. Qed.

Lemma is_running_false st : negb (is_running st) = true → st ≠ RUNNING.
Proof. unfold is_running. by case_bool_decide. Qed.

Lemma power_off_poll_stops s :
  wp (s <- vm_state vbox vm_name ;;
      if negb (is_running s) then ret (Some tt)
      else call (Sleep _POLL_INTERVAL_SECONDS) ;; ret None) s
    (λ t o _, o = Ok (Some tt) → ends_stopped t).
Proof.
  apply wp_bind, wp_vm_state; [|done]. intros ev st Hst. cbn [bind_post].
  destruct (negb (is_running st)) eqn:Hr.
  - apply wp_ret. intros _. rewrite app_nil_r. by eapply ends_stopped_one, is_running_false.
  - repeat wp_step. done.
Qed.

Lemma power_off_stops wait s t s' :
  runs (power_off vbox vm_name wait) s t (Ok tt) s' → ends_stopped t.
Proof.
  intros H. revert H. cut (wp (power_off vbox vm_name wait) s (λ t o _, o = Ok tt → ends_stopped t));
    [intros Hwp H; by apply (Hwp _ _ _ H)|].
  unfold power_off. apply wp_bind, wp_vm_state; [|done]. intros ev st Hst. cbn [bind_post].
  destruct (negb (is_running st)) eqn:Hr.
  { apply wp_ret. intros _. rewrite app_nil_r. by eapply ends_stopped_one, is_running_false. }
  apply wp_bind, wp_vbox_run. intros r. destruct (run_outcome _ _ _ _); [|done..].
  cbn [bind_post]. apply wp_bind. refine (wp_call _ _ _ _). intros n. cbn [bind_post].
  apply wp_bind. intros t1 o1 s1 Hw%runs_while_before. destruct o1 as [[[]|]|e|]; [| |done..].
  - destruct Hw as (s2 & t2 & t3 & -> & Hb). apply power_off_poll_stops in Hb.
    apply wp_ret. intros _. rewrite app_nil_r.
    apply (ends_stopped_app [_]), (ends_stopped_app [_]), (ends_stopped_app [_]),
      ends_stopped_app, Hb. done.
  - apply wp_bind, wp_vbox_run. intros r'. destruct (run_outcome _ _ _ _); [|done..].
    cbn [bind_post]. apply wp_bind. refine (wp_call _ _ _ _). intros u. cbn [bind_post].
    apply wp_bind, wp_vm_state; [|done]. intros ev' st' Hst'. cbn [bind_post].
    destruct (is_running st') eqn:Hr'; [by apply wp_raise|]. apply wp_ret. intros _.
    rewrite app_nil_r, !app_assoc. apply ends_stopped_app.
    eapply ends_stopped_one, is_running_false; [done|by rewrite Hr'].
Qed.

Lemma power_off_emits vms wait :
  vm_name ∈ vms → emits (vm_call vbox vms) vm_error (power_off vbox vm_name wait).
Proof. intros Hin. unfold power_off. vm_emits. Qed.

Lemma power_off_terminates wait : terminates (power_off vbox vm_name wait).
Proof.
  unfold power_off. terminates_step; [by eauto with vmdeploy|].
  terminates_step; [by terminates_auto|].
  terminates_step; [by eauto with vmdeploy|].
  apply terminates_poll; [done| |intros ?; by terminates_auto].
  apply pauses_bind; [by eauto with vmdeploy| |].
  - eapply emits_weaken; [apply (vm_state_emits _ [])| |done]. intros ev. apply vm_call_pause.
  - intros st. destruct (negb (is_running st)); [apply pauses_some|apply pauses_sleep].
Qed.
End power.

#[export] Hint Resolve power_off_terminates : vmdeploy.

(** ** Deleting *)

Section destroy.
Context (vbox : VBoxManage) (vm_name : string).

(** The run ends with a listing in which the machine does not appear. *)
Definition ends_gone (t : trace) : Prop :=
  ∃ t' ev vms, t = t' ++ [ev] ∧ listing vbox vms ev ∧ vm_name ∉ vms.

Definition is_delete (ev : event) : Prop := ∃ time, ev_eff ev = vbox_call vbox (unregister vm_name) time.

(** Each deletion comes after an answer that the machine is not running. *)
Definition stopped_before_delete (t : trace) : Prop :=
  ∀ t1 ev t2, t = t1 ++ ev :: t2 → is_delete ev →
    ∃ ev' st, ev' ∈ t1 ∧ state_answer vbox vm_name st ev' ∧ st ≠ RUNNING.

Lemma ends_gone_app t1 t2 : ends_gone t2 → ends_gone (t1 ++ t2).
Proof. intros (t' & ev & vms & -> & ?). exists (t1 ++ t'), ev, vms. by rewrite app_assoc. Qed.

Lemma ends_gone_one ev vms :
  listing vbox vms ev → negb (bool_decide (vm_name ∈ vms)) = true → ends_gone [ev].
Proof.
  intros Hl Hn%negb_true_iff. apply bool_decide_eq_false in Hn. by exists [], ev, vms.
Qed.

Lemma not_delete_stopped t : Forall (λ ev, ¬ is_delete ev) t → stopped_before_delete t.
Proof.
  intros Ht t1 ev t2 -> Hd. apply Forall_app in Ht as [_ [Hn _]%Forall_cons]. done.
Qed.

Lemma stopped_before_delete_app t1 t2 :
  Forall (λ ev, ¬ is_delete ev) t1 → ends_stopped vbox vm_name t1 →
  stopped_before_delete (t1 ++ t2).
Proof.
  intros Ht (t' & ev' & st & -> & Hst & Hne) ta ev tb He Hd. exists ev', st.
  split; [|done]. apply app_eq_inv in He as [(k & Hk & Hk2)|(k & -> & _)].
  - destruct k as [|x k].
    + rewrite app_nil_r in Hk. rewrite <- Hk. apply elem_of_app. right. by left.
    + simpl in Hk2. injection Hk2 as <- _. exfalso. rewrite Hk in Ht.
      apply Forall_app in Ht as [_ [Hx _]%Forall_cons]. done.
  - apply elem_of_app. left. apply elem_of_app. right. by left.
Qed.

Lemma vm_exists_not_delete :
  emits (λ ev, ¬ is_delete ev) (λ _, True) (vm_exists vbox vm_name).
Proof.
  unfold vm_exists, list_vms.
  repeat (emits_step || apply emits_vbox_run); try done; intros r [time ?]; done.
Qed.

Lemma power_off_not_delete wait :
  emits (λ ev, ¬ is_delete ev) (λ _, True) (power_off vbox vm_name wait).
Proof.
  unfold power_off, vm_state.
  repeat (apply emits_vbox_run || emits_step); try done; intros; by intros [time ?].
Qed.

Lemma delete_attempts_gone tries last s :
  wp (delete_attempts vbox vm_name tries last) s (λ t o _, o = Ok None → ends_gone t).
Proof.
  revert last s. induction tries as [|tries IH]; intros last s; simpl; [by apply wp_ret|].
  apply wp_bind, wp_vbox_run. intros r. destruct (run_outcome _ _ _ _); [|done..].
  cbn [bind_post]. apply wp_bind, wp_vm_exists; [|done]. intros ev vms Hl. cbn [bind_post].
  destruct (negb _) eqn:Hn.
  - apply wp_ret. intros _. rewrite app_nil_r. by eapply ends_gone_app, ends_gone_one.
  - apply wp_bind. refine (wp_call _ _ _ _). intros u. cbn [bind_post].
    eapply wp_conseq; [apply IH|]. cbv beta. intros t o _ Hg Ho.
    by do 3 apply ends_gone_app; apply Hg.
Qed.

Lemma delete_attempts_emits vms tries last :
  vm_name ∈ vms → emits (vm_call vbox vms) vm_error (delete_attempts vbox vm_name tries last).
Proof.
  intros Hin. revert last. induction tries as [|tries IH]; intros last; simpl; [apply emits_ret|].
  vm_emits. apply IH.
Qed.

Lemma delete_attempts_terminates tries last : terminates (delete_attempts vbox vm_name tries last).
Proof. revert last. induction tries; intros last; simpl; by terminates_auto. Qed.

Lemma destroy_emits vms attempts :
  vm_name ∈ vms → emits (vm_call vbox vms) vm_error (destroy vbox vm_name attempts).
Proof.
  intros Hin. unfold destroy. apply emits_bind; [apply vm_exists_emits|intros present].
  destruct (negb present); [apply emits_ret|].
  apply emits_bind; [by apply power_off_emits|intros _].
  apply emits_bind; [by apply delete_attempts_emits|intros failure].
  destruct failure; [apply emits_raise; by left|apply emits_ret].
Qed.

Lemma destroy_terminates attempts : terminates (destroy vbox vm_name attempts).
Proof.
  unfold destroy. pose proof delete_attempts_terminates. by terminates_auto.
Qed.

Lemma destroy_spec attempts s t o s' :
  runs (destroy vbox vm_name attempts) s t o s' →
  (o = Ok tt → ends_gone t) ∧ stopped_before_delete t.
Proof.
  intros H. unfold destroy in H.
  apply runs_bind in H as [(b & s1 & t1 & t2 & -> & H1 & H2)|[(e & -> & H)|[-> H]]];
    [|by split; [|apply not_delete_stopped, (vm_exists_not_delete _ _ _ _ H)]..].
  pose proof (vm_exists_not_delete _ _ _ _ H1) as [Hnd1 _].
  destruct (negb b) eqn:Hb.
  { run_inv1 H2. rewrite app_nil_r. split; [|by apply not_delete_stopped]. intros _.
    assert (wp (vm_exists vbox vm_name) s (λ t o _, ∀ b, o = Ok b → negb b = true → ends_gone t))
      as Hwp; [|by apply (Hwp _ _ _ H1 b)].
    apply wp_vm_exists; [|done]. intros ev vms Hl b' [= <-]. by apply ends_gone_one. }
  apply runs_bind in H2 as [(u & s2 & t3 & t4 & -> & H3 & H4)|[(e & -> & H3)|[-> H3]]].
  - destruct u. pose proof (power_off_not_delete _ _ _ _ _ H3) as [Hnd3 _].
    pose proof (power_off_stops _ _ _ _ _ _ H3) as Hstop. split.
    + intros ->. do 2 apply ends_gone_app. revert H4. clear.
      intros H. apply runs_bind in H as [(r & s3 & t5 & t6 & -> & H5 & H6)|[(e & [=] & _)|[[=] _]]].
      destruct r as [e|]; run_inv1 H6. rewrite app_nil_r.
      by apply (delete_attempts_gone _ _ _ _ _ _ H5).
    + rewrite app_assoc. apply stopped_before_delete_app; [by apply Forall_app|].
      by apply ends_stopped_app.
  - split; [done|]. apply not_delete_stopped, Forall_app. split; [done|].
    apply (power_off_not_delete _ _ _ _ _ H3).
  - split; [done|]. apply not_delete_stopped, Forall_app. split; [done|].
    apply (power_off_not_delete _ _ _ _ _ H3).
Qed.
End destroy.

#[export] Hint Resolve destroy_terminates : vmdeploy.

(** ** Addresses *)

(** One to three digits. *)
Definition octet (w : string) : Prop := str_forall is_digit w = true ∧ 1 ≤ String.length w ≤ 3.

(** The texts [_IPV4_PATTERN] accepts: a dotted quad, possibly followed by one
    newline, which the dollar of the pattern lets through. *)
Definition dotted_quad (s : string) : Prop :=
  ∃ a b c d tl, s = a +:+ "." +:+ b +:+ "." +:+ c +:+ "." +:+ d +:+ tl ∧
    octet a ∧ octet b ∧ octet c ∧ octet d ∧ (tl = "" ∨ tl = nl).

Lemma elem_of_octet s w r : (w, r) ∈ rx_some_upto is_digit 3 s ↔ s = w +:+ r ∧ octet w.
Proof. rewrite elem_of_rx_some_upto by lia. done. Qed.

Lemma is_ipv4_spec s : is_ipv4 s = true ↔ dotted_quad s.
Proof.
  assert (is_ipv4 s = true ↔ is_Some (re_match _IPV4_PATTERN s)) as ->.
  { unfold is_ipv4. destruct (re_match _ _); split; intros H; eauto; [done|by destruct H]. }
  rewrite re_match_is_Some. unfold _IPV4_PATTERN. split.
  - intros ([u r] & H).
    repeat match goal with
    | H : (_, _) ∈ rx_bind _ _ _ |- _ => apply elem_of_rx_bind in H as (? & ? & ? & H)
    | H : (_, _) ∈ rx_some_upto is_digit 3 _ |- _ => apply elem_of_octet in H as [-> ?]
    | H : (_, _) ∈ rx_lit _ _ |- _ => apply elem_of_rx_lit in H as ->
    | H : (_, _) ∈ rx_end _ |- _ => apply elem_of_rx_end in H as [-> ?]
    end.
    by eexists _, _, _, _, _.
  - intros (a & b & c & d & tl & -> & Ha & Hb & Hc & Hd & Htl). exists (tt, tl).
    repeat (apply elem_of_rx_bind;
      first [exists tt; eexists; split; [by apply elem_of_rx_lit|]
            |eexists _, _; split; [by apply elem_of_octet|]]).
    by apply elem_of_rx_end.
Qed.

Lemma dotted_quad_not_empty s : dotted_quad s → s ≠ "".
Proof. intros (a & b & c & d & tl & -> & [_ [Ha _]] & _). by destruct a; [simpl in Ha; lia|]. Qed.

Lemma parse_interfaces_ipv4 out i : i ∈ parse_interfaces out → dotted_quad i.2.
Proof.
  unfold parse_interfaces. destruct (net_tables _ _ _) as [names ips].
  intros (index & _ & H)%list_elem_of_omap.
  destruct (ips !! index) as [a|]; simpl in H; [|done].
  destruct (is_ipv4 a) eqn:Ha; simplify_eq. by apply is_ipv4_spec.
Qed.

(** The addresses among which [_select_lan_address] chooses. *)
Definition candidates (interfaces : list (string * string)) : list string :=
  map snd (List.filter is_candidate interfaces).

Lemma elem_of_candidates interfaces a :
  a ∈ candidates interfaces ↔ ∃ name, (name, a) ∈ interfaces ∧ is_candidate (name, a) = true.
Proof.
  unfold candidates. rewrite list_elem_of_In, in_map_iff. split.
  - intros ([name a'] & <- & [H Hc]%filter_In). exists name. by rewrite list_elem_of_In.
  - intros (name & H & Hc). exists (name, a). split; [done|]. by rewrite filter_In, <- list_elem_of_In.
Qed.

Lemma select_in_candidates interfaces host_lan :
  match candidates interfaces with
  | [] => _select_lan_address interfaces host_lan = ""
  | _ => _select_lan_address interfaces host_lan ∈ candidates interfaces
  end.
Proof.
  unfold _select_lan_address. fold (candidates interfaces).
  destruct (candidates interfaces) as [|first rest]; [done|].
  assert (∀ f, default first (List.find f (first :: rest)) ∈ first :: rest) as Hfind.
  { intros f. destruct (List.find f (first :: rest)) as [x|] eqn:Hf; [|left].
    by apply find_Some_elem in Hf as [? _]. }
  cbv zeta. destruct (String.eqb host_lan ""); [apply Hfind|].
  destruct (List.find (λ a, _same_slash24 a host_lan) _) as [x|] eqn:Hx; [|apply Hfind].
  by apply find_Some_elem in Hx as [? _].
Qed.

Lemma select_ipv4 interfaces host_lan :
  (∀ i, i ∈ interfaces → dotted_quad i.2) →
  _select_lan_address interfaces host_lan ≠ "" →
  dotted_quad (_select_lan_address interfaces host_lan).
Proof.
  intros Hi Hne. pose proof (select_in_candidates interfaces host_lan) as H.
  destruct (candidates interfaces) eqn:Hc; [done|]. rewrite <- Hc in H.
  apply elem_of_candidates in H as (name & H & _). by apply Hi in H.
Qed.

(** ** Waiting for an address *)

Section wait.
Context (vbox : VBoxManage) (vm_name hostname : string).

Lemma guest_interfaces_returns :
  returns (guest_ipv4_interfaces vbox vm_name) (λ l, ∀ i, i ∈ l → dotted_quad i.2).
Proof.
  unfold guest_ipv4_interfaces. apply returns_bind_any. intros result. apply returns_ret.
  destruct (result_ok result); [apply parse_interfaces_ipv4|by intros i ?%elem_of_nil].
Qed.

Lemma resolve_returns : returns (_resolve_ipv4 hostname) (λ a, a = "" ∨ dotted_quad a).
Proof.
  unfold _resolve_ipv4. apply returns_bind_any. intros [infos|]; apply returns_ret; [|by left].
  destruct (List.find is_ipv4 infos) as [a|] eqn:Hf; [|by left]. right.
  apply find_Some_elem in Hf as [_ Hf]. by apply is_ipv4_spec.
Qed.

Lemma wait_for_guest_ip_returns timeout :
  returns (wait_for_guest_ip vbox vm_name hostname timeout) dotted_quad.
Proof.
  unfold wait_for_guest_ip. apply returns_bind_any. intros host_lan.
  apply returns_bind_any. intros now.
  eapply returns_bind; [apply (returns_while_before _ _ _ dotted_quad)|].
  - eapply returns_bind; [apply guest_interfaces_returns|]. intros interfaces Hi. cbv zeta.
    destruct (String.eqb_spec (_select_lan_address interfaces host_lan) "") as [_|Hne]; simpl.
    + eapply returns_bind; [apply resolve_returns|]. intros a [->|Ha]; simpl.
      * apply returns_bind_any. intros _. by apply returns_ret.
      * destruct (String.eqb_spec a "") as [->|]; simpl.
        -- apply returns_bind_any. intros _. by apply returns_ret.
        -- apply returns_ret. by intros ? [= <-].
    + apply returns_ret. intros ? [= <-]. by apply select_ipv4.
  - intros [a|] Ha; [apply returns_ret; by apply Ha|apply returns_raise].
Qed.

(** Queries and pauses only. *)
Definition looks_only (ev : event) : Prop :=
  changes ev = None ∧
  match ev_eff ev with
  | Subprocess (exe :: _) _ => exe = str_path (executable vbox)
  | Monotonic | UdpProbe _ _ | GetAddrInfo _ => True
  | Sleep d => (0 ≤ d)%Z
  | _ => False
  end.

Lemma guest_interfaces_looks :
  emits looks_only vm_error (guest_ipv4_interfaces vbox vm_name).
Proof.
  unfold guest_ipv4_interfaces. apply emits_bind; [|intros ?; apply emits_ret].
  apply emits_vbox_run; [by split|by left].
Qed.

Lemma resolve_looks : emits looks_only vm_error (_resolve_ipv4 hostname).
Proof.
  unfold _resolve_ipv4. apply emits_bind; [|intros ?; apply emits_ret].
  refine (emits_call _ _ _ _). by split.
Qed.

Lemma host_lan_looks : emits looks_only vm_error _host_lan_ipv4.
Proof.
  unfold _host_lan_ipv4. apply emits_bind; [|intros ?; apply emits_ret].
  refine (emits_call _ _ _ _). by split.
Qed.

Lemma wait_for_guest_ip_looks timeout :
  emits looks_only vm_error (wait_for_guest_ip vbox vm_name hostname timeout).
Proof.
  unfold wait_for_guest_ip. apply emits_bind; [apply host_lan_looks|intros host_lan].
  apply emits_bind; [refine (emits_call _ _ _ _); by split|intros now].
  apply emits_bind.
  - apply emits_while_before; [by split|].
    apply emits_bind; [apply guest_interfaces_looks|intros interfaces]. cbv zeta.
    destruct (negb _); [apply emits_ret|].
    apply emits_bind; [apply resolve_looks|intros resolved].
    destruct (negb _); [apply emits_ret|].
    apply emits_bind; [refine (emits_call _ _ _ _); by split|intros _; apply emits_ret].
  - intros [a|]; [apply emits_ret|apply emits_raise; by right].
Qed.

Lemma looks_only_pause ev : looks_only ev → no_negative_pause ev.
Proof. intros [_ H]. unfold no_negative_pause. by destruct (ev_eff ev). Qed.

Lemma wait_for_guest_ip_terminates timeout :
  terminates (wait_for_guest_ip vbox vm_name hostname timeout).
Proof.
  unfold wait_for_guest_ip. terminates_step; [unfold _host_lan_ipv4; by terminates_auto|].
  apply terminates_poll; [done| |intros ?; by terminates_auto].
  apply pauses_bind.
  { unfold guest_ipv4_interfaces. by terminates_auto. }
  { eapply emits_weaken; [apply guest_interfaces_looks|apply looks_only_pause|done]. }
  intros interfaces. cbv zeta. destruct (negb _); [apply pauses_some|].
  apply pauses_bind.
  { unfold _resolve_ipv4. by terminates_auto. }
  { eapply emits_weaken; [apply resolve_looks|apply looks_only_pause|done]. }
  intros resolved. destruct (negb _); [apply pauses_some|apply pauses_sleep].
Qed.
End wait.

#[export] Hint Resolve wait_for_guest_ip_terminates : vmdeploy.

(** ** Reading the listing *)

(** What [VBoxManage list vms] prints: a line for each machine, its name in
    quotes and its identifier in braces. *)
Definition render_vm (vm : string * string) : string :=
  dq +:+ vm.1 +:+ dq +:+ " {" +:+ vm.2 +:+ "}".

Fixpoint unlines (ls : list string) : string :=
  match ls with [] => "" | l :: ls => l +:+ nl +:+ unlines ls end.

Definition printable_vm (vm : string * string) : Prop :=
  vm.1 ≠ "" ∧ has_char "034" vm.1 = false ∧ str_exists is_linebreak vm.1 = false ∧
  has_char "034" vm.2 = false ∧ str_exists is_linebreak vm.2 = false.

Lemma splitlines_cons l s :
  str_exists is_linebreak l = false → py_splitlines (l +:+ nl +:+ s) = l :: py_splitlines s.
Proof.
  induction l as [|c l IH]; intros Hl.
  - change ("" +:+ nl +:+ s) with (String "010" s). simpl. by repeat case_match.
  - simpl in Hl. apply orb_false_iff in Hl as [Hc Hl]. rewrite str_app_cons.
    cbn [py_splitlines]. by rewrite Hc, (IH Hl).
Qed.

Lemma splitlines_unlines ls :
  Forall (λ l, str_exists is_linebreak l = false) ls → py_splitlines (unlines ls) = ls.
Proof.
  induction 1 as [|l ls Hl Hls IH]; [done|]. cbn [unlines]. by rewrite splitlines_cons, IH.
Qed.

(** A text splits at a character in one way when neither the part before nor
    the part after holds it. *)
Lemma split_unique c w1 r1 w2 r2 :
  w1 +:+ String c r1 = w2 +:+ String c r2 → has_char c w2 = false → has_char c r2 = false →
  w1 = w2 ∧ r1 = r2.
Proof.
  revert w2. induction w1 as [|a w1 IH]; intros [|b w2].
  - intros [= ->]. done.
  - intros [= <- _]. unfold has_char. simpl. by rewrite Ascii.eqb_refl.
  - intros [= -> Hr] _ Hr2. rewrite <- Hr, has_char_app in Hr2. unfold has_char in Hr2.
    simpl in Hr2. rewrite Ascii.eqb_refl, orb_true_r in Hr2. done.
  - intros [= <- He] Hw Hr. unfold has_char in Hw. simpl in Hw.
    apply orb_false_iff in Hw as [_ Hw]. by destruct (IH _ He Hw Hr) as [-> ->].
Qed.

Lemma linebreak_not_newline s :
  str_exists is_linebreak s = false → str_forall not_newline s = true.
Proof.
  induction s as [|c s IH]; [done|]. simpl. intros [Hc Hs]%orb_false_iff. rewrite IH by done.
  destruct c as [[] [] [] [] [] [] [] []]; done.
Qed.

Lemma vm_line_render vm : printable_vm vm → re_match vm_line (render_vm vm) = Some vm.1.
Proof.
  intros (Hne & Hq & Hl & Hu & _).
  assert (is_Some (re_match vm_line (render_vm vm))) as [name Hname].
  { apply re_match_is_Some. exists (vm.1, vm.2 +:+ "}"). unfold vm_line, render_vm.
    apply elem_of_rx_bind. exists tt. eexists. split; [by apply elem_of_rx_lit|].
    apply elem_of_rx_bind. exists vm.1. eexists. split.
    { apply elem_of_rx_some. split_and!; [done|by apply linebreak_not_newline|done]. }
    apply elem_of_rx_bind. exists tt. eexists. split; [by apply elem_of_rx_lit|].
    apply elem_of_rx_bind. exists " ", ("{" +:+ vm.2 +:+ "}"). split.
    { by apply elem_of_rx_some. }
    apply elem_of_rx_bind. exists tt. eexists. split; [by apply elem_of_rx_lit|].
    by apply elem_of_rx_ret. }
  rewrite Hname. f_equal. apply re_match_Some in Hname as [r H].
  unfold vm_line, render_vm in H.
  apply elem_of_rx_bind in H as (u1 & r1 & H1%elem_of_rx_lit & H).
  apply elem_of_rx_bind in H as (w & r2 & (H2 & _ & _)%elem_of_rx_some & H).
  apply elem_of_rx_bind in H as (u2 & r3 & H3%elem_of_rx_lit & H).
  apply elem_of_rx_bind in H as (sp & r4 & (H4 & _ & _)%elem_of_rx_some & H).
  apply elem_of_rx_bind in H as (u3 & r5 & _ & [-> _]%elem_of_rx_ret).
  subst r1 r2. injection H1 as H1.
  destruct (split_unique "034" w r3 vm.1 (" {" +:+ vm.2 +:+ "}")) as [Hw _]; [by symmetry|done| |done].
  rewrite !has_char_app, Hu. done.
Qed.

Lemma render_vm_no_linebreak vm : printable_vm vm → str_exists is_linebreak (render_vm vm) = false.
Proof.
  intros (_ & _ & Hl & _ & Hu). unfold render_vm. rewrite !str_exists_app, Hl, Hu. done.
Qed.

(** ** The optical slot *)

(** The output has [l] as one of its lines. *)
Definition has_line (l out : string) : Prop :=
  ∃ pre post, out = pre +:+ l +:+ post ∧ line_start pre ∧ line_end post.

(** The output reports [medium] in the slot. *)
Definition reported (out : string) (s : slot) (medium : string) : Prop :=
  ∃ port device, s = (s.1.1, int_of_digits port, int_of_digits device) ∧
    str_forall is_digit port = true ∧ str_forall is_digit device = true ∧
    has_line (dq +:+ s.1.1 +:+ "-" +:+ port +:+ "-" +:+ device +:+ dq +:+ "=" +:+ dq
              +:+ medium +:+ dq) out.

(** The slots in the order they are looked at, each with its medium. *)
Definition slots_of (out : string) : list (slot * string) :=
  flat_map (λ name,
    map (λ '(port, device, medium), ((name, int_of_digits port, int_of_digits device), medium))
      (re_findall_lines (slot_line name) out)) (controllers_of out).

Definition optical (x : slot * string) : bool := holds_optical x.2.
Definition free_ide (x : slot * string) : bool :=
  String.eqb x.2 "none" && py_in "ide" (py_lower x.1.1.1).

Lemma slot_line_sound out name port device medium :
  (port, device, medium) ∈ re_findall_lines (slot_line name) out →
  reported out (name, int_of_digits port, int_of_digits device) medium.
Proof.
  intros (l & m & r & -> & H & Hl)%re_findall_lines_sound. unfold slot_line in H.
  repeat match goal with
  | H : (_, _) ∈ rx_bind _ _ _ |- _ => apply elem_of_rx_bind in H as (? & ? & ? & H)
  | H : (_, _) ∈ rx_some _ _ |- _ => apply elem_of_rx_some in H as (-> & ? & ?)
  | H : (_, _) ∈ rx_many _ _ |- _ => apply elem_of_rx_many in H as (-> & ?)
  | H : (_, _) ∈ rx_lit _ _ |- _ => apply elem_of_rx_lit in H as ->
  | H : (_, _) ∈ rx_eol _ |- _ => apply elem_of_rx_eol in H as [-> ?]
  | H : (_, _) ∈ rx_ret _ _ |- _ => apply elem_of_rx_ret in H as [? ->]
  end. simplify_eq.
  eexists _, _. split_and!; [done..|]. simpl. eexists l, _. split_and!; [|done..].
  by rewrite !str_app_assoc.
Qed.

Lemma slots_of_reported out s medium : (s, medium) ∈ slots_of out → reported out s medium.
Proof.
  unfold slots_of. intros H%list_elem_of_In. apply in_flat_map in H as (name & _ & H).
  apply in_map_iff in H as ([[port device] m] & [= <- <-] & H).
  apply slot_line_sound. by apply list_elem_of_In.
Qed.

Definition media_of (name : string) (media : list (string * string * string)) :
    list (slot * string) :=
  map (λ '(port, device, medium), ((name, int_of_digits port, int_of_digits device), medium)) media.

Lemma scan_media_spec name media free_slot :
  scan_media name media free_slot =
  match List.find optical (media_of name media) with
  | Some x => inl x.1
  | None => inr match free_slot with
                | Some f => Some f
                | None => fst <$> List.find free_ide (media_of name media)
                end
  end.
Proof.
  revert free_slot. induction media as [|[[port device] medium] media IH]; intros free_slot; simpl.
  { by destruct free_slot. }
  unfold optical at 1, free_ide at 1. cbn [fst snd].
  destruct (holds_optical medium); [done|]. rewrite IH.
  destruct (List.find optical _); [done|]. destruct free_slot as [f|].
  - by rewrite bool_decide_eq_false_2, andb_false_r by done.
  - rewrite bool_decide_eq_true_2, andb_true_r by done.
    by destruct (String.eqb medium "none" && py_in "ide" (py_lower name)).
Qed.

Lemma scan_controllers_spec out names free_slot :
  let slots := flat_map (λ n, media_of n (re_findall_lines (slot_line n) out)) names in
  scan_controllers out names free_slot =
  match List.find optical slots with
  | Some x => inl x.1
  | None => inr match free_slot with
                | Some f => Some f
                | None => fst <$> List.find free_ide slots
                end
  end.
Proof.
  cbv zeta. revert free_slot. induction names as [|name names IH]; intros free_slot; simpl.
  { by destruct free_slot. }
  rewrite scan_media_spec, !find_app.
  destruct (List.find optical (media_of name _)); [done|]. rewrite IH.
  destruct (List.find optical _); [done|]. destruct free_slot as [f|]; [done|].
  by destruct (List.find free_ide (media_of name _)).
Qed.

(** The two nested loops choose the first slot that holds an optical medium,
    and otherwise the first free slot of an IDE controller. *)
Lemma find_slot_spec out :
  find_slot out =
  match List.find optical (slots_of out) with
  | Some x => Some x.1
  | None => fst <$> List.find free_ide (slots_of out)
  end.
Proof.
  unfold find_slot. rewrite scan_controllers_spec. fold (slots_of out).
  change (flat_map _ (controllers_of out)) with (slots_of out).
  by destruct (List.find optical (slots_of out)).
Qed.

(** ** A small hypervisor *)

(** Machines with their power state, and a clock in nanoseconds. *)
Record vm_host : Type := MkVmHost { machines : list (string * bool); clock : Z; obeys_acpi : bool }.

Definition render_state (on : bool) : string :=
  "VMState=" +:+ dq +:+ (if on then "running" else "poweroff") +:+ dq +:+ nl.

Definition set_power (vm : string) (on : bool) (w : vm_host) : vm_host :=
  MkVmHost (map (λ m, if String.eqb m.1 vm then (vm, on) else m) (machines w)) (clock w) (obeys_acpi w).

Definition answer_vbox (args : list string) (w : vm_host) : proc_resp * vm_host :=
  match args with
  | "list" :: _ => (Completed 0 (unlines (map (λ m, render_vm (m.1, "0f")) (machines w))) "", w)
  | "showvminfo" :: vm :: _ =>
      (match List.find (λ m, String.eqb m.1 vm) (machines w) with
       | Some m => Completed 0 (render_state m.2) ""
       | None => Completed 1 "" "not found"
       end, w)
  | "controlvm" :: vm :: cmd :: _ =>
      (Completed 0 "" "",
       if obeys_acpi w || String.eqb cmd "poweroff" then set_power vm false w else w)
  | "startvm" :: vm :: _ => (Completed 0 "" "", set_power vm true w)
  | "unregistervm" :: vm :: _ =>
      (Completed 0 "" "",
       MkVmHost (List.filter (λ m, negb (String.eqb m.1 vm)) (machines w)) (clock w) (obeys_acpi w))
  | _ => (Completed 0 "" "", w)
  end.

Definition vm_world : handler vm_host := λ e w,
  match e return resp e * vm_host with
  | Subprocess (_ :: args) _ => answer_vbox args w
  | Monotonic => (clock w, w)
  | Sleep d => (tt, MkVmHost (machines w) (clock w + d) (obeys_acpi w))
  | e => (default_resp e, w)
  end.

Definition sample_vbox : VBoxManage := MkVBoxManage (Path "/usr/bin/VBoxManage").
Definition sample_host : vm_host := MkVmHost [("web-1", true); ("golden", true)] 0 false.

(** Decides that the clock of a concrete run is in order. *)
Ltac clock_tac := vm_compute; repeat (split; [by intros|]); exact I.

(** ** Properties *)

(** Reading back the listing of VirtualBox gives the machines, in order,
    for names and identifiers without quotes or line breaks. *)
Theorem list_vms_reads_back vms :
  Forall printable_vm vms → parse_vms (unlines (render_vm <$> vms)) = vms.*1.
Proof.
  intros Hvms. unfold parse_vms. rewrite splitlines_unlines.
  - induction Hvms as [|vm vms Hvm Hvms IH]; [done|]. simpl.
    rewrite vm_line_render by done. f_equal. exact IH.
  - apply Forall_fmap. eapply Forall_impl; [exact Hvms|]. intros vm. apply render_vm_no_linebreak.
Qed.

Lemma list_vms_reads_back_witness :
  parse_vms (unlines (render_vm <$> [("web-1", "0f3a"); ("my vm {1}", "77")]))
    = ["web-1"; "my vm {1}"].
Proof. apply list_vms_reads_back. by repeat constructor. Defined.

(** C31: the slot that [optical_slot] chooses is one the output of [showvminfo]
    reports, its medium is an empty drive, an ISO image or nothing at all,
    never a hard disk; an optical medium is preferred, and a slot with nothing
    in it is taken only on an IDE controller and only when no slot looked at
    holds an optical medium. *)
Theorem optical_slot_safe vbox vm_name s t slot s' :
  runs (optical_slot vbox vm_name) s t (Ok slot) s' →
  ∃ rc out err medium,
    t = [Ev (vbox_call vbox (showvminfo vm_name) 120) (Completed rc out err)] ∧
    reported out slot medium ∧
    (holds_optical medium = true ∨
     medium = "none" ∧ py_in "ide" (py_lower slot.1.1) = true ∧
     Forall (λ x, holds_optical x.2 = false) (slots_of out)).
Proof.
  intros H. revert H.
  cut (wp (optical_slot vbox vm_name) s (λ t o _, ∀ slot, o = Ok slot →
    ∃ rc out err medium,
      t = [Ev (vbox_call vbox (showvminfo vm_name) 120) (Completed rc out err)] ∧
      reported out slot medium ∧
      (holds_optical medium = true ∨
       medium = "none" ∧ py_in "ide" (py_lower slot.1.1) = true ∧
       Forall (λ x, holds_optical x.2 = false) (slots_of out))));
    [intros Hwp H; by apply (Hwp _ _ _ H slot)|].
  clear. unfold optical_slot. apply wp_bind, wp_vbox_run. intros [rc out err| |]; simpl; [|done..].
  rewrite find_slot_spec. destruct (List.find optical (slots_of out)) as [[s0 m0]|] eqn:Ho.
  - apply wp_ret. intros ? [= <-]. apply find_Some_elem in Ho as [Hin Ho].
    exists rc, out, err, m0. split_and!; [done|by apply slots_of_reported|by left].
  - destruct (List.find free_ide (slots_of out)) as [[s0 m0]|] eqn:Hf; simpl; [|by apply wp_raise].
    apply wp_ret. intros ? [= <-]. apply find_Some_elem in Hf as [Hin Hf].
    apply andb_prop in Hf as [Hm%String.eqb_eq Hide]. simpl in Hm. subst m0.
    exists rc, out, err, "none". split_and!; [done|by apply slots_of_reported|].
    right. split_and!; [done..|by apply find_None_Forall].
Qed.

Definition sample_showvminfo : string := unlines
  ["storagecontrollername0=" +:+ dq +:+ "SATA" +:+ dq;
   "storagecontrollername1=" +:+ dq +:+ "IDE" +:+ dq;
   dq +:+ "SATA-0-0" +:+ dq +:+ "=" +:+ dq +:+ "/vms/disk.vdi" +:+ dq;
   dq +:+ "IDE-0-0" +:+ dq +:+ "=" +:+ dq +:+ "none" +:+ dq;
   dq +:+ "IDE-1-0" +:+ dq +:+ "=" +:+ dq +:+ "emptydrive" +:+ dq].

Definition showvminfo_world : handler unit := λ e w,
  (match e return resp e with
   | Subprocess _ _ => Completed 0 sample_showvminfo ""
   | e => default_resp e
   end, w).

Lemma optical_slot_safe_witness :
  outcome_in showvminfo_world (optical_slot sample_vbox "web-1") tt = Ok ("IDE", 1%Z, 0%Z) ∧
  ∃ rc out err medium,
    trace_in showvminfo_world (optical_slot sample_vbox "web-1") tt =
      [Ev (vbox_call sample_vbox (showvminfo "web-1") 120) (Completed rc out err)] ∧
    reported out ("IDE", 1%Z, 0%Z) medium ∧
    (holds_optical medium = true ∨
     medium = "none" ∧ py_in "ide" (py_lower "IDE") = true ∧
     Forall (λ x, holds_optical x.2 = false) (slots_of out)).
Proof.
  assert (outcome_in showvminfo_world (optical_slot sample_vbox "web-1") tt
    = Ok ("IDE", 1%Z, 0%Z)) as Ho by by vm_compute.
  split; [exact Ho|].
  destruct (run_in_runs showvminfo_world (optical_slot sample_vbox "web-1") tt) as [s' H].
  rewrite Ho in H. exact (optical_slot_safe _ _ _ _ _ _ H).
Defined.

(** C32: the address chosen for a guest is empty exactly when no interface is
    a candidate; otherwise it is the address of an interface that is neither
    virtual nor loopback nor link-local; it shares the host's /24 network if
    any candidate does, and failing that it is a 192.168 or 10 address if any
    candidate is. *)
Theorem select_lan_address_spec interfaces host_lan :
  (∀ i, i ∈ interfaces → i.2 ≠ "") →
  let chosen := _select_lan_address interfaces host_lan in
  let private a := py_startswith a "192.168." || py_startswith a "10." in
  (chosen = "" ↔ candidates interfaces = []) ∧
  (chosen ≠ "" → ∃ name, (name, chosen) ∈ interfaces ∧
     _is_virtual_interface name = false ∧ _is_usable_address chosen = true) ∧
  (host_lan ≠ "" → (∃ a, a ∈ candidates interfaces ∧ _same_slash24 a host_lan = true) →
     _same_slash24 chosen host_lan = true) ∧
  ((∀ a, a ∈ candidates interfaces → _same_slash24 a host_lan = false) →
   (∃ a, a ∈ candidates interfaces ∧ private a = true) → private chosen = true).
Proof.
  intros Hne chosen private. pose proof (select_in_candidates interfaces host_lan) as Hin.
  fold chosen in Hin. split_and!.
  - destruct (candidates interfaces) eqn:Hc; [done|]. split; [|done]. intros Hempty.
    rewrite <- Hc, elem_of_candidates in Hin. destruct Hin as (name & Hn & _).
    by destruct (Hne _ Hn).
  - intros Hch. destruct (candidates interfaces) eqn:Hc; [done|].
    rewrite <- Hc, elem_of_candidates in Hin. destruct Hin as (name & Hn & Hcand).
    unfold is_candidate in Hcand. apply andb_prop in Hcand as [Hv%negb_true_iff Hu]. eauto.
  - intros Hlan%String.eqb_neq (a & Ha & Hs). unfold chosen, _select_lan_address.
    fold (candidates interfaces). destruct (candidates interfaces) as [|first rest];
      [by apply elem_of_nil in Ha|]. cbv zeta. rewrite Hlan.
    destruct (List.find (λ a, _same_slash24 a host_lan) _) as [x|] eqn:Hx.
    + by apply find_Some_elem in Hx as [_ ?].
    + apply find_None_Forall in Hx. rewrite Forall_forall in Hx. apply Hx in Ha. congruence.
  - intros Hno (a & Ha & Hp). unfold chosen, _select_lan_address.
    fold (candidates interfaces). destruct (candidates interfaces) as [|first rest];
      [by apply elem_of_nil in Ha|]. cbv zeta.
    assert ((if String.eqb host_lan "" then None
      else List.find (λ a, _same_slash24 a host_lan) (first :: rest)) = None) as ->.
    { destruct (String.eqb host_lan ""); [done|]. apply find_None_Forall, Forall_forall. eauto. }
    fold private. destruct (List.find private _) as [x|] eqn:Hx.
    + by apply find_Some_elem in Hx as [_ ?].
    + apply find_None_Forall in Hx. rewrite Forall_forall in Hx. apply Hx in Ha. congruence.
Qed.

Lemma select_lan_address_spec_witness :
  let interfaces := [("docker0", "172.17.0.1"); ("eth0", "10.0.2.15"); ("eth1", "192.168.1.20")] in
  _same_slash24 (_select_lan_address interfaces "192.168.1.5") "192.168.1.5" = true.
Proof.
  intros interfaces.
  destruct (select_lan_address_spec interfaces "192.168.1.5") as (_ & _ & Hlan & _).
  - apply Forall_forall. by repeat constructor.
  - apply Hlan; [done|]. exists "192.168.1.20". split; [|done].
    vm_compute. right. left.
Defined.

(** Powering a machine off, when it returns, leaves the machine not
    running, by the last answer of the hypervisor; on the way it sends
    commands to that machine only, and fails only with [VirtualBoxError] or
    [ProvisioningTimeoutError]. *)
Theorem power_off_stops_machine vbox vm_name wait s t o s' :
  runs (power_off vbox vm_name wait) s t o s' →
  Forall (vm_call vbox [vm_name]) t ∧
  (o = Ok tt → ends_stopped vbox vm_name t) ∧
  (∀ e, o = Raise e → vm_error e).
Proof.
  intros H. pose proof (power_off_emits vbox vm_name [vm_name] wait ltac:(set_solver)) as Hem.
  destruct (Hem _ _ _ _ H) as [Ht He].
  split_and!; [done| |done]. intros ->. by apply power_off_stops in H.
Qed.

Lemma power_off_stops_machine_witness :
  outcome_in vm_world (power_off sample_vbox "web-1" 120) sample_host = Ok tt ∧
  ends_stopped sample_vbox "web-1"
    (trace_in vm_world (power_off sample_vbox "web-1" 120) sample_host).
Proof.
  assert (outcome_in vm_world (power_off sample_vbox "web-1" 120) sample_host = Ok tt) as Ho
    by by vm_compute.
  split; [exact Ho|].
  destruct (run_in_runs vm_world (power_off sample_vbox "web-1" 120) sample_host) as [s' H].
  exact (proj1 (proj2 (power_off_stops_machine _ _ _ _ _ _ _ H)) Ho).
Defined.

(** C30: deleting a machine returns normally only after a listing of the
    hypervisor in which the machine no longer appears; the deletion is never
    tried before an answer that the machine is not running; no command changes
    any other machine. *)
Theorem destroy_removes_machine vbox vm_name attempts s t o s' :
  runs (destroy vbox vm_name attempts) s t o s' →
  (o = Ok tt → ends_gone vbox vm_name t) ∧
  stopped_before_delete vbox vm_name t ∧
  Forall (vm_call vbox [vm_name]) t ∧
  (∀ e, o = Raise e → vm_error e).
Proof.
  intros H. pose proof (destroy_emits vbox vm_name [vm_name] attempts ltac:(set_solver)) as Hem.
  destruct (Hem _ _ _ _ H) as [Ht He].
  apply destroy_spec in H as [Hg Hs]. done.
Qed.

Lemma destroy_removes_machine_witness :
  outcome_in vm_world (destroy sample_vbox "web-1" 3) sample_host = Ok tt ∧
  ends_gone sample_vbox "web-1"
    (trace_in vm_world (destroy sample_vbox "web-1" 3) sample_host).
Proof.
  assert (outcome_in vm_world (destroy sample_vbox "web-1" 3) sample_host = Ok tt) as Ho
    by by vm_compute.
  split; [exact Ho|].
  destruct (run_in_runs vm_world (destroy sample_vbox "web-1" 3) sample_host) as [s' H].
  exact (proj1 (destroy_removes_machine _ _ _ _ _ _ _ H) Ho).
Defined.

(** C33: the polling loops end: no run of [power_off], [destroy] or
    [wait_for_guest_ip], on a clock that does not go back and that advances by
    each pause, asks for the time more often than its budget and its pause
    allow, so the fuel of the model is never exhausted; and the address
    [wait_for_guest_ip] returns is a dotted quad. *)
Theorem hypervisor_loops_end vbox vm_name hostname wait attempts now s t s' :
  clock_ok now t →
  (∀ o, runs (power_off vbox vm_name wait) s t o s' → o ≠ OutOfFuel) ∧
  (∀ o, runs (destroy vbox vm_name attempts) s t o s' → o ≠ OutOfFuel) ∧
  (∀ o, runs (wait_for_guest_ip vbox vm_name hostname wait) s t o s' →
     o ≠ OutOfFuel ∧ ∀ a, o = Ok a → dotted_quad a).
Proof.
  intros Hc. split_and!.
  - intros o H. exact (power_off_terminates _ _ _ _ _ _ _ _ H Hc).
  - intros o H. exact (destroy_terminates _ _ _ _ _ _ _ _ H Hc).
  - intros o H. split; [exact (wait_for_guest_ip_terminates _ _ _ _ _ _ _ _ _ H Hc)|].
    intros a ->. exact (wait_for_guest_ip_returns _ _ _ _ _ _ _ _ H).
Qed.

Lemma hypervisor_loops_end_witness :
  let m := wait_for_guest_ip sample_vbox "web-1" "web-1" 60 in
  clock_ok 0 (trace_in vm_world m sample_host) ∧
  outcome_in vm_world m sample_host ≠ OutOfFuel ∧
  length (trace_in vm_world m sample_host) = 51.
Proof.
  intros m.
  assert (clock_ok 0 (trace_in vm_world m sample_host)) as Hc by clock_tac.
  split; [exact Hc|]. split; [|by vm_compute].
  destruct (run_in_runs vm_world m sample_host) as [s' H].
  exact (proj1 (proj2 (proj2 (hypervisor_loops_end _ _ _ _ 3 _ _ _ _ Hc)) _ H)).
Defined.
