(* ===== verification/SshClient.v ===== *)
(** * SSH sessions (ssh_client.py)

    A [RemoteHost] object is an index into the store of sessions, so that the
    client and SFTP channel it holds are shared state: every method reads and
    updates the session, and the state survives an exception.  [with_host] is
    the [with RemoteHost(...) as host:] statement. *)

From S2P Require Import Prelude PyStr Exceptions Paths Effects Reasoning Bytes Config.

#[export] Set Default Goal Selector "!".

Definition SUDO_PASSWORD_ENV : string := "VMDEPLOY_SUDO_PASSWORD".
Definition _RETRY_INTERVAL_SECONDS : Z := seconds 5.

Record CommandResult : Type := MkCommandResult {
  command : string;
  exit_status : Z;
  stdout : string;
  stderr : string }.

Definition cmd_ok (r : CommandResult) : bool := (exit_status r =? 0)%Z.

(** [result.lines()]. *)
Definition cmd_lines (r : CommandResult) : list string :=
  List.filter (λ l, negb (String.eqb l "")) (map py_strip (py_splitlines (stdout r))).

Definition sudo_password : M string :=
  environ <- call Environ ;;
  let password := default "" (env_get environ SUDO_PASSWORD_ENV) in
  if String.eqb password "" then
    raise (SSHConnectionError
      ("Privileged remote commands require the " +:+ SUDO_PASSWORD_ENV
       +:+ " environment variable to be set, or passwordless sudo to be configured on the guest"))
  else ret password.

(** ** Sessions *)

Record RemoteHost : Type := MkRemoteHost {
  address : string;
  host_config : SSHConfig;
  sid : nat }.

Definition new_RemoteHost (addr : string) (cfg : SSHConfig) : M RemoteHost :=
  s <- get_store ;;
  put_store (s ++ [Session None None]) ;;
  ret (MkRemoteHost addr cfg (length s)).

Definition session_of (s : store) (i : nat) : session := default (Session None None) (s !! i).

Definition get_session (h : RemoteHost) : M session :=
  s <- get_store ;; ret (session_of s (sid h)).

(** The assignments to [self._client] and [self._sftp]. *)
Definition set_client (h : RemoteHost) (c : option Z) : M unit :=
  s <- get_store ;; put_store (<[sid h := Session c (s_sftp (session_of s (sid h)))]> s).
Definition set_sftp (h : RemoteHost) (ch : option Z) : M unit :=
  s <- get_store ;; put_store (<[sid h := Session (s_client (session_of s (sid h))) ch]> s).

(** The [client] property. *)
Definition host_client (h : RemoteHost) : M Z :=
  x <- get_session h ;;
  match s_client x with
  | Some c => ret c
  | None => raise (SSHConnectionError
      ("Not connected to " +:+ address h +:+ "; call connect() first"))
  end.

Definition connect (h : RemoteHost) : M unit :=
  x <- get_session h ;;
  match s_client x with
  | Some _ => ret tt
  | None =>
      let cfg := host_config h in
      present <- call (IsFile (key_path cfg)) ;;
      if negb present then
        raise (SSHConnectionError ("SSH private key not found at " +:+ str_path (key_path cfg)))
      else
        r <- call (SshConnect (address h) (user cfg) (key_path cfg) (connect_timeout_seconds cfg)) ;;
        match r with
        | AuthenticationFailed exc => raise (SSHConnectionError
            ("Authentication failed for " +:+ user cfg +:+ "@" +:+ address h
             +:+ " using key " +:+ str_path (key_path cfg) +:+ ": " +:+ exc))
        | ConnectFailed exc => raise (SSHConnectionError
            ("Cannot reach " +:+ address h +:+ " over SSH: " +:+ exc))
        | Connected c => set_client h (Some c)
        end
  end.

Definition close (h : RemoteHost) : M unit :=
  x <- get_session h ;;
  match s_sftp x with
  | Some ch => call (SftpClose ch) ;; set_sftp h None
  | None => ret tt
  end ;;
  x <- get_session h ;;
  match s_client x with
  | Some c => call (SshClose c) ;; set_client h None
  | None => ret tt
  end.

(** [with RemoteHost(addr, cfg) as host: body]. *)
Definition with_host {A} (addr : string) (cfg : SSHConfig) (body : RemoteHost → M A) : M A :=
  h <- new_RemoteHost addr cfg ;;
  connect h ;;
  finally (body h) (close h).

(** ** Commands *)

(** [timeout or default]. *)
Definition or_default (timeout : option Z) (d : Z) : Z :=
  match timeout with Some t => if (t =? 0)%Z then d else t | None => d end.

Definition effective_timeout (h : RemoteHost) (timeout : option Z) : Z :=
  or_default timeout (command_timeout_seconds (host_config h)).

Definition host_run (h : RemoteHost) (cmd : string) (check : bool) (timeout : option Z) :
    M CommandResult :=
  c <- host_client h ;;
  r <- call (SshExec c cmd None (effective_timeout h timeout)) ;;
  match r with
  | ExecFailed exc => raise (SSHConnectionError
      ("Command failed on " +:+ address h +:+ ": " +:+ cmd +:+ ": " +:+ exc))
  | Executed status out err =>
      let result := MkCommandResult cmd status out err in
      if check && negb (cmd_ok result) then raise (RemoteCommandError cmd status out err)
      else ret result
  end.

Definition sudo_n (cmd : string) : string := "sudo -n " +:+ cmd.
Definition sudo_S (cmd : string) : string := "sudo -S -p '' " +:+ cmd.

Definition sudo (h : RemoteHost) (cmd : string) (check : bool) (timeout : option Z) :
    M CommandResult :=
  passwordless <- host_run h (sudo_n cmd) false timeout ;;
  if cmd_ok passwordless then ret passwordless
  else
    password <- sudo_password ;;
    c <- host_client h ;;
    r <- call (SshExec c (sudo_S cmd) (Some (password +:+ nl)) (effective_timeout h timeout)) ;;
    match r with
    | ExecFailed exc => raise (SSHConnectionError
        ("Privileged command failed on " +:+ address h +:+ ": " +:+ cmd +:+ ": " +:+ exc))
    | Executed status out err =>
        let result := MkCommandResult (sudo_S cmd) status out err in
        if check && negb (cmd_ok result) then raise (RemoteCommandError (sudo_S cmd) status out err)
        else ret result
    end.

(** ** Files *)

Definition sftp (h : RemoteHost) : M Z :=
  x <- get_session h ;;
  match s_sftp x with
  | Some ch => ret ch
  | None =>
      c <- host_client h ;;
      r <- call (SftpOpen c) ;;
      match r with
      | IoErr exc => raise (SSHConnectionError
          ("Cannot open SFTP to " +:+ address h +:+ ": " +:+ exc))
      | IoOk ch => set_sftp h (Some ch) ;; ret ch
      end
  end.

Definition staging_path (random : bytes) : string := "/tmp/vmdeploy-" +:+ hex_of_bytes random.

Definition install_command (mode : N) (staging remote_path : string) : string :=
  "install -D -m " +:+ octal mode +:+ " " +:+ staging +:+ " " +:+ remote_path.

Definition put_bytes (h : RemoteHost) (payload : bytes) (remote_path : string) (mode : N) : M unit :=
  random <- call (Urandom 8) ;;
  let staging := staging_path random in
  ch <- sftp h ;;
  r <- call (SftpWrite ch staging payload) ;;
  match r with
  | IoErr exc => raise (SSHConnectionError
      ("Failed staging " +:+ pretty (length payload) +:+ " bytes to " +:+ address h +:+ ":"
       +:+ staging +:+ ": " +:+ exc))
  | IoOk _ =>
      sudo h (install_command mode staging remote_path) true None ;;
      host_run h ("rm -f " +:+ staging) false None ;;
      ret tt
  end.

(** Permission bits [0o644], [0o600] and [0o440]. *)
Definition mode_644 : N := 420.
Definition mode_600 : N := 384.
Definition mode_440 : N := 288.

Definition put_file (h : RemoteHost) (local_path : path) (remote_path : string) (mode : N) : M unit :=
  r <- call (ReadBytes local_path) ;;
  match r with
  | IoErr exc => raise (SSHConnectionError
      ("Cannot read local file " +:+ str_path local_path +:+ ": " +:+ exc))
  | IoOk payload => put_bytes h payload remote_path mode
  end.

Definition get_bytes (h : RemoteHost) (remote_path : string) : M bytes :=
  ch <- sftp h ;;
  r <- call (SftpRead ch remote_path) ;;
  match r with
  | IoErr exc => raise (SSHConnectionError
      ("Cannot read " +:+ address h +:+ ":" +:+ remote_path +:+ ": " +:+ exc))
  | IoOk payload => ret payload
  end.

Definition host_hostname (h : RemoteHost) : M string :=
  r <- host_run h "hostname" true None ;; ret (py_strip (stdout r)).

Definition primary_ipv4 (h : RemoteHost) : M string :=
  r <- host_run h
    "hostname -I | tr ' ' '\n' | grep -E '^[0-9]+(\.[0-9]+){3}$' | head -n 1" false None ;;
  ret (py_strip (stdout r)).

(** ** Waiting for a guest *)

Definition ssh_attempt (addr : string) (cfg : SSHConfig) : M (option string) :=
  catch (with_host addr cfg (λ h, host_run h "true" true None) ;; ret None)
    (λ exc, if isinstance exc CSSHConnectionError then Some (ret (Some (str_exn exc))) else None).

Definition wait_for_ssh (addr : string) (cfg : SSHConfig) (timeout_seconds : Z) : M unit :=
  now <- call Monotonic ;;
  r <- while_with (polls (seconds timeout_seconds) _RETRY_INTERVAL_SECONDS)
    (now + seconds timeout_seconds)%Z (0, "no attempt completed")
    (λ '(attempt, _),
      failure <- ssh_attempt addr cfg ;;
      match failure with
      | None => ret (inr tt)
      | Some last_error => call (Sleep _RETRY_INTERVAL_SECONDS) ;; ret (inl (S attempt, last_error))
      end) ;;
  match r with
  | inr _ => ret tt
  | inl (attempt, last_error) => raise (ProvisioningTimeoutError
      (addr +:+ " did not accept SSH within " +:+ str_of_Z timeout_seconds +:+ "s after "
       +:+ pretty attempt +:+ " attempt(s); last error: " +:+ last_error))
  end.
