(* ===== verification/SshFacts.v ===== *)
(** * What SSH sessions guarantee

    Where the sudo password can go, what a privileged write does, that every
    connection opened is closed on every outcome, and that waiting for a guest
    ends. *)

From S2P Require Import Prelude PyStr Exceptions Paths Effects Reasoning Bytes Config SshClient.

#[export] Set Default Goal Selector "!".

(** ** Connections *)

(** The connections a run opens and closes, in order. *)
Definition opened_by (ev : event) : option Z :=
  match ev with
  | Ev (SshConnect _ _ _ _) r =>
      match r : connect_resp with Connected c => Some c | _ => None end
  | _ => None
  end.
Definition closed_by (ev : event) : option Z :=
  match ev_eff ev with SshClose c => Some c | _ => None end.
Definition opened (t : trace) : list Z := omap opened_by t.
Definition closed (t : trace) : list Z := omap closed_by t.

Definition no_connection (ev : event) : Prop := opened_by ev = None ∧ closed_by ev = None.

Lemma opened_app t1 t2 : opened (t1 ++ t2) = opened t1 ++ opened t2.
Proof. apply omap_app. Qed.
Lemma closed_app t1 t2 : closed (t1 ++ t2) = closed t1 ++ closed t2.
Proof. apply omap_app. Qed.

Lemma no_connection_opened t : Forall no_connection t → opened t = [] ∧ closed t = [].
Proof.
  induction 1 as [|ev t [Ho Hc] Ht IH]; [done|]. unfold opened, closed in *. simpl.
  by rewrite Ho, Hc.
Qed.

(** ** Operations of an open session *)

(** [m] neither opens nor closes a connection, and leaves the client of
    session [i] as it is. *)
Definition host_op {A} (i : nat) (m : M A) : Prop :=
  ∀ s t o s', runs m s t o s' →
    Forall no_connection t ∧ length s' = length s ∧
    s_client (session_of s' i) = s_client (session_of s i).

Section host_op.
Context (i : nat).

Lemma host_op_ret {A} (a : A) : host_op i (ret a).
Proof. intros s t o s' H. by run_inv1 H. Qed.
Lemma host_op_raise {A} e : host_op i (raise (A:=A) e).
Proof. intros s t o s' H. by run_inv1 H. Qed.
Lemma host_op_get_store : host_op i get_store.
Proof. intros s t o s' H. by run_inv1 H. Qed.
Lemma host_op_lift_io {A} (r : io A) : host_op i (lift_io r).
Proof. destruct r; [apply host_op_ret|apply host_op_raise]. Qed.
Lemma host_op_lift_res {A} (r : res A) : host_op i (lift_res r).
Proof. destruct r; [apply host_op_raise|apply host_op_ret]. Qed.

Lemma host_op_call e : (∀ r, no_connection (Ev e r)) → host_op i (call e).
Proof. intros He s t o s' H. run_inv1 H. split_and!; [by constructor|done|done]. Qed.

Lemma host_op_bind {A B} (m : M A) (f : A → M B) :
  host_op i m → (∀ a, host_op i (f a)) → host_op i (bind m f).
Proof.
  intros Hm Hf s t o s' H.
  apply runs_bind in H as [(a & s1 & t1 & t2 & -> & H1 & H2)|[(e & -> & H)|[-> H]]].
  - destruct (Hm _ _ _ _ H1) as (? & ? & ?), (Hf _ _ _ _ _ H2) as (? & ? & ?).
    split_and!; [by apply Forall_app|congruence|congruence].
  - exact (Hm _ _ _ _ H).
  - exact (Hm _ _ _ _ H).
Qed.

Lemma host_op_catch {A} (m : M A) h :
  host_op i m → (∀ e m', h e = Some m' → host_op i m') → host_op i (catch m h).
Proof.
  intros Hm Hh s t o s' H.
  apply runs_catch in H as [(e & m' & s1 & t1 & t2 & -> & H1 & He & H2)|[H _]].
  - destruct (Hm _ _ _ _ H1) as (? & ? & ?), (Hh _ _ He _ _ _ _ H2) as (? & ? & ?).
    split_and!; [by apply Forall_app|congruence|congruence].
  - exact (Hm _ _ _ _ H).
Qed.

Lemma host_op_when b (m : M unit) : host_op i m → host_op i (when b m).
Proof. destruct b; [done|intros _; apply host_op_ret]. Qed.

Lemma host_op_for_each {A} (l : list A) f : (∀ x, host_op i (f x)) → host_op i (for_each l f).
Proof.
  intros Hf. induction l as [|x l IH]; simpl; [apply host_op_ret|].
  by apply host_op_bind.
Qed.
End host_op.

Lemma runs_get_session h s t o s' :
  runs (get_session h) s t o s' ↔ t = [] ∧ o = Ok (session_of s (sid h)) ∧ s' = s.
Proof.
  split; [intros [-> [= -> ->]]%exec_inv; done|intros (-> & -> & ->); constructor].
Qed.

Lemma runs_set_client h c s t o s' :
  runs (set_client h c) s t o s' ↔
  t = [] ∧ o = Ok tt ∧ s' = <[sid h := Session c (s_sftp (session_of s (sid h)))]> s.
Proof.
  split; [intros [-> [= -> ->]]%exec_inv; done|intros (-> & -> & ->); constructor].
Qed.

Lemma runs_set_sftp h ch s t o s' :
  runs (set_sftp h ch) s t o s' ↔
  t = [] ∧ o = Ok tt ∧ s' = <[sid h := Session (s_client (session_of s (sid h))) ch]> s.
Proof.
  split; [intros [-> [= -> ->]]%exec_inv; done|intros (-> & -> & ->); constructor].
Qed.

Lemma session_of_insert s i x : i < length s → session_of (<[i := x]> s) i = x.
Proof. intros Hi. unfold session_of. by rewrite list_lookup_insert_eq. Qed.

Lemma session_of_out s i : length s ≤ i → session_of s i = Session None None.
Proof. intros Hi. unfold session_of. by rewrite lookup_ge_None_2. Qed.

(** Installing an SFTP channel keeps the client. *)
Lemma host_op_set_sftp h ch : host_op (sid h) (set_sftp h ch).
Proof.
  intros s t o s' (-> & -> & ->)%runs_set_sftp. split_and!; [done|by rewrite length_insert|].
  destruct (decide (sid h < length s)); [by rewrite session_of_insert|].
  by rewrite list_insert_ge by lia.
Qed.

Lemma host_op_get_session h : host_op (sid h) (get_session h).
Proof. by intros s t o s' (-> & -> & ->)%runs_get_session. Qed.

#[export] Hint Resolve host_op_ret host_op_raise host_op_get_store host_op_lift_io
  host_op_lift_res : vmdeploy.

Ltac host_op_step :=
  lazymatch goal with
  | |- host_op _ (bind _ _) => apply host_op_bind; [|intros ?]
  | |- host_op _ (call _) => apply host_op_call; intros ?; by split
  | |- host_op _ (when _ _) => apply host_op_when
  | |- host_op _ (for_each _ _) => apply host_op_for_each; intros ?
  | |- host_op _ (match ?x with _ => _ end) => destruct x eqn:?
  end.
Ltac host_op_auto := repeat (host_op_step || (progress eauto with vmdeploy)).

#[export] Hint Resolve host_op_set_sftp host_op_get_session : vmdeploy.

Section operations.
Context (h : RemoteHost).

Lemma host_client_op : host_op (sid h) (host_client h).
Proof. unfold host_client. by host_op_auto. Qed.

Lemma host_run_op cmd check timeout : host_op (sid h) (host_run h cmd check timeout).
Proof. unfold host_run. pose proof host_client_op. by host_op_auto. Qed.

Lemma sudo_op cmd check timeout : host_op (sid h) (sudo h cmd check timeout).
Proof.
  unfold sudo, sudo_password. pose proof host_client_op. pose proof host_run_op. by host_op_auto.
Qed.

Lemma sftp_op : host_op (sid h) (sftp h).
Proof. unfold sftp. pose proof host_client_op. by host_op_auto. Qed.

Lemma put_bytes_op payload remote mode : host_op (sid h) (put_bytes h payload remote mode).
Proof.
  unfold put_bytes. pose proof host_run_op. pose proof sudo_op. pose proof sftp_op.
  by host_op_auto.
Qed.

Lemma put_file_op loc remote mode : host_op (sid h) (put_file h loc remote mode).
Proof. unfold put_file. pose proof put_bytes_op. by host_op_auto. Qed.

Lemma get_bytes_op remote : host_op (sid h) (get_bytes h remote).
Proof. unfold get_bytes. pose proof sftp_op. by host_op_auto. Qed.

Lemma host_hostname_op : host_op (sid h) (host_hostname h).
Proof. unfold host_hostname. pose proof host_run_op. by host_op_auto. Qed.

Lemma primary_ipv4_op : host_op (sid h) (primary_ipv4 h).
Proof. unfold primary_ipv4. pose proof host_run_op. by host_op_auto. Qed.
End operations.

#[export] Hint Resolve host_client_op host_run_op sudo_op sftp_op put_bytes_op put_file_op
  get_bytes_op host_hostname_op primary_ipv4_op : vmdeploy.

(** ** Every connection opened is closed *)

(** On every outcome of [m], the connections opened are the connections
    closed, in the same order. *)
Definition balanced {A} (m : M A) : Prop :=
  ∀ s t o s', runs m s t o s' → o ≠ OutOfFuel → opened t = closed t.

Lemma balanced_quiet {A} (m : M A) :
  emits no_connection (λ _, True) m → balanced m.
Proof.
  intros Hm s t o s' H _. destruct (Hm _ _ _ _ H) as [Ht _].
  by destruct (no_connection_opened _ Ht) as [-> ->].
Qed.

Lemma balanced_ret {A} (a : A) : balanced (ret a).
Proof. by apply balanced_quiet, emits_ret. Qed.
Lemma balanced_raise {A} e : balanced (raise (A:=A) e).
Proof. by apply balanced_quiet, emits_raise. Qed.
Lemma balanced_lift_io {A} (r : io A) : balanced (lift_io r).
Proof. by apply balanced_quiet, emits_lift_io. Qed.
Lemma balanced_lift_res {A} (r : res A) : balanced (lift_res r).
Proof. by apply balanced_quiet, emits_lift_res. Qed.
Lemma balanced_call e : (∀ r, no_connection (Ev e r)) → balanced (call e).
Proof. intros He. by apply balanced_quiet, emits_call. Qed.

Lemma balanced_bind {A B} (m : M A) (f : A → M B) :
  balanced m → (∀ a, balanced (f a)) → balanced (bind m f).
Proof.
  intros Hm Hf s t o s' H Ho.
  apply runs_bind in H as [(a & s1 & t1 & t2 & -> & H1 & H2)|[(e & -> & H)|[-> H]]]; [| |done].
  - rewrite opened_app, closed_app, (Hm _ _ _ _ H1) by done. f_equal. exact (Hf _ _ _ _ _ H2 Ho).
  - exact (Hm _ _ _ _ H ltac:(done)).
Qed.

Lemma balanced_catch {A} (m : M A) h :
  balanced m → (∀ e m', h e = Some m' → balanced m') → balanced (catch m h).
Proof.
  intros Hm Hh s t o s' H Ho.
  apply runs_catch in H as [(e & m' & s1 & t1 & t2 & -> & H1 & He & H2)|[H _]].
  - rewrite opened_app, closed_app, (Hm _ _ _ _ H1) by done. f_equal.
    exact (Hh _ _ He _ _ _ _ H2 Ho).
  - exact (Hm _ _ _ _ H Ho).
Qed.

Lemma balanced_finally {A} (m : M A) fin : balanced m → balanced fin → balanced (finally m fin).
Proof.
  intros Hm Hfin s t o s' H Ho.
  apply runs_finally in H as [[-> H]|(o1 & s1 & t1 & t2 & o2 & -> & H1 & Hne & H2 & ->)]; [done|].
  rewrite opened_app, closed_app, (Hm _ _ _ _ H1 Hne). f_equal.
  apply (Hfin _ _ _ _ H2). by destruct o2.
Qed.

Lemma balanced_when b (m : M unit) : balanced m → balanced (when b m).
Proof. destruct b; [done|intros _; apply balanced_ret]. Qed.

Lemma balanced_for_each {A} (l : list A) f : (∀ x, balanced (f x)) → balanced (for_each l f).
Proof.
  intros Hf. induction l as [|x l IH]; simpl; [apply balanced_ret|]. by apply balanced_bind.
Qed.

Lemma balanced_while_with {S A} fuel deadline st (body : S → M (S + A)) :
  (∀ st, balanced (body st)) → balanced (while_with fuel deadline st body).
Proof.
  intros Hb. revert st. induction fuel as [|fuel IH]; intros st; simpl.
  { by intros s t o s' (_ & -> & _)%runs_out_of_fuel. }
  apply balanced_bind; [by apply balanced_call|]. intros now. destruct (_ <? _)%Z; [|apply balanced_ret].
  apply balanced_bind; [done|]. intros [?|?]; [done|apply balanced_ret].
Qed.

Lemma balanced_while_before {A} fuel deadline (body : M (option A)) :
  balanced body → balanced (while_before fuel deadline body).
Proof.
  intros Hb. induction fuel as [|fuel IH]; simpl.
  { by intros s t o s' (_ & -> & _)%runs_out_of_fuel. }
  apply balanced_bind; [by apply balanced_call|]. intros now. destruct (_ <? _)%Z; [|apply balanced_ret].
  apply balanced_bind; [done|]. intros [?|]; [apply balanced_ret|done].
Qed.

#[export] Hint Resolve balanced_ret balanced_raise balanced_lift_io balanced_lift_res : vmdeploy.

Ltac balanced_step :=
  lazymatch goal with
  | |- balanced (bind _ _) => apply balanced_bind; [|intros ?]
  | |- balanced (call _) => apply balanced_call; intros ?; by split
  | |- balanced (when _ _) => apply balanced_when
  | |- balanced (for_each _ _) => apply balanced_for_each; intros ?
  | |- balanced (while_with _ _ _ _) => apply balanced_while_with; intros ?
  | |- balanced (while_before _ _ _) => apply balanced_while_before
  | |- balanced (finally _ _) => apply balanced_finally
  | |- balanced (match ?x with _ => _ end) => destruct x eqn:?
  end.
Ltac balanced_auto := repeat (balanced_step || (progress eauto with vmdeploy)).

(** ** The with statement *)

Definition ssh_error (e : exn) : Prop := class_of e = CSSHConnectionError.

Definition connect_call (h : RemoteHost) : eff :=
  SshConnect (address h) (user (host_config h)) (key_path (host_config h))
    (connect_timeout_seconds (host_config h)).

Section with_host.
Context (addr : string) (cfg : SSHConfig).

Lemma connect_spec h s t o s' :
  sid h < length s → session_of s (sid h) = Session None None →
  runs (connect h) s t o s' →
  (∃ e, o = Raise e ∧ ssh_error e ∧ Forall no_connection t ∧ s' = s) ∨
  (∃ c, o = Ok tt ∧
     t = [Ev (IsFile (key_path (host_config h))) true; Ev (connect_call h) (Connected c)] ∧
     s' = <[sid h := Session (Some c) None]> s).
Proof.
  intros Hlt Hnone H. unfold connect in H.
  apply runs_bind in H as [(x & s1 & t1 & t2 & -> & H1 & H2)|[(e & -> & H)|[-> H]]];
    [|by apply runs_get_session in H as (_ & ? & _)..].
  apply runs_get_session in H1 as (-> & [= ->] & ->). rewrite Hnone in H2. cbn [s_client] in H2.
  apply runs_bind in H2 as [(present & s1 & t3 & t4 & -> & H3 & H4)|[(e & -> & H)|[-> H]]];
    [|by run_inv1 H..].
  apply runs_call in H3 as (b & -> & [= <-] & ->). destruct present; cbn [negb] in H4.
  - apply runs_bind in H4 as [(r & s2 & t5 & t6 & -> & H5 & H6)|[(e & -> & H)|[-> H]]];
      [|by run_inv1 H..].
    apply runs_call in H5 as (r' & -> & [= <-] & ->). destruct r as [c|exc|exc].
    + apply runs_set_client in H6 as (-> & -> & ->). right. exists c. by rewrite Hnone.
    + run_inv1 H6. left. eexists. split_and!; [done|done|by repeat constructor|done].
    + run_inv1 H6. left. eexists. split_and!; [done|done|by repeat constructor|done].
  - run_inv1 H4. left. eexists. split_and!; [done|done|by repeat constructor|done].
Qed.

Lemma close_spec h s t o s' c :
  sid h < length s → s_client (session_of s (sid h)) = Some c →
  runs (close h) s t o s' →
  o = Ok tt ∧ opened t = [] ∧ closed t = [c] ∧ session_of s' (sid h) = Session None None.
Proof.
  intros Hlt Hc H. unfold close in H.
  apply runs_bind in H as [(x & s1 & t1 & t2 & -> & H1 & H2)|[(e & -> & H)|[-> H]]];
    [|by apply runs_get_session in H as (_ & ? & _)..].
  apply runs_get_session in H1 as (-> & [= ->] & ->).
  assert (∃ u s3 t3 t4, t2 = t3 ++ t4 ∧ Forall no_connection t3 ∧ sid h < length s3 ∧
    session_of s3 (sid h) = Session (Some c) None ∧
    runs (x <- get_session h ;;
      match s_client x with
      | Some c => call (SshClose c) ;; set_client h None
      | None => ret tt
      end) s3 t4 o s' ∧ u = tt) as (_ & s3 & t3 & t4 & -> & Ht3 & Hlt3 & Hs3 & H3 & _).
  { apply runs_bind in H2 as [(u & s2 & t3 & t4 & -> & H3 & H4)|H2].
    - exists tt, s2, t3, t4. destruct (s_sftp (session_of s (sid h))) as [ch|] eqn:Hch.
      + apply runs_bind in H3 as [(u' & s4 & t5 & t6 & -> & H5 & H6)|[(e & [=] & _)|[[=] _]]].
        run_inv1 H5. apply runs_set_sftp in H6 as (-> & _ & ->).
        rewrite length_insert, session_of_insert, Hc by done.
        rewrite Hc in H4. split_and!; try done. by repeat constructor.
      + run_inv1 H3. split_and!; [done|done|done| |done|done].
        destruct (session_of s (sid h)); simpl in *; by subst.
    - exfalso. destruct (s_sftp (session_of s (sid h))) as [ch|].
      + destruct H2 as [(e & -> & H2)|[-> H2]];
          (apply runs_bind in H2 as [(u' & s4 & t5 & t6 & -> & H5 & H6)|[(e' & ? & H6)|[? H6]]];
           [by apply runs_set_sftp in H6 as (_ & ? & _)|by run_inv1 H6..]).
      + destruct H2 as [(e & -> & H2)|[-> H2]]; by run_inv1 H2. }
  apply runs_bind in H3 as [(x & s1 & t5 & t6 & -> & H5 & H6)|[(e & -> & H)|[-> H]]];
    [|by apply runs_get_session in H as (_ & ? & _)..].
  apply runs_get_session in H5 as (-> & [= ->] & ->). rewrite Hs3 in H6. cbn [s_client] in H6.
  apply runs_bind in H6 as [(u & s1 & t7 & t8 & -> & H7 & H8)|[(e & -> & H)|[-> H]]];
    [|by run_inv1 H..].
  run_inv1 H7. apply runs_set_client in H8 as (-> & -> & ->). rewrite Hs3.
  destruct (no_connection_opened _ Ht3) as [Ho3 Hc3].
  rewrite app_nil_l, app_nil_r, opened_app, closed_app, Ho3, Hc3.
  split_and!; [done..|by rewrite session_of_insert].
Qed.

Lemma with_host_spec {A} (body : RemoteHost → M A) s t o s' :
  (∀ h, host_op (sid h) (body h)) →
  runs (with_host addr cfg body) s t o s' → o ≠ OutOfFuel →
  (∃ e, o = Raise e ∧ ssh_error e ∧ Forall no_connection t) ∨
  (∃ c s1 tb s2 tc,
     let h := MkRemoteHost addr cfg (length s) in
     t = [Ev (IsFile (key_path cfg)) true; Ev (connect_call h) (Connected c)] ++ tb ++ tc ∧
     runs (body h) s1 tb o s2 ∧ opened tb = [] ∧ closed tb = [] ∧
     opened tc = [] ∧ closed tc = [c] ∧ session_of s' (sid h) = Session None None ∧
     s_client (session_of s1 (sid h)) = Some c).
Proof.
  intros Hbody H Ho. unfold with_host in H.
  set (h := MkRemoteHost addr cfg (length s)).
  assert (∃ t2, t = t2 ∧ runs (connect h ;; finally (body h) (close h))
    (s ++ [Session None None]) t2 o s') as (t2 & -> & H2).
  { exists t. split; [done|]. exact H. }
  clear H.
  assert (sid h < length (s ++ [Session None None])) as Hlt by (rewrite length_app; simpl; lia).
  assert (session_of (s ++ [Session None None]) (sid h) = Session None None) as Hnone.
  { unfold session_of. by rewrite (list_lookup_middle s [] _ (length s)). }
  apply runs_bind in H2 as [(u & s1 & t3 & t4 & -> & H3 & H4)|[(e & -> & H)|[-> H]]]; [| |done].
  - apply connect_spec in H3 as [(e & [=] & _)|(c & _ & -> & ->)]; [|done|done].
    right. apply runs_finally in H4 as [[-> _]|(o1 & s2 & tb & tc & o2 & -> & H5 & Hne & H6 & ->)];
      [done|].
    destruct (Hbody h _ _ _ _ H5) as (Hquiet & Hlen & Hcl).
    rewrite session_of_insert in Hcl by done. rewrite length_insert in Hlen.
    apply (close_spec _ _ _ _ _ c) in H6 as (-> & Hop & Hcd & Hend); [|lia|done].
    destruct (no_connection_opened _ Hquiet) as [Hob Hcb].
    eexists c, _, tb, s2, tc. split_and!; eauto. by rewrite session_of_insert.
  - apply connect_spec in H as [(e' & [= <-] & He & Ht & _)|(c & [=] & _)]; [|done|done].
    left. eauto.
Qed.

Lemma with_host_balanced {A} (body : RemoteHost → M A) :
  (∀ h, host_op (sid h) (body h)) → balanced (with_host addr cfg body).
Proof.
  intros Hbody s t o s' H Ho.
  destruct (with_host_spec body s t o s' Hbody H Ho)
    as [(e & _ & _ & Ht)|(c & s1 & tb & s2 & tc & -> & _ & Hob & Hcb & Hoc & Hcc & _)].
  - by destruct (no_connection_opened _ Ht) as [-> ->].
  - rewrite !opened_app, !closed_app, Hob, Hcb, Hoc, Hcc. done.
Qed.
End with_host.

(** ** Calls and errors of the operations *)

Definition host_error (e : exn) : Prop :=
  class_of e = CSSHConnectionError ∨ class_of e = CRemoteCommandError.

(** What an operation on an open session may call. *)
Definition host_call (ev : event) : Prop :=
  match ev_eff ev with
  | Environ | Urandom _ | SshExec _ _ _ _ | SftpOpen _ | SftpWrite _ _ _ | SftpRead _ _ => True
  | _ => False
  end.

Ltac host_emits :=
  repeat match goal with
  | |- emits _ _ (call _) => refine (emits_call _ _ _ _); intros ?; exact I
  | |- emits _ _ (raise _) => apply emits_raise; first [by left|by right]
  | |- emits _ _ (get_session _) => by intros ? ? ? ? (-> & -> & ->)%runs_get_session
  | |- emits _ _ (set_sftp _ _) => by intros ? ? ? ? (-> & -> & ->)%runs_set_sftp
  | _ => emits_step || (progress eauto with vmdeploy)
  end.

Section host_emits.
Context (h : RemoteHost).

Lemma host_client_emits : emits host_call host_error (host_client h).
Proof. unfold host_client. host_emits. Qed.

Lemma host_run_emits cmd check timeout : emits host_call host_error (host_run h cmd check timeout).
Proof. unfold host_run. pose proof host_client_emits. host_emits. Qed.

Lemma sudo_emits cmd check timeout : emits host_call host_error (sudo h cmd check timeout).
Proof.
  unfold sudo, sudo_password. pose proof host_client_emits. pose proof host_run_emits. host_emits.
Qed.

Lemma sftp_emits : emits host_call host_error (sftp h).
Proof. unfold sftp. pose proof host_client_emits. host_emits. Qed.

Lemma put_bytes_emits payload remote mode :
  emits host_call host_error (put_bytes h payload remote mode).
Proof.
  unfold put_bytes. pose proof host_run_emits. pose proof sudo_emits. pose proof sftp_emits.
  host_emits.
Qed.

Lemma get_bytes_emits remote : emits host_call host_error (get_bytes h remote).
Proof. unfold get_bytes. pose proof sftp_emits. host_emits. Qed.

Lemma host_hostname_emits : emits host_call host_error (host_hostname h).
Proof. unfold host_hostname. pose proof host_run_emits. host_emits. Qed.

Lemma get_session_terminates : terminates (get_session h).
Proof. by intros now s t o s' (-> & -> & ->)%runs_get_session _. Qed.
Lemma set_sftp_terminates ch : terminates (set_sftp h ch).
Proof. by intros now s t o s' (-> & -> & ->)%runs_set_sftp _. Qed.
Lemma set_client_terminates c : terminates (set_client h c).
Proof. by intros now s t o s' (-> & -> & ->)%runs_set_client _. Qed.
End host_emits.

#[export] Hint Resolve host_client_emits host_run_emits sudo_emits sftp_emits put_bytes_emits
  get_bytes_emits host_hostname_emits get_session_terminates set_sftp_terminates
  set_client_terminates : vmdeploy.

Section host_terminates.
Context (h : RemoteHost).

Lemma host_client_terminates : terminates (host_client h).
Proof. unfold host_client. by terminates_auto. Qed.
Lemma host_run_terminates cmd check timeout : terminates (host_run h cmd check timeout).
Proof. unfold host_run. pose proof host_client_terminates. by terminates_auto. Qed.
Lemma sudo_terminates cmd check timeout : terminates (sudo h cmd check timeout).
Proof.
  unfold sudo, sudo_password. pose proof host_client_terminates. pose proof host_run_terminates.
  by terminates_auto.
Qed.
Lemma sftp_terminates : terminates (sftp h).
Proof. unfold sftp. pose proof host_client_terminates. by terminates_auto. Qed.
Lemma put_bytes_terminates payload remote mode : terminates (put_bytes h payload remote mode).
Proof.
  unfold put_bytes. pose proof host_run_terminates. pose proof sudo_terminates.
  pose proof sftp_terminates. by terminates_auto.
Qed.
Lemma put_file_terminates loc remote mode : terminates (put_file h loc remote mode).
Proof. unfold put_file. pose proof put_bytes_terminates. by terminates_auto. Qed.
Lemma get_bytes_terminates remote : terminates (get_bytes h remote).
Proof. unfold get_bytes. pose proof sftp_terminates. by terminates_auto. Qed.
Lemma host_hostname_terminates : terminates (host_hostname h).
Proof. unfold host_hostname. pose proof host_run_terminates. by terminates_auto. Qed.
Lemma connect_terminates : terminates (connect h).
Proof. unfold connect. by terminates_auto. Qed.
Lemma close_terminates : terminates (close h).
Proof. unfold close. by terminates_auto. Qed.
End host_terminates.

#[export] Hint Resolve host_client_terminates host_run_terminates sudo_terminates sftp_terminates
  put_bytes_terminates put_file_terminates get_bytes_terminates host_hostname_terminates
  connect_terminates close_terminates : vmdeploy.

Lemma with_host_terminates {A} addr cfg (body : RemoteHost → M A) :
  (∀ h, terminates (body h)) → terminates (with_host addr cfg body).
Proof.
  intros Hb. unfold with_host, new_RemoteHost. terminates_step; [by terminates_auto|].
  terminates_step; [by eauto with vmdeploy|]. apply terminates_finally; eauto with vmdeploy.
Qed.

(** ** One command *)

Definition exec_outcome (h : RemoteHost) (cmd : string) (check : bool) (r : exec_resp) :
    outcome CommandResult :=
  match r with
  | ExecFailed exc => Raise (SSHConnectionError
      ("Command failed on " +:+ address h +:+ ": " +:+ cmd +:+ ": " +:+ exc))
  | Executed status out err =>
      if check && negb (status =? 0)%Z then Raise (RemoteCommandError cmd status out err)
      else Ok (MkCommandResult cmd status out err)
  end.

Lemma wp_host_client h s (Q : trace → outcome Z → store → Prop) :
  (∀ c, s_client (session_of s (sid h)) = Some c → Q [] (Ok c) s) →
  (∀ msg, Q [] (Raise (SSHConnectionError msg)) s) →
  wp (host_client h) s Q.
Proof.
  intros Hc Hn. unfold host_client. apply wp_bind.
  intros t o s' (-> & -> & ->)%runs_get_session. cbn [bind_post].
  destruct (s_client _); apply wp_ret || apply wp_raise; auto.
Qed.

Lemma wp_host_run h cmd check timeout s (Q : trace → outcome CommandResult → store → Prop) :
  (∀ c r, s_client (session_of s (sid h)) = Some c →
     Q [Ev (SshExec c cmd None (effective_timeout h timeout)) r] (exec_outcome h cmd check r) s) →
  (∀ msg, Q [] (Raise (SSHConnectionError msg)) s) →
  wp (host_run h cmd check timeout) s Q.
Proof.
  intros Hr Hn. unfold host_run. apply wp_bind, wp_host_client; [|done].
  intros c Hc. cbn [bind_post]. apply wp_bind. refine (wp_call _ _ _ _). intros r.
  cbn [bind_post]. specialize (Hr c r Hc). destruct r as [status out err|exc].
  - simpl in Hr. cbv zeta. unfold cmd_ok. cbn [exit_status].
    destruct (check && negb (status =? 0)%Z); apply wp_raise || apply wp_ret; done.
  - by apply wp_raise.
Qed.

(** ** Privileged commands *)

(** The calls of [sudo cmd]: the command without a password, then, if that
    did not succeed, the environment, then the command with the password on
    its standard input. *)
Definition sudo_event (cmd : string) (t : trace) (ev : event) : Prop :=
  match ev_eff ev with
  | SshExec _ c stdin _ =>
      (c = sudo_n cmd ∧ stdin = None) ∨
      (c = sudo_S cmd ∧ ∃ environ p,
         Ev Environ environ ∈ t ∧ env_get environ SUDO_PASSWORD_ENV = Some p ∧ p ≠ "" ∧
         stdin = Some (p +:+ nl))
  | Environ => ∃ c tm status out err, status ≠ 0%Z ∧
      head t = Some (Ev (SshExec c (sudo_n cmd) None tm) (Executed status out err))
  | _ => False
  end.

(** The command ran and its exit status is that of [r]. *)
Definition sudo_ran (cmd : string) (t : trace) (r : CommandResult) : Prop :=
  ∃ c cmd' stdin tm, (cmd' = sudo_n cmd ∨ cmd' = sudo_S cmd) ∧ command r = cmd' ∧
    last t = Some (Ev (SshExec c cmd' stdin tm) (Executed (exit_status r) (stdout r) (stderr r))).

Lemma wp_sudo_password s (Q : trace → outcome string → store → Prop) :
  (∀ environ : list (string * string),
     (∀ p, env_get environ SUDO_PASSWORD_ENV = Some p → p ≠ "" → Q [Ev Environ environ] (Ok p) s) ∧
     (∀ msg, Q [Ev Environ environ] (Raise (SSHConnectionError msg)) s)) →
  wp sudo_password s Q.
Proof.
  intros HQ. unfold sudo_password. apply wp_bind. refine (wp_call _ _ _ _). intros environ.
  cbn [bind_post]. cbv zeta. destruct (HQ environ) as [Hp Hn].
  destruct (String.eqb_spec (default "" (env_get environ SUDO_PASSWORD_ENV)) "") as [He|He].
  - by apply wp_raise.
  - apply wp_ret. rewrite app_nil_r. apply Hp; [|done].
    destruct (env_get environ SUDO_PASSWORD_ENV); [done|]. by destruct He.
Qed.

Lemma wp_sudo h cmd check timeout s (Q : trace → outcome CommandResult → store → Prop) :
  (∀ t o, Forall (sudo_event cmd t) t →
     (∀ r, o = Ok r → sudo_ran cmd t r ∧ (check = true → exit_status r = 0%Z)) →
     (∀ e, o = Raise e → host_error e) → o ≠ OutOfFuel → Q t o s) →
  wp (sudo h cmd check timeout) s Q.
Proof.
  intros HQ. unfold sudo. apply wp_bind, wp_host_run.
  2: { intros msg. apply HQ; [constructor|done| |done]. intros e [= <-]. by left. }
  intros c r Hc. destruct r as [status out err|exc]; cbn [exec_outcome andb bind_post].
  2: { apply HQ; [|done| |done]; [|intros e [= <-]; by left].
       constructor; [|constructor]. by left. }
  unfold cmd_ok at 1. cbn [exit_status]. destruct (Z.eqb_spec status 0) as [->|Hne].
  { apply wp_ret. rewrite app_nil_r. apply HQ; [|..|done].
    - constructor; [|constructor]. by left.
    - intros r [= <-]. split; [|done]. eexists _, _, _, _. split_and!; [by left|done|done].
    - done. }
  set (ev1 := Ev (SshExec c (sudo_n cmd) None (effective_timeout h timeout)) (Executed status out err)).
  apply wp_bind, wp_sudo_password. intros environ.
  set (ev2 := Ev Environ environ).
  assert (∀ t, sudo_event cmd ([ev1] ++ [ev2] ++ t) ev1) as He1 by (intros; by left).
  assert (∀ t, sudo_event cmd ([ev1] ++ [ev2] ++ t) ev2) as He2.
  { intros t. exists c, (effective_timeout h timeout), status, out, err. done. }
  assert (Forall (sudo_event cmd ([ev1] ++ [ev2])) ([ev1] ++ [ev2])) as Hall2.
  { apply Forall_cons; split; [apply (He1 [])|].
    apply Forall_cons; split; [apply (He2 [])|constructor]. }
  split.
  2: { intros msg. cbn [bind_post]. apply HQ; [exact Hall2|done| |done]. intros e [= <-]. by left. }
  intros p Hp Hpne. cbn [bind_post]. apply wp_bind, wp_host_client.
  2: { intros msg. cbn [bind_post]. apply HQ; [exact Hall2|done| |done]. intros e [= <-]. by left. }
  intros c' Hc'. cbn [bind_post]. apply wp_bind. refine (wp_call _ _ _ _). intros r2.
  cbn [bind_post].
  set (ev3 := Ev (SshExec c' (sudo_S cmd) (Some (p +:+ nl)) (effective_timeout h timeout)) r2).
  assert (Forall (sudo_event cmd ([ev1] ++ [ev2] ++ [ev3])) ([ev1] ++ [ev2] ++ [ev3])) as Hall.
  { apply Forall_cons; split; [apply (He1 [ev3])|].
    apply Forall_cons; split; [apply (He2 [ev3])|].
    apply Forall_cons; split; [|constructor].
    right. split; [done|]. exists environ, p. split_and!; [|done..]. right. left. }
  destruct r2 as [status2 out2 err2|exc2].
  2: { apply wp_raise. rewrite !app_nil_r. apply HQ; [done|done| |done].
       intros e [= <-]. by left. }
  cbv zeta. unfold cmd_ok. cbn [exit_status].
  destruct (check && negb (status2 =? 0)%Z) eqn:Hcheck.
  { apply wp_raise. rewrite !app_nil_r. apply HQ; [done|done| |done].
    intros e [= <-]. by right. }
  apply wp_ret. rewrite !app_nil_r. apply HQ; [done| |done|done].
  intros r [= <-]. split.
  - eexists _, _, _, _. split_and!; [by right|done|done].
  - intros ->. apply andb_false_iff in Hcheck as [|Hz%negb_false_iff]; [done|].
    by apply Z.eqb_eq in Hz.
Qed.

(** ** The calls of a with statement *)

Definition plumbing (ev : event) : Prop :=
  match ev_eff ev with IsFile _ | SshConnect _ _ _ _ | SshClose _ | SftpClose _ => True | _ => False end.

Lemma with_host_emits {A} I X addr cfg (body : RemoteHost → M A) :
  (∀ ev, plumbing ev → I ev) → (∀ e, ssh_error e → X e) →
  (∀ h, emits I X (body h)) → emits I X (with_host addr cfg body).
Proof.
  intros HI HX Hb.
  assert (∀ h, emits I X (get_session h)) as Hget.
  { by intros h s t o s' (-> & -> & ->)%runs_get_session. }
  assert (∀ h c, emits I X (set_client h c)) as Hsetc.
  { by intros h c s t o s' (-> & -> & ->)%runs_set_client. }
  assert (∀ h c, emits I X (set_sftp h c)) as Hsets.
  { by intros h c s t o s' (-> & -> & ->)%runs_set_sftp. }
  unfold with_host, new_RemoteHost, connect, close.
  repeat match goal with
  | |- emits _ _ (call _) => refine (emits_call _ _ _ _); intros ?; by apply HI
  | |- emits _ _ (raise _) => apply emits_raise; by apply HX
  | _ => emits_step || (progress eauto)
  end.
Qed.

Section wait_for_ssh.
Context (addr : string) (cfg : SSHConfig).

Definition wait_call (ev : event) : Prop :=
  plumbing ev ∨ host_call ev ∨ ev_eff ev = Monotonic ∨ ev_eff ev = Sleep _RETRY_INTERVAL_SECONDS.

Lemma wait_call_pause ev : wait_call ev → no_negative_pause ev.
Proof.
  unfold no_negative_pause, wait_call, plumbing, host_call.
  destruct (ev_eff ev); try done. intros [?|[?|[?|[= ->]]]]; done.
Qed.

Lemma ssh_attempt_emits : emits wait_call (λ e, class_of e = CRemoteCommandError) (ssh_attempt addr cfg).
Proof.
  unfold ssh_attempt. apply (emits_catch _ _ host_error).
  - apply emits_bind; [|intros ?; apply emits_ret]. apply with_host_emits.
    + intros ev ?. by left.
    + intros e ?. by left.
    + intros h. eapply emits_weaken; [apply host_run_emits|intros ev ?; right; by left|done].
  - intros e [He|He]; destruct e; try done. apply emits_ret.
Qed.

Lemma ssh_attempt_terminates : terminates (ssh_attempt addr cfg).
Proof.
  unfold ssh_attempt. apply terminates_catch.
  - apply terminates_bind; [apply with_host_terminates; eauto with vmdeploy|by terminates_auto].
  - intros e m'. case_match; [|done]. intros [= <-]. by terminates_auto.
Qed.

Lemma ssh_attempt_balanced : balanced (ssh_attempt addr cfg).
Proof.
  unfold ssh_attempt. apply balanced_catch.
  - apply balanced_bind; [apply with_host_balanced; eauto with vmdeploy|by balanced_auto].
  - intros e m'. case_match; [|done]. intros [= <-]. by balanced_auto.
Qed.

(** The run of [true] on the guest with status zero. *)
Definition answered (ev : event) : Prop :=
  ∃ c tm out err, ev = Ev (SshExec c "true" None tm) (Executed 0 out err).

Lemma ssh_attempt_answered s t s' :
  runs (ssh_attempt addr cfg) s t (Ok None) s' → ∃ ev, ev ∈ t ∧ answered ev.
Proof.
  intros H. unfold ssh_attempt in H.
  apply runs_catch in H as [(e & m' & s1 & t1 & t2 & -> & H1 & He & H2)|[H _]].
  { case_match; simplify_eq. run_inv1 H2. }
  apply runs_bind in H as [(r & s1 & t1 & t2 & -> & H1 & H2)|[(e & [=] & _)|[[=] _]]].
  apply with_host_spec in H1 as [(e & [=] & _)|(c & s2 & tb & s3 & tc & -> & Hb & _)]; [|eauto with vmdeploy|done].
  enough (∃ ev, ev ∈ tb ∧ answered ev) as (ev & Hev & Ha).
  { exists ev. split; [|done]. rewrite !elem_of_app. auto. }
  revert Hb. generalize (MkRemoteHost addr cfg (length s)). intros h Hb.
  assert (wp (host_run h "true" true None) s2 (λ t o _, ∀ r, o = Ok r → ∃ ev, ev ∈ t ∧ answered ev))
    as Hwp; [|by apply (Hwp _ _ _ Hb r)].
  apply wp_host_run; [|done]. intros c' [status out err|exc] _ r'; simpl; [|done].
  destruct (Z.eqb_spec status 0) as [->|]; simpl; [|done]. intros _.
  eexists. split; [left|]. by eexists _, _, _, _.
Qed.

Lemma wait_for_ssh_terminates timeout : terminates (wait_for_ssh addr cfg timeout).
Proof.
  unfold wait_for_ssh. intros now s t o s' H Hc.
  apply runs_bind in H as [(n & s1 & t1 & t2 & -> & H1 & H2)|[(e & -> & H)|[-> H]]];
    [|done|by run_inv1 H].
  run_inv1 H1. simpl in Hc. destruct Hc as [Hn Hc].
  apply runs_bind in H2 as [(r & s2 & t3 & t4 & -> & H3 & H4)|[(e & -> & H3)|[-> H3]]]; [|done|].
  - destruct r as [[]|]; by run_inv1 H4.
  - exfalso. eapply terminates_while_with; [| |exact H3|exact Hc|lia|done]; [done|].
    intros [attempt last]. apply round_pauses_bind; [apply ssh_attempt_terminates| |].
    + eapply emits_weaken; [apply ssh_attempt_emits|apply wait_call_pause|done].
    + intros [err|]; [apply round_pauses_sleep|apply round_pauses_leave].
Qed.
End wait_for_ssh.

#[export] Hint Resolve wait_for_ssh_terminates : vmdeploy.

(** ** A guest *)

(** A guest whose sudo asks for a password; the password is in the
    environment. *)
Definition guest_world (asks : bool) : handler unit := λ e w,
  (match e return resp e with
   | IsFile _ => true
   | Environ => [(SUDO_PASSWORD_ENV, "hunter2")]
   | SshExec _ c _ _ =>
       if asks && py_startswith c "sudo -n " then Executed 1 "" "a password is required"
       else Executed 0 "" ""
   | e => default_resp e
   end, w).

Definition sample_ssh : SSHConfig := MkSSHConfig "deploy" (Path "/root/.ssh/id") 10 120.

(** Runs [m] on a connected session of the guest. *)
Definition on_guest {A} (m : RemoteHost → M A) : M A := with_host "10.0.0.5" sample_ssh m.

(** ** Properties *)

(** What a [sudo] that returns has run. *)
Lemma sudo_returns h cmd check timeout s t r s' :
  runs (sudo h cmd check timeout) s t (Ok r) s' →
  sudo_ran cmd t r ∧ (check = true → exit_status r = 0%Z).
Proof.
  cut (wp (sudo h cmd check timeout) s (λ t o _, ∀ r, o = Ok r →
    sudo_ran cmd t r ∧ (check = true → exit_status r = 0%Z))).
  { intros Hwp H. by apply (Hwp _ _ _ H). }
  apply wp_sudo. auto.
Qed.

(** C27: what [sudo] sends to a guest.  The text of every command is that of
    the request behind a fixed prefix, so it never depends on the password;
    the password is the value of the environment variable, it travels only on
    the standard input of the second command, and the environment is read only
    after the command without a password has exited with a non-zero status.
    A result is the one of the last command run, with status zero if the
    caller asked for the check. *)
Theorem sudo_password_on_stdin h cmd check timeout s t o s' :
  runs (sudo h cmd check timeout) s t o s' →
  Forall (sudo_event cmd t) t ∧
  (∀ r, o = Ok r → sudo_ran cmd t r ∧ (check = true → exit_status r = 0%Z)) ∧
  (∀ e, o = Raise e → host_error e).
Proof.
  intros H. revert t o s' H.
  change (wp (sudo h cmd check timeout) s (λ t o s', Forall (sudo_event cmd t) t ∧
    (∀ r, o = Ok r → sudo_ran cmd t r ∧ (check = true → exit_status r = 0%Z)) ∧
    (∀ e, o = Raise e → host_error e))).
  apply wp_sudo. auto.
Qed.

(** The run of [sudo reboot] from a store that holds one connected session. *)
Definition connected_store : store := [Session (Some 7%Z) None].
Definition sample_remote : RemoteHost := MkRemoteHost "10.0.0.5" sample_ssh 0.

Definition sudo_sample_run : outcome CommandResult * store * unit * trace :=
  interp (guest_world true) (sudo sample_remote "reboot" true None connected_store) tt.

Lemma sudo_password_on_stdin_witness :
  let t := sudo_sample_run.2 in
  length t = 3 ∧ Forall (sudo_event "reboot" t) t ∧
  last t = Some (Ev (SshExec 7 "sudo -S -p '' reboot" (Some ("hunter2" +:+ nl)) 120)
                   (Executed 0 "" "")).
Proof.
  intros t. split; [by vm_compute|]. split; [|by vm_compute].
  pose proof (interp_exec (guest_world true)
    (sudo sample_remote "reboot" true None connected_store) tt) as H.
  exact (proj1 (sudo_password_on_stdin sample_remote "reboot" true None connected_store
    t (sudo_sample_run.1.1.1) (sudo_sample_run.1.1.2) H)).
Defined.

(** C28: a [with RemoteHost(...)] block closes what it opened.  Whatever the
    block does and however it ends, provided it works on its session through
    the operations of the class, either no connection was made and
    [SSHConnectionError] was raised, or one connection was made, the block ran
    on it, and the run ends with its connection closed, its session empty, and
    the outcome of the block. *)
Theorem with_host_closes {A} addr cfg (body : RemoteHost → M A) s t o s' :
  (∀ h, host_op (sid h) (body h)) →
  runs (with_host addr cfg body) s t o s' → o ≠ OutOfFuel →
  opened t = closed t ∧
  ((∃ e, o = Raise e ∧ ssh_error e ∧ opened t = []) ∨
   (∃ c, opened t = [c] ∧ session_of s' (length s) = Session None None ∧
      ∃ s1 tb s2, runs (body (MkRemoteHost addr cfg (length s))) s1 tb o s2)).
Proof.
  intros Hb H Ho. split; [exact (with_host_balanced _ _ _ Hb _ _ _ _ H Ho)|].
  destruct (with_host_spec _ _ _ _ _ _ _ Hb H Ho)
    as [(e & -> & He & Ht)|(c & s1 & tb & s2 & tc & -> & Hrun & Hob & _ & Hoc & _ & Hend & _)].
  - left. exists e. by destruct (no_connection_opened _ Ht) as [-> _].
  - right. exists c. rewrite !opened_app, Hob, Hoc. split_and!; [done|done|by eauto].
Qed.

Lemma with_host_closes_witness :
  let m := on_guest (λ h, sudo h "reboot" true None) in
  opened (trace_in (guest_world false) m tt) = [1%Z] ∧
  opened (trace_in (guest_world false) m tt) = closed (trace_in (guest_world false) m tt).
Proof.
  intros m. split; [by vm_compute|].
  destruct (run_in_runs (guest_world false) m tt) as [s' H].
  exact (proj1 (with_host_closes "10.0.0.5" sample_ssh (λ h, sudo h "reboot" true None) _ _ _ _
    (λ h, sudo_op h _ _ _) H ltac:(by vm_compute))).
Defined.

(** A command of [put_bytes] names the staging file, never its content. *)
Definition put_event (remote : string) (mode : N) (ev : event) : Prop :=
  ∀ c cmd stdin tm, ev_eff ev = SshExec c cmd stdin tm →
    ∃ random, cmd = sudo_n (install_command mode (staging_path random) remote) ∨
              cmd = sudo_S (install_command mode (staging_path random) remote) ∨
              cmd = "rm -f " +:+ staging_path random.

(** The payload was staged whole, and then a privileged [install] with the
    requested mode moved it to its place with status zero. *)
Definition installed (payload : bytes) (remote : string) (mode : N) (t : trace) : Prop :=
  ∃ random ch t1 t2 c cmd stdin tm out err,
    t = t1 ++ Ev (SftpWrite ch (staging_path random) payload) (IoOk tt) :: t2 ∧
    (cmd = sudo_n (install_command mode (staging_path random) remote) ∨
     cmd = sudo_S (install_command mode (staging_path random) remote)) ∧
    Ev (SshExec c cmd stdin tm) (Executed 0 out err) ∈ t2.

Lemma sftp_no_exec h :
  emits (λ ev, ∀ c cmd stdin tm, ev_eff ev ≠ SshExec c cmd stdin tm) host_error (sftp h).
Proof.
  unfold sftp, host_client.
  repeat match goal with
  | |- emits _ _ (get_session _) => by intros ? ? ? ? (-> & -> & ->)%runs_get_session
  | |- emits _ _ (set_sftp _ _) => by intros ? ? ? ? (-> & -> & ->)%runs_set_sftp
  | |- emits _ _ (raise _) => apply emits_raise; by left
  | |- emits _ _ (call _) => refine (emits_call _ _ _ _); done
  | _ => emits_step
  end.
Qed.

(** [put_bytes] replaces the remote file through a staging file: when it
    returns, the whole payload was written to the staging path and a
    privileged [install] with the requested mode then exited with status zero;
    the payload is on no command line; and it fails only with
    [SSHConnectionError] or [RemoteCommandError]. *)
Theorem put_bytes_installs h payload remote mode s t o s' :
  runs (put_bytes h payload remote mode) s t o s' →
  Forall (put_event remote mode) t ∧
  (o = Ok tt → installed payload remote mode t) ∧
  (∀ e, o = Raise e → host_error e).
Proof.
  intros H. split_and!; [| |by apply (put_bytes_emits _ _ _ _ _ _ _ _ H)].
  - revert t o s' H. cut (emits (put_event remote mode) host_error (put_bytes h payload remote mode)).
    { intros Hem t o s' H. apply (Hem _ _ _ _ H). }
    unfold put_bytes. apply emits_bind; [refine (emits_call _ _ _ _); intros ? ? ? ? ?; done|].
    intros random. cbv zeta. apply emits_bind.
    { eapply emits_weaken; [apply sftp_no_exec| |done]. intros ev Hev c cmd stdin tm He.
      by destruct (Hev c cmd stdin tm). }
    intros ch. apply emits_bind; [refine (emits_call _ _ _ _); intros ? ? ? ? ?; done|].
    intros [u|exc]; [|apply emits_raise; by left].
    apply emits_bind; [|intros r; apply emits_bind; [|intros r'; apply emits_ret]].
    + intros s1 t o s2 H. revert t o s2 H. apply wp_sudo. intros t o Ht _ He _.
      split; [|done]. eapply Forall_impl; [exact Ht|]. intros ev Hev c cmd stdin tm Heff.
      unfold sudo_event in Hev. rewrite Heff in Hev. exists random.
      destruct Hev as [[-> _]|[-> _]]; auto.
    + intros s1 t o s2 H. revert t o s2 H. apply wp_host_run.
      * intros c r'' _. split; [|intros e; destruct r''; simpl; [done|intros [= <-]; by left]].
        constructor; [|constructor]. intros c' cmd stdin tm [= _ <- _ _]. eauto.
      * intros msg. split; [constructor|]. intros e [= <-]. by left.
  - intros ->. unfold put_bytes in H.
    apply runs_bind in H as [(random & s1 & t1 & t2 & -> & H1 & H)|[(e & [=] & _)|[[=] _]]].
    cbv zeta in H.
    apply runs_bind in H as [(ch & s2 & t3 & t4 & -> & H3 & H)|[(e & [=] & _)|[[=] _]]].
    apply runs_bind in H as [(r & s3 & t5 & t6 & -> & H5 & H)|[(e & [=] & _)|[[=] _]]].
    apply runs_call in H5 as (r' & -> & [= <-] & ->). destruct r as [[]|exc]; [|run_inv1 H].
    apply runs_bind in H as [(r & s4 & t7 & t8 & -> & H7 & H)|[(e & [=] & _)|[[=] _]]].
    assert (wp (sudo h (install_command mode (staging_path random) remote) true None) s2
      (λ t o _, ∀ r, o = Ok r → sudo_ran (install_command mode (staging_path random) remote) t r ∧
         exit_status r = 0%Z)) as Hwp.
    { apply wp_sudo. intros t o _ Hr _ _ r' ->. by destruct (Hr _ eq_refl) as [? Hz]; auto. }
    destruct (Hwp _ _ _ H7 _ eq_refl) as [(c & cmd & stdin & tm & Hcmd & _ & Hlast) Hz].
    rewrite Hz in Hlast. eexists random, ch, (t1 ++ t3), (t7 ++ t8), c, cmd, stdin, tm, _, _.
    split_and!; [by rewrite <- app_assoc|done|]. apply elem_of_app. left.
    by eapply last_Some_elem_of.
Qed.

Lemma put_bytes_installs_witness :
  let m := on_guest (λ h, put_bytes h [Byte.x41] "/etc/motd" mode_644) in
  ∃ s1 t s2, runs (put_bytes sample_remote [Byte.x41] "/etc/motd" mode_644) s1 t (Ok tt) s2 ∧
    installed [Byte.x41] "/etc/motd" mode_644 t ∧ outcome_in (guest_world true) m tt = Ok tt.
Proof.
  intros m.
  pose proof (interp_exec (guest_world true)
    (put_bytes sample_remote [Byte.x41] "/etc/motd" mode_644 connected_store) tt) as H.
  set (run := interp (guest_world true)
    (put_bytes sample_remote [Byte.x41] "/etc/motd" mode_644 connected_store) tt) in *.
  assert (run.1.1.1 = Ok tt) as Ho by by vm_compute.
  exists connected_store, run.2, run.1.1.2.
  assert (runs (put_bytes sample_remote [Byte.x41] "/etc/motd" mode_644) connected_store
    run.2 (Ok tt) run.1.1.2) as Hr.
  { unfold runs. rewrite <- Ho. by destruct (run.1.1). }
  split; [exact Hr|]. split; [|by vm_compute].
  exact (proj1 (proj2 (put_bytes_installs _ _ _ _ _ _ _ _ Hr)) eq_refl).
Defined.

(** C29: waiting for a guest ends, and it returns only once [true] has exited
    with status zero over an authenticated session; every connection opened
    while waiting is closed; the errors are [ProvisioningTimeoutError], and
    [RemoteCommandError] when a session that was accepted runs [true] with
    another status. *)
Theorem wait_for_ssh_answered addr cfg timeout now s t o s' :
  runs (wait_for_ssh addr cfg timeout) s t o s' → clock_ok now t →
  o ≠ OutOfFuel ∧ opened t = closed t ∧
  (o = Ok tt → ∃ ev, ev ∈ t ∧ answered ev) ∧
  (∀ e, o = Raise e → class_of e = CProvisioningTimeoutError ∨ class_of e = CRemoteCommandError).
Proof.
  intros H Hc. pose proof (wait_for_ssh_terminates _ _ _ _ _ _ _ _ H Hc) as Ho.
  split; [done|]. split_and!.
  - revert H Ho. cut (balanced (wait_for_ssh addr cfg timeout)); [by eauto|].
    unfold wait_for_ssh. pose proof (ssh_attempt_balanced addr cfg). by balanced_auto.
  - intros ->. unfold wait_for_ssh in H.
    apply runs_bind in H as [(n & s1 & t1 & t2 & -> & H1 & H2)|[(e & [=] & _)|[[=] _]]].
    apply runs_bind in H2 as [(r & s2 & t3 & t4 & -> & H3 & H4)|[(e & [=] & _)|[[=] _]]].
    apply runs_while_with in H3. destruct r as [[]|[]]; [by run_inv1 H4|].
    destruct H3 as ([a last] & s3 & t5 & t6 & -> & H5).
    apply runs_bind in H5 as [(f & s4 & t7 & t8 & -> & H7 & H8)|[(e & [=] & _)|[[=] _]]].
    destruct f as [err|].
    + apply runs_bind in H8 as [(u & s5 & t9 & t10 & -> & H9 & H10)|[(e & [=] & _)|[[=] _]]].
      by run_inv1 H10.
    + apply ssh_attempt_answered in H7 as (ev & Hev & Ha). exists ev. split; [|done].
      rewrite !elem_of_app. auto.
  - revert H. cut (emits (λ _, True) (λ e, class_of e = CProvisioningTimeoutError ∨
      class_of e = CRemoteCommandError) (wait_for_ssh addr cfg timeout)).
    { intros Hem H e He. by apply (Hem _ _ _ _ H). }
    unfold wait_for_ssh.
    repeat match goal with
    | |- emits _ _ (ssh_attempt _ _) =>
        eapply emits_weaken; [apply ssh_attempt_emits|done|by right]
    | |- emits _ _ (raise _) => apply emits_raise; by left
    | |- emits _ _ (while_with _ _ _ _) => apply emits_while_with; [done|intros [? ?]]
    | |- emits _ _ (call _) => refine (emits_call _ _ _ _); done
    | _ => emits_step
    end.
Qed.

(** A guest that refuses the first connection; the state is the clock and the
    number of connections tried. *)
Definition booting_world : handler (Z * nat) := λ e '(clock, n),
  match e return resp e * (Z * nat) with
  | IsFile _ => (true, (clock, n))
  | Monotonic => (clock, (clock, n))
  | Sleep d => (tt, (clock + d, n)%Z)
  | SshConnect _ _ _ _ =>
      (match n with O => ConnectFailed "refused" | _ => Connected (Z.of_nat n) end, (clock, S n))
  | e => (default_resp e, (clock, n))
  end.

Lemma wait_for_ssh_answered_witness :
  let m := wait_for_ssh "10.0.0.5" sample_ssh 60 in
  outcome_in booting_world m (0%Z, 0) = Ok tt ∧
  clock_ok 0 (trace_in booting_world m (0%Z, 0)) ∧
  ∃ ev, ev ∈ trace_in booting_world m (0%Z, 0) ∧ answered ev.
Proof.
  intros m.
  assert (outcome_in booting_world m (0%Z, 0) = Ok tt) as Ho by by vm_compute.
  assert (clock_ok 0 (trace_in booting_world m (0%Z, 0))) as Hc.
  { vm_compute. repeat (split; [by intros|]). exact I. }
  split; [exact Ho|]. split; [exact Hc|].
  destruct (run_in_runs booting_world m (0%Z, 0)) as [s' H].
  exact (proj1 (proj2 (proj2 (wait_for_ssh_answered _ _ _ _ _ _ _ _ H Hc))) Ho).
Defined.

(** ** Rewrapped errors *)

Lemma host_op_rewrap {A} i (m : M A) c f : host_op i m → host_op i (rewrap m c f).
Proof.
  intros Hm. apply host_op_catch; [done|]. intros e m'. destruct (isinstance e c); [|done].
  intros [= <-]. apply host_op_raise.
Qed.

Lemma terminates_rewrap {A} (m : M A) c f : terminates m → terminates (rewrap m c f).
Proof.
  intros Hm. apply terminates_catch; [done|]. intros e m'. destruct (isinstance e c); [|done].
  intros [= <-]. apply terminates_raise.
Qed.

Lemma balanced_rewrap {A} (m : M A) c f : balanced m → balanced (rewrap m c f).
Proof.
  intros Hm. apply balanced_catch; [done|]. intros e m'. destruct (isinstance e c); [|done].
  intros [= <-]. apply balanced_raise.
Qed.

Lemma emits_rewrap {A} I (X X' : exn → Prop) (m : M A) c f :
  emits I X' m → (∀ e, X' e → isinstance e c = true → X (f e)) →
  (∀ e, X' e → isinstance e c = false → X e) → emits I X (rewrap m c f).
Proof.
  intros Hm Ht Hf. apply (emits_catch _ _ X'); [done|]. intros e He.
  destruct (isinstance e c) eqn:Hc; [apply emits_raise; eauto|eauto].
Qed.

#[export] Hint Resolve host_op_rewrap terminates_rewrap balanced_rewrap : vmdeploy.

(** ** The order of commands *)

(** The command [cmd] on a session, as the login user or through sudo. *)
Definition plain (cmd : string) (ev : event) : Prop :=
  ∃ c stdin tm, ev_eff ev = SshExec c cmd stdin tm.
Definition privileged (cmd : string) (ev : event) : Prop :=
  plain (sudo_n cmd) ev ∨ plain (sudo_S cmd) ev.

(** The same command, exited with status zero. *)
Definition succeeded (ev : event) : Prop :=
  ∃ c cmd stdin tm out err, ev = Ev (SshExec c cmd stdin tm) (Executed 0 out err).
Definition plain_ok (cmd : string) (ev : event) : Prop := plain cmd ev ∧ succeeded ev.
Definition privileged_ok (cmd : string) (ev : event) : Prop := privileged cmd ev ∧ succeeded ev.

Lemma plain_inj cmd cmd' ev : plain cmd ev → plain cmd' ev → cmd = cmd'.
Proof. intros (c & i & tm & He) (c' & i' & tm' & He'). congruence. Qed.

Lemma sudo_n_inj a b : sudo_n a = sudo_n b → a = b.
Proof. unfold sudo_n. simpl. by intros [= ?]. Qed.
Lemma sudo_S_inj a b : sudo_S a = sudo_S b → a = b.
Proof. unfold sudo_S. simpl. by intros [= ?]. Qed.

Lemma privileged_inj cmd cmd' ev : privileged cmd ev → privileged cmd' ev → cmd = cmd'.
Proof.
  intros [H|H] [H'|H']; pose proof (plain_inj _ _ _ H H') as He; try done;
    [by apply sudo_n_inj|by apply sudo_S_inj].
Qed.

Lemma plain_not_privileged cmd cmd' ev :
  String.prefix "sudo -" cmd = false → plain cmd ev → ¬ privileged cmd' ev.
Proof. intros Hp H [H'|H']; rewrite (plain_inj _ _ _ H H') in Hp; by simpl in Hp. Qed.

Section commands.
Context (h : RemoteHost).

(** The commands an operation sends. *)
Lemma host_run_commands cmd check timeout :
  emits (λ ev, ∀ c cmd' stdin tm, ev_eff ev = SshExec c cmd' stdin tm → cmd' = cmd) (λ _, True)
    (host_run h cmd check timeout).
Proof.
  intros s t o s' H. revert t o s' H. apply wp_host_run; [|done]. intros c r _. split; [|done].
  constructor; [|constructor]. by intros ? ? ? ? [= _ <- _ _].
Qed.

Lemma sudo_commands cmd check timeout :
  emits (λ ev, ∀ c cmd' stdin tm, ev_eff ev = SshExec c cmd' stdin tm →
    cmd' = sudo_n cmd ∨ cmd' = sudo_S cmd) (λ _, True) (sudo h cmd check timeout).
Proof.
  intros s t o s' H. revert t o s' H. apply wp_sudo. intros t o Ht _ _ _. split; [|done].
  eapply Forall_impl; [exact Ht|]. intros ev Hev c cmd' stdin tm Heff.
  unfold sudo_event in Hev. rewrite Heff in Hev. destruct Hev as [[-> _]|[-> _]]; auto.
Qed.

(** An operation that sends other commands. *)
Lemma host_run_not_privileged cmd cmd' check timeout :
  String.prefix "sudo -" cmd = false →
  emits (λ ev, ¬ privileged cmd' ev) (λ _, True) (host_run h cmd check timeout).
Proof.
  intros Hp. eapply emits_weaken; [apply host_run_commands| |done]. intros ev Hev Hpriv.
  assert (plain cmd ev) as Hpl; [|by apply (plain_not_privileged cmd cmd' ev)].
  destruct Hpriv as [(c & i & tm & He)|(c & i & tm & He)];
    rewrite <- (Hev _ _ _ _ He); by exists c, i, tm.
Qed.

Lemma sudo_not_privileged cmd cmd' check timeout :
  cmd ≠ cmd' → emits (λ ev, ¬ privileged cmd' ev) (λ _, True) (sudo h cmd check timeout).
Proof.
  intros Hne. eapply emits_weaken; [apply sudo_commands| |done].
  intros ev Hev [(c & i & tm & He)|(c & i & tm & He)];
    destruct (Hev _ _ _ _ He) as [Heq|Heq]; try done;
    [apply sudo_n_inj in Heq|apply sudo_S_inj in Heq]; done.
Qed.

(** A normal result with status zero is that of the command itself. *)
Lemma host_run_ensures cmd check timeout :
  ensures (plain_ok cmd) (host_run h cmd check timeout) (λ r, cmd_ok r || check).
Proof.
  intros s t r s' H Hr. revert t H.
  cut (wp (host_run h cmd check timeout) s (λ t o _, ∀ r, o = Ok r →
    cmd_ok r || check = true → Exists (plain_ok cmd) t)).
  { intros Hwp t H. exact (Hwp _ _ _ H _ eq_refl Hr). }
  clear r s' Hr. apply wp_host_run; [|done]. intros c [status out err|exc] _ r; simpl; [|done].
  intros Ho Hr. constructor. split; [by eexists _, _, _|].
  destruct (check && negb (status =? 0)%Z) eqn:Hc; [done|]. simplify_eq.
  unfold cmd_ok in Hr. cbn [exit_status] in Hr. destruct (Z.eqb_spec status 0) as [->|]; [by repeat eexists|].
  by destruct check.
Qed.

Lemma sudo_ensures cmd check timeout :
  ensures (privileged_ok cmd) (sudo h cmd check timeout) (λ r, cmd_ok r || check).
Proof.
  intros s t r s' H Hr. revert t H.
  cut (wp (sudo h cmd check timeout) s (λ t o _, ∀ r, o = Ok r →
    cmd_ok r || check = true → Exists (privileged_ok cmd) t)).
  { intros Hwp t H. exact (Hwp _ _ _ H _ eq_refl Hr). }
  clear r s' Hr. apply wp_sudo. intros t o _ Hok _ _ r -> Hr.
  destruct (Hok r eq_refl) as [(c & cmd' & stdin & tm & Hcmd & _ & Hlast) Hz].
  assert (exit_status r = 0%Z) as H0.
  { apply orb_true_iff in Hr as [Hr|Hr]; [by apply Z.eqb_eq|auto]. }
  apply Exists_exists. eexists. split; [by eapply last_Some_elem_of|]. split.
  - destruct Hcmd as [->| ->]; [left|right]; by eexists _, _, _.
  - rewrite H0. by repeat eexists.
Qed.
End commands.

(** ** Automation for programs with handlers *)

(** The handlers of the code are tests of the class that lead to a program. *)
Ltac handler_cases :=
  let H := fresh in
  intros ? ? H; repeat (destruct (isinstance _ _); simpl in H); try discriminate H;
  try (injection H as <-).

Ltac host_op_step ::=
  lazymatch goal with
  | |- host_op _ (bind _ _) => apply host_op_bind; [|intros ?]
  | |- host_op ?i (call ?e) => refine (host_op_call i e _); intros ?; by split
  | |- host_op _ (when _ _) => apply host_op_when
  | |- host_op _ (for_each _ _) => apply host_op_for_each; intros ?
  | |- host_op _ (rewrap _ _ _) => apply host_op_rewrap
  | |- host_op _ (catch _ _) => apply host_op_catch; [|handler_cases]
  | |- host_op _ (match ?x with _ => _ end) => destruct x eqn:?
  end.

Ltac terminates_step ::=
  lazymatch goal with
  | |- terminates (bind _ _) => apply terminates_bind; [|intros ?]
  | |- terminates (call ?e) => refine (terminates_call e)
  | |- terminates (when _ _) => apply terminates_when
  | |- terminates (for_each _ _) => apply terminates_for_each; intros ? ?
  | |- terminates (finally _ _) => apply terminates_finally
  | |- terminates (rewrap _ _ _) => apply terminates_rewrap
  | |- terminates (catch _ _) => apply terminates_catch; [|handler_cases]
  | |- terminates (with_host _ _ _) => apply with_host_terminates; intros ?
  | |- terminates (match ?x with _ => _ end) => destruct x eqn:?
  end.

Ltac balanced_step ::=
  lazymatch goal with
  | |- balanced (bind _ _) => apply balanced_bind; [|intros ?]
  | |- balanced (call ?e) => refine (balanced_call e _); intros ?; by split
  | |- balanced (when _ _) => apply balanced_when
  | |- balanced (for_each _ _) => apply balanced_for_each; intros ?
  | |- balanced (while_with _ _ _ _) => apply balanced_while_with; intros ?
  | |- balanced (while_before _ _ _) => apply balanced_while_before
  | |- balanced (finally _ _) => apply balanced_finally
  | |- balanced (rewrap _ _ _) => apply balanced_rewrap
  | |- balanced (catch _ _) => apply balanced_catch; [|handler_cases]
  | |- balanced (with_host _ _ _) => apply with_host_balanced; intros ?
  | |- balanced (match ?x with _ => _ end) => destruct x eqn:?
  end.

(** ** Programs that run no command on a guest *)

Definition no_exec (ev : event) : Prop := match ev_eff ev with SshExec _ _ _ _ => False | _ => True end.

Lemma no_exec_not_plain cmd ev : no_exec ev → ¬ plain cmd ev.
Proof. intros H (c & i & tm & He). unfold no_exec in H. by rewrite He in H. Qed.
Lemma no_exec_not_privileged cmd ev : no_exec ev → ¬ privileged cmd ev.
Proof. intros H [Hp|Hp]; by eapply no_exec_not_plain. Qed.

Lemma quiet_guarded {A} G cmd (m : M A) :
  emits no_exec (λ _, True) m → guarded G (privileged cmd) m.
Proof.
  intros Hm. apply guarded_never. eapply emits_weaken; [exact Hm| |done].
  intros ev. apply no_exec_not_privileged.
Qed.

Ltac quiet_auto :=
  repeat lazymatch goal with
  | |- emits no_exec _ (call ?e) => refine (emits_call _ _ e _); intros ?; exact I
  | |- emits no_exec _ (raise _) => by apply emits_raise
  | |- emits no_exec _ (lift_io _) => by apply emits_lift_io
  | |- emits no_exec _ (lift_res _) => by apply emits_lift_res
  | |- emits no_exec _ (rewrap _ _ _) => apply (emits_rewrap _ _ (λ _, True)); [|done..]
  | |- emits no_exec _ (catch _ _) => apply emits_catch_same; [|handler_cases; intros _]
  | |- emits no_exec _ (get_session _) => by intros ? ? ? ? (-> & -> & ->)%runs_get_session
  | |- emits no_exec _ (set_sftp _ _) => by intros ? ? ? ? (-> & -> & ->)%runs_set_sftp
  | _ => emits_step
  end.

Lemma sftp_quiet h : emits no_exec (λ _, True) (sftp h).
Proof. unfold sftp, host_client. quiet_auto. Qed.

(** ** What a session said *)

Lemma with_host_ensures {A} G addr cfg (body : RemoteHost → M A) c :
  (∀ h, host_op (sid h) (body h)) → (∀ h, ensures G (body h) c) →
  ensures G (with_host addr cfg body) c.
Proof.
  intros Hop Hb s t a s' H Hc.
  apply with_host_spec in H as [(e & [=] & _)|(k & s1 & tb & s2 & tc & -> & H & _)]; [|done..].
  rewrite !Exists_app. right. left. by eapply Hb.
Qed.

(** The output of a command, whatever its status. *)
Definition output_of (ev : event) : option string :=
  match ev with
  | Ev (SshExec _ _ _ _) r =>
      match r : exec_resp with Executed _ out _ => Some out | ExecFailed _ => None end
  | _ => None
  end.

(** The command was run, and its output passes [p]. *)
Definition said (cmd : string) (p : string → bool) (ev : event) : Prop :=
  plain cmd ev ∧ ∃ out, output_of ev = Some out ∧ p out = true.
Definition sudo_said (cmd : string) (p : string → bool) (ev : event) : Prop :=
  privileged cmd ev ∧ ∃ out, output_of ev = Some out ∧ p out = true.

Section said.
Context (h : RemoteHost) (cmd : string).

Lemma host_run_said check timeout p :
  ensures (said cmd p) (host_run h cmd check timeout) (λ r, p (stdout r)).
Proof.
  intros s t r s' H Hp. revert t H. cut (wp (host_run h cmd check timeout) s
    (λ t o _, ∀ r, o = Ok r → p (stdout r) = true → Exists (said cmd p) t)).
  { intros Hwp t H. exact (Hwp _ _ _ H _ eq_refl Hp). }
  clear r s' Hp. apply wp_host_run; [|done]. intros c [st out err|msg] _ r; [|done]. simpl.
  destruct (check && _); [done|]. intros [= <-] Hp. constructor. split; [by eexists _, _, _|by exists out].
Qed.

Lemma sudo_output check timeout s t r s' :
  runs (sudo h cmd check timeout) s t (Ok r) s' →
  ∃ ev, ev ∈ t ∧ privileged cmd ev ∧ output_of ev = Some (stdout r).
Proof.
  intros H. revert t H. cut (wp (sudo h cmd check timeout) s (λ t o _, ∀ r, o = Ok r →
    ∃ ev, ev ∈ t ∧ privileged cmd ev ∧ output_of ev = Some (stdout r))).
  { intros Hwp t H. exact (Hwp _ _ _ H _ eq_refl). }
  clear r s'. apply wp_sudo. intros t o _ Hok _ _ r ->.
  destruct (Hok r eq_refl) as [(c & cmd' & stdin & tm & Hcmd & _ & Hlast) _].
  eexists. split; [by eapply last_Some_elem_of|]. split; [|done].
  destruct Hcmd as [->| ->]; [left|right]; by eexists _, _, _.
Qed.

Lemma sudo_ensures_said check timeout p :
  ensures (sudo_said cmd p) (sudo h cmd check timeout) (λ r, p (stdout r)).
Proof.
  intros s t r s' H Hp. apply sudo_output in H as (ev & Hev & Hpriv & Ho).
  apply Exists_exists. exists ev. split; [done|]. split; [done|]. by eexists.
Qed.
End said.
