(* ===== verification/SshNesting.v ===== *)
(** * Sessions inside sessions

    A [with RemoteHost(...)] block may open sessions of its own while its
    session is held, as the configuration of the jump station does.  The store
    grows, so the operations of the block are asked to keep the outer session
    ([keeps]) instead of leaving the whole store as it is ([host_op]). *)

From S2P Require Import Prelude PyStr Exceptions Paths Effects Reasoning Config SshClient SshFacts.

#[export] Set Default Goal Selector "!".

(** The program keeps the connection of session [i] and closes every
    connection it opens. *)
Definition keeps {A} (i : nat) (m : M A) : Prop :=
  ∀ s t o s', runs m s t o s' → o ≠ OutOfFuel → i < length s →
    length s ≤ length s' ∧ s_client (session_of s' i) = s_client (session_of s i) ∧
    opened t ≡ₚ closed t.

Section keeps.
Context (i : nat).

Lemma keeps_host_op {A} (m : M A) : host_op i m → keeps i m.
Proof.
  intros Hm s t o s' H _ _. destruct (Hm _ _ _ _ H) as (Ht & Hl & Hc).
  destruct (no_connection_opened _ Ht) as [-> ->]. by rewrite Hl.
Qed.

(** A program that does not use the store keeps every session. *)
Lemma keeps_storeless {A} (m : M A) :
  (∀ s t o s', runs m s t o s' → s' = s) → balanced m → keeps i m.
Proof. intros Hs Hb s t o s' H Ho _. rewrite (Hs _ _ _ _ H). split_and!; [done|done|by rewrite (Hb _ _ _ _ H Ho)]. Qed.

Lemma keeps_ret {A} (a : A) : keeps i (ret a).
Proof. apply keeps_host_op, host_op_ret. Qed.
Lemma keeps_raise {A} e : keeps i (raise (A:=A) e).
Proof. apply keeps_host_op, host_op_raise. Qed.

Lemma keeps_bind {A B} (m : M A) (f : A → M B) :
  keeps i m → (∀ a, keeps i (f a)) → keeps i (bind m f).
Proof.
  intros Hm Hf s t o s' H Ho Hi.
  apply runs_bind in H as [(a & s1 & t1 & t2 & -> & H1 & H2)|[(e & -> & H)|[-> H]]].
  - destruct (Hm _ _ _ _ H1 ltac:(done) Hi) as (Hl1 & Hc1 & Ho1).
    destruct (Hf a _ _ _ _ H2 Ho ltac:(lia)) as (Hl2 & Hc2 & Ho2).
    rewrite opened_app, closed_app. split_and!; [lia|congruence|by rewrite Ho1, Ho2].
  - by apply (Hm _ _ _ _ H).
  - done.
Qed.

Lemma keeps_catch {A} (m : M A) h :
  keeps i m → (∀ e m', h e = Some m' → keeps i m') → keeps i (catch m h).
Proof.
  intros Hm Hh s t o s' H Ho Hi.
  apply runs_catch in H as [(e & m' & s1 & t1 & t2 & -> & H1 & He & H2)|[H _]]; [|by apply (Hm _ _ _ _ H)].
  destruct (Hm _ _ _ _ H1 ltac:(done) Hi) as (Hl1 & Hc1 & Ho1).
  destruct (Hh _ _ He _ _ _ _ H2 Ho ltac:(lia)) as (Hl2 & Hc2 & Ho2).
  rewrite opened_app, closed_app. split_and!; [lia|congruence|by rewrite Ho1, Ho2].
Qed.
End keeps.

(** Another session of the store is not the new one. *)
Lemma session_of_app s x i : i < length s → session_of (s ++ [x]) i = session_of s i.
Proof. intros Hi. unfold session_of. by rewrite lookup_app_l. Qed.

Lemma session_of_insert_ne s i j x : i ≠ j → session_of (<[i := x]> s) j = session_of s j.
Proof. intros Hne. unfold session_of. by rewrite list_lookup_insert_ne. Qed.

(** Closing a session leaves the others as they are. *)
Lemma close_keeps_other h s t o s' i :
  i ≠ sid h → runs (close h) s t o s' → length s' = length s ∧ session_of s' i = session_of s i.
Proof.
  intros Hne H. unfold close in H.
  apply runs_bind in H as [(x & s1 & t1 & t2 & -> & H1 & H)|[(e & -> & H)|[-> H]]];
    [|by apply runs_get_session in H as (_ & ? & _)..].
  apply runs_get_session in H1 as (-> & _ & ->).
  assert (∀ s t o s', runs (match s_sftp x with
      | Some ch => call (SftpClose ch) ;; set_sftp h None | None => ret tt end) s t o s' →
    length s' = length s ∧ session_of s' i = session_of s i) as Hsftp.
  { clear -Hne. intros s t o s' H. destruct (s_sftp x) as [ch|]; [|by run_inv1 H].
    apply runs_bind in H as [(r & s1 & t1 & t2 & -> & H1 & H)|[(e & -> & H)|[-> H]]]; [|by run_inv1 H..].
    apply runs_call in H1 as (? & -> & _ & ->). apply runs_set_sftp in H as (-> & -> & ->).
    by rewrite length_insert, session_of_insert_ne. }
  apply runs_bind in H as [(u & s1 & t3 & t4 & -> & H1%Hsftp & H)|[(e & -> & H%Hsftp)|[-> H%Hsftp]]];
    [|done|done].
  destruct H1 as [Hl Hs]. rewrite <- Hl, <- Hs. clear Hl Hs.
  apply runs_bind in H as [(y & s2 & t5 & t6 & -> & H2 & H)|[(e & -> & H)|[-> H]]];
    [|by apply runs_get_session in H as (_ & ? & _)..].
  apply runs_get_session in H2 as (-> & _ & ->). destruct (s_client y) as [c|]; [|by run_inv1 H].
  apply runs_bind in H as [(r & s2 & t1 & t2 & -> & H2 & H)|[(e & -> & H)|[-> H]]]; [|by run_inv1 H..].
  apply runs_call in H2 as (? & -> & _ & ->). apply runs_set_client in H as (-> & -> & ->).
  by rewrite length_insert, session_of_insert_ne.
Qed.

Section with_host_nested.
Context {A : Type} (addr : string) (cfg : SSHConfig) (body : RemoteHost → M A).
Hypothesis Hbody : ∀ h, keeps (sid h) (body h).

Lemma with_host_nested_spec s t o s' :
  runs (with_host addr cfg body) s t o s' → o ≠ OutOfFuel →
  ((∃ e, o = Raise e) ∧ Forall no_connection t ∧ s' = s ++ [Session None None]) ∨
  ∃ s1 tb s2,
    let h := MkRemoteHost addr cfg (length s) in
    runs (body h) s1 tb o s2 ∧ opened t ≡ₚ closed t ∧
    length s1 = S (length s) ∧ (∀ j, j < length s → session_of s1 j = session_of s j) ∧
    length s2 = length s' ∧ (∀ j, j ≠ length s → session_of s' j = session_of s2 j) ∧
    ∃ c tc, t = [Ev (IsFile (key_path cfg)) true; Ev (connect_call h) (Connected c)] ++ tb ++ tc ∧
      opened tc = [] ∧ closed tc = [c] ∧ s_client (session_of s1 (sid h)) = Some c.
Proof.
  intros H Ho. unfold with_host in H. set (h := MkRemoteHost addr cfg (length s)).
  assert (runs (connect h ;; finally (body h) (close h)) (s ++ [Session None None]) t o s') as H2 by exact H.
  clear H. assert (sid h < length (s ++ [Session None None])) as Hlt by (rewrite length_app; simpl; lia).
  assert (session_of (s ++ [Session None None]) (sid h) = Session None None) as Hnone.
  { unfold session_of. by rewrite (list_lookup_middle s [] _ (length s)). }
  apply runs_bind in H2 as [(u & s1 & t3 & t4 & -> & H3 & H4)|[(e & -> & H)|[-> H]]]; [| |done].
  2: { apply connect_spec in H as [(e' & _ & _ & Ht & Hs)|(c & [=] & _)]; [|done|done]. left. eauto. }
  apply connect_spec in H3 as [(e & [=] & _)|(c & _ & -> & ->)]; [|done|done].
  apply runs_finally in H4 as [[-> _]|(o1 & s2 & tb & tc & o2 & -> & H5 & Hne & H6 & ->)]; [done|].
  destruct (Hbody h _ _ _ _ H5 Hne) as (Hlen & Hcl & Hoc); [by rewrite length_insert|].
  rewrite session_of_insert in Hcl by done. rewrite length_insert in Hlen.
  pose proof (close_keeps_other h _ _ _ _ (S (sid h)) ltac:(lia) H6) as [Hl _].
  pose proof (λ j Hj, proj2 (close_keeps_other h _ _ _ _ j Hj H6)) as Hother.
  apply (close_spec _ _ _ _ _ c) in H6 as (-> & Hop & Hcd & _); [|lia|done].
  right. eexists _, tb, s2. split_and!; [exact H5| | | | | |].
  - rewrite !opened_app, !closed_app, Hoc, Hop, Hcd, app_nil_r. simpl. by rewrite Permutation_cons_append.
  - rewrite length_insert, length_app. simpl. lia.
  - intros j Hj. rewrite session_of_insert_ne by (simpl; lia). by apply session_of_app.
  - done.
  - intros j Hj. by apply Hother.
  - exists c, tc. split_and!; [done..|by rewrite session_of_insert].
Qed.

(** Every connection opened is closed, the inner before the outer one. *)
Lemma with_host_nested_closes s t o s' :
  runs (with_host addr cfg body) s t o s' → o ≠ OutOfFuel → opened t ≡ₚ closed t.
Proof.
  intros H Ho. destruct (with_host_nested_spec _ _ _ _ H Ho) as [(_ & Ht & _)|(s1 & tb & s2 & _ & Hc & _)]; [|done].
  by destruct (no_connection_opened _ Ht) as [-> ->].
Qed.

(** A block that keeps the sessions around it is itself such an operation. *)
Lemma with_host_keeps i :
  (∀ h, sid h ≠ i → keeps i (body h)) → keeps i (with_host addr cfg body).
Proof.
  intros Hi s t o s' H Ho Hlt.
  destruct (with_host_nested_spec _ _ _ _ H Ho) as [(_ & Ht & ->)|(s1 & tb & s2 & Hb & Hc & Hl & Hs1 & Hl2 & Hs2 & _)].
  - destruct (no_connection_opened _ Ht) as [-> ->]. rewrite length_app, session_of_app by done.
    split_and!; [lia|done|done].
  - destruct (Hi (MkRemoteHost addr cfg (length s)) ltac:(simpl; lia) _ _ _ _ Hb Ho ltac:(lia)) as (Hlen & Hcl & _).
    rewrite Hs2 by lia. rewrite Hcl, Hs1 by done. split_and!; [lia|done|done].
Qed.
End with_host_nested.

(** ** Programs that settle their connections *)

(** Every connection opened is closed, in whatever order. *)
Definition settled {A} (m : M A) : Prop :=
  ∀ s t o s', runs m s t o s' → o ≠ OutOfFuel → opened t ≡ₚ closed t.

Lemma settled_balanced {A} (m : M A) : balanced m → settled m.
Proof. intros Hm s t o s' H Ho. by rewrite (Hm _ _ _ _ H Ho). Qed.

Lemma settled_ret {A} (a : A) : settled (ret a).
Proof. apply settled_balanced, balanced_ret. Qed.
Lemma settled_raise {A} e : settled (raise (A:=A) e).
Proof. apply settled_balanced, balanced_raise. Qed.

Lemma settled_bind {A B} (m : M A) (f : A → M B) :
  settled m → (∀ a, settled (f a)) → settled (bind m f).
Proof.
  intros Hm Hf s t o s' H Ho.
  apply runs_bind in H as [(a & s1 & t1 & t2 & -> & H1 & H2)|[(e & -> & H)|[-> H]]];
    [|by eapply Hm|done].
  rewrite opened_app, closed_app. by rewrite (Hm _ _ _ _ H1 ltac:(done)), (Hf a _ _ _ _ H2 Ho).
Qed.

Lemma settled_catch {A} (m : M A) h :
  settled m → (∀ e m', h e = Some m' → settled m') → settled (catch m h).
Proof.
  intros Hm Hh s t o s' H Ho.
  apply runs_catch in H as [(e & m' & s1 & t1 & t2 & -> & H1 & He & H2)|[H _]]; [|by eapply Hm].
  rewrite opened_app, closed_app. by rewrite (Hm _ _ _ _ H1 ltac:(done)), (Hh _ _ He _ _ _ _ H2 Ho).
Qed.

Lemma settled_for_each {A} (l : list A) f : (∀ x, settled (f x)) → settled (for_each l f).
Proof.
  intros Hf. induction l as [|x l IH]; simpl; [apply settled_ret|]. by apply settled_bind.
Qed.

Lemma settled_with_host {A} addr cfg (body : RemoteHost → M A) :
  (∀ h, keeps (sid h) (body h)) → settled (with_host addr cfg body).
Proof. intros Hb s t o s'. by apply with_host_nested_closes. Qed.

Create HintDb settled.
#[export] Hint Resolve settled_balanced settled_ret settled_raise : settled.
