(* ===== verification/Website.v ===== *)
(** * The static site (website.py)

    Fetching the archive inside a guest, publishing it and stamping the
    backend's identity; and [_shell_quote], with a reader of shell words that
    shows what it is for. *)

From S2P Require Import Prelude PyStr Exceptions Paths Effects Reasoning Bytes Config SshClient.
From S2P Require Import SshFacts.

#[export] Set Default Goal Selector "!".

Definition BACKEND_HEADER : string := "X-Backend-Host".
Definition BACKEND_META_NAME : string := "x-backend-host".
Definition _STAGING_DIR : string := "/tmp/vmdeploy-site".
Definition _DOWNLOAD_TIMEOUT_SECONDS : Z := 600.

Definition _shell_quote (value : string) : string := "'" +:+ py_replace "'" "'\''" value +:+ "'".

Definition fetch_site_to_guest (host : RemoteHost) (website : WebsiteConfig) : M string :=
  host_run host ("rm -rf " +:+ _STAGING_DIR +:+ " && mkdir -p " +:+ _STAGING_DIR) true None ;;
  rewrap (host_run host
      ("curl -fsSL --http1.1 --retry 5 --retry-delay 3 --retry-all-errors "
       +:+ "--connect-timeout 30 " +:+ archive_url website +:+ " | tar -xz -C " +:+ _STAGING_DIR)
      true (Some _DOWNLOAD_TIMEOUT_SECONDS))
    CRemoteCommandError (λ exc, WebsiteFetchError
      ("Could not download or unpack " +:+ archive_url website +:+ " on " +:+ address host
       +:+ ": " +:+ str_exn exc)) ;;
  r <- host_run host ("find " +:+ _STAGING_DIR +:+ " -mindepth 1 -maxdepth 1 -type d") true None ;;
  match cmd_lines r with
  | [site_root] =>
      index_present <- host_run host ("test -f " +:+ site_root +:+ "/index.html") false None ;;
      if cmd_ok index_present then ret site_root
      else raise (WebsiteFetchError
        ("Site archive unpacked to " +:+ site_root +:+ " on " +:+ address host
         +:+ " but contains no "
         +:+ "index.html; the archive_url may point at the wrong repository or branch"))
  | listing => raise (WebsiteFetchError
      ("Expected exactly one top-level directory in the site archive on "
       +:+ address host +:+ ", found " +:+ pretty (length listing) +:+ ": " +:+ repr_list listing))
  end.

Definition meta_tag (backend_hostname : string) : string :=
  "<meta name=" +:+ dq +:+ BACKEND_META_NAME +:+ dq +:+ " content=" +:+ dq +:+ backend_hostname
  +:+ dq +:+ ">".

Definition stamp_script (document_root backend_hostname : string) : string :=
  "for html_file in $(grep -rlI --include='*.html' -e '<head' " +:+ document_root +:+ " "
  +:+ "2>/dev/null); do "
  +:+ "  grep -q '" +:+ BACKEND_META_NAME +:+ "' " +:+ dq +:+ "$html_file" +:+ dq
  +:+ " && continue; "
  +:+ "  sed -i '0,/<[Hh][Ee][Aa][Dd][^>]*>/s//&\n    " +:+ meta_tag backend_hostname +:+ "/' "
  +:+ dq +:+ "$html_file" +:+ dq +:+ "; "
  +:+ "done".

Definition stamp_backend_identity (host : RemoteHost) (document_root backend_hostname : string) :
    M unit :=
  rewrap (sudo host ("sh -c " +:+ _shell_quote (stamp_script document_root backend_hostname))
            true None)
    CRemoteCommandError (λ exc, WebsiteFetchError
      ("Could not stamp backend identity into " +:+ document_root +:+ " on " +:+ address host
       +:+ ": " +:+ str_exn exc)) ;;
  ret tt.

(** The commands that replace the document root by the site. *)
Definition publish_commands (site_root root : string) : list string :=
  ["rm -rf " +:+ root;
   "mkdir -p " +:+ root;
   "cp -a " +:+ site_root +:+ "/. " +:+ root +:+ "/";
   "chown -R www-data:www-data " +:+ root;
   "find " +:+ root +:+ " -type d -exec chmod 755 {} +";
   "find " +:+ root +:+ " -type f -exec chmod 644 {} +"].

Definition publish_site (host : RemoteHost) (website : WebsiteConfig) (backend_hostname : string) :
    M unit :=
  site_root <- fetch_site_to_guest host website ;;
  let root := document_root website in
  rewrap (for_each (publish_commands site_root root) (λ c, sudo host c true None ;; ret tt))
    CRemoteCommandError (λ exc, WebsiteFetchError
      ("Could not install site content into " +:+ root +:+ " on " +:+ address host +:+ ": "
       +:+ str_exn exc)) ;;
  stamp_backend_identity host root backend_hostname ;;
  host_run host ("rm -rf " +:+ _STAGING_DIR) false None ;;
  ret tt.

(** ** Facts *)

Section facts.
Context (host : RemoteHost).

Lemma fetch_site_op website : host_op (sid host) (fetch_site_to_guest host website).
Proof. unfold fetch_site_to_guest. by host_op_auto. Qed.
Lemma stamp_op root hn : host_op (sid host) (stamp_backend_identity host root hn).
Proof. unfold stamp_backend_identity. by host_op_auto. Qed.

Lemma fetch_site_terminates website : terminates (fetch_site_to_guest host website).
Proof. unfold fetch_site_to_guest. by terminates_auto. Qed.
Lemma stamp_terminates root hn : terminates (stamp_backend_identity host root hn).
Proof. unfold stamp_backend_identity. by terminates_auto. Qed.
End facts.

#[export] Hint Resolve fetch_site_op stamp_op fetch_site_terminates stamp_terminates : vmdeploy.

Lemma publish_site_op host website hn : host_op (sid host) (publish_site host website hn).
Proof.
  unfold publish_site. cbv zeta. host_op_step; [by eauto with vmdeploy|].
  host_op_step; [apply host_op_rewrap|]; by host_op_auto.
Qed.

Lemma publish_site_terminates host website hn : terminates (publish_site host website hn).
Proof.
  unfold publish_site. cbv zeta. terminates_step; [by eauto with vmdeploy|].
  terminates_step; [apply terminates_rewrap|]; by terminates_auto.
Qed.

#[export] Hint Resolve publish_site_op publish_site_terminates : vmdeploy.

(** ** Shell words *)

(** A reader of one word of a POSIX shell command line that uses single quotes
    and backslashes: the text of the word and what follows it.  Outside quotes
    a white space or an operator ends the word, and a dollar, a backquote or a
    double quote would be expanded, which the reader refuses. *)
Definition ends_word (c : ascii) : bool :=
  is_space c || existsb (Ascii.eqb c) [";"; "&"; "|"; "<"; ">"; "("; ")"]%char.
Definition expands (c : ascii) : bool := existsb (Ascii.eqb c) ["$"; "`"; "034"; "*"; "?"; "["; "~"; "#"]%char.

Definition cons_word (c : ascii) (p : string * string) : string * string := (String c p.1, p.2).

Fixpoint sh_word (quoted : bool) (s : string) : option (string * string) :=
  match s with
  | "" => if quoted then None else Some ("", "")
  | String c s1 =>
      if quoted then
        if Ascii.eqb c "'" then sh_word false s1 else cons_word c <$> sh_word true s1
      else if Ascii.eqb c "'" then sh_word true s1
      else if Ascii.eqb c "\" then
        match s1 with
        | String c2 s2 => cons_word c2 <$> sh_word false s2
        | "" => None
        end
      else if ends_word c then Some ("", s)
      else if expands c then None
      else cons_word c <$> sh_word false s1
  end.

Lemma sh_word_quote_body v rest :
  sh_word true (py_replace "'" "'\''" v +:+ "'" +:+ rest) =
  (λ p, (v +:+ p.1, p.2)) <$> sh_word false rest.
Proof.
  induction v as [|c v IH].
  - cbn [py_replace]. change ("" +:+ "'" +:+ rest) with (String "'" rest).
    cbn [sh_word Ascii.eqb Bool.eqb]. by destruct (sh_word false rest) as [[w r]|].
  - cbn [py_replace]. rewrite str_app_assoc. destruct (Ascii.eqb_spec c "'") as [->|Hne].
    + change ("'\''" +:+ ?x) with (String "'" (String "\" (String "'" (String "'" x)))).
      cbn [sh_word Ascii.eqb Bool.eqb]. rewrite IH. by destruct (sh_word false rest) as [[w r]|].
    + change (String c "" +:+ ?x) with (String c x). cbn [sh_word].
      apply Ascii.eqb_neq in Hne. rewrite Hne, IH. by destruct (sh_word false rest) as [[w r]|].
Qed.

(** C36: [_shell_quote] makes one shell word of any text: read by a shell, the
    quoted text is a single word whose value is the text, whatever characters
    it holds, quotes included; the word ends where the quoted text does. *)
Theorem shell_quote_one_word value rest :
  (rest = "" ∨ ∃ c r, rest = String c r ∧ Ascii.eqb c "'" = false ∧ Ascii.eqb c "\" = false ∧
     ends_word c = true) →
  sh_word false (_shell_quote value +:+ rest) = Some (value, rest).
Proof.
  intros Hrest. unfold _shell_quote. rewrite !str_app_assoc.
  change ("'" +:+ ?x) with (String "'" x) at 1. cbn [sh_word]. cbn [Ascii.eqb Bool.eqb].
  rewrite sh_word_quote_body.
  assert (sh_word false rest = Some ("", rest)) as ->.
  { destruct Hrest as [->|(c & r & -> & H1 & H2 & H3)]; [done|]. cbn [sh_word]. by rewrite H1, H2, H3. }
  cbn. by rewrite str_app_nil_r.
Qed.

Lemma shell_quote_one_word_witness :
  sh_word false (_shell_quote "it's $HOME; rm -rf /" +:+ " x") = Some ("it's $HOME; rm -rf /", " x").
Proof. apply shell_quote_one_word. right. by exists " "%char, "x". Defined.
