(* ===== verification/Apache.v ===== *)
(** * Apache (apache.py)

    The virtual hosts, the listening port and the guarded restart, for the
    backends and for the balancer.  What the balancer's virtual host says is
    shown by a reader of its pool ([pool_of]), which knows nothing of how it is
    written. *)

From S2P Require Import Prelude PyStr Exceptions Paths Effects Reasoning Values Bytes JsonSyntax Config.
From S2P Require Import SshClient SshFacts Website.

#[export] Set Default Goal Selector "!".

Definition BALANCER_NAME : string := "apcluster".
Definition _SITE_CONF : string := "/etc/apache2/sites-available/000-default.conf".
Definition _PORTS_CONF : string := "/etc/apache2/ports.conf".
Definition _APT_TIMEOUT_SECONDS : Z := 900.

Definition _BALANCER_MODULES : list string :=
  ["proxy"; "proxy_http"; "proxy_balancer"; "lbmethod_byrequests"; "headers"; "status"].
Definition _BACKEND_MODULES : list string := ["headers"].

Definition install_apache (host : RemoteHost) : M unit :=
  present <- host_run host "command -v apache2" false None ;;
  if cmd_ok present then ret tt
  else
    sudo host "apt-get update -qq" true (Some _APT_TIMEOUT_SECONDS) ;;
    sudo host "DEBIAN_FRONTEND=noninteractive apt-get install -y -qq apache2" true
      (Some _APT_TIMEOUT_SECONDS) ;;
    ret tt.

Definition enable_modules (host : RemoteHost) (modules : list string) : M unit :=
  for_each modules (λ module, sudo host ("a2enmod -q " +:+ module) true None ;; ret tt).

(** [a or b] on strings. *)
Definition str_or (a b : string) : string := if String.eqb a "" then b else a.

Definition configtest : string := "apachectl configtest".
Definition restart_command : string := "systemctl restart apache2".
Definition is_active_command : string := "systemctl is-active apache2".

Definition restart_apache (host : RemoteHost) : M unit :=
  check <- sudo host configtest false None ;;
  if negb (cmd_ok check) then
    raise (VmDeployError
      ("Apache configuration is invalid on " +:+ address host +:+ "; refusing to restart." +:+ nl
       +:+ str_or (py_strip (stderr check)) (py_strip (stdout check))))
  else
    sudo host restart_command true None ;;
    sudo host "systemctl enable apache2" false None ;;
    active <- host_run host is_active_command false None ;;
    if negb (String.eqb (py_strip (stdout active)) "active") then
      status <- sudo host "systemctl status apache2 --no-pager -l" false None ;;
      raise (VmDeployError
        ("Apache did not return to active state on " +:+ address host +:+ ": "
         +:+ str_or (py_strip (stdout active)) "unknown" +:+ nl +:+ py_strip (stdout status)))
    else ret tt.

(** ** Virtual hosts *)

(** A file whose lines are [l]. *)
Definition text_of (l : list string) : string := py_join nl (l ++ [""]).

Definition quoted (s : string) : string := dq +:+ s +:+ dq.

Definition log_lines (name : string) : list string :=
  ["    ErrorLog ${APACHE_LOG_DIR}/" +:+ name +:+ "-error.log";
   "    CustomLog ${APACHE_LOG_DIR}/" +:+ name +:+ "-access.log combined";
   "</VirtualHost>"].

Definition backend_vhost_lines (backend : HostConfig) (document_root : string) : list string :=
  ["# Managed by vmdeploy. Manual edits are overwritten on redeploy.";
   "<VirtualHost *:" +:+ str_of_Z (http_port backend) +:+ ">";
   "    ServerName " +:+ hostname backend;
   "    DocumentRoot " +:+ document_root;
   "";
   "    <Directory " +:+ document_root +:+ ">";
   "        Options -Indexes +FollowSymLinks";
   "        AllowOverride None";
   "        Require all granted";
   "    </Directory>";
   "";
   "    # Identity stamp consumed by the load balancing test suite.";
   "    Header always set " +:+ BACKEND_HEADER +:+ " " +:+ quoted (hostname backend);
   ""] ++ log_lines (hostname backend).

Definition render_backend_vhost (backend : HostConfig) (document_root : string) : string :=
  text_of (backend_vhost_lines backend document_root).

Definition member_line (backend : HostConfig) (addr : string) : string :=
  "        BalancerMember " +:+ quoted ("http://" +:+ addr +:+ ":" +:+ str_of_Z (http_port backend))
  +:+ " route=" +:+ hostname backend.

(** [members.get(hostname, "")]. *)
Definition member_address (members : list (string * string)) (h : string) : string :=
  default "" (dict_get h members).

Fixpoint member_lines (bs : list HostConfig) (members : list (string * string)) : res (list string) :=
  match bs with
  | [] => inr []
  | backend :: bs =>
      let addr := member_address members (hostname backend) in
      if String.eqb addr "" then
        inl (VmDeployError ("No resolved address for backend " +:+ hostname backend
          +:+ "; cannot build a complete balancer pool"))
      else
        lines ← member_lines bs members;
        inr (member_line backend addr :: lines)
  end.

Definition balancer_head (jump : HostConfig) : list string :=
  ["# Managed by vmdeploy. Manual edits are overwritten on redeploy.";
   "<VirtualHost *:" +:+ str_of_Z (http_port jump) +:+ ">";
   "    ServerName " +:+ hostname jump;
   "";
   "    ProxyRequests Off";
   "    ProxyPreserveHost On";
   "";
   "    <Proxy " +:+ quoted ("balancer://" +:+ BALANCER_NAME) +:+ ">"].

Definition balancer_tail (jump : HostConfig) : list string :=
  ["        # byrequests with no stickysession: consecutive requests from one";
   "        # client must land on different members for the suite to pass.";
   "        ProxySet lbmethod=byrequests";
   "    </Proxy>";
   "";
   "    # Exclude the manager endpoint from proxying so it is served locally.";
   "    ProxyPass        " +:+ quoted "/balancer-manager" +:+ " " +:+ quoted "!";
   "    ProxyPass        " +:+ quoted "/" +:+ " " +:+ quoted ("balancer://" +:+ BALANCER_NAME +:+ "/");
   "    ProxyPassReverse " +:+ quoted "/" +:+ " " +:+ quoted ("balancer://" +:+ BALANCER_NAME +:+ "/");
   "";
   "    <Location " +:+ quoted "/balancer-manager" +:+ ">";
   "        SetHandler balancer-manager";
   "        Require local";
   "        Require ip 192.168.0.0/16";
   "    </Location>";
   ""] ++ log_lines (hostname jump).

(** The member block is one string, joined before it is put between the other
    lines. *)
Definition render_balancer_vhost (config : ClusterConfig) (members : list (string * string)) :
    res string :=
  lines ← member_lines (backends config) members;
  inr (text_of (balancer_head (jump config) ++ [py_join nl lines] ++ balancer_tail (jump config))).

(** ** The listening port *)

Definition line_directives (line : string) : list string :=
  if py_startswith (py_strip line) "Listen" then
    match py_split (py_strip line) with _ :: d :: _ => [d] | _ => [] end
  else [].

(** The ports of the [Listen] lines of [current]. *)
Definition listen_directives (current : string) : list string :=
  concat (map line_directives (py_splitlines current)).

Definition _ensure_listen_port (host : RemoteHost) (port : Z) : M unit :=
  current <- catch (b <- get_bytes host _PORTS_CONF ;; ret (utf8_decode_replace b))
    (λ e, if isinstance e CVmDeployError then Some (ret "") else None) ;;
  if existsb (String.eqb (str_of_Z port)) (listen_directives current) then ret tt
  else
    sudo host ("sh -c 'echo " +:+ quoted ("Listen " +:+ str_of_Z port) +:+ " >> "
               +:+ _PORTS_CONF +:+ "'") true None ;;
    ret tt.

(** ** Configuring a host *)

Definition configure_backend (host : RemoteHost) (backend : HostConfig) (document_root : string) :
    M unit :=
  install_apache host ;;
  enable_modules host _BACKEND_MODULES ;;
  _ensure_listen_port host (http_port backend) ;;
  put_bytes host (utf8_encode (render_backend_vhost backend document_root)) _SITE_CONF mode_644 ;;
  restart_apache host.

Definition configure_balancer (host : RemoteHost) (config : ClusterConfig)
    (members : list (string * string)) : M unit :=
  install_apache host ;;
  enable_modules host _BALANCER_MODULES ;;
  _ensure_listen_port host (http_port (jump config)) ;;
  vhost <- lift_res (render_balancer_vhost config members) ;;
  put_bytes host (utf8_encode vhost) _SITE_CONF mode_644 ;;
  restart_apache host.

(** ** Facts *)

Section facts.
Context (host : RemoteHost).

Lemma install_apache_op : host_op (sid host) (install_apache host).
Proof. unfold install_apache. by host_op_auto. Qed.
Lemma enable_modules_op ms : host_op (sid host) (enable_modules host ms).
Proof. unfold enable_modules. by host_op_auto. Qed.
Lemma restart_apache_op : host_op (sid host) (restart_apache host).
Proof. unfold restart_apache. by host_op_auto. Qed.
Lemma ensure_listen_port_op port : host_op (sid host) (_ensure_listen_port host port).
Proof.
  unfold _ensure_listen_port. host_op_step; [|by host_op_auto].
  apply host_op_catch; [by host_op_auto|]. intros e m'. case_match; [|done].
  intros [= <-]. apply host_op_ret.
Qed.

Lemma install_apache_terminates : terminates (install_apache host).
Proof. unfold install_apache. by terminates_auto. Qed.
Lemma enable_modules_terminates ms : terminates (enable_modules host ms).
Proof. unfold enable_modules. by terminates_auto. Qed.
Lemma restart_apache_terminates : terminates (restart_apache host).
Proof. unfold restart_apache. by terminates_auto. Qed.
Lemma ensure_listen_port_terminates port : terminates (_ensure_listen_port host port).
Proof.
  unfold _ensure_listen_port. terminates_step; [|by terminates_auto].
  apply terminates_catch; [by terminates_auto|]. intros e m'. case_match; [|done].
  intros [= <-]. apply terminates_ret.
Qed.
End facts.

#[export] Hint Resolve install_apache_op enable_modules_op restart_apache_op ensure_listen_port_op
  install_apache_terminates enable_modules_terminates restart_apache_terminates
  ensure_listen_port_terminates : vmdeploy.

Section configure_facts.
Context (host : RemoteHost).

Lemma configure_backend_op backend root : host_op (sid host) (configure_backend host backend root).
Proof. unfold configure_backend. by host_op_auto. Qed.
Lemma configure_balancer_op config members :
  host_op (sid host) (configure_balancer host config members).
Proof. unfold configure_balancer. by host_op_auto. Qed.
Lemma configure_backend_terminates backend root : terminates (configure_backend host backend root).
Proof. unfold configure_backend. by terminates_auto. Qed.
Lemma configure_balancer_terminates config members :
  terminates (configure_balancer host config members).
Proof. unfold configure_balancer. by terminates_auto. Qed.
End configure_facts.

#[export] Hint Resolve configure_backend_op configure_balancer_op configure_backend_terminates
  configure_balancer_terminates : vmdeploy.

(** ** The restart *)

(** Apache was seen running. *)
Definition reported_active (ev : event) : Prop :=
  ∃ c stdin tm status out err, py_strip out = "active" ∧
    ev = Ev (SshExec c is_active_command stdin tm) (Executed status out err).

Lemma restart_guarded host :
  guarded (privileged_ok configtest) (privileged restart_command) (restart_apache host).
Proof.
  unfold restart_apache. apply (guarded_bind_ensures _ _ _ _ cmd_ok).
  - by apply guarded_never, sudo_not_privileged.
  - intros s t r s' H Hr. eapply sudo_ensures; [exact H|]. by rewrite Hr.
  - intros r ->. simpl. apply guarded_raise.
Qed.

Lemma is_active_seen host s t r s' :
  runs (host_run host is_active_command false None) s t (Ok r) s' →
  py_strip (stdout r) = "active" → ∃ ev, ev ∈ t ∧ reported_active ev.
Proof.
  intros H Hr. revert t H.
  cut (wp (host_run host is_active_command false None) s (λ t o _, ∀ r, o = Ok r →
    py_strip (stdout r) = "active" → ∃ ev, ev ∈ t ∧ reported_active ev)).
  { intros Hwp t H. exact (Hwp _ _ _ H _ eq_refl Hr). }
  clear r s' Hr. apply wp_host_run; [|done]. intros c [status out err|exc] _ r; simpl; [|done].
  intros [= <-] Hr. eexists. split; [left|]. by eexists _, _, _, _, _, _.
Qed.

(** Apache is restarted only on a configuration it accepts: in every run
    the restart command comes after an [apachectl configtest] that exited with
    status zero, and [restart_apache] returns only after the service was
    reported active. *)
Theorem restart_needs_configtest host s t o s' :
  runs (restart_apache host) s t o s' →
  preceded (privileged_ok configtest) (privileged restart_command) t ∧
  (o = Ok tt → (∃ ev, ev ∈ t ∧ privileged_ok configtest ev) ∧ (∃ ev, ev ∈ t ∧ reported_active ev)).
Proof.
  intros H. split; [exact (restart_guarded host _ _ _ _ H)|]. intros ->.
  unfold restart_apache in H.
  apply runs_bind in H as [(r & s1 & t1 & t2 & -> & H1 & H)|[(e & [=] & _)|[[=] _]]].
  destruct (cmd_ok r) eqn:Hr; cbn [negb] in H; [|by run_inv1 H].
  apply runs_bind in H as [(r2 & s2 & t3 & t4 & -> & H3 & H)|[(e & [=] & _)|[[=] _]]].
  apply runs_bind in H as [(r3 & s3 & t5 & t6 & -> & H5 & H)|[(e & [=] & _)|[[=] _]]].
  apply runs_bind in H as [(r4 & s4 & t7 & t8 & -> & H7 & H)|[(e & [=] & _)|[[=] _]]].
  destruct (String.eqb_spec (py_strip (stdout r4)) "active") as [Ha|_]; cbn [negb] in H.
  - split.
    + eapply sudo_ensures, Exists_exists in H1 as (ev & Hev & Hg); [|by rewrite Hr].
      exists ev. split; [rewrite elem_of_app; by left|done].
    + destruct (is_active_seen _ _ _ _ _ H7 Ha) as (ev & Hev & Hg).
      exists ev. split; [rewrite !elem_of_app; tauto|done].
  - apply runs_bind in H as [(r5 & s5 & t9 & t10 & -> & H9 & H)|[(e & [=] & _)|[[=] _]]].
    by run_inv1 H.
Qed.

(** A guest whose Apache runs. *)
Definition apache_world : handler unit := λ e w,
  (match e return resp e with
   | IsFile _ => true
   | SshExec _ c _ _ => Executed 0 (if String.eqb c is_active_command then "active" +:+ nl else "") ""
   | e => default_resp e
   end, w).

Lemma restart_needs_configtest_witness :
  ∃ t s', runs (restart_apache sample_remote) connected_store t (Ok tt) s' ∧ length t = 4 ∧
    ∃ ev, ev ∈ t ∧ privileged_ok configtest ev.
Proof.
  pose proof (interp_exec apache_world (restart_apache sample_remote connected_store) tt) as H.
  exists (interp apache_world (restart_apache sample_remote connected_store) tt).2,
    (interp apache_world (restart_apache sample_remote connected_store) tt).1.1.2.
  split; [exact H|]. split; [by vm_compute|].
  exact (proj1 (proj2 (restart_needs_configtest _ _ _ _ _ H) eq_refl)).
Defined.

(** ** The balancer's pool *)

Definition is_member_line (l : string) : bool := py_startswith l "        BalancerMember ".

Lemma member_lines_inr bs members lines :
  member_lines bs members = inr lines →
  lines = map (λ b, member_line b (member_address members (hostname b))) bs ∧
  Forall (λ b, member_address members (hostname b) ≠ "") bs.
Proof.
  revert lines. induction bs as [|b bs IH]; intros lines; cbn [member_lines]; [by intros [= <-]|].
  destruct (String.eqb_spec (member_address members (hostname b)) "") as [|Hne]; [done|].
  intros (ls & Hls & [= <-])%res_bind_inr. destruct (IH _ Hls) as [-> ?].
  split; [done|by constructor].
Qed.

Lemma member_lines_inl bs members e :
  member_lines bs members = inl e →
  ∃ b, b ∈ bs ∧ member_address members (hostname b) = "" ∧
    e = VmDeployError ("No resolved address for backend " +:+ hostname b
          +:+ "; cannot build a complete balancer pool").
Proof.
  revert e. induction bs as [|b bs IH]; intros e; cbn [member_lines]; [done|].
  destruct (String.eqb_spec (member_address members (hostname b)) "") as [Hb|Hne].
  - intros [= <-]. exists b. split; [left|done].
  - intros [H|(? & ? & ?)]%res_bind_inl; [|done]. destruct (IH _ H) as (b' & ? & ?).
    exists b'. split; [by right|done].
Qed.

Definition one_line (s : string) : Prop := has_char "010" s = false.

Definition one_host (b : HostConfig) : Prop := one_line (hostname b).

Lemma one_line_app s1 s2 : one_line (s1 +:+ s2) ↔ one_line s1 ∧ one_line s2.
Proof. unfold one_line. by rewrite has_char_app, orb_false_iff. Qed.

Lemma one_line_port (z : Z) : one_line (str_of_Z z).
Proof.
  apply str_of_Z_chars; [|done]. intros c Hc. destruct (Ascii.eqb_spec "010" c) as [<-|]; done.
Qed.

(** The text written in the sources has no line end of its own. *)
Ltac one_line_auto :=
  unfold quoted, log_lines, member_line, one_host in *;
  repeat (apply Forall_cons; split); try apply Forall_nil_2;
  rewrite ?one_line_app; split_and?; try done; try apply one_line_port.

Lemma balancer_head_lines j :
  one_host j → Forall (λ l, one_line l ∧ is_member_line l = false) (balancer_head j).
Proof. intros Hj. unfold balancer_head. one_line_auto. Qed.

Lemma balancer_tail_lines j :
  one_host j → Forall (λ l, one_line l ∧ is_member_line l = false) (balancer_tail j).
Proof. intros Hj. unfold balancer_tail. simpl app. one_line_auto. Qed.

Lemma filter_no_member l :
  Forall (λ l, one_line l ∧ is_member_line l = false) l → List.filter is_member_line l = [].
Proof. induction 1 as [|x l [_ Hx] _ IH]; [done|]. simpl. by rewrite Hx. Qed.

Lemma filter_members l :
  Forall (λ x, is_member_line x = true) l → List.filter is_member_line l = l.
Proof. induction 1 as [|x l Hx _ IH]; [done|]. simpl. by rewrite Hx, IH. Qed.

Lemma text_of_lines l :
  Forall one_line l → py_split_char "010" (text_of l) = l ++ [""].
Proof.
  intros Hl. apply split_join; [by destruct l|]. apply Forall_app. split; [exact Hl|].
  by repeat constructor.
Qed.

Ltac forall_app_auto :=
  repeat lazymatch goal with
  | |- Forall _ (_ ++ _) => apply Forall_app; split
  | |- Forall _ [_] => apply Forall_singleton
  end; auto; try done.

(** A reader of the pool, independent of how the document is written: the
    lines of the block that declares the balancer, and the address, the port
    and the route of a member. *)
Fixpoint lines_after (start : string) (l : list string) : list string :=
  match l with
  | [] => []
  | x :: l => if String.eqb x start then l else lines_after start l
  end.
Fixpoint lines_until (stop : string) (l : list string) : list string :=
  match l with
  | [] => []
  | x :: l => if String.eqb x stop then [] else x :: lines_until stop l
  end.

Definition doc_lines (doc : string) : list string := py_split_char "010" doc.
Definition pool_block (doc : string) : list string :=
  lines_until "    </Proxy>"
    (lines_after ("    <Proxy " +:+ dq +:+ "balancer://apcluster" +:+ dq +:+ ">") (doc_lines doc)).

Definition read_member (line : string) : option (string * string * string) :=
  rest ← after ("        BalancerMember " +:+ dq +:+ "http://") line;
  '(addr, rest) ← py_partition ":" rest;
  '(port, rest) ← py_partition "034" rest;
  route ← after " route=" rest;
  Some (addr, port, route).

Definition pool_of (doc : string) : option (list (string * string * string)) :=
  mapM read_member (List.filter is_member_line (pool_block doc)).

Lemma lines_after_app start l rest :
  Forall (λ x, String.eqb x start = false) l → lines_after start (l ++ start :: rest) = rest.
Proof.
  induction 1 as [|x l Hx _ IH]; simpl; [by rewrite String.eqb_refl|]. by rewrite Hx.
Qed.

Lemma lines_until_app stop l rest :
  Forall (λ x, String.eqb x stop = false) l → lines_until stop (l ++ stop :: rest) = l.
Proof.
  induction 1 as [|x l Hx _ IH]; simpl; [by rewrite String.eqb_refl|]. by rewrite Hx, IH.
Qed.

Lemma partition_app c p f : has_char c p = false → py_partition c (p +:+ String c f) = Some (p, f).
Proof.
  unfold has_char. induction p as [|x p IH]; intros Hp; [change ("" +:+ ?x) with x; cbn [py_partition]; by rewrite Ascii.eqb_refl|].
  cbn [str_exists] in Hp. apply orb_false_iff in Hp as [Hx Hp]. rewrite Ascii.eqb_sym in Hx.
  rewrite str_app_cons. cbn [py_partition]. by rewrite Hx, IH.
Qed.

(** A member line is read as what it was written for. *)
Lemma read_member_line b addr :
  has_char ":" addr = false → read_member (member_line b addr) = Some (addr, str_of_Z (http_port b), hostname b).
Proof.
  intros Ha. unfold read_member, member_line, quoted. rewrite !str_app_assoc.
  assert (∀ r, after ("        BalancerMember " +:+ dq +:+ "http://")
    ("        BalancerMember " +:+ dq +:+ "http://" +:+ r) = Some r) as -> by reflexivity.
  change (":" +:+ ?x) with (String ":" x). change (dq +:+ ?x) with (String "034" x).
  cbn [mbind option_bind]. rewrite partition_app by done. cbn [mbind option_bind].
  rewrite partition_app; [done|]. apply str_of_Z_chars; [|done].
  intros c Hc. destruct (Ascii.eqb_spec "034" c) as [<-|]; done.
Qed.

(** The lines of a rendered document; an empty block leaves an empty line. *)
Lemma vhost_lines hd ms tl :
  Forall one_line hd → Forall one_line ms → Forall one_line tl →
  doc_lines (text_of (hd ++ [py_join nl ms] ++ tl)) =
    hd ++ (if decide (ms = []) then [""] else ms) ++ tl ++ [""].
Proof.
  intros Hh Hms Ht. unfold doc_lines. destruct (decide (ms = [])) as [->|Hnil].
  - rewrite text_of_lines by forall_app_auto. by rewrite <- !app_assoc.
  - unfold text_of. rewrite <- !app_assoc, py_join_flat by done.
    by rewrite split_join; [|by destruct hd, ms|forall_app_auto].
Qed.

(** What is read from the document of these members. *)
Lemma vhost_pool jump_host bs (addr : string → string) :
  one_host jump_host → Forall one_host bs → (∀ h, one_line (addr h) ∧ has_char ":" (addr h) = false) →
  let doc := text_of (balancer_head jump_host
    ++ [py_join nl (map (λ b, member_line b (addr (hostname b))) bs)] ++ balancer_tail jump_host) in
  pool_of doc = Some (map (λ b, (addr (hostname b), str_of_Z (http_port b), hostname b)) bs) ∧
  List.filter is_member_line (doc_lines doc) = List.filter is_member_line (pool_block doc) ∧
  "    ProxyPass        " +:+ quoted "/" +:+ " " +:+ quoted "balancer://apcluster/" ∈ doc_lines doc ∧
  "<VirtualHost *:" +:+ str_of_Z (http_port jump_host) +:+ ">" ∈ doc_lines doc.
Proof.
  intros Hj Hb Haddr doc. set (ms := map (λ b, member_line b (addr (hostname b))) bs) in *.
  assert (Forall one_line ms) as Hms.
  { apply Forall_map, (Forall_impl _ _ _ Hb). intros b Hb1. destruct (Haddr (hostname b)) as [Ha _].
    unfold member_line, quoted. rewrite !one_line_app. split_and!; try done. apply one_line_port. }
  assert (∀ l : list string, Forall (λ l, one_line l ∧ is_member_line l = false) l → Forall one_line l) as Hone.
  { intros l H. eapply Forall_impl; [exact H|by intros ? []]. }
  pose proof (balancer_head_lines _ Hj) as Hhead. pose proof (balancer_tail_lines _ Hj) as Htail.
  set (block := if decide (ms = []) then [""] else ms).
  assert (doc_lines doc = balancer_head jump_host ++ block ++ balancer_tail jump_host ++ [""]) as Hd.
  { apply vhost_lines; [by apply Hone|done|by apply Hone]. }
  assert (List.filter is_member_line block = ms) as Hblock.
  { unfold block. case_decide as Hn; [by rewrite Hn|]. apply filter_members, Forall_map, Forall_true. done. }
  assert (pool_block doc = block ++ take 3 (balancer_tail jump_host)) as Hp.
  { unfold pool_block. rewrite Hd. unfold balancer_head at 1.
    change (lines_after _ _) with (lines_after ("    <Proxy " +:+ dq +:+ "balancer://apcluster" +:+ dq +:+ ">")
      (take 7 (balancer_head jump_host) ++ ("    <Proxy " +:+ dq +:+ "balancer://apcluster" +:+ dq +:+ ">")
        :: block ++ balancer_tail jump_host ++ [""])).
    rewrite lines_after_app by (by repeat constructor).
    change (balancer_tail jump_host) with (take 3 (balancer_tail jump_host) ++ "    </Proxy>" :: drop 4 (balancer_tail jump_host)) at 1.
    rewrite <- !app_assoc, (app_assoc block), <- app_comm_cons. apply lines_until_app.
    apply Forall_app. split; [|by repeat constructor]. unfold block. case_decide; [by repeat constructor|].
    by apply Forall_map, Forall_true. }
  assert (List.filter is_member_line (pool_block doc) = ms) as Hpm.
  { rewrite Hp, List.filter_app, Hblock, filter_no_member; [by rewrite app_nil_r|by apply Forall_take]. }
  split_and!.
  - unfold pool_of. rewrite Hpm. unfold ms. clear -Haddr. induction bs as [|b bs IH]; [done|].
    cbn [map mapM]. rewrite read_member_line by apply Haddr. cbn [mbind option_bind].
    change (list_fmap _ _ _) with (map (λ b, member_line b (addr (hostname b))) bs) in *. by rewrite IH.
  - rewrite Hpm, Hd, !List.filter_app, Hblock, (filter_no_member _ Hhead), (filter_no_member _ Htail).
    simpl. by rewrite app_nil_r.
  - rewrite Hd, !elem_of_app. right. right. left. unfold balancer_tail.
    do 7 apply list_elem_of_further. apply list_elem_of_here.
  - rewrite Hd, elem_of_app. left. unfold balancer_head. apply list_elem_of_further, list_elem_of_here.
Qed.

(** C37: the balancer's pool is complete or the document is not made.  When the
    virtual host is rendered, every configured backend has an address, and
    reading the block of the balancer [apcluster] back gives exactly one member
    per backend, in the order of the configuration: its address, its port and
    its host name as the route; no member stands elsewhere, and the requests
    for the site go to that balancer.  Otherwise the error names a configured
    backend without an address.  (The host names are one-line strings, and so
    are the addresses, which hold no colon.) *)
Theorem balancer_vhost_complete config members :
  Forall one_host (all_hosts config) →
  Forall (λ kv, one_line kv.2 ∧ has_char ":" kv.2 = false) members →
  match render_balancer_vhost config members with
  | inr doc =>
      Forall (λ b, member_address members (hostname b) ≠ "") (backends config) ∧
      pool_of doc = Some (map (λ b,
        (member_address members (hostname b), str_of_Z (http_port b), hostname b)) (backends config)) ∧
      List.filter is_member_line (doc_lines doc) = List.filter is_member_line (pool_block doc) ∧
      "    ProxyPass        " +:+ quoted "/" +:+ " " +:+ quoted "balancer://apcluster/" ∈ doc_lines doc ∧
      "<VirtualHost *:" +:+ str_of_Z (http_port (jump config)) +:+ ">" ∈ doc_lines doc
  | inl e => ∃ b, b ∈ backends config ∧ member_address members (hostname b) = "" ∧
      e = VmDeployError ("No resolved address for backend " +:+ hostname b
            +:+ "; cannot build a complete balancer pool")
  end.
Proof.
  intros [Hj Hb]%Forall_cons Hm. destruct (render_balancer_vhost config members) as [e|doc] eqn:Hr.
  { apply member_lines_inl. unfold render_balancer_vhost in Hr.
    by apply res_bind_inl in Hr as [?|(? & ? & ?)]. }
  apply res_bind_inr in Hr as (lines & Hl & <-%(inj inr)).
  apply member_lines_inr in Hl as [-> Hne]. split; [done|].
  assert (∀ h, one_line (member_address members h) ∧ has_char ":" (member_address members h) = false) as Haddr.
  { intros h. unfold member_address. destruct (dict_get h members) as [a|] eqn:Hg; [|done].
    rewrite Forall_forall in Hm. exact (Hm _ (dict_get_elem _ _ _ Hg)). }
  by apply vhost_pool.
Qed.

Definition sample_backend (n : string) : HostConfig :=
  MkHostConfig ("vm-" +:+ n) n BACKEND 8080.
Definition sample_cluster : ClusterConfig :=
  MkClusterConfig sample_ssh
    (MkVirtualBoxConfig (Path "/usr/bin/VBoxManage") "template" (Path "/tmp/t.ova") "" 1024 1 300)
    (MkHostConfig "vm-jump" "jump" JUMP 80) [sample_backend "web1"; sample_backend "web2"]
    (MkInventoryConfig 9090 "/opt/inventory" (Path "/root/keys/inventory.key") "inventory.enc"
       (Path "/root/state/manifest.enc"))
    (MkWebsiteConfig "https://example.org" "https://example.org/site.tar.gz" "/var/www/site")
    (MkBuildConfig "1.22.5" "904b924d435eaea086515bc63235b192ea441bd8c9b198c507e85009e6e4c7f0").

Lemma balancer_vhost_complete_witness :
  ∃ doc, render_balancer_vhost sample_cluster [("web1", "10.0.0.7"); ("web2", "10.0.0.8")] = inr doc ∧
    pool_of doc = Some [("10.0.0.7", "8080", "web1"); ("10.0.0.8", "8080", "web2")].
Proof.
  eexists. split; [reflexivity|].
  refine (proj1 (proj2 (balancer_vhost_complete sample_cluster
    [("web1", "10.0.0.7"); ("web2", "10.0.0.8")] _ _))).
  - repeat (apply Forall_cons; split); try done.
  - repeat (apply Forall_cons; split); try done.
Defined.
