(* ===== verification/InventoryService.v ===== *)
(** * The inventory service (inventory_service.py)

    The fingerprint of the Go sources, the pinned toolchain, the build, the
    deployment of the service, and the encrypted manifest.  The temporary
    directory of the automation host is the parameter [TempDir]. *)

From S2P Require Import Prelude PyStr Exceptions Paths Effects Reasoning Values Bytes Sha256 Json.
From S2P Require Import Inventory Config SshClient SshFacts Apache.

#[export] Set Default Goal Selector "!".

(** [tempfile.gettempdir()]. *)
Class TempDir := gettempdir : path.

(** A mapping from host names to addresses, in the order of insertion. *)
Abbreviation addresses := (list (string * string)).

Definition SERVICE_NAME : string := "inventory".
Definition _SERVICE_UNIT : string := "/etc/systemd/system/" +:+ SERVICE_NAME +:+ ".service".
Definition _BUILD_DIR : string := "/tmp/vmdeploy-goservice".
Definition _BUILD_TIMEOUT_SECONDS : Z := 600.

Definition _SOURCE_FILES : list string :=
  ["go.mod"; "main.go"; "crypto.go"; "inventory.go"; "manifest.go"].
Definition _TEMPLATE_REL : string := "templates/clusterview.html".
Definition _HASH_FILES : list string := _SOURCE_FILES ++ [_TEMPLATE_REL].

Definition _GO_INSTALL_ROOT : string := "/usr/local/go".
Definition _GO_BIN_LINK : string := "/usr/local/bin/go".
Definition _SOURCE_HASH_FILE : string := ".source-hash".
Definition _HOST_DOWNLOAD_TIMEOUT_SECONDS : Z := 180.

(** [p.is_file()] and [p.read_bytes()]. *)
Definition is_file (p : path) : M bool := call (IsFile p).
Definition read_bytes (p : path) : M bytes := r <- call (ReadBytes p) ;; lift_io r.

(** ** The fingerprint of the sources *)

Definition NUL : bytes := [Byte.x00].

(** The bytes [source_hash] feeds to the digest, one update after another. *)
Fixpoint hashed_stream (source_dir : path) (names : list string) : M bytes :=
  match names with
  | [] => ret []
  | name :: names =>
      let p := path_div source_dir name in
      present <- is_file p ;;
      if negb present then
        raise (VmDeployError ("Go service source missing from " +:+ str_path source_dir +:+ ": " +:+ name))
      else
        content <- read_bytes p ;;
        rest <- hashed_stream source_dir names ;;
        ret (utf8_encode name ++ NUL ++ content ++ NUL ++ rest)
  end.

Definition source_hash (source_dir : path) : M string :=
  stream <- hashed_stream source_dir _HASH_FILES ;; ret (sha256_hex stream).

(** The chunks read until an empty one are the bytes of the file. *)
Definition _sha256_file (p : path) : M string := b <- read_bytes p ;; ret (sha256_hex b).

(** ** The toolchain *)

Section service.
Context {tmp : TempDir} {aead : AEAD}.

Definition _GO_CACHE_DIR : path := path_div gettempdir "vmdeploy-cache".

Definition go_archive (build : BuildConfig) : string :=
  "go" +:+ go_version build +:+ ".linux-amd64.tar.gz".

(** The download; a transfer that breaks off has written what it received. *)
Definition download (url : string) (dest : path) : M unit :=
  response <- call (HttpStream url _HOST_DOWNLOAD_TIMEOUT_SECONDS) ;;
  match response with
  | StreamException exc => raise (LibraryError exc)
  | Stream status text received broken =>
      if (400 <=? status)%Z && (status <? 600)%Z then raise (LibraryError text)
      else
        r <- call (WriteBytes dest received) ;; lift_io r ;;
        match broken with Some exc => raise (LibraryError exc) | None => ret tt end
  end.

Definition unlink (p : path) : M unit := r <- call (Unlink p) ;; lift_io r.

Definition _fetch_go_archive_to_host (build : BuildConfig) : M path :=
  let archive := go_archive build in
  let dest := path_div _GO_CACHE_DIR archive in
  cached <- is_file dest ;;
  usable <- (if cached : bool then
               digest <- _sha256_file dest ;; ret (String.eqb digest (go_sha256 build))
             else ret false) ;;
  if usable : bool then ret dest
  else
    r <- call (Mkdir _GO_CACHE_DIR) ;; lift_io r ;;
    let url := "https://go.dev/dl/" +:+ archive in
    rewrap (download url dest) CLibraryError (λ exc, VmDeployError
      ("Failed to download " +:+ url +:+ " on the automation host: " +:+ str_exn exc)) ;;
    actual <- _sha256_file dest ;;
    if negb (String.eqb actual (go_sha256 build)) then
      unlink dest ;;
      raise (VmDeployError
        ("Downloaded Go archive " +:+ archive +:+ " has SHA-256 " +:+ actual +:+ ", expected "
         +:+ go_sha256 build +:+ "; refusing a toolchain that may be corrupted or substituted"))
    else
      size <- call (StatSize dest) ;; lift_io size ;;
      ret dest.

Definition wanted_version (build : BuildConfig) : string := "go version go" +:+ go_version build +:+ " ".

(** The output of [go version] names the pinned toolchain. *)
Definition is_pinned (build : BuildConfig) (r : CommandResult) : bool :=
  cmd_ok r && py_startswith (py_strip (stdout r)) (py_strip (wanted_version build)).

Definition checksum_command (build : BuildConfig) (tmp_file : string) : string :=
  "printf '%s  %s' " +:+ go_sha256 build +:+ " " +:+ tmp_file +:+ " | sha256sum -c -".
Definition extract_command (tmp_file : string) : string := "tar -C /usr/local -xzf " +:+ tmp_file.

(** [host.sftp().put(local, remote)]. *)
Definition upload (host : RemoteHost) (loc remote : string) : M unit :=
  catch (ch <- sftp host ;; r <- call (SftpPut ch loc remote) ;; lift_io r)
    (λ exc, if isinstance exc COSError || isinstance exc CVmDeployError then
       Some (raise (VmDeployError
         ("Failed to upload Go archive to " +:+ address host +:+ ": " +:+ str_exn exc)))
     else None).

Definition install_go (host : RemoteHost) (build : BuildConfig) : M string :=
  current <- host_run host "go version 2>/dev/null" false None ;;
  if is_pinned build current then ret (py_strip (stdout current))
  else
    local_archive <- _fetch_go_archive_to_host build ;;
    let tmp_file := "/tmp/" +:+ path_name local_archive in
    upload host (str_path local_archive) tmp_file ;;
    check <- host_run host (checksum_command build tmp_file) false None ;;
    if negb (cmd_ok check) then
      host_run host ("rm -f " +:+ tmp_file) false None ;;
      raise (VmDeployError
        ("Go archive on " +:+ address host +:+ " failed SHA-256 verification after upload; "
         +:+ "the transfer may be corrupt." +:+ nl
         +:+ str_or (py_strip (stdout check)) (py_strip (stderr check))))
    else
      sudo host ("rm -rf " +:+ _GO_INSTALL_ROOT) true None ;;
      sudo host (extract_command tmp_file) true None ;;
      sudo host ("ln -sf " +:+ _GO_INSTALL_ROOT +:+ "/bin/go " +:+ _GO_BIN_LINK) true None ;;
      sudo host ("ln -sf " +:+ _GO_INSTALL_ROOT +:+ "/bin/gofmt /usr/local/bin/gofmt") true None ;;
      host_run host ("rm -f " +:+ tmp_file) false None ;;
      version <- host_run host "go version" false None ;;
      if negb (is_pinned build version) then
        raise (VmDeployError
          ("Pinned Go " +:+ go_version build +:+ " is not usable on " +:+ address host
           +:+ " after install: " +:+ str_or (py_strip (stdout version)) (py_strip (stderr version))))
      else ret (py_strip (stdout version)).

(** ** The build *)

Fixpoint missing_files (source_dir : path) (names : list string) : M (list string) :=
  match names with
  | [] => ret []
  | name :: names =>
      present <- is_file (path_div source_dir name) ;;
      rest <- missing_files source_dir names ;;
      ret (if present : bool then rest else name :: rest)
  end.

Definition build_command : string :=
  "cd " +:+ _BUILD_DIR +:+ " && GOCACHE=/tmp/vmdeploy-gocache GOFLAGS=-mod=mod "
  +:+ "go build -trimpath -o " +:+ _BUILD_DIR +:+ "/" +:+ SERVICE_NAME +:+ " .".

Definition install_binary (remote_dir : string) : string :=
  "install -m 0755 " +:+ _BUILD_DIR +:+ "/" +:+ SERVICE_NAME +:+ " " +:+ remote_dir +:+ "/"
  +:+ SERVICE_NAME.

Definition record_hash (digest remote_dir : string) : string :=
  "sh -c 'printf %s " +:+ digest +:+ " > " +:+ remote_dir +:+ "/" +:+ _SOURCE_HASH_FILE +:+ "'".

Definition build_service (host : RemoteHost) (source_dir : path) (remote_dir : string) : M unit :=
  missing <- missing_files source_dir _SOURCE_FILES ;;
  if bool_decide (missing ≠ []) then
    raise (VmDeployError
      ("Go service sources missing from " +:+ str_path source_dir +:+ ": " +:+ repr_list missing))
  else
    let template := path_div (path_div source_dir "templates") "clusterview.html" in
    present <- is_file template ;;
    if negb present then raise (VmDeployError ("Go service template missing: " +:+ str_path template))
    else
      host_run host ("rm -rf " +:+ _BUILD_DIR +:+ " && mkdir -p " +:+ _BUILD_DIR +:+ "/templates")
        true None ;;
      for_each _SOURCE_FILES (λ name,
        b <- read_bytes (path_div source_dir name) ;;
        put_bytes host b (_BUILD_DIR +:+ "/" +:+ name) mode_644) ;;
      b <- read_bytes template ;;
      put_bytes host b (_BUILD_DIR +:+ "/templates/clusterview.html") mode_644 ;;
      sudo host ("chown -R $(id -un):$(id -gn) " +:+ _BUILD_DIR) false None ;;
      built <- host_run host build_command false (Some _BUILD_TIMEOUT_SECONDS) ;;
      if negb (cmd_ok built) then
        raise (VmDeployError
          ("Failed to compile the inventory service on " +:+ address host +:+ ":" +:+ nl
           +:+ str_or (py_strip (stderr built)) (py_strip (stdout built))))
      else
        sudo host ("mkdir -p " +:+ remote_dir) true None ;;
        sudo host (install_binary remote_dir) true None ;;
        host_run host ("rm -rf " +:+ _BUILD_DIR) false None ;;
        digest <- source_hash source_dir ;;
        sudo host (record_hash digest remote_dir) true None ;;
        ret tt.

Definition read_hash_command (remote_dir : string) : string :=
  "cat " +:+ remote_dir +:+ "/" +:+ _SOURCE_HASH_FILE +:+ " 2>/dev/null".
Definition binary_test (remote_dir : string) : string :=
  "test -x " +:+ remote_dir +:+ "/" +:+ SERVICE_NAME.

Definition installed_source_hash (host : RemoteHost) (remote_dir : string) : M string :=
  result <- sudo host (read_hash_command remote_dir) false None ;;
  ret (py_strip (stdout result)).

Definition ensure_service_binary (host : RemoteHost) (config : ClusterConfig) (source_dir : path) :
    M bool :=
  let dir := remote_dir (inventory config) in
  wanted <- source_hash source_dir ;;
  installed <- installed_source_hash host dir ;;
  binary <- sudo host (binary_test dir) false None ;;
  if cmd_ok binary && String.eqb installed wanted then ret false
  else
    install_go host (build config) ;;
    build_service host source_dir dir ;;
    ret true.

Definition group_commands (dir : string) : list string :=
  ["groupadd -f vmdeploy-inventory"; "mkdir -p " +:+ dir; "chgrp vmdeploy-inventory " +:+ dir;
   "chmod 2770 " +:+ dir].

Definition sudo_all (host : RemoteHost) (cmds : list string) : M unit :=
  for_each cmds (λ c, sudo host c true None ;; ret tt).

Definition prepare_template (host : RemoteHost) (config : ClusterConfig) (source_dir : path) : M unit :=
  install_apache host ;;
  install_go host (build config) ;;
  sudo_all host (group_commands (remote_dir (inventory config))) ;;
  build_service host source_dir (remote_dir (inventory config)) ;;
  host_run host "rm -rf /tmp/vmdeploy-gocache" false None ;;
  sudo host "apt-get clean" false None ;;
  source_hash source_dir ;;
  ret tt.

(** ** The service *)

Definition unit_lines (config : ClusterConfig) : list string :=
  let inv := inventory config in
  let binary := remote_dir inv +:+ "/" +:+ SERVICE_NAME in
  ["# Managed by vmdeploy. Manual edits are overwritten on redeploy.";
   "[Unit]";
   "Description=Encrypted cluster inventory service";
   "After=network-online.target";
   "Wants=network-online.target";
   "";
   "[Service]";
   "Type=simple";
   "ExecStart=" +:+ binary +:+ " \";
   "    -addr :" +:+ str_of_Z (service_port inv) +:+ " \";
   "    -key " +:+ remote_dir inv +:+ "/" +:+ path_name (key_file inv) +:+ " \";
   "    -store " +:+ remote_dir inv +:+ "/" +:+ datastore_name inv;
   "Restart=on-failure";
   "RestartSec=5s";
   "";
   "# The service reads one key and one datastore; nothing else needs to be";
   "# reachable, so the sandbox is tightened to match.";
   "DynamicUser=yes";
   "SupplementaryGroups=vmdeploy-inventory";
   "NoNewPrivileges=yes";
   "PrivateTmp=yes";
   "ProtectSystem=strict";
   "ProtectHome=yes";
   "ReadWritePaths=" +:+ remote_dir inv;
   "ProtectKernelTunables=yes";
   "ProtectControlGroups=yes";
   "RestrictAddressFamilies=AF_INET AF_INET6";
   "RestrictNamespaces=yes";
   "MemoryDenyWriteExecute=yes";
   "";
   "[Install]";
   "WantedBy=multi-user.target"].

Definition render_unit (config : ClusterConfig) : string := text_of (unit_lines config).

Definition _encode_key (key : bytes) : bytes := latin1 (b64encode key) ++ latin1 nl.

Definition mode_640 : N := 416.
Definition mode_660 : N := 432.

Definition service_active : string := "systemctl is-active " +:+ SERVICE_NAME +:+ ".service".

Definition deploy_service (host : RemoteHost) (config : ClusterConfig) (source_dir : path) : M unit :=
  let inv := inventory config in
  sudo_all host (group_commands (remote_dir inv)) ;;
  ensure_service_binary host config source_dir ;;
  key <- load_or_create_key (key_file inv) ;;
  let remote_key := remote_dir inv +:+ "/" +:+ path_name (key_file inv) in
  put_bytes host (_encode_key key) remote_key mode_640 ;;
  sudo_all host ["chgrp vmdeploy-inventory " +:+ remote_key; "chmod 0640 " +:+ remote_key] ;;
  put_bytes host (utf8_encode (render_unit config)) _SERVICE_UNIT mode_644 ;;
  sudo_all host ["systemctl daemon-reload"; "systemctl enable " +:+ SERVICE_NAME +:+ ".service";
                 "systemctl restart " +:+ SERVICE_NAME +:+ ".service"] ;;
  active <- host_run host service_active false None ;;
  if negb (String.eqb (py_strip (stdout active)) "active") then
    journal <- sudo host ("journalctl -u " +:+ SERVICE_NAME +:+ ".service --no-pager -n 40") false None ;;
    raise (VmDeployError
      ("Inventory service failed to start on " +:+ address host +:+ ": "
       +:+ str_or (py_strip (stdout active)) "unknown" +:+ nl +:+ py_strip (stdout journal)))
  else ret tt.

(** ** Records *)

(** [addresses.get(h, "")]. *)
Definition address_of (a : addresses) (h : string) : string := default "" (dict_get h a).

Definition host_record (addrs ipv6 : addresses) (timestamp : string) (host : HostConfig) :
    InventoryRecord :=
  let addr := address_of addrs (hostname host) in
  let up := negb (String.eqb addr "") in
  MkRecord (hostname host) (role_value (role host)) addr (address_of ipv6 (hostname host))
    (if up then "Deployed" else "Unreachable") timestamp
    (if up then "Active" else "Inactive") timestamp.

Definition build_records (config : ClusterConfig) (addrs : addresses)
    (ipv6_addresses : option addresses) : M (list InventoryRecord) :=
  timestamp <- call UtcNow ;;
  ret (fold_left (λ records host,
         upsert records (host_record addrs (default [] ipv6_addresses) timestamp host))
       (all_hosts config) []).

(** ** The manifest *)

Definition write_local_manifest (config : ClusterConfig) (records : list InventoryRecord) : M unit :=
  key <- load_or_create_key (key_file (inventory config)) ;;
  blob <- encrypt_records records key ;;
  let p := manifest_file (inventory config) in
  rewrap (r <- call (Mkdir (parent p)) ;; lift_io r ;;
          r <- call (WriteBytes p blob) ;; lift_io r)
    COSError (λ exc, InventoryError
      ("Cannot write local manifest to " +:+ str_path p +:+ ": " +:+ str_exn exc)).

Definition seed_inventory (host : RemoteHost) (config : ClusterConfig)
    (records : list InventoryRecord) : M unit :=
  let inv := inventory config in
  key <- load_or_create_key (key_file inv) ;;
  blob <- encrypt_records records key ;;
  let remote_store := remote_dir inv +:+ "/" +:+ datastore_name inv in
  put_bytes host blob remote_store mode_660 ;;
  rewrap (sudo host ("chgrp vmdeploy-inventory " +:+ remote_store) true None ;;
          sudo host ("chmod 0660 " +:+ remote_store) true None ;;
          sudo host ("systemctl restart " +:+ SERVICE_NAME +:+ ".service") false None ;;
          ret tt)
    CRemoteCommandError (λ exc, VmDeployError
      ("Could not set ownership on " +:+ remote_store +:+ ": " +:+ str_exn exc)) ;;
  write_local_manifest config records.

Definition read_local_manifest (config : ClusterConfig) : M (list InventoryRecord) :=
  let p := manifest_file (inventory config) in
  present <- is_file p ;;
  if negb present then ret []
  else
    key <- load_key (key_file (inventory config)) ;;
    r <- call (ReadBytes p) ;;
    match r with
    | IoErr exc => raise (InventoryError
        ("Cannot read local manifest at " +:+ str_path p +:+ ": " +:+ exc))
    | IoOk blob => lift_res (decrypt_records blob key)
    end.

(** A record flipped to removed, and the one of a host without a record. *)
Definition removed (timestamp : string) (r : InventoryRecord) : InventoryRecord :=
  MkRecord (r_hostname r) (r_role r) (r_ipv4 r) (r_ipv6 r) "Removed" timestamp "Inactive" timestamp.
Definition removed_host (timestamp : string) (h : HostConfig) : InventoryRecord :=
  MkRecord (hostname h) (role_value (role h)) "" "" "Removed" timestamp "Inactive" timestamp.

(** The two loops of [mark_manifest_removed]. *)
Definition flip_records (timestamp : string) (records : list InventoryRecord) : list InventoryRecord :=
  fold_left (λ updated r, upsert updated (removed timestamp r)) records [].
Definition add_missing (timestamp : string) (seen : list string) (hosts : list HostConfig)
    (updated : list InventoryRecord) : list InventoryRecord :=
  fold_left (λ updated h,
    if bool_decide (hostname h ∈ seen) then updated else upsert updated (removed_host timestamp h))
    hosts updated.
Definition mark_removed (timestamp : string) (records : list InventoryRecord)
    (hosts : list HostConfig) : list InventoryRecord :=
  add_missing timestamp (r_hostname <$> records) hosts (flip_records timestamp records).

Definition mark_manifest_removed (config : ClusterConfig) : M (list InventoryRecord) :=
  timestamp <- call UtcNow ;;
  records <- read_local_manifest config ;;
  let updated := mark_removed timestamp records (all_hosts config) in
  write_local_manifest config updated ;;
  ret updated.

(** ** Addresses *)

Definition ipv6_command : string :=
  "ip -6 addr show scope global | awk '/inet6/ {print $2}' | cut -d/ -f1 | head -n 1".

(** The IPv6 address of one host, or nothing. *)
Definition probe_ipv6 (config : ClusterConfig) (addr : string) : M (option string) :=
  catch (with_host addr (ssh config) (λ guest,
           result <- host_run guest ipv6_command false None ;;
           let text := py_strip (stdout result) in
           ret (if String.eqb text "" then None else Some text)))
    (λ e, if isinstance e CVmDeployError then Some (ret None) else None).

Fixpoint enrich (config : ClusterConfig) (addrs : addresses) (hosts : list HostConfig)
    (found : addresses) : M addresses :=
  match hosts with
  | [] => ret found
  | h :: hosts =>
      let addr := address_of addrs (hostname h) in
      if String.eqb addr "" then enrich config addrs hosts found
      else
        r <- probe_ipv6 config addr ;;
        enrich config addrs hosts
          (match r with Some ip => dict_set (hostname h) ip found | None => found end)
  end.

Definition enrich_with_ipv6 (config : ClusterConfig) (addrs : addresses) : M addresses :=
  enrich config addrs (all_hosts config) [].

Definition resolve_host (config : ClusterConfig) (name : string) : res HostConfig :=
  match List.find (λ h, String.eqb (hostname h) name) (all_hosts config) with
  | Some h => inr h
  | None => inl (VmDeployError ("'" +:+ name +:+ "' is not a configured cluster host"))
  end.
End service.
