(* ===== verification/InventoryServiceFacts.v ===== *)
(** * What the inventory service guarantees

    The fingerprint, the pinned toolchain, the rebuild decision, the records
    and the manifest. *)

From S2P Require Import Prelude PyStr Exceptions Paths Effects Reasoning Values Bytes Sha256 Json.
From S2P Require Import Inventory Config SshClient SshFacts Apache InventoryService.

#[export] Set Default Goal Selector "!".

(** ** The operations leave the session alone and end *)

Section local_facts.
Context {tmp : TempDir} {aead : AEAD} (i : nat).

Lemma hashed_stream_op d names : host_op i (hashed_stream d names).
Proof.
  unfold is_file, read_bytes. induction names as [|n names IH]; simpl; [apply host_op_ret|].
  unfold is_file, read_bytes. by host_op_auto.
Qed.
Lemma hashed_stream_terminates d names : terminates (hashed_stream d names).
Proof.
  induction names as [|n names IH]; simpl; [apply terminates_ret|].
  unfold is_file, read_bytes. by terminates_auto.
Qed.
Lemma missing_files_op d names : host_op i (missing_files d names).
Proof.
  induction names as [|n names IH]; simpl; [apply host_op_ret|]. unfold is_file. by host_op_auto.
Qed.
Lemma missing_files_terminates d names : terminates (missing_files d names).
Proof.
  induction names as [|n names IH]; simpl; [apply terminates_ret|]. unfold is_file. by terminates_auto.
Qed.
Lemma source_hash_op d : host_op i (source_hash d).
Proof. unfold source_hash. pose proof hashed_stream_op. by host_op_auto. Qed.
Lemma source_hash_terminates d : terminates (source_hash d).
Proof. unfold source_hash. pose proof hashed_stream_terminates. by terminates_auto. Qed.

Lemma fetch_op build : host_op i (_fetch_go_archive_to_host build).
Proof. unfold _fetch_go_archive_to_host, download, unlink, _sha256_file, read_bytes, is_file. by host_op_auto. Qed.
Lemma fetch_terminates build : terminates (_fetch_go_archive_to_host build).
Proof.
  unfold _fetch_go_archive_to_host, download, unlink, _sha256_file, read_bytes, is_file.
  by terminates_auto.
Qed.

Lemma load_key_op p : host_op i (load_key p).
Proof. unfold load_key. by host_op_auto. Qed.
Lemma load_key_terminates p : terminates (load_key p).
Proof. unfold load_key. by terminates_auto. Qed.
Lemma load_or_create_key_op p : host_op i (load_or_create_key p).
Proof.
  unfold load_or_create_key, generate_key, write_key_file. pose proof load_key_op. by host_op_auto.
Qed.
Lemma load_or_create_key_terminates p : terminates (load_or_create_key p).
Proof.
  unfold load_or_create_key, generate_key, write_key_file. pose proof load_key_terminates.
  by terminates_auto.
Qed.
Lemma encrypt_records_op rs key : host_op i (encrypt_records rs key).
Proof. unfold encrypt_records. by host_op_auto. Qed.
Lemma encrypt_records_terminates rs key : terminates (encrypt_records rs key).
Proof. unfold encrypt_records. by terminates_auto. Qed.
End local_facts.

#[export] Hint Resolve missing_files_op missing_files_terminates source_hash_op
  source_hash_terminates fetch_op fetch_terminates load_key_op load_key_terminates
  load_or_create_key_op load_or_create_key_terminates encrypt_records_op
  encrypt_records_terminates : vmdeploy.

Section manifest_facts.
Context {aead : AEAD} (i : nat).

Lemma write_local_manifest_op config rs : host_op i (write_local_manifest config rs).
Proof. unfold write_local_manifest. by host_op_auto. Qed.
Lemma write_local_manifest_terminates config rs : terminates (write_local_manifest config rs).
Proof. unfold write_local_manifest. by terminates_auto. Qed.
Lemma mark_manifest_removed_op config : host_op i (mark_manifest_removed config).
Proof.
  unfold mark_manifest_removed, read_local_manifest, is_file.
  pose proof (write_local_manifest_op config). by host_op_auto.
Qed.
Lemma mark_manifest_removed_terminates config : terminates (mark_manifest_removed config).
Proof.
  unfold mark_manifest_removed, read_local_manifest, is_file.
  pose proof (write_local_manifest_terminates config). by terminates_auto.
Qed.
Lemma build_records_op config addrs ipv6 : host_op i (build_records config addrs ipv6).
Proof. unfold build_records. by host_op_auto. Qed.
Lemma build_records_terminates config addrs ipv6 : terminates (build_records config addrs ipv6).
Proof. unfold build_records. by terminates_auto. Qed.
End manifest_facts.

#[export] Hint Resolve write_local_manifest_op write_local_manifest_terminates
  mark_manifest_removed_op mark_manifest_removed_terminates build_records_op
  build_records_terminates : vmdeploy.

Section host_facts.
Context {tmp : TempDir} {aead : AEAD} (host : RemoteHost).

Lemma sudo_all_op cmds : host_op (sid host) (sudo_all host cmds).
Proof. unfold sudo_all. by host_op_auto. Qed.
Lemma sudo_all_terminates cmds : terminates (sudo_all host cmds).
Proof. unfold sudo_all. by terminates_auto. Qed.
Lemma upload_op a b : host_op (sid host) (upload host a b).
Proof. unfold upload. by host_op_auto. Qed.
Lemma upload_terminates a b : terminates (upload host a b).
Proof. unfold upload. by terminates_auto. Qed.
Lemma install_go_op build : host_op (sid host) (install_go host build).
Proof. unfold install_go. pose proof upload_op. by host_op_auto. Qed.
Lemma install_go_terminates build : terminates (install_go host build).
Proof. unfold install_go. pose proof upload_terminates. by terminates_auto. Qed.
Lemma build_service_op d dir : host_op (sid host) (build_service host d dir).
Proof. unfold build_service, is_file, read_bytes. by host_op_auto. Qed.
Lemma build_service_terminates d dir : terminates (build_service host d dir).
Proof. unfold build_service, is_file, read_bytes. by terminates_auto. Qed.
End host_facts.

#[export] Hint Resolve sudo_all_op sudo_all_terminates install_go_op install_go_terminates
  build_service_op build_service_terminates : vmdeploy.

Section deploy_facts.
Context {tmp : TempDir} {aead : AEAD} (host : RemoteHost).

Lemma ensure_service_binary_op config d : host_op (sid host) (ensure_service_binary host config d).
Proof. unfold ensure_service_binary, installed_source_hash. by host_op_auto. Qed.
Lemma ensure_service_binary_terminates config d : terminates (ensure_service_binary host config d).
Proof. unfold ensure_service_binary, installed_source_hash. by terminates_auto. Qed.
Lemma prepare_template_op config d : host_op (sid host) (prepare_template host config d).
Proof. unfold prepare_template. by host_op_auto. Qed.
Lemma prepare_template_terminates config d : terminates (prepare_template host config d).
Proof. unfold prepare_template. by terminates_auto. Qed.
Lemma deploy_service_op config d : host_op (sid host) (deploy_service host config d).
Proof.
  unfold deploy_service. pose proof (ensure_service_binary_op config d). by host_op_auto.
Qed.
Lemma deploy_service_terminates config d : terminates (deploy_service host config d).
Proof.
  unfold deploy_service. pose proof (ensure_service_binary_terminates config d). by terminates_auto.
Qed.
Lemma seed_inventory_op config rs : host_op (sid host) (seed_inventory host config rs).
Proof. unfold seed_inventory. by host_op_auto. Qed.
Lemma seed_inventory_terminates config rs : terminates (seed_inventory host config rs).
Proof. unfold seed_inventory. by terminates_auto. Qed.

(** Probing opens sessions of its own and closes them. *)
Lemma probe_ipv6_balanced config addr : balanced (probe_ipv6 config addr).
Proof. unfold probe_ipv6. balanced_step; [balanced_step; by host_op_auto|by balanced_auto]. Qed.
Lemma probe_ipv6_terminates config addr : terminates (probe_ipv6 config addr).
Proof. unfold probe_ipv6. by terminates_auto. Qed.
Lemma enrich_balanced config addrs hosts found : balanced (enrich config addrs hosts found).
Proof.
  revert found. induction hosts as [|h hosts IH]; intros found; simpl; [apply balanced_ret|].
  pose proof probe_ipv6_balanced. by balanced_auto.
Qed.
Lemma enrich_terminates config addrs hosts found : terminates (enrich config addrs hosts found).
Proof.
  revert found. induction hosts as [|h hosts IH]; intros found; simpl; [apply terminates_ret|].
  pose proof probe_ipv6_terminates. by terminates_auto.
Qed.
End deploy_facts.

#[export] Hint Resolve prepare_template_op prepare_template_terminates deploy_service_op
  deploy_service_terminates seed_inventory_op seed_inventory_terminates enrich_balanced
  enrich_terminates : vmdeploy.

(** ** The fingerprint *)

(** The files read with success, in order. *)
Definition read_of (ev : event) : option bytes :=
  match ev with
  | Ev (ReadBytes _) r => match r : io bytes with IoOk b => Some b | IoErr _ => None end
  | _ => None
  end.
Definition contents_read (t : trace) : list bytes := omap read_of t.

(** The files looked for and read, in order. *)
Definition read_path (ev : event) : option path :=
  match ev_eff ev with ReadBytes p => Some p | _ => None end.
Definition paths_read (t : trace) : list path := omap read_path t.

Fixpoint stream_of (names : list string) (contents : list bytes) : bytes :=
  match names, contents with
  | n :: names, c :: contents => utf8_encode n ++ NUL ++ c ++ NUL ++ stream_of names contents
  | _, _ => []
  end.

Lemma hashed_stream_reads d names s t b s' :
  runs (hashed_stream d names) s t (Ok b) s' →
  b = stream_of names (contents_read t) ∧ length (contents_read t) = length names.
Proof.
  revert s t b s'. induction names as [|n names IH]; intros s t b s' H; simpl in H; [by run_inv1 H|].
  apply runs_bind in H as [(present & s1 & t1 & t2 & -> & H1 & H)|[(e & [=] & _)|[[=] _]]].
  apply (runs_call (IsFile (path_div d n))) in H1 as (r & -> & [= <-] & ->).
  destruct present; cbn [negb] in H; [|by run_inv1 H].
  apply runs_bind in H as [(c & s2 & t3 & t4 & -> & H3 & H)|[(e & [=] & _)|[[=] _]]].
  apply runs_bind in H3 as [(r & s3 & t5 & t6 & -> & H5 & H6)|[(e & [=] & _)|[[=] _]]].
  apply runs_call in H5 as (r' & -> & [= <-] & ->).
  destruct r as [c'|m]; cbn [lift_io] in H6; [|by run_inv1 H6]. run_inv1 H6.
  apply runs_bind in H as [(rest & s4 & t7 & t8 & -> & H7 & H)|[(e & [=] & _)|[[=] _]]].
  apply IH in H7 as [-> Hlen]. run_inv1 H.
  rewrite !app_nil_r. by split; [|f_equal/=].
Qed.

Lemma hashed_stream_paths d names s t b s' :
  runs (hashed_stream d names) s t (Ok b) s' → paths_read t = path_div d <$> names.
Proof.
  revert s t b s'. induction names as [|n names IH]; intros s t b s' H; simpl in H; [by run_inv1 H|].
  apply runs_bind in H as [(present & s1 & t1 & t2 & -> & H1 & H)|[(e & [=] & _)|[[=] _]]].
  apply (runs_call (IsFile (path_div d n))) in H1 as (r & -> & [= <-] & ->).
  destruct present; cbn [negb] in H; [|by run_inv1 H].
  apply runs_bind in H as [(c & s2 & t3 & t4 & -> & H3 & H)|[(e & [=] & _)|[[=] _]]].
  apply runs_bind in H3 as [(r & s3 & t5 & t6 & -> & H5 & H6)|[(e & [=] & _)|[[=] _]]].
  apply runs_call in H5 as (r' & -> & [= <-] & ->).
  destruct r as [c'|m]; cbn [lift_io] in H6; [|by run_inv1 H6]. run_inv1 H6.
  apply runs_bind in H as [(rest & s4 & t7 & t8 & -> & H7 & H)|[(e & [=] & _)|[[=] _]]].
  apply IH in H7. run_inv1 H. unfold paths_read in *. rewrite !app_nil_r. simpl. by f_equal.
Qed.

Definition no_nul (b : bytes) : Prop := Byte.x00 ∉ b.

Lemma split_at_first {A} (x : A) l1 r1 l2 r2 :
  x ∉ l1 → x ∉ l2 → l1 ++ x :: r1 = l2 ++ x :: r2 → l1 = l2 ∧ r1 = r2.
Proof.
  revert l2. induction l1 as [|a l1 IH]; intros [|b l2] H1 H2 Heq; simplify_eq/=; try done.
  - by destruct H2; left.
  - by destruct H1; left.
  - rewrite not_elem_of_cons in H1, H2. destruct (IH l2) as [-> ->]; naive_solver.
Qed.

Lemma stream_of_inj names c1 c2 :
  length c1 = length names → length c2 = length names → Forall no_nul c1 → Forall no_nul c2 →
  stream_of names c1 = stream_of names c2 → c1 = c2.
Proof.
  revert c1 c2. induction names as [|n names IH]; intros [|x c1] [|y c2] L1 L2 N1 N2 Heq;
    simplify_eq/=; [done|].
  apply Forall_cons in N1 as [Nx N1], N2 as [Ny N2].
  apply split_at_first in Heq as [-> Heq]; [|done..].
  f_equal. by apply IH.
Qed.

(** The fingerprint is that of the sources and of nothing else: two trees
    whose files have the same contents have the same fingerprint, and for
    sources without NUL bytes the hashed bytes are equal only for the same
    contents, file by file, so that telling two trees apart is left to
    SHA-256 alone. *)
Theorem fingerprint_of_sources d1 d2 s1 t1 h1 s1' s2 t2 h2 s2' :
  runs (source_hash d1) s1 t1 (Ok h1) s1' → runs (source_hash d2) s2 t2 (Ok h2) s2' →
  (contents_read t1 = contents_read t2 → h1 = h2) ∧
  ∃ b1 b2, h1 = sha256_hex b1 ∧ h2 = sha256_hex b2 ∧
    (Forall no_nul (contents_read t1) → Forall no_nul (contents_read t2) →
     b1 = b2 → contents_read t1 = contents_read t2).
Proof.
  assert (∀ d s t h s', runs (source_hash d) s t (Ok h) s' →
    h = sha256_hex (stream_of _HASH_FILES (contents_read t)) ∧
    length (contents_read t) = length _HASH_FILES) as Hone.
  { intros d s t h s' H. unfold source_hash in H.
    apply runs_bind in H as [(b & s3 & t3 & t4 & -> & H1 & H)|[(e & [=] & _)|[[=] _]]].
    run_inv1 H. rewrite app_nil_r. by apply hashed_stream_reads in H1 as [-> ?]. }
  intros [-> L1]%Hone [-> L2]%Hone. split; [by intros ->|].
  eexists _, _. split_and!; [done..|]. intros N1 N2. by apply stream_of_inj.
Qed.

(** A world whose every file holds the given bytes. *)
Definition tree_world (b : bytes) : handler unit := λ e w,
  (match e return resp e with
   | IsFile _ => true
   | ReadBytes _ => IoOk b
   | e => default_resp e
   end, w).

Lemma fingerprint_of_sources_witness :
  ∃ h t1 t2 s1 s2, runs (source_hash (Path "a")) [] t1 (Ok h) s1 ∧
    runs (source_hash (Path "b")) [] t2 (Ok h) s2 ∧ t1 ≠ t2.
Proof.
  destruct (run_in_runs (tree_world [Byte.x41]) (source_hash (Path "a")) tt) as [s1 H1].
  destruct (run_in_runs (tree_world [Byte.x41]) (source_hash (Path "b")) tt) as [s2 H2].
  set (t1 := trace_in _ _ _) in H1. set (t2 := trace_in _ _ _) in H2.
  assert (∃ b1, outcome_in (tree_world [Byte.x41]) (source_hash (Path "a")) tt
    = Ok (sha256_hex b1)) as [b1 E1] by (eexists; lazy -[sha256_hex]; reflexivity).
  assert (∃ b2, outcome_in (tree_world [Byte.x41]) (source_hash (Path "b")) tt
    = Ok (sha256_hex b2)) as [b2 E2] by (eexists; lazy -[sha256_hex]; reflexivity).
  rewrite E1 in H1. rewrite E2 in H2.
  destruct (fingerprint_of_sources _ _ _ _ _ _ _ _ _ _ H1 H2) as [Heq _].
  rewrite <- Heq in H2 by (by vm_compute).
  eexists _, t1, t2, s1, s2. split; [exact H1|]. split; [exact H2|]. by vm_compute.
Defined.

(** With NUL bytes the files are not told apart by their framing: the same
    bytes are hashed for two different trees. *)
Lemma fingerprint_framing :
  ∃ c1 c2 : list bytes, c1 ≠ c2 ∧ length c1 = length c2 ∧
    stream_of ["a"; "b"] c1 = stream_of ["a"; "b"] c2.
Proof.
  exists [[Byte.x41] ++ NUL ++ utf8_encode "b" ++ NUL; []], [[Byte.x41]; NUL ++ utf8_encode "b" ++ NUL].
  by vm_compute.
Qed.

(** ** The toolchain *)

#[local] Opaque sha256_hex.

Section toolchain.
Context {tmp : TempDir} (build : BuildConfig).

Definition archive_path : path := path_div _GO_CACHE_DIR (go_archive build).

(** The archive was read and has the pinned digest. *)
Definition verified (ev : event) : Prop :=
  ∃ b, ev = Ev (ReadBytes archive_path) (IoOk b) ∧ sha256_hex b = go_sha256 build.

(** A result of the fetch: the archive was read with the pinned digest, and
    nothing but its size was asked for after that. *)
Definition fetched (t : trace) (o : outcome path) : Prop :=
  match o with
  | Ok p => p = archive_path ∧ ∃ n ev, t !! n = Some ev ∧ verified ev ∧
      Forall (λ ev, ev_eff ev = StatSize archive_path) (drop (S n) t)
  | Raise _ => True
  | OutOfFuel => False
  end.

(** A download that reads back with another digest is removed, and nothing is
    returned. *)
Definition fails_closed (t : trace) (o : outcome path) : Prop :=
  ∀ n b0 b, t !! n = Some (Ev (WriteBytes archive_path b0) (IoOk tt)) →
    t !! S n = Some (Ev (ReadBytes archive_path) (IoOk b)) → sha256_hex b ≠ go_sha256 build →
    (∃ e, o = Raise e) ∧ ev_eff <$> drop (S (S n)) t = [Unlink archive_path].

Ltac fetched_at n :=
  exists n; eexists; split; [reflexivity|]; split; [by eexists|]; by repeat constructor.

Ltac fails_closed_tac :=
  intros n b0 b H1 H2 Hne; do 9 (destruct n as [|n];
    [simpl in H1, H2; first [discriminate H1 | discriminate H2 |
       apply (f_equal (mbind read_of)) in H2; cbn in H2; simplify_eq; congruence |
       split; [by eexists|done]]|]); simpl in H1; discriminate H1.

Lemma fetch_spec s :
  wp (_fetch_go_archive_to_host build) s (λ t o _, fetched t o ∧ fails_closed t o).
Proof.
  unfold _fetch_go_archive_to_host. cbv zeta. fold archive_path.
  unfold is_file, _sha256_file, read_bytes, unlink, download.
  repeat (wp_step || (progress cbn [lift_io])).
  all: repeat match goal with
       | H : ?r = IoOk _ |- _ => subst r
       | H : ?r = IoErr _ |- _ => subst r
       | H : negb _ = true |- _ => apply negb_true_iff in H
       | H : negb _ = false |- _ => apply negb_false_iff in H
       | H : String.eqb _ _ = true |- _ => apply String.eqb_eq in H
       | u : unit |- _ => destruct u
       end.
  all: cbn [app]; split; [try exact I|fails_closed_tac].
  all: split; [done|]; first [fetched_at 1|fetched_at 4|fetched_at 5].
Qed.

Lemma fetch_read_ensures s :
  wp (_fetch_go_archive_to_host build) s
    (λ t o _, ∀ p, o = Ok p → p = archive_path ∧ Exists verified t).
Proof.
  eapply wp_conseq; [apply fetch_spec|]. intros t o s' [Hf _] p ->.
  destruct Hf as [-> (n & ev & Hn & Hv & _)]. split; [done|].
  apply Exists_exists. exists ev. split; [by eapply list_elem_of_lookup_2|done].
Qed.

Lemma fetch_quiet : emits no_exec (λ _, True) (_fetch_go_archive_to_host build).
Proof.
  unfold _fetch_go_archive_to_host, download, unlink, _sha256_file, read_bytes, is_file. by quiet_auto.
Qed.

Lemma upload_quiet host a b : emits no_exec (λ _, True) (upload host a b).
Proof.
  unfold upload. apply emits_catch_same; [|handler_cases; intros _; by apply emits_raise].
  apply emits_bind; [apply sftp_quiet|intros ch]. by quiet_auto.
Qed.

(** Where the archive is staged on a guest. *)
Definition staged_archive : string := "/tmp/" +:+ path_name archive_path.

Lemma install_go_verified host :
  guarded verified (privileged (extract_command staged_archive)) (install_go host build).
Proof.
  unfold install_go. apply guarded_bind; [by apply guarded_never, host_run_not_privileged|].
  intros current. destruct (is_pinned build current); [apply guarded_ret|].
  apply (guarded_bind_ensures _ _ _ _ (λ _, true)); [apply quiet_guarded, fetch_quiet| |done].
  intros s t p s' H _. by destruct (fetch_read_ensures s _ _ _ H p eq_refl).
Qed.

Lemma install_go_checked host :
  guarded (plain_ok (checksum_command build staged_archive))
    (privileged (extract_command staged_archive)) (install_go host build).
Proof.
  unfold install_go. apply guarded_bind; [by apply guarded_never, host_run_not_privileged|].
  intros current. destruct (is_pinned build current); [apply guarded_ret|].
  apply (guarded_bind_returns _ _ _ _ (λ p, p = archive_path)).
  - apply quiet_guarded, fetch_quiet.
  - intros s t p s' H. by destruct (fetch_read_ensures s _ _ _ H p eq_refl).
  - intros ? ->. fold staged_archive. apply guarded_bind; [apply quiet_guarded, upload_quiet|intros _].
    apply (guarded_bind_ensures _ _ _ _ cmd_ok).
    + by apply guarded_never, host_run_not_privileged.
    + intros s t r s' H Hr. eapply host_run_ensures; [exact H|by rewrite Hr].
    + intros r ->. apply guarded_bind; [by apply guarded_never, host_run_not_privileged|].
      intros _. apply guarded_raise.
Qed.

Lemma install_go_returns host :
  returns (install_go host build) (λ v, py_startswith v (py_strip (wanted_version build)) = true).
Proof.
  unfold install_go. apply returns_bind_any. intros current.
  destruct (is_pinned build current) eqn:Hp.
  { apply returns_ret. by apply andb_prop in Hp as [_ ?]. }
  apply returns_bind_any; intros p. apply returns_bind_any; intros _. apply returns_bind_any; intros check.
  destruct (cmd_ok check); cbn [negb].
  - do 6 (apply returns_bind_any; intros ?).
    match goal with |- returns (if negb ?b then _ else _) _ => destruct b eqn:Hv end; cbn [negb];
      [|apply returns_raise].
    apply returns_ret. by apply andb_prop in Hv as [_ ?].
  - apply returns_bind_any; intros _. apply returns_raise.
Qed.
End toolchain.

(** The archive of the toolchain is the pinned one or it is not used: when
    the fetch returns, it returns the cached path, the file was read with
    exactly the pinned SHA-256, and nothing was written to it after that; and
    a download that reads back with another digest is deleted and raises. *)
Theorem go_archive_verified {tmp : TempDir} build s t o s' :
  runs (_fetch_go_archive_to_host build) s t o s' → fetched build t o ∧ fails_closed build t o.
Proof. apply fetch_spec. Qed.

(** C38: the toolchain is unpacked on a guest only once verified on both sides:
    in every run the extraction comes after a read of the archive with the
    pinned SHA-256 on the automation host and after a [sha256sum -c] of the
    pinned digest that exited with status zero on the guest; and the version
    that [install_go] returns starts with the pinned one. *)
Theorem toolchain_pinned {tmp : TempDir} host build s t o s' :
  runs (install_go host build) s t o s' →
  let extract := privileged (extract_command (staged_archive build)) in
  preceded (verified build) extract t ∧
  preceded (plain_ok (checksum_command build (staged_archive build))) extract t ∧
  (∀ v, o = Ok v → py_startswith v (py_strip (wanted_version build)) = true).
Proof.
  intros H extract. split_and!.
  - exact (install_go_verified build host _ _ _ _ H).
  - exact (install_go_checked build host _ _ _ _ H).
  - intros v ->. exact (install_go_returns build host _ _ _ _ H).
Qed.

(** A world in which the pinned archive is the three bytes [abc]: the cache is
    filled by the download; the guest has no toolchain before the extraction. *)
Definition sample_build : BuildConfig :=
  MkBuildConfig "1.22.1" "ba7816bf8f01cfea414140de5dae2223b00361a396177a9cb410ff61f20015ad".
Definition sample_tmp : TempDir := Path "/tmp".

Definition go_world : handler bool := λ e cached,
  match e return resp e * bool with
  | IsFile _ => (cached, cached)
  | HttpStream _ _ => (Stream 200 "" (utf8_encode "abc") None, cached)
  | WriteBytes _ _ => (IoOk tt, true)
  | ReadBytes _ => (if cached then IoOk (utf8_encode "abc") else IoErr "absent", cached)
  | SshExec _ "go version 2>/dev/null" _ _ => (Executed 127 "" "", cached)
  | SshExec _ "go version" _ _ => (Executed 0 "go version go1.22.1 linux/amd64" "", cached)
  | e => (default_resp e, cached)
  end.

Lemma go_archive_verified_witness :
  ∃ t s', runs (_fetch_go_archive_to_host (tmp:=sample_tmp) sample_build) [] t
      (Ok (Path "/tmp/vmdeploy-cache/go1.22.1.linux-amd64.tar.gz")) s' ∧
    length t = 6 ∧
    fetched (tmp:=sample_tmp) sample_build t (Ok (Path "/tmp/vmdeploy-cache/go1.22.1.linux-amd64.tar.gz")).
Proof.
  destruct (run_in_runs go_world (_fetch_go_archive_to_host (tmp:=sample_tmp) sample_build) false)
    as [s' H].
  assert (outcome_in go_world (_fetch_go_archive_to_host (tmp:=sample_tmp) sample_build) false
    = Ok (Path "/tmp/vmdeploy-cache/go1.22.1.linux-amd64.tar.gz")) as Ho by by vm_compute.
  rewrite Ho in H. eexists _, s'. split; [exact H|]. split; [by vm_compute|].
  exact (proj1 (go_archive_verified _ _ _ _ _ H)).
Defined.

Lemma toolchain_pinned_witness :
  ∃ t s', runs (install_go (tmp:=sample_tmp) sample_remote sample_build) connected_store t
      (Ok "go version go1.22.1 linux/amd64") s' ∧
    py_startswith "go version go1.22.1 linux/amd64" (py_strip (wanted_version sample_build)) = true.
Proof.
  pose proof (interp_exec go_world
    (install_go (tmp:=sample_tmp) sample_remote sample_build connected_store) false) as H.
  set (run := interp go_world
    (install_go (tmp:=sample_tmp) sample_remote sample_build connected_store) false) in *.
  assert (run.1.1.1 = Ok "go version go1.22.1 linux/amd64") as Ho by by vm_compute.
  assert (runs (install_go (tmp:=sample_tmp) sample_remote sample_build) connected_store
    run.2 (Ok "go version go1.22.1 linux/amd64") run.1.1.2) as Hr.
  { unfold runs. rewrite <- Ho. by destruct (run.1.1). }
  eexists _, _. split; [exact Hr|].
  exact (proj2 (proj2 (toolchain_pinned _ _ _ _ _ _ Hr)) _ eq_refl).
Defined.

(** The test of the version drops the space that ends the pinned one, so a
    longer version that begins with it passes for it. *)
Lemma longer_version_accepted :
  is_pinned sample_build
    (MkCommandResult "go version 2>/dev/null" 0 "go version go1.22.10 linux/amd64" "") = true.
Proof. by vm_compute. Qed.

(** ** The rebuild decision *)

Lemma host_call_no_read t : Forall host_call t → contents_read t = [].
Proof.
  unfold contents_read. induction 1 as [|[e r] t He _ IH]; [done|].
  destruct e; try done; exact IH.
Qed.

Lemma sudo_no_read host cmd check timeout s t o s' :
  runs (sudo host cmd check timeout) s t o s' → contents_read t = [].
Proof. intros H. apply host_call_no_read. by destruct (sudo_emits host cmd check timeout _ _ _ _ H). Qed.

Lemma sudo_never_plain host cmd cmd' check timeout :
  String.prefix "sudo -" cmd' = false →
  emits (λ ev, ¬ plain cmd' ev) (λ _, True) (sudo host cmd check timeout).
Proof.
  intros Hp. eapply emits_weaken; [apply sudo_commands| |done].
  intros ev Hev (c & i & tm & He). by destruct (Hev _ _ _ _ He) as [->| ->].
Qed.

Lemma source_hash_quiet d : emits no_exec (λ _, True) (source_hash d).
Proof.
  unfold source_hash. apply emits_bind; [|intros ?; apply emits_ret].
  generalize _HASH_FILES as names. intros names.
  induction names as [|n names IH]; simpl; [apply emits_ret|].
  unfold is_file, read_bytes. apply emits_bind; [by quiet_auto|intros present].
  destruct present; cbn [negb]; [|by apply emits_raise].
  apply emits_bind; [by quiet_auto|intros c]. apply emits_bind; [exact IH|intros ?; apply emits_ret].
Qed.

Lemma source_hash_value d s t h s' :
  runs (source_hash d) s t (Ok h) s' → h = sha256_hex (stream_of _HASH_FILES (contents_read t)).
Proof.
  intros H. unfold source_hash in H.
  apply runs_bind in H as [(b & s3 & t3 & t4 & -> & H1 & H)|[(e & [=] & _)|[[=] _]]].
  run_inv1 H. rewrite app_nil_r. by apply hashed_stream_reads in H1 as [-> ?].
Qed.

(** The digest of the sources under [d], from the calls that read them. *)
Definition fingerprinted (d : path) (t : trace) (digest : string) : Prop :=
  Forall no_exec t ∧ paths_read t = path_div d <$> _HASH_FILES ∧
  digest = sha256_hex (stream_of _HASH_FILES (contents_read t)).

Lemma source_hash_fingerprints d s t h s' : runs (source_hash d) s t (Ok h) s' → fingerprinted d t h.
Proof.
  intros H. split_and!; [by destruct (source_hash_quiet _ _ _ _ _ H)| |by eapply source_hash_value].
  unfold source_hash in H.
  apply runs_bind in H as [(b & s3 & t3 & t4 & -> & H1 & H)|[(e & [=] & _)|[[=] _]]].
  run_inv1 H. rewrite app_nil_r. by eapply hashed_stream_paths.
Qed.

Section rebuild.
Context {tmp : TempDir} (host : RemoteHost) (dir : string).

Lemma missing_files_quiet d names : emits no_exec (λ _, True) (missing_files d names).
Proof.
  induction names as [|n names IH]; simpl; [apply emits_ret|]. unfold is_file.
  apply emits_bind; [by quiet_auto|intros present].
  apply emits_bind; [exact IH|intros ?; apply emits_ret].
Qed.

Lemma put_bytes_not_privileged payload remote mode cmd :
  (∀ staging, install_command mode staging remote ≠ cmd) →
  emits (λ ev, ¬ privileged cmd ev) (λ _, True) (put_bytes host payload remote mode).
Proof.
  intros Hne. unfold put_bytes. cbv zeta.
  apply emits_bind; [refine (emits_call _ _ _ _); intros ? [(? & ? & ? & [=])|(? & ? & ? & [=])]|].
  intros random. apply emits_bind.
  { eapply emits_weaken; [apply sftp_quiet|intros ev; apply no_exec_not_privileged|done]. }
  intros ch.
  apply emits_bind; [refine (emits_call _ _ _ _); intros ? [(? & ? & ? & [=])|(? & ? & ? & [=])]|].
  intros [?|?]; [|by apply emits_raise].
  apply emits_bind; [by apply sudo_not_privileged|intros _].
  apply emits_bind; [by apply host_run_not_privileged|intros _; apply emits_ret].
Qed.

Lemma build_service_guarded d :
  guarded (plain_ok build_command) (privileged (install_binary dir)) (build_service host d dir).
Proof.
  unfold build_service. apply guarded_bind; [apply quiet_guarded, missing_files_quiet|intros missing].
  destruct (bool_decide _); [apply guarded_raise|]. cbv zeta.
  apply guarded_bind; [apply quiet_guarded; unfold is_file; by quiet_auto|intros present].
  destruct present; cbn [negb]; [|apply guarded_raise].
  apply guarded_bind; [by apply guarded_never, host_run_not_privileged|intros _].
  apply guarded_bind.
  { apply guarded_for_each. intros n _. unfold read_bytes.
    apply guarded_bind; [apply quiet_guarded; by quiet_auto|intros b].
    by apply guarded_never, put_bytes_not_privileged. }
  intros _. unfold read_bytes. apply guarded_bind; [apply quiet_guarded; by quiet_auto|intros b].
  apply guarded_bind; [by apply guarded_never, put_bytes_not_privileged|intros _].
  apply guarded_bind; [by apply guarded_never, sudo_not_privileged|intros _].
  apply (guarded_bind_ensures _ _ _ _ cmd_ok).
  - by apply guarded_never, host_run_not_privileged.
  - intros s t r s' H Hr. eapply host_run_ensures; [exact H|by rewrite Hr].
  - intros r ->. apply guarded_raise.
Qed.

(** A build that returns has compiled and installed the binary and recorded
    the digest of the sources, as they were by then. *)
Definition rebuilt (d : path) (t : trace) : Prop :=
  ∃ ta td tc digest, t = ta ++ td ++ tc ∧
    Exists (plain_ok build_command) ta ∧ Exists (privileged_ok (install_binary dir)) ta ∧
    fingerprinted d td digest ∧ Exists (privileged_ok (record_hash digest dir)) tc.

Lemma rebuilt_after d t1 t2 : rebuilt d t2 → rebuilt d (t1 ++ t2).
Proof.
  intros (ta & td & tc & digest & -> & H1 & H2 & H3). exists (t1 ++ ta), td, tc, digest.
  rewrite !Exists_app, <- app_assoc. auto.
Qed.

Lemma build_service_builds d s t s' : runs (build_service host d dir) s t (Ok tt) s' → rebuilt d t.
Proof.
  intros H. unfold build_service in H.
  repeat match type of H with
  | runs (bind (host_run _ build_command _ _) _) _ _ _ _ => fail 1
  | runs (bind _ _) _ _ _ _ =>
      apply runs_bind in H as [(? & ? & ? & ? & -> & _ & H)|[(? & [=] & _)|[[=] _]]]; apply rebuilt_after
  | runs (if ?b then _ else _) _ _ _ _ => destruct b; [by run_inv1 H|]
  | _ => progress cbv zeta in H
  end.
  apply runs_bind in H as [(r & s1 & t1 & t2 & -> & H1 & H)|[(e & [=] & _)|[[=] _]]].
  destruct (cmd_ok r) eqn:Hr; cbn [negb] in H; [|by run_inv1 H].
  apply host_run_ensures in H1. specialize (H1 ltac:(by rewrite Hr)).
  apply runs_bind in H as [(y1 & s2 & t3 & t4 & -> & _ & H)|[(? & [=] & _)|[[=] _]]].
  apply runs_bind in H as [(r2 & s3 & t5 & t6 & -> & H2 & H)|[(? & [=] & _)|[[=] _]]].
  apply sudo_ensures in H2. specialize (H2 ltac:(by rewrite orb_true_r)).
  apply runs_bind in H as [(y2 & s4 & t7 & t8 & -> & _ & H)|[(? & [=] & _)|[[=] _]]].
  apply runs_bind in H as [(digest & s5 & td & t9 & -> & Hd & H)|[(? & [=] & _)|[[=] _]]].
  apply runs_bind in H as [(r3 & s6 & t10 & t11 & -> & H3 & H)|[(? & [=] & _)|[[=] _]]].
  apply sudo_ensures in H3. specialize (H3 ltac:(by rewrite orb_true_r)).
  exists (t1 ++ t3 ++ t5 ++ t7), td, (t10 ++ t11), digest. rewrite !Exists_app, <- !app_assoc.
  split_and!; [done|tauto..|by eapply source_hash_fingerprints|tauto].
Qed.

Lemma install_go_not_install build :
  emits (λ ev, ¬ privileged (install_binary dir) ev) (λ _, True) (install_go host build).
Proof.
  unfold install_go.
  repeat match goal with
  | |- emits _ _ (host_run _ _ _ _) => by apply host_run_not_privileged
  | |- emits _ _ (sudo _ _ _ _) => by apply sudo_not_privileged
  | |- emits _ _ (_fetch_go_archive_to_host _) =>
      eapply emits_weaken; [apply fetch_quiet|intros ev; apply no_exec_not_privileged|done]
  | |- emits _ _ (upload _ _ _) =>
      eapply emits_weaken; [apply upload_quiet|intros ev; apply no_exec_not_privileged|done]
  | |- emits _ _ (raise _) => by apply emits_raise
  | _ => emits_step
  end.
Qed.
(** What the decision is made on: the sources are fingerprinted, the digest
    recorded on the guest is read, and the binary is tested.  The binary is
    stale unless it can be executed and the digests agree. *)
Definition examined (d : path) (t : trace) (stale : bool) : Prop :=
  ∃ th tr tb digest recorded binary, t = th ++ tr ++ tb ∧
    fingerprinted d th digest ∧
    sudo_ran (read_hash_command dir) tr recorded ∧ sudo_ran (binary_test dir) tb binary ∧
    Forall (λ ev, ¬ plain build_command ev) (tr ++ tb) ∧
    (stale = false ↔ exit_status binary = 0%Z ∧ py_strip (stdout recorded) = digest).

(** The decision, and what follows it. *)
Lemma ensure_examined config d s t o s' :
  dir = remote_dir (inventory config) →
  runs (ensure_service_binary host config d) s t o s' →
  Forall (λ ev, ¬ plain build_command ev) t ∧ (∀ b, o ≠ Ok b) ∨
  ∃ t1 t2 stale s1, t = t1 ++ t2 ∧ examined d t1 stale ∧
    if stale : bool then
      runs (install_go host (build config) ;; build_service host d dir ;; ret true) s1 t2 o s'
    else t2 = [] ∧ o = Ok false.
Proof.
  intros Hdir H. unfold ensure_service_binary in H. cbv zeta in H. rewrite <- Hdir in H.
  assert (∀ cmd, String.prefix "sudo -" build_command = false ∧
    emits (λ ev, ¬ plain build_command ev) (λ _, True) (sudo host cmd false None)) as Hsudo.
  { intros cmd. split; [done|]. by apply sudo_never_plain. }
  assert (emits (λ ev, ¬ plain build_command ev) (λ _, True) (source_hash d)) as Hq.
  { eapply emits_weaken; [apply source_hash_quiet|intros ev; apply no_exec_not_plain|done]. }
  apply runs_bind in H as [(digest & s1 & th & t2 & -> & H1 & H)|H].
  2: { left. destruct H as [(e & -> & H)|[-> H]]; (split; [by destruct (Hq _ _ _ _ H)|done]). }
  pose proof (proj1 (Hq _ _ _ _ H1)) as Hth.
  apply runs_bind in H as [(inst & s2 & tr & t4 & -> & H3 & H)|H].
  2: { left. unfold installed_source_hash in H.
       assert (emits (λ ev, ¬ plain build_command ev) (λ _, True)
         (result <- sudo host (read_hash_command dir) false None ;; ret (py_strip (stdout result)))) as Hr.
       { apply emits_bind; [apply Hsudo|intros ?; apply emits_ret]. }
       destruct H as [(e & -> & H)|[-> H]]; (split; [apply Forall_app; split; [done|by destruct (Hr _ _ _ _ H)]|done]). }
  unfold installed_source_hash in H3.
  apply runs_bind in H3 as [(recorded & s3 & t5 & t6 & -> & H5 & H6)|[(e & [=] & _)|[[=] _]]].
  apply runs_ret in H6 as (-> & Hinst%Ok_inj & ->). rewrite app_nil_r.
  pose proof (proj1 (proj2 (Hsudo _) _ _ _ _ H5)) as Htr.
  apply runs_bind in H as [(binary & s4 & tb & t8 & -> & H7 & H)|H].
  2: { left. destruct H as [(e & -> & H)|[-> H]];
         (split; [rewrite !Forall_app; split_and!; [done..|by destruct (proj2 (Hsudo _) _ _ _ _ H)]|done]). }
  pose proof (proj1 (proj2 (Hsudo _) _ _ _ _ H7)) as Htb.
  right. exists (th ++ t5 ++ tb), t8, (negb (cmd_ok binary && String.eqb inst digest)), s4.
  rewrite <- !app_assoc. split; [done|]. split.
  - exists th, t5, tb, digest, recorded, binary.
    split_and!; [done|by eapply source_hash_fingerprints|exact (proj1 (sudo_returns _ _ _ _ _ _ _ _ H5))
      |exact (proj1 (sudo_returns _ _ _ _ _ _ _ _ H7))|by apply Forall_app|].
    subst inst. unfold cmd_ok. by rewrite negb_false_iff, andb_true_iff, Z.eqb_eq, String.eqb_eq.
  - destruct (_ && _); cbn [negb]; [|exact H]. by apply runs_ret in H as (-> & -> & ->).
Qed.
(** A run that returns has examined the binary and rebuilt a stale one. *)
Lemma ensure_current config d s t stale s' :
  dir = remote_dir (inventory config) →
  runs (ensure_service_binary host config d) s t (Ok stale) s' →
  ∃ t1 t2, t = t1 ++ t2 ∧ examined d t1 stale ∧ if stale then rebuilt d t2 else t2 = [].
Proof.
  intros Hdir H. destruct (ensure_examined config d _ _ _ _ Hdir H) as [[_ Hn]|(t1 & t2 & stale' & s1 & -> & Hex & H2)];
    [by destruct (Hn stale)|].
  destruct stale'.
  - apply runs_bind in H2 as [(v & s2 & t3 & t4 & -> & _ & H2)|[(e & [=] & _)|[[=] _]]].
    apply runs_bind in H2 as [([] & s3 & t5 & t6 & -> & Hb & H2)|[(e & [=] & _)|[[=] _]]].
    apply runs_ret in H2 as (-> & [= ->] & ->). exists t1, (t3 ++ t5 ++ []). split_and!; [done..|].
    rewrite app_nil_r. apply rebuilt_after. by eapply build_service_builds.
  - destruct H2 as [-> [= ->]]. by exists t1, [].
Qed.
End rebuild.

(** C39: the installed binary is rebuilt exactly when it is stale.  When
    [ensure_service_binary] returns, it has fingerprinted the local sources,
    read the digest recorded on the guest and tested the binary, and it
    reports a reuse exactly when the binary can be executed and the two
    digests agree.  A reuse does nothing more; a rebuild has compiled the
    sources and installed the binary, each with status zero, and then recorded
    the fingerprint of the sources.  In every run, nothing is compiled unless
    the binary was found stale, and no binary is installed before a
    compilation that succeeded. *)
Theorem rebuild_when_stale {tmp : TempDir} host config d s t o s' :
  let dir := remote_dir (inventory config) in
  runs (ensure_service_binary host config d) s t o s' →
  (∀ stale, o = Ok stale → ∃ t1 t2, t = t1 ++ t2 ∧ examined dir d t1 stale ∧
     if stale then rebuilt dir d t2 else t2 = []) ∧
  (Exists (plain build_command) t → ∃ t1 t2, t = t1 ++ t2 ∧ examined dir d t1 true) ∧
  preceded (plain_ok build_command) (privileged (install_binary dir)) t.
Proof.
  intros dir H. split_and!.
  - intros stale ->. by eapply ensure_current.
  - intros Hb.
    destruct (ensure_examined host dir config d _ _ _ _ eq_refl H) as [[Hq _]|(t1 & t2 & stale' & s1 & -> & Hex & H2)].
    { apply Exists_exists in Hb as (ev & Hev & Hp). rewrite Forall_forall in Hq. by destruct (Hq _ Hev). }
    exists t1, t2. split; [done|]. destruct stale'; [done|]. exfalso. destruct H2 as [-> _].
    rewrite app_nil_r in Hb. destruct Hex as (th & tr & tb & dg & r1 & r2 & -> & (Hth & _) & _ & _ & Hq & _).
    apply Exists_exists in Hb as (ev & Hev & Hp). apply elem_of_app in Hev as [Hev|Hev].
    + rewrite Forall_forall in Hth. by eapply no_exec_not_plain; [apply Hth|].
    + rewrite Forall_forall in Hq. by destruct (Hq _ Hev).
  - revert H. cut (guarded (plain_ok build_command) (privileged (install_binary dir))
      (ensure_service_binary host config d)); [by intros Hg H; eapply Hg|].
    unfold ensure_service_binary, installed_source_hash. cbv zeta. fold dir.
    apply guarded_bind; [apply quiet_guarded, source_hash_quiet|intros wanted].
    apply guarded_bind.
    { apply guarded_bind; [by apply guarded_never, sudo_not_privileged|intros r; apply guarded_ret]. }
    intros installed. apply guarded_bind; [by apply guarded_never, sudo_not_privileged|intros b].
    destruct (_ && _); [apply guarded_ret|].
    apply guarded_bind; [by apply guarded_never, install_go_not_install|intros v].
    apply guarded_bind; [apply build_service_guarded|intros _; apply guarded_ret].
Qed.

(** A guest with a current binary: the digest it records is that of the tree
    whose files all hold one letter. *)
Definition current_world : handler unit := λ e w,
  (match e return resp e with
   | IsFile _ => true
   | ReadBytes _ => IoOk [Byte.x41]
   | SshExec _ c _ _ =>
       Executed 0 (if String.eqb c (sudo_n (read_hash_command "/opt/inventory"))
                   then "b181a555f9af5317aee812a16d696c277d6b125e06547066ddf04fa9088532bd" +:+ nl else "") ""
   | e => default_resp e
   end, w).

Lemma rebuild_when_stale_witness :
  let m := ensure_service_binary (tmp:=sample_tmp) sample_remote sample_cluster (Path "goservice") in
  ∃ t s', runs m connected_store t (Ok false) s' ∧ examined "/opt/inventory" (Path "goservice") t false.
Proof.
  intros m. pose proof (interp_exec current_world (m connected_store) tt) as H.
  set (run := interp current_world (m connected_store) tt) in *.
  assert (runs m connected_store run.2 (Ok false) run.1.1.2) as Hr.
  { unfold runs. assert (run.1.1.1 = Ok false) as <- by by vm_compute. by destruct (run.1.1). }
  exists run.2, run.1.1.2. split; [exact Hr|].
  destruct (proj1 (rebuild_when_stale _ _ _ _ _ _ _ Hr) false eq_refl) as (t1 & t2 & Ht & Hex & Hn).
  rewrite Hn, app_nil_r in Ht. rewrite Ht. exact Hex.
Defined.

(** ** Records *)

Lemma fold_upsert_NoDup {X} (f : X → InventoryRecord) xs rs :
  NoDup (r_hostname <$> rs) → NoDup (r_hostname <$> fold_left (λ rs x, upsert rs (f x)) xs rs).
Proof. revert rs. induction xs as [|x xs IH]; intros rs Hn; simpl; [done|]. by apply IH, upsert_NoDup. Qed.

(** The last candidate for a host is the one found. *)
Lemma fold_upsert_lookup {X} (f : X → InventoryRecord) xs rs h :
  record_of h (fold_left (λ rs x, upsert rs (f x)) xs rs) =
  match record_of h (reverse (f <$> xs)) with Some r => Some r | None => record_of h rs end.
Proof.
  revert rs. induction xs as [|x xs IH]; intros rs; [done|]. cbn [fold_left].
  assert (record_of h (reverse (f <$> x :: xs)) =
    match record_of h (reverse (f <$> xs)) with
    | Some r => Some r | None => record_of h [f x] end) as ->.
  { rewrite fmap_cons, reverse_cons. apply find_app. }
  rewrite IH, upsert_lookup. destruct (record_of h (reverse (f <$> xs))); [done|].
  unfold record_of. simpl. by destruct (String.eqb (r_hostname (f x)) h).
Qed.

Lemma upsert_fresh rs c :
  r_hostname c ∉ r_hostname <$> rs → upsert rs c = rs ++ [c].
Proof.
  induction rs as [|r rs IH]; simpl; [done|]. rewrite not_elem_of_cons. intros [Hne Hni].
  destruct (String.eqb_spec (r_hostname r) (r_hostname c)) as [|_]; [congruence|]. by rewrite IH.
Qed.

(** Candidates with distinct host names are kept as they are. *)
Lemma fold_upsert_map {X} (f : X → InventoryRecord) xs rs :
  NoDup ((r_hostname <$> rs) ++ (r_hostname ∘ f <$> xs)) →
  fold_left (λ rs x, upsert rs (f x)) xs rs = rs ++ (f <$> xs).
Proof.
  revert rs. induction xs as [|x xs IH]; intros rs Hn; simpl; [by rewrite app_nil_r|].
  assert (r_hostname (f x) ∉ r_hostname <$> rs) as Hx.
  { apply NoDup_app in Hn as (_ & Hd & _). intros Hin. by destruct (Hd _ Hin); left. }
  rewrite upsert_fresh by done. rewrite IH; [by rewrite <- app_assoc|].
  rewrite fmap_app, <- app_assoc. exact Hn.
Qed.

Lemma upsert_Forall (P : InventoryRecord → Prop) rs c : Forall P rs → P c → Forall P (upsert rs c).
Proof.
  intros Hrs Hc. induction Hrs as [|r rs Hr Hrs IH]; simpl; [by repeat constructor|].
  destruct (String.eqb _ _); by constructor.
Qed.

(** With distinct host names, [build_records] makes one record per host of
    the cluster, the jump station first and in the order of the configuration,
    all stamped with one time; a host with an address is Deployed and Active
    under it, a host without one is Unreachable and Inactive, and is recorded
    all the same. *)
Theorem build_records_spec config addrs ipv6 s t rs s' :
  NoDup (hostname <$> all_hosts config) →
  runs (build_records config addrs ipv6) s t (Ok rs) s' →
  ∃ now, t = [Ev UtcNow now] ∧
    rs = host_record addrs (default [] ipv6) now <$> all_hosts config ∧
    Forall2 (λ r h, r_hostname r = hostname h ∧ r_role r = role_value (role h) ∧
      r_ipv4 r = address_of addrs (hostname h) ∧
      (r_status r, r_state r) =
        (if String.eqb (address_of addrs (hostname h)) "" then ("Unreachable", "Inactive")
         else ("Deployed", "Active")) ∧
      r_status_timestamp r = now ∧ r_state_timestamp r = now) rs (all_hosts config).
Proof.
  intros Hn H. unfold build_records in H.
  apply runs_bind in H as [(now & s1 & t1 & t2 & -> & H1 & H)|[(e & [=] & _)|[[=] _]]].
  apply runs_call in H1 as (r & -> & [= <-] & ->).
  apply runs_ret in H as (-> & Ho & ->). apply Ok_inj in Ho as ->.
  exists now. split; [done|]. revert Hn.
  generalize (all_hosts config) as hosts. intros hosts Hn.
  rewrite fold_upsert_map by exact Hn. split; [done|].
  change ([] ++ ?l) with l. apply Forall2_fmap_l, Forall_Forall2_diag, Forall_true. intros h.
  unfold host_record, compose. simpl.
  destruct (String.eqb (address_of addrs (hostname h)) ""); by split_and!.
Qed.

Definition time_of (t : trace) : option string :=
  match t with Ev UtcNow r :: _ => Some (r : string) | _ => None end.

Lemma build_records_spec_witness :
  ∃ rs, outcome_in quiet_world (build_records sample_cluster [("jump", "10.0.0.4")] None) tt = Ok rs ∧
    rs = host_record [("jump", "10.0.0.4")] [] "2024-01-01T00:00:00Z" <$> all_hosts sample_cluster.
Proof.
  eexists. split; [vm_compute; reflexivity|].
  destruct (run_in_runs quiet_world (build_records sample_cluster [("jump", "10.0.0.4")] None) tt)
    as [s' H].
  destruct (build_records_spec sample_cluster [("jump", "10.0.0.4")] None [] _ _ s'
    ltac:(by apply (bool_decide_unpack _); vm_compute) H) as (now & Ht & Hrs & _).
  apply (f_equal time_of) in Ht. vm_compute in Ht. injection Ht as <-. exact Hrs.
Defined.

(** ** The manifest *)

Lemma add_missing_spec ts seen hosts rs :
  add_missing ts seen hosts rs =
  fold_left (λ rs h, upsert rs (removed_host ts h))
    (List.filter (λ h, negb (bool_decide (hostname h ∈ seen))) hosts) rs.
Proof.
  unfold add_missing. revert rs. induction hosts as [|h hosts IH]; intros rs; simpl; [done|].
  by case_bool_decide; simpl.
Qed.

(** A record that says its host is gone, as of [ts]. *)
Definition is_removed (ts : string) (r : InventoryRecord) : Prop :=
  r_status r = "Removed" ∧ r_state r = "Inactive" ∧ r_status_timestamp r = ts ∧
  r_state_timestamp r = ts.

Lemma fold_upsert_Forall {X} (P : InventoryRecord → Prop) (f : X → InventoryRecord) xs rs :
  Forall P rs → (∀ x, P (f x)) → Forall P (fold_left (λ rs x, upsert rs (f x)) xs rs).
Proof.
  intros Hrs Hf. revert rs Hrs. induction xs as [|x xs IH]; intros rs Hrs; simpl; [done|].
  by apply IH, upsert_Forall.
Qed.

Lemma mark_removed_all ts records hosts : Forall (is_removed ts) (mark_removed ts records hosts).
Proof.
  unfold mark_removed, flip_records. rewrite add_missing_spec.
  apply fold_upsert_Forall; [|done]. by apply fold_upsert_Forall.
Qed.

Lemma mark_removed_NoDup ts records hosts : NoDup (r_hostname <$> mark_removed ts records hosts).
Proof.
  unfold mark_removed, flip_records. rewrite add_missing_spec.
  apply fold_upsert_NoDup, fold_upsert_NoDup, NoDup_nil_2.
Qed.

(** A host of the manifest keeps its last record's role and addresses. *)
Lemma mark_removed_known ts records hosts h r :
  record_of h (reverse records) = Some r →
  record_of h (mark_removed ts records hosts) = Some (removed ts r).
Proof.
  intros Hr. unfold mark_removed, flip_records.
  assert (h ∈ r_hostname <$> records) as Hin.
  { apply find_Some_elem in Hr as [Hr <-%String.eqb_eq]. apply list_elem_of_fmap.
    exists r. split; [done|]. by apply elem_of_reverse. }
  rewrite add_missing_spec, fold_upsert_lookup.
  assert (record_of h (reverse (removed_host ts <$>
    List.filter (λ x, negb (bool_decide (hostname x ∈ r_hostname <$> records))) hosts)) = None) as ->.
  { apply find_None_Forall, Forall_reverse, Forall_fmap, Forall_forall.
    intros x Hx. change (String.eqb (hostname x) h = false).
    apply list_elem_of_In, filter_In in Hx as [_ Hx].
    apply negb_true_iff, bool_decide_eq_false in Hx.
    destruct (String.eqb_spec (hostname x) h) as [<-|]; done. }
  rewrite fold_upsert_lookup. unfold record_of in *.
  assert (∀ l, List.find (λ r, String.eqb (r_hostname r) h) (removed ts <$> l) =
    removed ts <$> List.find (λ r, String.eqb (r_hostname r) h) l) as Hmap.
  { intros l. induction l as [|x l IH]; [done|]. simpl. by destruct (String.eqb (r_hostname x) h). }
  by rewrite <- fmap_reverse, Hmap, Hr.
Qed.

Lemma mark_removed_complete ts records hosts h :
  h ∈ hosts → hostname h ∈ r_hostname <$> mark_removed ts records hosts.
Proof.
  intros Hh. unfold mark_removed. rewrite add_missing_spec.
  assert (∀ X (f : X → InventoryRecord) xs rs n,
    n ∈ r_hostname <$> rs ∨ n ∈ r_hostname ∘ f <$> xs →
    n ∈ r_hostname <$> fold_left (λ rs x, upsert rs (f x)) xs rs) as Hfold.
  { intros X f xs. induction xs as [|x xs IH]; intros rs n Hn; simpl.
    - destruct Hn as [?|Hn]; [done|by apply elem_of_nil in Hn].
    - apply IH. rewrite upsert_hostnames. destruct Hn as [Hn|Hn].
      + left. case_bool_decide; [done|]. apply elem_of_app. by left.
      + rewrite fmap_cons, elem_of_cons in Hn. destruct Hn as [->|Hn]; [|by right].
        left. case_bool_decide; [done|]. apply elem_of_app. right. by left. }
  apply Hfold. destruct (decide (hostname h ∈ r_hostname <$> records)) as [Hin|Hin].
  - left. unfold flip_records. apply Hfold. right. rewrite list_elem_of_fmap in Hin |- *.
    destruct Hin as (r & -> & Hr). by exists r.
  - right. apply list_elem_of_fmap. exists h. split; [done|].
    apply list_elem_of_In, filter_In. split; [by apply list_elem_of_In|].
    by apply negb_true_iff, bool_decide_eq_false.
Qed.

(** What a manifest that was written holds. *)
Definition manifest_written {aead : AEAD} (config : ClusterConfig) (records : list InventoryRecord)
    (t : trace) : Prop :=
  ∃ key blob, Ev (WriteBytes (manifest_file (inventory config)) blob) (IoOk tt) ∈ t ∧
    length key = KEY_BYTES ∧ decrypt_records blob key = inr records ∧
    ∃ s tk s', runs (load_or_create_key (key_file (inventory config))) s tk (Ok key) s' ∧ tk ⊆+ t.

Lemma write_local_manifest_written {aead : AEAD} {laws : AEADLaws aead} config records s t s' :
  runs (write_local_manifest config records) s t (Ok tt) s' → Forall urandom_ok t →
  manifest_written config records t.
Proof.
  intros H Ht. unfold write_local_manifest in H.
  apply runs_bind in H as [(key & s1 & tk & t2 & -> & Hk & H)|[(e & [=] & _)|[[=] _]]].
  apply runs_bind in H as [(blob & s2 & te & t4 & -> & He & H)|[(e & [=] & _)|[[=] _]]].
  cbv zeta in H. apply Forall_app in Ht as [_ [Hte _]%Forall_app].
  apply runs_catch in H as [(e & m' & s3 & t5 & t6 & -> & _ & Hh & H)|[H _]].
  { destruct (isinstance e COSError); [|done]. injection Hh as <-. run_inv1 H. }
  apply runs_bind in H as [(r & s4 & t5 & t6 & -> & _ & H)|[(e & [=] & _)|[[=] _]]].
  apply runs_bind in H as [(u & s5 & t7 & t8 & -> & _ & H)|[(e & [=] & _)|[[=] _]]].
  apply runs_bind in H as [(w & s6 & t9 & t10 & -> & Hw & H)|[(e & [=] & _)|[[=] _]]].
  apply runs_call in Hw as (r' & -> & [= <-] & ->).
  destruct w as [[]|m]; cbn [lift_io] in H; [|run_inv1 H].
  exists key, blob. split_and!.
  - rewrite !elem_of_app. do 4 right. left. by left.
  - pose proof He as He'. unfold encrypt_records in He'.
    destruct (Nat.eqb_spec (length key) KEY_BYTES) as [?|_]; [done|]. cbn [negb] in He'. run_inv1 He'.
  - by eapply encrypt_opens.
  - eexists _, tk, _. split; [exact Hk|]. by apply submseteq_inserts_r.
Qed.

(** The records of the manifest a run finds: none if there is no manifest, and
    otherwise those its payload decrypts to under the key of the key file. *)
Definition manifest_read {aead : AEAD} (config : ClusterConfig) (t : trace)
    (records : list InventoryRecord) : Prop :=
  let manifest := manifest_file (inventory config) in
  ∃ present rest, t = Ev (IsFile manifest) present :: rest ∧
    if present : bool then
      ∃ raw text key blob rest', rest = Ev (ReadBytes (key_file (inventory config))) (IoOk raw)
          :: Ev (ReadBytes manifest) (IoOk blob) :: rest' ∧
        ascii_decode raw = Some text ∧ b64decode (py_strip text) = Some key ∧ length key = KEY_BYTES ∧
        decrypt_records blob key = inr records
    else records = [].

Lemma read_local_manifest_reads {aead : AEAD} config s t records s' rest :
  runs (read_local_manifest config) s t (Ok records) s' → manifest_read config (t ++ rest) records.
Proof.
  intros H. unfold read_local_manifest, is_file in H. cbv zeta in H.
  apply runs_bind in H as [(present & s1 & t1 & t2 & -> & H1 & H)|[(e & [=] & _)|[[=] _]]].
  apply (runs_call (IsFile _)) in H1 as (r & -> & [= <-] & ->). exists present, (t2 ++ rest). split; [done|].
  destruct present; cbn [negb] in H; [|by apply runs_ret in H as (_ & [= ->] & _)].
  apply runs_bind in H as [(key & s2 & t3 & t4 & -> & H3 & H)|[(e & [=] & _)|[[=] _]]].
  apply runs_bind in H as [(b & s3 & t5 & t6 & -> & H5 & H)|[(e & [=] & _)|[[=] _]]].
  apply runs_call in H5 as (r & -> & [= <-] & ->). destruct b as [blob|exc]; [|run_inv1 H].
  destruct (decrypt_records blob key) as [e|rs] eqn:Hd; cbn [lift_res] in H; [run_inv1 H|].
  apply runs_ret in H as (-> & [= ->] & ->).
  unfold load_key in H3.
  apply runs_bind in H3 as [(raw & s4 & t7 & t8 & -> & H7 & H)|[(e & [=] & _)|[[=] _]]].
  apply runs_call in H7 as (r & -> & [= <-] & ->). destruct raw as [raw|exc]; [|run_inv1 H].
  destruct (ascii_decode raw) as [text|] eqn:Ht; [|run_inv1 H].
  destruct (b64decode (py_strip text)) as [k|] eqn:Hb; [|run_inv1 H].
  destruct (Nat.eqb_spec (length k) KEY_BYTES) as [Hk|]; [|run_inv1 H].
  apply runs_ret in H as (-> & Hkey%Ok_inj & _). subst k.
  exists raw, text, key, blob, rest. split; [by rewrite <- !app_assoc|done].
Qed.

Lemma find_distinct {X} (f : X → string) (l : list X) x :
  NoDup (f <$> l) → x ∈ l → List.find (λ y, String.eqb (f y) (f x)) l = Some x.
Proof.
  induction l as [|y l IH]; [by intros _ ?%elem_of_nil|].
  rewrite fmap_cons, NoDup_cons, elem_of_cons. intros [Hy Hn] [->|Hx]; simpl; [by rewrite String.eqb_refl|].
  destruct (String.eqb_spec (f y) (f x)) as [He|_]; [|by apply IH].
  destruct Hy. rewrite He. by apply list_elem_of_fmap_2.
Qed.

(** A host the manifest did not know gets a record of its own. *)
Lemma mark_removed_unknown ts records hosts h :
  NoDup (hostname <$> hosts) → h ∈ hosts → hostname h ∉ r_hostname <$> records →
  record_of (hostname h) (mark_removed ts records hosts) = Some (removed_host ts h).
Proof.
  intros Hn Hh Hnew. unfold mark_removed. rewrite add_missing_spec, fold_upsert_lookup.
  set (new := List.filter _ hosts).
  assert (h ∈ new) as Hin.
  { apply list_elem_of_In, filter_In. split; [by apply list_elem_of_In|].
    by apply negb_true_iff, bool_decide_eq_false. }
  assert (NoDup (r_hostname <$> reverse (removed_host ts <$> new))) as Hnd.
  { rewrite reverse_Permutation, <- list_fmap_compose. unfold new. clear -Hn.
    induction hosts as [|x hosts IH]; simpl; [constructor|]. apply NoDup_cons in Hn as [Hx Hn].
    destruct (negb _); [|by apply IH]. rewrite fmap_cons. apply NoDup_cons. split; [|by apply IH].
    intros (y & Hy & [Hin _]%list_elem_of_In%filter_In)%list_elem_of_fmap. apply Hx.
    simpl in Hy. rewrite Hy. by apply list_elem_of_fmap_2, list_elem_of_In. }
  unfold record_of at 1. change (hostname h) with (r_hostname (removed_host ts h)).
  rewrite (find_distinct r_hostname); [done|exact Hnd|]. by apply elem_of_reverse, list_elem_of_fmap_2.
Qed.

(** No other host is recorded. *)
Lemma fold_upsert_names {X} (f : X → InventoryRecord) xs rs n :
  n ∈ r_hostname <$> fold_left (λ rs x, upsert rs (f x)) xs rs →
  n ∈ r_hostname <$> rs ∨ n ∈ r_hostname ∘ f <$> xs.
Proof.
  revert rs. induction xs as [|x xs IH]; intros rs Hn; simpl in Hn; [by left|].
  rewrite fmap_cons, elem_of_cons. apply IH in Hn as [Hn|Hn]; [|tauto].
  rewrite upsert_hostnames in Hn. case_bool_decide; [by left|].
  apply elem_of_app in Hn as [Hn|Hn%list_elem_of_singleton]; [by left|by right; left].
Qed.

Lemma mark_removed_names ts records hosts n :
  n ∈ r_hostname <$> mark_removed ts records hosts → n ∈ r_hostname <$> records ∨ n ∈ hostname <$> hosts.
Proof.
  unfold mark_removed, flip_records. rewrite add_missing_spec. intros [Hn|Hn]%fold_upsert_names.
  - apply fold_upsert_names in Hn as [Hn|Hn]; [by apply elem_of_nil in Hn|by left].
  - right. apply list_elem_of_fmap in Hn as (h & -> & Hh). apply list_elem_of_fmap. exists h. split; [done|].
    by apply list_elem_of_In, filter_In, proj1, list_elem_of_In in Hh.
Qed.

(** C40: after a teardown the manifest records every host as gone.  When
    [mark_manifest_removed] returns, it had found the manifest missing, or
    decrypted under the key of the key file; the records it returns all say
    Removed and Inactive as of the time at its start; their host names are
    distinct, and are those the manifest knew and those of the configuration;
    a host the manifest knew keeps the role and addresses of its last record,
    and a host of the configuration that it did not know has its role and no
    address.  What was written to the manifest decrypts, under the key of the
    key file, to those very records. *)
Theorem manifest_marks_removed {aead : AEAD} {laws : AEADLaws aead} config s t updated s' :
  runs (mark_manifest_removed config) s t (Ok updated) s' → Forall urandom_ok t →
  ∃ ts t1 records, t = Ev UtcNow ts :: t1 ∧ manifest_read config t1 records ∧
    Forall (is_removed ts) updated ∧
    NoDup (r_hostname <$> updated) ∧
    (∀ n, n ∈ r_hostname <$> updated ↔
       n ∈ r_hostname <$> records ∨ n ∈ hostname <$> all_hosts config) ∧
    (∀ h r, record_of h (reverse records) = Some r →
       record_of h updated = Some (MkRecord (r_hostname r) (r_role r) (r_ipv4 r) (r_ipv6 r)
         "Removed" ts "Inactive" ts)) ∧
    (NoDup (hostname <$> all_hosts config) →
       ∀ h, h ∈ all_hosts config → hostname h ∉ r_hostname <$> records →
         record_of (hostname h) updated =
           Some (MkRecord (hostname h) (role_value (role h)) "" "" "Removed" ts "Inactive" ts)) ∧
    manifest_written config updated t.
Proof.
  intros H Ht. unfold mark_manifest_removed in H.
  apply runs_bind in H as [(ts & s1 & t1 & t2 & -> & H1 & H)|[(e & [=] & _)|[[=] _]]].
  apply runs_call in H1 as (r & -> & [= <-] & ->).
  apply runs_bind in H as [(records & s2 & t3 & t4 & -> & Hread & H)|[(e & [=] & _)|[[=] _]]].
  cbv zeta in H.
  apply runs_bind in H as [([] & s3 & t5 & t6 & -> & Hw & H)|[(e & [=] & _)|[[=] _]]].
  apply runs_ret in H as (-> & Ho%Ok_inj & ->). subst updated. rewrite app_nil_r in Ht |- *.
  apply Forall_app in Ht as [_ [_ Ht]%Forall_app].
  exists ts, (t3 ++ t5), records.
  split_and!; [done|by eapply read_local_manifest_reads|apply mark_removed_all|apply mark_removed_NoDup| | | |].
  - intros n. split; [apply mark_removed_names|].
    intros [(r & -> & Hr)%list_elem_of_fmap|(h & -> & Hh)%list_elem_of_fmap]; [|by apply mark_removed_complete].
    destruct (record_of (r_hostname r) (reverse records)) as [r'|] eqn:Hf.
    + pose proof (mark_removed_known ts _ (all_hosts config) _ _ Hf) as Hk.
      apply find_Some_elem in Hf as [_ Hn%String.eqb_eq]. apply find_Some_elem in Hk as [Hk _].
      rewrite <- Hn. by apply (list_elem_of_fmap_2 r_hostname) in Hk.
    + apply find_None_Forall in Hf. rewrite Forall_forall in Hf.
      specialize (Hf r ltac:(by apply elem_of_reverse)). simpl in Hf. by rewrite String.eqb_refl in Hf.
  - intros h r. apply mark_removed_known.
  - intros Hn h. by apply mark_removed_unknown.
  - destruct (write_local_manifest_written _ _ _ _ _ Hw Ht)
      as (key & blob & Hb & Hk & Hd & sk & tk & sk' & Hrun & Hsub).
    exists key, blob. split_and!; [rewrite !elem_of_app; auto|done..|].
    exists sk, tk, sk'. split; [done|]. by do 2 apply submseteq_inserts_l.
Qed.

(** A host with the key file and a manifest that knows one other machine. *)
Definition known_record : InventoryRecord :=
  MkRecord "old" "backend" "10.0.0.9" "fd00::9" "Deployed" "2023-01-01T00:00:00Z" "Active" "2023-01-01T00:00:00Z".
Definition known_blob : bytes :=
  match outcome_in quiet_world (encrypt_records (aead := toy_aead) [known_record] sample_key) tt with
  | Ok b => b | _ => [] end.
Definition manifest_world : handler unit := λ e w,
  (match e return resp e with
   | IsFile _ => true
   | ReadBytes p => IoOk (if bool_decide (p = key_file (inventory sample_cluster))
                          then latin1 (b64encode sample_key) else known_blob)
   | e => default_resp e
   end, w).

Lemma manifest_marks_removed_witness :
  let m := mark_manifest_removed (aead := toy_aead) sample_cluster in
  ∃ t updated s', runs m [] t (Ok updated) s' ∧ length updated = 4 ∧
    record_of "old" updated = Some (MkRecord "old" "backend" "10.0.0.9" "fd00::9"
      "Removed" "2024-01-01T00:00:00Z" "Inactive" "2024-01-01T00:00:00Z") ∧
    ∃ ts t1 records, t = Ev UtcNow ts :: t1 ∧ manifest_read (aead := toy_aead) sample_cluster t1 records ∧
      manifest_written (aead := toy_aead) sample_cluster updated t.
Proof.
  intros m. destruct (run_in_runs manifest_world m tt) as [s' H].
  set (t := trace_in _ _ _) in H.
  set (updated := mark_removed "2024-01-01T00:00:00Z" [known_record] (all_hosts sample_cluster)).
  assert (runs m [] t (Ok updated) s') as Hr.
  { assert (outcome_in manifest_world m tt = Ok updated) as <- by (by vm_compute). exact H. }
  assert (Forall urandom_ok t) as Ht.
  { vm_compute. repeat constructor. }
  exists t, updated, s'. split; [exact Hr|]. split; [by vm_compute|]. split; [by vm_compute|].
  destruct (manifest_marks_removed (laws := toy_laws) _ _ _ _ _ Hr Ht)
    as (ts & t1 & records & Ht1 & Hread & _ & _ & _ & _ & _ & Hm).
  exact (ex_intro _ ts (ex_intro _ t1 (ex_intro _ records (conj Ht1 (conj Hread Hm))))).
Defined.
