(* ===== verification/Setup.v ===== *)
(** * First-run setup (setup.py)

    Key material, the hardening of the template, the sanitising of the image
    and the arming of cloud-init, the local overlay, and the two setup paths.
    The generation of an Ed25519 key and its two encodings are the call
    [GenerateEd25519] of the effects. *)

From S2P Require Import Prelude PyStr Exceptions Paths Effects Reasoning Values Bytes Json.
From S2P Require Import Inventory Config VirtualBox SshClient SshFacts Website Apache.

#[export] Set Default Goal Selector "!".

Definition DEFAULT_ADMIN_USER : string := "vmadmin".

(** The module's own copy of the quoting function. *)
Definition _shell_quote (value : string) : string := "'" +:+ py_replace "'" "'\''" value +:+ "'".

(** ** Text files *)

(** The translation of line ends of a file read as text. *)
Fixpoint universal_newlines (s : string) : string :=
  match s with
  | "" => ""
  | String "013" (String "010" s) => String "010" (universal_newlines s)
  | String c s => String (if Ascii.eqb c "013" then "010"%char else c) (universal_newlines s)
  end.

Definition ascii_codec : string := "'ascii' codec error".
Definition utf8_codec : string := "'utf-8' codec can't decode".

(** [text.encode("ascii")]. *)
Definition encode_ascii (text : string) : M bytes :=
  match ascii_encode text with Some b => ret b | None => raise (UnicodeError ascii_codec) end.

(** [p.read_text(encoding="ascii")]. *)
Definition read_text_ascii (p : path) : M string :=
  r <- call (ReadBytes p) ;; b <- lift_io r ;;
  match ascii_decode b with
  | Some text => ret (universal_newlines text)
  | None => raise (UnicodeError ascii_codec)
  end.

(** [p.write_text(text, encoding="ascii")]: the file is emptied before a text
    that does not encode is refused. *)
Definition write_text_ascii (p : path) (text : string) : M unit :=
  match ascii_encode text with
  | Some b => r <- call (WriteBytes p b) ;; lift_io r
  | None => r <- call (WriteBytes p []) ;; lift_io r ;; raise (UnicodeError ascii_codec)
  end.

(** [private_path.with_suffix(private_path.suffix + ".pub")]. *)
Definition public_key_path (private_path : path) : M path :=
  match with_suffix private_path (path_suffix private_path +:+ ".pub") with
  | Some p => ret p
  | None => raise (ValueError (py_repr (str_path private_path) +:+ " has an empty name"))
  end.

Definition is_file (p : path) : M bool := call (IsFile p).

(** [p.chmod(mode)], any [OSError] of which is only logged. *)
Definition try_chmod (p : path) (mode : N) : M unit :=
  catch (r <- call (Chmod p mode) ;; lift_io r)
    (λ e, if isinstance e COSError then Some (ret tt) else None).

Definition generate_ssh_keypair (private_path : path) (comment : string) : M string :=
  public_path <- public_key_path private_path ;;
  has_private <- is_file private_path ;;
  has_both <- (if has_private : bool then is_file public_path else ret false) ;;
  if has_both : bool then
    text <- read_text_ascii public_path ;; ret (py_strip text)
  else
    let* (private_bytes, public_text) := call GenerateEd25519 in
    let public_line := public_text +:+ " " +:+ comment in
    rewrap (r <- call (Mkdir (parent private_path)) ;; lift_io r ;;
            r <- call (WriteBytes private_path private_bytes) ;; lift_io r ;;
            write_text_ascii public_path (public_line +:+ nl))
      COSError (λ exc, VmDeployError
        ("Cannot write generated keypair to " +:+ str_path private_path +:+ ": " +:+ str_exn exc)) ;;
    for_each [private_path; public_path] (λ p, try_chmod p mode_600) ;;
    ret public_line.

(** ** Accounts *)

Definition authorized_keys (username : string) : string :=
  "/home/" +:+ username +:+ "/.ssh/authorized_keys".
Definition sudoers_file (username : string) : string := "/etc/sudoers.d/90-" +:+ username.
Definition sudoers_rule (username : string) : string :=
  username +:+ " ALL=(ALL) NOPASSWD:ALL" +:+ nl.
Definition ssh_dir_command (username : string) : string :=
  "install -d -m 700 -o " +:+ username +:+ " -g " +:+ username +:+ " /home/" +:+ username +:+ "/.ssh".

Definition visudo (username : string) : string := "visudo -cf " +:+ sudoers_file username.

(** The authorised key and the sudo rule both account operations install. *)
Definition install_key (host : RemoteHost) (username key : string) : M unit :=
  sudo host (ssh_dir_command username) true None ;;
  payload <- encode_ascii (key +:+ nl) ;;
  put_bytes host payload (authorized_keys username) mode_600 ;;
  sudo host ("chown " +:+ username +:+ ":" +:+ username +:+ " " +:+ authorized_keys username) true None ;;
  sudo host ("chmod 600 " +:+ authorized_keys username) true None ;;
  rule <- encode_ascii (sudoers_rule username) ;;
  put_bytes host rule (sudoers_file username) mode_440.

Definition create_admin_user (host : RemoteHost) (username public_key : string) : M unit :=
  present <- host_run host ("id -u " +:+ username) false None ;;
  when (negb (cmd_ok present))
    (sudo host ("useradd --create-home --shell /bin/bash " +:+ username) true None ;; ret tt) ;;
  sudo host ("usermod -aG sudo " +:+ username) true None ;;
  install_key host username public_key ;;
  check <- sudo host (visudo username) false None ;;
  if negb (cmd_ok check) then
    sudo host ("rm -f " +:+ sudoers_file username) false None ;;
    raise (VmDeployError
      ("Generated sudoers file for " +:+ username +:+ " failed validation: "
       +:+ str_or (py_strip (stderr check)) (py_strip (stdout check))))
  else ret tt.

Definition verify_command : string := "id -u".

Definition verify_admin_access (addr : string) (ssh_config : SSHConfig) : M bool :=
  catch (with_host addr ssh_config (λ host,
           result <- sudo host verify_command false None ;;
           ret (cmd_ok result && String.eqb (py_strip (stdout result)) "0")))
    (λ exc, if isinstance exc CSSHConnectionError || isinstance exc CVmDeployError
            then Some (ret false) else None).

(** The commands that take an account's access away. *)
Definition disable_commands (username : string) : list string :=
  ["usermod -L " +:+ username;
   "usermod -s /usr/sbin/nologin " +:+ username;
   "gpasswd -d " +:+ username +:+ " sudo";
   "rm -f /etc/sudoers.d/90-" +:+ username;
   "rm -f /home/" +:+ username +:+ "/.ssh/authorized_keys"].

Definition disable_bootstrap_account (host : RemoteHost) (username : string) : M unit :=
  for_each (disable_commands username) (λ c, sudo host c false None ;; ret tt).

Definition enable_account (host : RemoteHost) (username public_key : string) : M unit :=
  present <- host_run host ("id -u " +:+ username) false None ;;
  if negb (cmd_ok present) then
    raise (VmDeployError ("Account '" +:+ username +:+ "' does not exist on " +:+ address host))
  else
    sudo host ("usermod -U " +:+ username) false None ;;
    sudo host ("usermod -s /bin/bash " +:+ username) true None ;;
    sudo host ("usermod -aG sudo " +:+ username) true None ;;
    install_key host username (py_strip public_key) ;;
    check <- sudo host (visudo username) false None ;;
    if negb (cmd_ok check) then
      sudo host ("rm -f " +:+ sudoers_file username) false None ;;
      raise (VmDeployError ("Restored sudoers for " +:+ username +:+ " failed validation"))
    else ret tt.

(** ** The local overlay *)

(** [render] of [_emit_toml]. *)
Definition render_scalar (v : value) : string :=
  match v with
  | VBool b => if b then "true" else "false"
  | VInt n => str_of_Z n
  | v => dq +:+ str_value v +:+ dq
  end.

Definition is_table (v : value) : bool := match v with VDict _ => true | _ => false end.

Definition scalar_lines (d : dict) : list string :=
  map (λ kv, kv.1 +:+ " = " +:+ render_scalar kv.2) d.

Definition table_lines (kv : string * value) : list string :=
  match kv.2 with
  | VDict values => ["[" +:+ kv.1 +:+ "]"] ++ scalar_lines values ++ [""]
  | _ => []
  end.

Definition _emit_toml (data : dict) : string :=
  let scalars := List.filter (λ kv, negb (is_table kv.2)) data in
  let tables := List.filter (λ kv, is_table kv.2) data in
  py_strip (py_join nl (scalar_lines scalars ++ concat (map table_lines tables))) +:+ nl.

Definition overlay_header : string :=
  "# Local, machine-specific overrides. GITIGNORED, never committed." +:+ nl
  +:+ "# [ssh] was written by `vmdeploy setup`; other sections are preserved." +:+ nl +:+ nl.

(** [dict(v)]: a table, or an empty sequence.  Of the sequences of pairs that
    [dict] would take too, none passes [load_cluster_config], which runs first. *)
Definition dict_of (v : value) : res dict :=
  match v with
  | VDict table => inr table
  | VStr "" | VList [] => inr []
  | _ => inl (ValueError "cannot convert the ssh entry to a dictionary")
  end.

(** [existing] with the [ssh] table pointing at the new identity. *)
Definition update_ssh (existing : dict) (username : string) (key : path) : res dict :=
  match dict_of (default (VDict []) (dict_get "ssh" existing)) with
  | inl e => inl e
  | inr table => inr (dict_set "ssh"
      (VDict (dict_set "key_path" (VStr (str_path key)) (dict_set "user" (VStr username) table))) existing)
  end.

Section overlay.
Context {parser : TomlParser}.

Definition read_overlay (overlay : path) : M dict :=
  r <- call (ReadBytes overlay) ;;
  match r with
  | IoErr exc => raise (VmDeployError
      ("Cannot read existing overlay " +:+ str_path overlay +:+ ": " +:+ exc))
  | IoOk raw =>
      match utf8_decode raw with
      | None => raise (UnicodeError utf8_codec)
      | Some text =>
          match tomllib_loads (universal_newlines text) with
          | inl exc => raise (VmDeployError
              ("Cannot read existing overlay " +:+ str_path overlay +:+ ": " +:+ exc))
          | inr d => ret d
          end
      end
  end.

Definition write_local_overlay (base_config_path : path) (username : string) (key : path) : M path :=
  overlay <- local_overlay_path base_config_path ;;
  present <- is_file overlay ;;
  existing <- (if present : bool then read_overlay overlay else ret []) ;;
  updated <- lift_res (update_ssh existing username key) ;;
  r <- call (WriteBytes overlay (utf8_encode (overlay_header +:+ _emit_toml updated))) ;;
  match r with
  | IoErr exc => raise (VmDeployError
      ("Cannot write local overlay " +:+ str_path overlay +:+ ": " +:+ exc))
  | IoOk _ => ret overlay
  end.
End overlay.

(** ** Sanitising the image *)

Definition _BUILD_TOOLING_PACKAGES : list string :=
  ["git"; "gh"; "docker.io"; "docker-ce"; "docker-ce-cli"; "containerd"; "containerd.io"; "runc"].

Definition _CREDENTIAL_GLOBS : list string :=
  [".docker"; ".git-credentials"; ".gitconfig"; ".config/gh"; ".config/git"; ".netrc"; ".aws";
   ".bash_history"; ".ssh/id_*"; ".ssh/known_hosts"; ".ssh/authorized_keys"].

Definition purge_script : string :=
  "for home in /root /home/*; do [ -d " +:+ quoted "$home" +:+ " ] || continue; rm -rf "
  +:+ py_join " " (map (λ pattern, quoted "$home" +:+ "/" +:+ pattern) _CREDENTIAL_GLOBS)
  +:+ "; done".

Definition lock_script (operational_user : string) : string :=
  "getent passwd | awk -F: '$3>=1000 && $3<60000 {print $1}' | while read -r account; do "
  +:+ "  [ " +:+ quoted "$account" +:+ " = " +:+ quoted operational_user +:+ " ] && continue; "
  +:+ "  usermod -L " +:+ quoted "$account" +:+ " 2>/dev/null || true; "
  +:+ "  usermod -s /usr/sbin/nologin " +:+ quoted "$account" +:+ " 2>/dev/null || true; "
  +:+ "  gpasswd -d " +:+ quoted "$account" +:+ " sudo 2>/dev/null || true; "
  +:+ "  rm -f " +:+ quoted "/etc/sudoers.d/90-$account" +:+ "; "
  +:+ "  rm -f " +:+ quoted "/home/$account/.ssh/authorized_keys" +:+ "; done".

Definition survivors_command : string := "find /root /home -name authorized_keys 2>/dev/null || true".

Definition _verify_no_authorized_keys (host : RemoteHost) : M unit :=
  result <- sudo host survivors_command false None ;;
  let survivors := py_split (stdout result) in
  if bool_decide (survivors ≠ []) then
    raise (VmDeployError
      ("authorized_keys survived sanitisation at " +:+ repr_list survivors +:+ "; the image would ship a "
       +:+ "working login and must not be published. Sanitisation did not complete."))
  else ret tt.

(** The privileged commands of the sanitising, in order. *)
Definition sanitize_commands (operational_user : string) : list string :=
  ["sh -c " +:+ _shell_quote purge_script;
   "sh -c " +:+ _shell_quote (lock_script operational_user);
   "DEBIAN_FRONTEND=noninteractive apt-get purge -y " +:+ py_join " " _BUILD_TOOLING_PACKAGES
     +:+ " 2>/dev/null || true";
   "DEBIAN_FRONTEND=noninteractive apt-get autoremove -y 2>/dev/null || true";
   "rm -rf /var/lib/docker /etc/docker /var/lib/containerd";
   "groupdel docker 2>/dev/null || true";
   "apt-get clean"].

Definition sanitize_image (host : RemoteHost) (operational_user : string) : M unit :=
  for_each (sanitize_commands operational_user) (λ c, sudo host c false None ;; ret tt) ;;
  host_run host "command -v git docker gh 2>/dev/null || true" false None ;;
  _verify_no_authorized_keys host.

(** ** Arming cloud-init *)

Definition _CLOUD_INIT_DISABLED_FLAG : string := "/etc/cloud/cloud-init.disabled".
Definition _INSTALLER_DROPIN : string := "/etc/cloud/cloud.cfg.d/99-installer.cfg".
Definition _DATASOURCE_DROPIN : string := "/etc/cloud/cloud.cfg.d/99-vmdeploy-nocloud.cfg".
Definition _DATASOURCE_DROPIN_BODY : string := text_of
  ["# Written by vmdeploy when baking the golden image.";
   "# The appliance ships with no credentials; each guest receives its identity";
   "# from a NoCloud seed ISO attached at import. Probing NoCloud first is what";
   "# makes that work; None remains as the fallback for a guest booted without";
   "# a seed, so it comes up rather than hanging.";
   "datasource_list: [ NoCloud, None ]"].
Definition _NETWORK_DROPIN : string := "/etc/cloud/cloud.cfg.d/99-vmdeploy-network.cfg".
Definition _NETWORK_DROPIN_BODY : string := text_of
  ["# Written by vmdeploy when baking the golden image.";
   "# The image already carries working netplan/DHCP configuration. cloud-init";
   "# must not generate its own alongside it, so its network handling is off.";
   "network: {config: disabled}"].

Definition optouts_command : string :=
  "test -e " +:+ _CLOUD_INIT_DISABLED_FLAG +:+ " && echo " +:+ _CLOUD_INIT_DISABLED_FLAG +:+ "; "
  +:+ "test -e " +:+ _INSTALLER_DROPIN +:+ " && echo " +:+ _INSTALLER_DROPIN +:+ "; true".
Definition cat_command (p : string) : string := "cat " +:+ p +:+ " 2>/dev/null || true".

Definition _verify_cloud_init_armed (host : RemoteHost) : M unit :=
  r <- host_run host optouts_command false None ;;
  let leftovers := py_strip (stdout r) in
  if negb (String.eqb leftovers "") then
    raise (VmDeployError
      ("cloud-init is still disabled in the image; these installer opt-outs survived: "
       +:+ repr_list (py_split leftovers) +:+ ". Clones would boot with no identity and no way in."))
  else
    datasource <- sudo host (cat_command _DATASOURCE_DROPIN) false None ;;
    if negb (py_in "NoCloud" (stdout datasource)) then
      raise (VmDeployError
        ("the NoCloud datasource drop-in at " +:+ _DATASOURCE_DROPIN +:+ " is missing or unreadable; "
         +:+ "clones would not probe for their seed ISO and would boot with no identity."))
    else
      network <- sudo host (cat_command _NETWORK_DROPIN) false None ;;
      if negb (py_in "disabled" (stdout network)) then
        raise (VmDeployError
          ("the network drop-in at " +:+ _NETWORK_DROPIN +:+ " is missing or unreadable; cloud-init "
           +:+ "would regenerate netplan on first boot and could break guest networking."))
      else ret tt.

Definition dropins : list (string * string) :=
  [(_DATASOURCE_DROPIN, _DATASOURCE_DROPIN_BODY); (_NETWORK_DROPIN, _NETWORK_DROPIN_BODY)].

Definition arm_cloud_init (host : RemoteHost) : M unit :=
  sudo host ("rm -f " +:+ _CLOUD_INIT_DISABLED_FLAG +:+ " " +:+ _INSTALLER_DROPIN) true None ;;
  sudo host "cloud-init clean --logs --machine-id" false None ;;
  for_each dropins (λ '(remote_path, body),
    let staged := "/tmp/" +:+ path_name (Path remote_path) in
    put_bytes host (utf8_encode body) staged mode_644 ;;
    sudo host ("install -m 0644 -o root -g root " +:+ staged +:+ " " +:+ remote_path) true None ;;
    host_run host ("rm -f " +:+ staged) false None ;;
    ret tt) ;;
  _verify_cloud_init_armed host.

(** ** The setup paths *)

Definition not_registered (template : string) : exn :=
  VmDeployError ("Template machine '" +:+ template +:+ "' is not registered").

(** Boots the template and waits for it: the address it answers at. *)
Definition reach_template (vbox : VBoxManage) (config : ClusterConfig) : M string :=
  let template := template_vm (virtualbox config) in
  let timeout := boot_timeout_seconds (virtualbox config) in
  start_headless vbox template ;;
  addr <- wait_for_guest_ip vbox template template timeout ;;
  wait_for_ssh addr (ssh config) timeout ;;
  ret addr.

Definition restore_bootstrap (config : ClusterConfig) (username public_key : string)
    (leave_running : bool) : M unit :=
  vbox <- new_VBoxManage (vboxmanage (virtualbox config)) ;;
  let template := template_vm (virtualbox config) in
  present <- vm_exists vbox template ;;
  if negb present then raise (not_registered template)
  else
    addr <- reach_template vbox config ;;
    with_host addr (ssh config) (λ host, enable_account host username public_key) ;;
    when (negb leave_running) (power_off vbox template 120).

Definition key_comment (new_user : string) : string := new_user +:+ "@vmdeploy".

Section setup.
Context {parser : TomlParser}.

Definition run_keys_only_setup (config : ClusterConfig) (base_config_path : path) (new_user : string)
    (new_key_path : path) : M unit :=
  generate_ssh_keypair new_key_path (key_comment new_user) ;;
  load_or_create_key (key_file (inventory config)) ;;
  write_local_overlay base_config_path new_user new_key_path ;;
  ret tt.

(** [dataclasses.replace(config.ssh, user=..., key_path=...)]. *)
Definition new_ssh (config : ClusterConfig) (new_user : string) (new_key_path : path) : SSHConfig :=
  MkSSHConfig new_user new_key_path (connect_timeout_seconds (ssh config))
    (command_timeout_seconds (ssh config)).

Definition run_setup (config : ClusterConfig) (base_config_path : path) (new_user : string)
    (new_key_path : path) : M unit :=
  if String.eqb new_user (user (ssh config)) then
    raise (VmDeployError
      ("new_user '" +:+ new_user +:+ "' must differ from the bootstrap user '"
       +:+ user (ssh config) +:+ "'"))
  else
    public_key <- generate_ssh_keypair new_key_path (key_comment new_user) ;;
    load_or_create_key (key_file (inventory config)) ;;
    vbox <- new_VBoxManage (vboxmanage (virtualbox config)) ;;
    let template := template_vm (virtualbox config) in
    present <- vm_exists vbox template ;;
    if negb present then raise (not_registered template)
    else
      addr <- reach_template vbox config ;;
      with_host addr (ssh config) (λ bootstrap, create_admin_user bootstrap new_user public_key) ;;
      verified <- verify_admin_access addr (new_ssh config new_user new_key_path) ;;
      if negb verified then
        raise (VmDeployError
          ("New user '" +:+ new_user +:+ "' could not log in with sudo; leaving the bootstrap "
           +:+ "account '" +:+ user (ssh config) +:+ "' enabled. No changes to access were made."))
      else
        with_host addr (new_ssh config new_user new_key_path)
          (λ admin, disable_bootstrap_account admin (user (ssh config))) ;;
        write_local_overlay base_config_path new_user new_key_path ;;
        ret tt.
End setup.
