(* ===== verification/Provision.v ===== *)
(** * Golden template and provisioning (provision.py)

    The export, the build with its snapshot and rollback, the provisioning of
    one guest and of the cluster, readiness, and teardown. *)

From S2P Require Import Prelude PyStr Exceptions Paths Effects Reasoning Values Bytes Seed.
From S2P Require Import Inventory Config VirtualBox SshClient SshFacts Apache InventoryService.
From S2P Require Import Setup.

#[export] Set Default Goal Selector "!".

Definition _READINESS_POLL_SECONDS : Z := seconds 3.
Definition _PREBAKE_SNAPSHOT : string := "vmdeploy-prebake".

Definition template_missing (template : string) (vms : list string) : exn :=
  VmDeployError
    ("Template machine '" +:+ template +:+ "' is not registered with VirtualBox; "
     +:+ "registered machines: " +:+ repr_list vms).

(** The error lists the machines, so it asks for them again. *)
Definition require_template (vbox : VBoxManage) (template : string) : M unit :=
  present <- vm_exists vbox template ;;
  if negb present then vms <- list_vms vbox ;; raise (template_missing template vms) else ret tt.

Definition export_golden_template (vbox : VBoxManage) (config : ClusterConfig) : M unit :=
  let template := template_vm (virtualbox config) in
  require_template vbox template ;;
  power_off vbox template 120 ;;
  export_appliance vbox template (template_ova (virtualbox config)).

(** ** The build *)

(** The [finally] block: the template back to its snapshot. *)
Definition roll_back (vbox : VBoxManage) (template : string) : M unit :=
  power_off vbox template 120 ;;
  restore_snapshot vbox template _PREBAKE_SNAPSHOT ;;
  delete_snapshot vbox template _PREBAKE_SNAPSHOT.

Section build.
Context {tmp : TempDir}.

(** What is done to the image over one session. *)
Definition bake (config : ClusterConfig) (source_dir : path) (host : RemoteHost) : M unit :=
  prepare_template host config source_dir ;;
  sanitize_image host (user (ssh config)) ;;
  arm_cloud_init host.

(** The [try] block. *)
Definition bake_and_export (vbox : VBoxManage) (config : ClusterConfig) (source_dir : path) : M unit :=
  let template := template_vm (virtualbox config) in
  let timeout := boot_timeout_seconds (virtualbox config) in
  start_headless vbox template ;;
  addr <- wait_for_guest_ip vbox template template timeout ;;
  wait_for_ssh addr (ssh config) timeout ;;
  with_host addr (ssh config) (bake config source_dir) ;;
  power_off vbox template 120 ;;
  export_appliance vbox template (template_ova (virtualbox config)).

Definition build_golden_template (vbox : VBoxManage) (config : ClusterConfig) (source_dir : path) :
    M unit :=
  let template := template_vm (virtualbox config) in
  require_template vbox template ;;
  power_off vbox template 120 ;;
  take_snapshot vbox template _PREBAKE_SNAPSHOT ;;
  finally (bake_and_export vbox config source_dir) (roll_back vbox template).
End build.

(** ** One guest *)

Definition _seed_directory (config : ClusterConfig) : path :=
  path_div (parent (template_ova (virtualbox config))) "seeds".

Definition _deployer_public_key (config : ClusterConfig) : M string :=
  public_path <- public_key_path (key_path (ssh config)) ;;
  text <- rewrap (read_text_ascii public_path) COSError (λ error, VmDeployError
    ("Cannot read the deployer public key at " +:+ str_path public_path +:+ ": " +:+ str_exn error
     +:+ ". Guests take their only login from this key; run 'vmdeploy setup' to generate one.")) ;;
  ret (py_strip text).

Definition cloud_init_command : string := "cloud-init status --wait --long || true".

Definition _wait_for_cloud_init (guest : RemoteHost) (timeout_seconds : Z) : M unit :=
  result <- host_run guest cloud_init_command false (Some timeout_seconds) ;;
  let report := py_strip (stdout result) in
  if negb (py_in "status: done" report) then
    raise (VmDeployError
      ("cloud-init did not finish on " +:+ address guest +:+ "; it reported:" +:+ nl +:+ report +:+ nl
       +:+ "The guest booted but may not have applied its seed."))
  else ret tt.

(** The session that checks the guest took its identity. *)
Definition check_identity (config : ClusterConfig) (host : HostConfig) (guest : RemoteHost) : M unit :=
  _wait_for_cloud_init guest (boot_timeout_seconds (virtualbox config)) ;;
  actual <- host_hostname guest ;;
  if negb (String.eqb actual (hostname host)) then
    raise (VmDeployError
      (vm_name host +:+ " reports hostname '" +:+ actual +:+ "' after provisioning, expected '"
       +:+ hostname host +:+ "'. The cloud-init seed was not applied."))
  else ret tt.

Definition seed_path (config : ClusterConfig) (host : HostConfig) : path :=
  path_div (_seed_directory config) (vm_name host +:+ "-seed.iso").

Definition provision_host (vbox : VBoxManage) (config : ClusterConfig) (host : HostConfig) : M string :=
  let vb := virtualbox config in
  bridge <- bridge_interface_of vbox (template_vm vb) ;;
  destroy vbox (vm_name host) 3 ;;
  import_appliance vbox (template_ova vb) (vm_name host) ;;
  configure vbox (vm_name host) (memory_mb vb) (cpus vb) ;;
  when (negb (String.eqb bridge "")) (set_bridge_adapter vbox (vm_name host) bridge) ;;
  key <- _deployer_public_key config ;;
  build_seed_iso (seed_path config host) (hostname host) (user (ssh config)) key None ;;
  attach_optical vbox (vm_name host) (seed_path config host) ;;
  start_headless vbox (vm_name host) ;;
  addr <- wait_for_guest_ip vbox (vm_name host) (hostname host) (boot_timeout_seconds vb) ;;
  wait_for_ssh addr (ssh config) (boot_timeout_seconds vb) ;;
  with_host addr (ssh config) (check_identity config host) ;;
  ret addr.

(** ** Readiness *)

Definition endpoints (config : ClusterConfig) (jump_address : string) : list (string * string) :=
  [("http://" +:+ jump_address +:+ "/", "load balancer");
   ("http://" +:+ jump_address +:+ ":" +:+ str_of_Z (service_port (inventory config)) +:+ "/healthz",
    "inventory service")].

(** [response.ok]. *)
Definition response_ok (status : Z) : bool := negb ((400 <=? status)%Z && (status <? 600)%Z).

Definition poll_endpoint (url : string) (last_error : string) : M (string + unit) :=
  response <- call (HttpGet url 10) ;;
  match response with
  | HttpStatus status _ =>
      if response_ok status then ret (inr tt)
      else call (Sleep _READINESS_POLL_SECONDS) ;; ret (inl ("HTTP " +:+ str_of_Z status))
  | RequestException error => call (Sleep _READINESS_POLL_SECONDS) ;; ret (inl error)
  end.

Definition wait_endpoint (timeout_seconds deadline : Z) (endpoint : string * string) : M unit :=
  r <- while_with (polls (seconds timeout_seconds) _READINESS_POLL_SECONDS) deadline
    "no attempt completed" (poll_endpoint endpoint.1) ;;
  match r with
  | inr _ => ret tt
  | inl last_error => raise (ProvisioningTimeoutError
      ("The " +:+ endpoint.2 +:+ " at " +:+ endpoint.1 +:+ " did not become ready within "
       +:+ str_of_Z timeout_seconds +:+ "s; last error: " +:+ last_error))
  end.

Definition wait_for_cluster_ready (config : ClusterConfig) (jump_address : string)
    (timeout_seconds : Z) : M unit :=
  now <- call Monotonic ;;
  for_each (endpoints config jump_address)
    (wait_endpoint timeout_seconds (now + seconds timeout_seconds)%Z).

(** ** The cluster *)

Fixpoint provision_hosts (vbox : VBoxManage) (config : ClusterConfig) (hosts : list HostConfig)
    (found : addresses) : M addresses :=
  match hosts with
  | [] => ret found
  | h :: hosts =>
      addr <- provision_host vbox config h ;;
      provision_hosts vbox config hosts (dict_set (hostname h) addr found)
  end.

Definition provision_cluster (vbox : VBoxManage) (config : ClusterConfig) : M addresses :=
  provision_hosts vbox config (all_hosts config) [].

Definition teardown_cluster (vbox : VBoxManage) (config : ClusterConfig) : M unit :=
  for_each (all_hosts config) (λ h, destroy vbox (vm_name h) 3).

(** The address of one guest, or nothing when it reports none in time. *)
Definition guest_address (vbox : VBoxManage) (h : HostConfig) : M (option string) :=
  catch (a <- wait_for_guest_ip vbox (vm_name h) (hostname h) 30 ;; ret (Some a))
    (λ e, if isinstance e CProvisioningTimeoutError then Some (ret None) else None).

Fixpoint collect_addresses (vbox : VBoxManage) (hosts : list HostConfig) (found : addresses) :
    M addresses :=
  match hosts with
  | [] => ret found
  | h :: hosts =>
      st <- vm_state vbox (vm_name h) ;;
      if negb (is_running st) then collect_addresses vbox hosts found
      else
        r <- guest_address vbox h ;;
        collect_addresses vbox hosts
          (match r with Some a => dict_set (hostname h) a found | None => found end)
  end.

Definition cluster_addresses (vbox : VBoxManage) (config : ClusterConfig) : M addresses :=
  collect_addresses vbox (all_hosts config) [].
