(* ===== verification/SetupFacts.v ===== *)
(** * What setup guarantees

    The bootstrap account is disabled only after the new one was verified, no
    step leaves a session open, and setup ends. *)

From S2P Require Import Prelude PyStr Exceptions Paths Effects Reasoning Values Bytes Json.
From S2P Require Import Inventory Config VirtualBox VirtualBoxFacts SshClient SshFacts Website.
From S2P Require Import Apache InventoryService InventoryServiceFacts Setup.

#[export] Set Default Goal Selector "!".

(** ** The hypervisor and local files run nothing on a guest *)

Lemma vbox_run_quiet vbox args check timeout : emits no_exec (λ _, True) (vbox_run vbox args check timeout).
Proof. by apply emits_vbox_run. Qed.

Ltac quiet_step :=
  lazymatch goal with
  | |- emits no_exec _ (vbox_run _ _ _ _) => apply vbox_run_quiet
  | |- emits no_exec _ (call ?e) => refine (emits_call _ _ e _); intros ?; exact I
  | |- emits no_exec _ (raise _) => by apply emits_raise
  | |- emits no_exec _ (lift_io _) => by apply emits_lift_io
  | |- emits no_exec _ (lift_res _) => by apply emits_lift_res
  | |- emits no_exec _ (rewrap _ _ _) => apply (emits_rewrap _ _ (λ _, True)); [|done..]
  | |- emits no_exec _ (catch _ _) => apply emits_catch_same; [|handler_cases; intros _]
  | |- emits no_exec _ (while_before _ _ _) => apply emits_while_before; [intros ?; exact I|]
  | |- _ => emits_step
  end.
Ltac quiet := repeat quiet_step.

Section quiet.
Context (vbox : VBoxManage).

Lemma vm_state_quiet vm : emits no_exec (λ _, True) (vm_state vbox vm).
Proof. unfold vm_state. by quiet. Qed.
Lemma vm_exists_quiet vm : emits no_exec (λ _, True) (vm_exists vbox vm).
Proof. unfold vm_exists, list_vms. by quiet. Qed.
Lemma start_headless_quiet vm : emits no_exec (λ _, True) (start_headless vbox vm).
Proof. unfold start_headless, vm_state. by quiet. Qed.
Lemma wait_for_guest_ip_quiet vm h timeout :
  emits no_exec (λ _, True) (wait_for_guest_ip vbox vm h timeout).
Proof. unfold wait_for_guest_ip, guest_ipv4_interfaces, _resolve_ipv4, _host_lan_ipv4. by quiet. Qed.
Lemma new_VBoxManage_quiet exe : emits no_exec (λ _, True) (new_VBoxManage exe).
Proof. unfold new_VBoxManage. by quiet. Qed.

Lemma generate_ssh_keypair_quiet p c : emits no_exec (λ _, True) (generate_ssh_keypair p c).
Proof.
  unfold generate_ssh_keypair, public_key_path, read_text_ascii, write_text_ascii, try_chmod, is_file.
  by quiet.
Qed.
Lemma load_key_quiet p : emits no_exec (λ _, True) (load_or_create_key p).
Proof. unfold load_or_create_key, load_key, generate_key, write_key_file. by quiet. Qed.

Context {parser : TomlParser}.
Lemma write_local_overlay_quiet p u k : emits no_exec (λ _, True) (write_local_overlay p u k).
Proof. unfold write_local_overlay, local_overlay_path, read_overlay, is_file. by quiet. Qed.
End quiet.

(** ** Sessions left alone, and termination *)

Section host_facts.
Context (host : RemoteHost).

Lemma install_key_op u k : host_op (sid host) (install_key host u k).
Proof. unfold install_key, encode_ascii. by host_op_auto. Qed.
Lemma install_key_terminates u k : terminates (install_key host u k).
Proof. unfold install_key, encode_ascii. by terminates_auto. Qed.
Lemma create_admin_user_op u k : host_op (sid host) (create_admin_user host u k).
Proof. unfold create_admin_user. pose proof install_key_op. by host_op_auto. Qed.
Lemma create_admin_user_terminates u k : terminates (create_admin_user host u k).
Proof. unfold create_admin_user. pose proof install_key_terminates. by terminates_auto. Qed.
Lemma enable_account_op u k : host_op (sid host) (enable_account host u k).
Proof. unfold enable_account. pose proof install_key_op. by host_op_auto. Qed.
Lemma enable_account_terminates u k : terminates (enable_account host u k).
Proof. unfold enable_account. pose proof install_key_terminates. by terminates_auto. Qed.
Lemma disable_bootstrap_op u : host_op (sid host) (disable_bootstrap_account host u).
Proof. unfold disable_bootstrap_account. by host_op_auto. Qed.
Lemma disable_bootstrap_terminates u : terminates (disable_bootstrap_account host u).
Proof. unfold disable_bootstrap_account. by terminates_auto. Qed.
Lemma sanitize_image_op u : host_op (sid host) (sanitize_image host u).
Proof. unfold sanitize_image, _verify_no_authorized_keys. by host_op_auto. Qed.
Lemma sanitize_image_terminates u : terminates (sanitize_image host u).
Proof. unfold sanitize_image, _verify_no_authorized_keys. by terminates_auto. Qed.
Lemma arm_cloud_init_op : host_op (sid host) (arm_cloud_init host).
Proof. unfold arm_cloud_init, _verify_cloud_init_armed. by host_op_auto. Qed.
Lemma arm_cloud_init_terminates : terminates (arm_cloud_init host).
Proof. unfold arm_cloud_init, _verify_cloud_init_armed. by terminates_auto. Qed.
End host_facts.

#[export] Hint Resolve create_admin_user_op create_admin_user_terminates enable_account_op
  enable_account_terminates disable_bootstrap_op disable_bootstrap_terminates sanitize_image_op
  sanitize_image_terminates arm_cloud_init_op arm_cloud_init_terminates : vmdeploy.

Section local_facts.
Context {parser : TomlParser}.

Lemma generate_ssh_keypair_terminates p c : terminates (generate_ssh_keypair p c).
Proof.
  unfold generate_ssh_keypair, public_key_path, read_text_ascii, write_text_ascii, try_chmod, is_file.
  by terminates_auto.
Qed.
Lemma generate_ssh_keypair_balanced p c : balanced (generate_ssh_keypair p c).
Proof.
  unfold generate_ssh_keypair, public_key_path, read_text_ascii, write_text_ascii, try_chmod, is_file.
  by balanced_auto.
Qed.
Lemma write_local_overlay_terminates p u k : terminates (write_local_overlay p u k).
Proof. unfold write_local_overlay, local_overlay_path, read_overlay, is_file. by terminates_auto. Qed.
Lemma write_local_overlay_balanced p u k : balanced (write_local_overlay p u k).
Proof. unfold write_local_overlay, local_overlay_path, read_overlay, is_file. by balanced_auto. Qed.
Lemma verify_admin_access_terminates a cfg : terminates (verify_admin_access a cfg).
Proof. unfold verify_admin_access. by terminates_auto. Qed.
Lemma verify_admin_access_balanced a cfg : balanced (verify_admin_access a cfg).
Proof. unfold verify_admin_access. by balanced_auto; host_op_auto. Qed.
End local_facts.

#[export] Hint Resolve generate_ssh_keypair_terminates generate_ssh_keypair_balanced
  write_local_overlay_terminates write_local_overlay_balanced verify_admin_access_terminates
  verify_admin_access_balanced : vmdeploy.

(** ** Disabling the bootstrap account *)

(** A command that takes the account's access away. *)
Definition disables (username : string) (ev : event) : Prop :=
  ∃ c, c ∈ disable_commands username ∧ privileged c ev.

(** Root was reached: [id -u] through sudo exited with status zero and printed
    the number zero. *)
Definition reached_root (ev : event) : Prop :=
  privileged_ok verify_command ev ∧ ∃ out, output_of ev = Some out ∧ py_strip out = "0".

(** A connection was accepted for the user with the key. *)
Definition logged_in (u : string) (k : path) (ev : event) : Prop :=
  ∃ addr timeout c, ev = Ev (SshConnect addr u k timeout) (Connected c).

Lemma no_exec_not_disables u ev : no_exec ev → ¬ disables u ev.
Proof. intros H (c & _ & Hp). by eapply no_exec_not_privileged. Qed.

Lemma quiet_not_disables {A} u (m : M A) :
  emits no_exec (λ _, True) m → emits (λ ev, ¬ disables u ev) (λ _, True) m.
Proof. intros Hm. eapply emits_weaken; [exact Hm|intros ev; apply no_exec_not_disables|done]. Qed.

Lemma host_run_not_disables host u cmd check timeout :
  String.prefix "sudo -" cmd = false →
  emits (λ ev, ¬ disables u ev) (λ _, True) (host_run host cmd check timeout).
Proof.
  intros Hp s t o s' H. split; [|done].
  apply Forall_forall. intros ev Hev (c & _ & Hc).
  destruct (host_run_not_privileged host cmd c check timeout Hp _ _ _ _ H) as [Ht _].
  rewrite Forall_forall in Ht. by apply (Ht ev).
Qed.

Lemma sudo_not_disables host u cmd check timeout :
  cmd ∉ disable_commands u →
  emits (λ ev, ¬ disables u ev) (λ _, True) (sudo host cmd check timeout).
Proof.
  intros Hni s t o s' H. split; [|done].
  apply Forall_forall. intros ev Hev (c & Hc & Hp).
  assert (cmd ≠ c) as Hne by congruence.
  destruct (sudo_not_privileged host cmd c check timeout Hne _ _ _ _ H) as [Ht _].
  rewrite Forall_forall in Ht. by apply (Ht ev).
Qed.

Lemma put_bytes_not_disables host u payload remote mode :
  (∀ staging, install_command mode staging remote ∉ disable_commands u) →
  emits (λ ev, ¬ disables u ev) (λ _, True) (put_bytes host payload remote mode).
Proof.
  intros Hni s t o s' H. split; [|done].
  apply Forall_forall. intros ev Hev (c & Hc & Hp).
  assert (∀ staging, install_command mode staging remote ≠ c) as Hne.
  { intros staging <-. by destruct (Hni staging). }
  destruct (put_bytes_not_privileged host payload remote mode c Hne _ _ _ _ H) as [Ht _].
  rewrite Forall_forall in Ht. by apply (Ht ev).
Qed.

Lemma not_in_disable cmd u :
  cmd ≠ "usermod -L " +:+ u → cmd ≠ "usermod -s /usr/sbin/nologin " +:+ u →
  cmd ≠ "gpasswd -d " +:+ u +:+ " sudo" → cmd ≠ "rm -f /etc/sudoers.d/90-" +:+ u →
  cmd ≠ "rm -f /home/" +:+ u +:+ "/.ssh/authorized_keys" → cmd ∉ disable_commands u.
Proof. intros. unfold disable_commands. set_solver. Qed.

(** Texts that differ in a literal character. *)
Ltac other_text := apply not_in_disable; simpl; discriminate.

Section create.
Context (host : RemoteHost) (u new_user key : string).
Hypothesis Hnew : new_user ≠ u.

Ltac no_disable :=
  repeat match goal with
  | |- emits _ _ (host_run _ _ _ _) => by apply host_run_not_disables
  | |- emits _ _ (sudo _ _ _ _) => apply sudo_not_disables; other_text
  | |- emits _ _ (put_bytes _ _ _ _) => apply put_bytes_not_disables; intros ?; other_text
  | |- emits _ _ (raise _) => by apply emits_raise
  | |- emits _ _ (encode_ascii _) => apply quiet_not_disables; unfold encode_ascii; by quiet
  | _ => emits_step
  end.

(** Creating an account never disables another one. *)
Lemma create_not_disables :
  emits (λ ev, ¬ disables u ev) (λ _, True) (create_admin_user host new_user key).
Proof.
  assert ("rm -f " +:+ sudoers_file new_user ∉ disable_commands u) as Hrm.
  { apply not_in_disable; try (simpl; discriminate).
    unfold sudoers_file. simpl. intros [= ?]. done. }
  unfold create_admin_user, install_key.
  repeat match goal with
  | |- emits _ _ (sudo _ ("rm -f " +:+ sudoers_file _) _ _) => by apply sudo_not_disables
  | _ => progress no_disable
  end.
Qed.
End create.

Lemma wait_for_ssh_not_disables u addr cfg timeout :
  emits (λ ev, ¬ disables u ev) (λ _, True) (wait_for_ssh addr cfg timeout).
Proof.
  unfold wait_for_ssh, ssh_attempt.
  repeat match goal with
  | |- emits _ _ (while_with _ _ _ _) => apply emits_while_with; [intros ?; by apply no_exec_not_disables|intros [? ?]]
  | |- emits _ _ (catch _ _) => apply emits_catch_same; [|handler_cases; intros _]
  | |- emits _ _ (with_host _ _ _) => apply with_host_emits; [|done|intros ?]
  | |- emits _ _ (host_run _ _ _ _) => by apply host_run_not_disables
  | |- emits _ _ (raise _) => by apply emits_raise
  | |- emits _ _ (call ?e) => refine (emits_call _ _ e _); intros ?; by apply no_exec_not_disables
  | |- ∀ ev, plumbing ev → _ =>
      intros ev Hev; apply no_exec_not_disables; unfold plumbing in Hev; unfold no_exec;
      by destruct (ev_eff ev)
  | _ => emits_step
  end.
Qed.

(** ** Verification *)

Section verify.
Context (addr : string) (cfg : SSHConfig).

Lemma verify_ensures_root : ensures reached_root (verify_admin_access addr cfg) id.
Proof.
  intros s t r s' H Hr. unfold verify_admin_access in H.
  apply runs_catch in H as [(e & m' & s1 & t1 & t2 & -> & _ & He & H)|[H _]].
  { destruct (_ || _); [|done]. injection He as <-. by run_inv1 H. }
  apply with_host_spec in H as [(e & [=] & _)|(c & s1 & tb & s2 & tc & -> & Hb & _)];
    [|intros; by host_op_auto|done].
  rewrite !Exists_app. right. left.
  apply runs_bind in Hb as [(res & s3 & t3 & t4 & -> & H3 & H4)|[(e & [=] & _)|[[=] _]]].
  run_inv1 H4. rewrite app_nil_r. simpl in Hr. apply andb_prop in Hr as [Hok Hout%String.eqb_eq].
  revert Hok Hout. change s3 with s3. revert H3.
  cut (wp (sudo (MkRemoteHost addr cfg (length s)) verify_command false None) s1 (λ t o _,
    ∀ r, o = Ok r → cmd_ok r = true → py_strip (stdout r) = "0" → Exists reached_root t)).
  { intros Hwp H3. exact (Hwp _ _ _ H3 _ eq_refl). }
  apply wp_sudo. intros t o _ Hres _ _ r -> Hok Hout.
  destruct (Hres r eq_refl) as [(c' & cmd' & stdin & tm & Hcmd & _ & Hlast) _].
  apply Z.eqb_eq in Hok. rewrite Hok in Hlast.
  apply Exists_exists. eexists. split; [by eapply last_Some_elem_of|]. split; [split|].
  - destruct Hcmd as [->| ->]; [left|right]; by eexists _, _, _.
  - by repeat eexists.
  - by exists (stdout r).
Qed.

Lemma verify_ensures_login :
  ensures (logged_in (user cfg) (key_path cfg)) (verify_admin_access addr cfg) id.
Proof.
  intros s t r s' H Hr. unfold verify_admin_access in H.
  apply runs_catch in H as [(e & m' & s1 & t1 & t2 & -> & _ & He & H)|[H _]].
  { destruct (_ || _); [|done]. injection He as <-. by run_inv1 H. }
  apply with_host_spec in H as [(e & [=] & _)|(c & s1 & tb & s2 & tc & -> & _)];
    [|intros; by host_op_auto|done].
  apply Exists_exists. eexists. split; [right; left|]. by eexists _, _, _.
Qed.

Lemma verify_not_disables u : emits (λ ev, ¬ disables u ev) (λ _, True) (verify_admin_access addr cfg).
Proof.
  unfold verify_admin_access. apply emits_catch_same; [|handler_cases; intros _; apply emits_ret].
  apply with_host_emits; [|done|].
  - intros ev Hev. apply no_exec_not_disables. unfold plumbing in Hev. unfold no_exec.
    by destruct (ev_eff ev).
  - intros h. apply emits_bind; [apply sudo_not_disables; other_text|intros ?; apply emits_ret].
Qed.
End verify.

(** ** The hypervisor opens no session *)

Lemma vbox_run_balanced vbox args check timeout : balanced (vbox_run vbox args check timeout).
Proof. unfold vbox_run. by balanced_auto. Qed.
#[export] Hint Resolve vbox_run_balanced : vmdeploy.

Section balanced.
Context (vbox : VBoxManage).
Lemma vm_state_balanced vm : balanced (vm_state vbox vm).
Proof. unfold vm_state. by balanced_auto. Qed.
Lemma list_vms_balanced : balanced (list_vms vbox).
Proof. unfold list_vms. by balanced_auto. Qed.
Lemma vm_exists_balanced vm : balanced (vm_exists vbox vm).
Proof. unfold vm_exists, list_vms. by balanced_auto. Qed.
Lemma start_headless_balanced vm : balanced (start_headless vbox vm).
Proof. unfold start_headless, vm_state. by balanced_auto. Qed.
Lemma power_off_balanced vm wait : balanced (power_off vbox vm wait).
Proof. unfold power_off, vm_state. by balanced_auto. Qed.
Lemma wait_for_guest_ip_balanced vm h timeout : balanced (wait_for_guest_ip vbox vm h timeout).
Proof. unfold wait_for_guest_ip, guest_ipv4_interfaces, _resolve_ipv4, _host_lan_ipv4. by balanced_auto. Qed.
Lemma new_VBoxManage_balanced exe : balanced (new_VBoxManage exe).
Proof. unfold new_VBoxManage. by balanced_auto. Qed.
Lemma wait_for_ssh_balanced addr cfg timeout : balanced (wait_for_ssh addr cfg timeout).
Proof. unfold wait_for_ssh. pose proof ssh_attempt_balanced. by balanced_auto. Qed.
Lemma load_or_create_key_balanced p : balanced (load_or_create_key p).
Proof. unfold load_or_create_key, load_key, generate_key, write_key_file. by balanced_auto. Qed.
Lemma start_headless_terminates vm : terminates (start_headless vbox vm).
Proof. unfold start_headless. by terminates_auto. Qed.
Lemma new_VBoxManage_terminates exe : terminates (new_VBoxManage exe).
Proof. unfold new_VBoxManage. by terminates_auto. Qed.
End balanced.

#[export] Hint Resolve vm_state_balanced list_vms_balanced vm_exists_balanced start_headless_balanced
  power_off_balanced wait_for_guest_ip_balanced new_VBoxManage_balanced wait_for_ssh_balanced
  load_or_create_key_balanced start_headless_terminates new_VBoxManage_terminates : vmdeploy.

Lemma reach_template_balanced vbox config : balanced (reach_template vbox config).
Proof. unfold reach_template. by balanced_auto. Qed.
Lemma reach_template_terminates vbox config : terminates (reach_template vbox config).
Proof. unfold reach_template. by terminates_auto. Qed.
#[export] Hint Resolve reach_template_balanced reach_template_terminates : vmdeploy.

Section run_setup.
Context {parser : TomlParser} (config : ClusterConfig) (base : path) (new_user : string) (key : path).

Lemma run_setup_balanced : balanced (run_setup config base new_user key).
Proof. unfold run_setup. cbv zeta. by balanced_auto; host_op_auto. Qed.
Lemma run_setup_terminates : terminates (run_setup config base new_user key).
Proof. unfold run_setup. cbv zeta. by terminates_auto. Qed.

Lemma reach_template_not_disables u vbox :
  emits (λ ev, ¬ disables u ev) (λ _, True) (reach_template vbox config).
Proof.
  unfold reach_template. apply emits_bind; [apply quiet_not_disables, start_headless_quiet|intros _].
  apply emits_bind; [apply quiet_not_disables, wait_for_guest_ip_quiet|intros a].
  apply emits_bind; [apply wait_for_ssh_not_disables|intros _; apply emits_ret].
Qed.

Lemma plumbing_no_exec ev : plumbing ev → no_exec ev.
Proof. unfold plumbing, no_exec. by destruct (ev_eff ev). Qed.

(** Whatever a verification that succeeds witnesses comes before the account
    is disabled. *)
Lemma run_setup_guarded G :
  (∀ addr, ensures G (verify_admin_access addr (new_ssh config new_user key)) id) →
  guarded G (disables (user (ssh config))) (run_setup config base new_user key).
Proof.
  intros HG. unfold run_setup. destruct (String.eqb_spec new_user (user (ssh config))) as [|Hne];
    [apply guarded_raise|].
  apply guarded_bind; [apply guarded_never, quiet_not_disables, generate_ssh_keypair_quiet|intros pk].
  apply guarded_bind; [apply guarded_never, quiet_not_disables, load_key_quiet|intros _].
  apply guarded_bind; [apply guarded_never, quiet_not_disables, new_VBoxManage_quiet|intros vbox].
  cbv zeta.
  apply guarded_bind; [apply guarded_never, quiet_not_disables, vm_exists_quiet|intros present].
  destruct present; cbn [negb]; [|apply guarded_raise].
  apply guarded_bind; [apply guarded_never, reach_template_not_disables|intros addr].
  apply guarded_bind.
  { apply guarded_never, with_host_emits; [|done|intros h; by apply create_not_disables].
    intros ev Hev. by apply no_exec_not_disables, plumbing_no_exec. }
  intros _. apply (guarded_bind_ensures _ _ _ _ id); [apply guarded_never, verify_not_disables|done|].
  intros b Hb. simpl in Hb. subst b. apply guarded_raise.
Qed.

Lemma run_setup_verified s t s' :
  runs (run_setup config base new_user key) s t (Ok tt) s' → Exists reached_root t.
Proof.
  intros H. unfold run_setup in H. destruct (String.eqb _ _); [run_inv1 H|].
  apply runs_bind in H as [(? & ? & ? & ? & -> & _ & H)|[(? & [=] & _)|[[=] _]]].
  apply runs_bind in H as [(? & ? & ? & ? & -> & _ & H)|[(? & [=] & _)|[[=] _]]].
  apply runs_bind in H as [(? & ? & ? & ? & -> & _ & H)|[(? & [=] & _)|[[=] _]]].
  cbv zeta in H.
  apply runs_bind in H as [(present & ? & ? & ? & -> & _ & H)|[(? & [=] & _)|[[=] _]]].
  destruct present; cbn [negb] in H; [|run_inv1 H].
  apply runs_bind in H as [(? & ? & ? & ? & -> & _ & H)|[(? & [=] & _)|[[=] _]]].
  apply runs_bind in H as [(? & ? & ? & ? & -> & _ & H)|[(? & [=] & _)|[[=] _]]].
  apply runs_bind in H as [(v & ? & tv & ? & -> & Hv & H)|[(? & [=] & _)|[[=] _]]].
  destruct v; cbn [negb] in H; [|run_inv1 H].
  apply verify_ensures_root in Hv. specialize (Hv eq_refl). rewrite !Exists_app. tauto.
Qed.
End run_setup.

(** C10: setup never locks the operator out.  In every run of [run_setup],
    however it ends, no command that takes access from the bootstrap account
    is sent before a connection was accepted for the new user with its new key
    and [id -u] through sudo printed the number zero with status zero; a run
    that returns has made that check; every connection opened is closed; and
    the run ends. *)
Theorem setup_disables_only_after_verification {parser : TomlParser} config base new_user key
    now s t o s' :
  runs (run_setup config base new_user key) s t o s' → clock_ok now t →
  let u := user (ssh config) in
  preceded (logged_in new_user key) (disables u) t ∧
  preceded reached_root (disables u) t ∧
  (o = Ok tt → Exists reached_root t) ∧
  o ≠ OutOfFuel ∧ opened t = closed t.
Proof.
  intros H Hc u. pose proof (run_setup_terminates _ _ _ _ _ _ _ _ _ H Hc) as Ho.
  split_and!; [| | |done|by eapply run_setup_balanced].
  - refine (run_setup_guarded config base new_user key _ _ _ _ _ _ H).
    intros addr. apply (verify_ensures_login addr (new_ssh config new_user key)).
  - refine (run_setup_guarded config base new_user key _ _ _ _ _ _ H).
    intros addr. apply verify_ensures_root.
  - intros ->. by eapply run_setup_verified.
Qed.

(** A template that is registered and running, at a known address, whose
    accounts do as they are told. *)
Definition template_world : handler Z := λ e clock,
  match e return resp e * Z with
  | IsFile p => (bool_decide (path_name p ∈ ["VBoxManage"; "id"; "vm_key"; "vm_key.pub"]), clock)
  | Subprocess (_ :: "list" :: _) _ => (Completed 0 (render_vm ("template", "0f") +:+ nl) "", clock)
  | Subprocess (_ :: "showvminfo" :: _) _ => (Completed 0 (render_state true) "", clock)
  | GetAddrInfo _ => (Some ["10.0.0.9"], clock)
  | Monotonic => (clock, clock)
  | Sleep d => (tt, (clock + d)%Z)
  | ReadBytes _ => (IoOk (utf8_encode "ssh-ed25519 AAAA vmadmin@vmdeploy"), clock)
  | SshExec _ c _ _ =>
      (Executed 0 (if String.eqb c (sudo_n verify_command) then "0" +:+ nl else "") "", clock)
  | e => (default_resp e, clock)
  end.

Definition sample_parser : TomlParser := λ _, inr [].

Definition sample_setup : M unit :=
  run_setup (parser := sample_parser) sample_cluster (Path "config/cluster.toml") "vmadmin"
    (Path "/root/keys/vm_key").

Lemma setup_disables_only_after_verification_witness :
  outcome_in template_world sample_setup 0%Z = Ok tt ∧
  Exists (disables "deploy") (trace_in template_world sample_setup 0%Z) ∧
  preceded reached_root (disables "deploy") (trace_in template_world sample_setup 0%Z).
Proof.
  assert (outcome_in template_world sample_setup 0%Z = Ok tt) as Ho by (by vm_compute).
  assert (clock_ok 0 (trace_in template_world sample_setup 0%Z)) as Hc by clock_tac.
  destruct (run_in_runs template_world sample_setup 0%Z) as [s' H].
  split; [exact Ho|]. split.
  - apply Exists_exists. eexists. split.
    + eapply (list_elem_of_lookup_2 _ 47). vm_compute. reflexivity.
    + exists "usermod -L deploy". split; [left|]. left. by eexists _, _, _.
  - exact (proj1 (proj2 (setup_disables_only_after_verification _ _ _ _ _ _ _ _ _ H Hc))).
Defined.

(** The same template, where the bootstrap account is in no sudo group, so
    that removing it from the group exits with status 3. *)
Definition ungrouped_world : handler Z := λ e clock,
  match e return resp e * Z with
  | SshExec n c i timeout =>
      if py_in "gpasswd" c then (Executed 3 "" "user is not a member", clock)
      else template_world (SshExec n c i timeout) clock
  | e => template_world e clock
  end.

Definition writes_overlay (ev : event) : bool :=
  match ev_eff ev with WriteBytes p _ => String.eqb (path_suffix p) ".toml" | _ => false end.

(** A privileged command that may fail is run again with a password, so
    without one in the environment its failure is an error even where the
    caller asked for none: setup stops half way through disabling the account
    and never points the overlay at the new one. *)
Lemma tolerated_failure_raises :
  (∃ msg, outcome_in ungrouped_world sample_setup 0%Z = Raise (SSHConnectionError msg)) ∧
  existsb writes_overlay (trace_in ungrouped_world sample_setup 0%Z) = false ∧
  existsb writes_overlay (trace_in template_world sample_setup 0%Z) = true.
Proof. split; [eexists; by vm_compute|split; by vm_compute]. Qed.

(** Strings are written between quotes as they are, arrays as Python prints
    them. *)
Lemma overlay_text_unescaped :
  _emit_toml [("note", VStr ("a" +:+ dq +:+ "b")); ("ports", VList [VStr "x"])] =
    "note = " +:+ dq +:+ "a" +:+ dq +:+ "b" +:+ dq +:+ nl +:+ "ports = " +:+ dq +:+ "['x']" +:+ dq +:+ nl.
Proof. by vm_compute. Qed.
