(* ===== verification/ProvisionFacts.v ===== *)
(** * What provisioning guarantees

    Which machines the operations can change, what must have been seen before
    an image is exported, and the rollback of the template; with a small site
    on which the commands can be run. *)

From S2P Require Import Prelude PyStr Exceptions Paths Effects Reasoning Values Bytes Seed.
From S2P Require Import Inventory Config VirtualBox VirtualBoxFacts SshClient SshFacts Apache.
From S2P Require Import InventoryService InventoryServiceFacts Setup SetupFacts Provision.

#[export] Set Default Goal Selector "!".

(** ** Machines changed *)

(** The call exports an appliance. *)
Definition exports (ev : event) : bool :=
  match ev_eff ev with Subprocess (_ :: cmd :: _) _ => String.eqb cmd "export" | _ => false end.

(** The call changes no machine but those of [vms], and exports an appliance
    only if [x] allows it. *)
Definition may (x : bool) (vms : list string) (ev : event) : Prop :=
  touches vms ev ∧ implb (exports ev) x = true.

Abbreviation confined x vms m := (emits (may x vms) (λ _, True) m).

Lemma may_quiet x vms ev : changes ev = None → exports ev = false → may x vms ev.
Proof. intros H He. split; [intros vm; by rewrite H|by rewrite He]. Qed.

Lemma confined_weaken {A} x vms vms' (m : M A) :
  vms ⊆ vms' → confined x vms m → confined x vms' m.
Proof.
  intros Hs Hm. eapply emits_weaken; [exact Hm| |done]. intros ev [Hev ?]. split; [|done].
  intros vm Hvm. by apply Hs, Hev.
Qed.

Lemma confined_allow {A} x vms (m : M A) : confined false vms m → confined x vms m.
Proof.
  intros Hm. eapply emits_weaken; [exact Hm| |done]. intros ev [Hev He]. split; [done|].
  by destruct (exports ev), x.
Qed.

Lemma confined_vbox_query vbox x vms args check timeout :
  changes (Ev (vbox_call vbox args timeout) TimeoutExpired) = None →
  exports (Ev (vbox_call vbox args timeout) TimeoutExpired) = false →
  confined x vms (vbox_run vbox args check timeout).
Proof. intros Hc He. apply emits_vbox_run; [|done]. intros r. by apply may_quiet. Qed.

Lemma confined_vbox_command vbox vm x vms args check timeout :
  changes (Ev (vbox_call vbox args timeout) TimeoutExpired) = Some vm → vm ∈ vms →
  exports (Ev (vbox_call vbox args timeout) TimeoutExpired) = false →
  confined x vms (vbox_run vbox args check timeout).
Proof.
  intros Hc Hin He. apply emits_vbox_run; [|done]. intros r. split.
  - intros vm' Hvm.
    change (changes (Ev (vbox_call vbox args timeout) TimeoutExpired) = Some vm') in Hvm. congruence.
  - change (implb (exports (Ev (vbox_call vbox args timeout) TimeoutExpired)) x = true). by rewrite He.
Qed.

Lemma plumbing_may x vms ev : plumbing ev → may x vms ev.
Proof.
  intros H. apply may_quiet; unfold plumbing, changes, exports in *; by destruct (ev_eff ev).
Qed.

Lemma host_call_may x vms ev : host_call ev → may x vms ev.
Proof.
  intros H. apply may_quiet; unfold host_call, changes, exports in *; by destruct (ev_eff ev).
Qed.

Create HintDb confined.

Ltac confined_step :=
  lazymatch goal with
  | |- emits _ _ (vbox_run _ _ _ _) =>
      first [apply confined_vbox_query; reflexivity
            |eapply confined_vbox_command; [reflexivity|assumption|reflexivity]]
  | |- emits _ _ (call ?e) => refine (emits_call _ _ e _); intros ?; by apply may_quiet
  | |- emits _ _ (raise _) => by apply emits_raise
  | |- emits _ _ (lift_io _) => by apply emits_lift_io
  | |- emits _ _ (lift_res _) => by apply emits_lift_res
  | |- emits _ _ (get_session _) => by intros ? ? ? ? (-> & -> & ->)%runs_get_session
  | |- emits _ _ (set_sftp _ _) => by intros ? ? ? ? (-> & -> & ->)%runs_set_sftp
  | |- emits _ _ (set_client _ _) => by intros ? ? ? ? (-> & -> & ->)%runs_set_client
  | |- emits _ _ (rewrap _ _ _) => apply (emits_rewrap _ _ (λ _, True)); [|done..]
  | |- emits _ _ (catch _ _) => apply emits_catch_same; [|handler_cases; intros _]
  | |- emits _ _ (while_before _ _ _) => apply emits_while_before; [intros ?; by apply may_quiet|]
  | |- emits _ _ (while_with _ _ _ _) =>
      apply emits_while_with; [intros ?; by apply may_quiet|intros ?]
  | |- emits _ _ (with_host _ _ _) =>
      apply with_host_emits; [intros ? ?; by apply plumbing_may|done|intros ?]
  | |- emits _ _ (match ?x with _ => _ end) => destruct x eqn:?
  | |- _ => emits_step
  end.
Ltac confined_auto := repeat (first [by auto with confined | confined_step]).

Section host_confined.
Context (x : bool) (vms : list string) (h : RemoteHost).

Lemma host_confined {A} (m : M A) : emits host_call host_error m → confined x vms m.
Proof.
  intros Hm. eapply emits_weaken; [exact Hm|intros ev; apply host_call_may|done].
Qed.

Lemma host_run_confined cmd check timeout : confined x vms (host_run h cmd check timeout).
Proof. apply host_confined, host_run_emits. Qed.
Lemma sudo_confined cmd check timeout : confined x vms (sudo h cmd check timeout).
Proof. apply host_confined, sudo_emits. Qed.
Lemma put_bytes_confined payload remote mode : confined x vms (put_bytes h payload remote mode).
Proof. apply host_confined, put_bytes_emits. Qed.
Lemma sftp_confined : confined x vms (sftp h).
Proof. apply host_confined, sftp_emits. Qed.
Lemma get_bytes_confined remote : confined x vms (get_bytes h remote).
Proof. apply host_confined, get_bytes_emits. Qed.
Lemma host_hostname_confined : confined x vms (host_hostname h).
Proof. apply host_confined, host_hostname_emits. Qed.
End host_confined.

#[export] Hint Resolve host_run_confined sudo_confined put_bytes_confined get_bytes_confined
  sftp_confined host_hostname_confined : confined.

Section bake_confined.
Context {tmp : TempDir} (x : bool) (vms : list string) (h : RemoteHost).

Lemma source_hash_confined d : confined x vms (source_hash d).
Proof.
  unfold source_hash. confined_step; [|intros; confined_auto].
  generalize _HASH_FILES. intros l. induction l as [|n l IH]; simpl; [apply emits_ret|].
  unfold InventoryService.is_file, read_bytes. confined_auto.
Qed.
Lemma missing_files_confined d l : confined x vms (missing_files d l).
Proof.
  induction l as [|n l IH]; simpl; [apply emits_ret|]. unfold InventoryService.is_file. confined_auto.
Qed.
Lemma install_go_confined build : confined x vms (install_go h build).
Proof.
  unfold install_go, upload, _fetch_go_archive_to_host, download, unlink, _sha256_file, read_bytes,
    InventoryService.is_file. confined_auto.
Qed.
Lemma build_service_confined d dir : confined x vms (build_service h d dir).
Proof.
  pose proof source_hash_confined. pose proof missing_files_confined.
  unfold build_service, read_bytes, InventoryService.is_file. cbv zeta. confined_auto.
Qed.
Lemma install_apache_confined : confined x vms (install_apache h).
Proof. unfold install_apache. confined_auto. Qed.
Lemma prepare_template_confined config d : confined x vms (prepare_template h config d).
Proof.
  pose proof source_hash_confined. pose proof build_service_confined. pose proof install_go_confined.
  pose proof install_apache_confined. unfold prepare_template, sudo_all. confined_auto.
Qed.
Lemma sanitize_image_confined u : confined x vms (sanitize_image h u).
Proof. unfold sanitize_image, _verify_no_authorized_keys. cbv zeta. confined_auto. Qed.
Lemma arm_cloud_init_confined : confined x vms (arm_cloud_init h).
Proof. unfold arm_cloud_init, _verify_cloud_init_armed. cbv zeta. confined_auto. Qed.
Lemma bake_confined config d : confined x vms (bake config d h).
Proof.
  pose proof prepare_template_confined. pose proof sanitize_image_confined.
  pose proof arm_cloud_init_confined. unfold bake. confined_auto.
Qed.
End bake_confined.

#[export] Hint Resolve bake_confined : confined.

Section vm_confined.
Context (vbox : VBoxManage) (x : bool) (vm : string) (vms : list string).
Hypothesis Hvm : vm ∈ vms.

Lemma vm_state_confined n : confined x vms (vm_state vbox n).
Proof. unfold vm_state. confined_auto. Qed.
Lemma require_template_confined n : confined x vms (require_template vbox n).
Proof. unfold require_template, vm_exists, list_vms. confined_auto. Qed.
Lemma power_off_confined wait : confined x vms (power_off vbox vm wait).
Proof. unfold power_off. pose proof vm_state_confined. confined_auto. Qed.
Lemma destroy_confined n : confined x vms (destroy vbox vm n).
Proof.
  pose proof power_off_confined. unfold destroy, vm_exists, list_vms.
  apply emits_bind; [confined_auto|intros present]. destruct (negb present); [apply emits_ret|].
  apply emits_bind; [auto|intros _]. apply emits_bind; [|intros; confined_auto].
  generalize "" as last. induction n as [|n IH]; intros last; simpl; [apply emits_ret|].
  unfold vm_exists, list_vms. confined_auto.
Qed.
Lemma start_headless_confined : confined x vms (start_headless vbox vm).
Proof. unfold start_headless. pose proof vm_state_confined. confined_auto. Qed.
Lemma wait_for_guest_ip_confined n h timeout : confined x vms (wait_for_guest_ip vbox n h timeout).
Proof.
  unfold wait_for_guest_ip, guest_ipv4_interfaces, _resolve_ipv4, _host_lan_ipv4. confined_auto.
Qed.
Lemma wait_for_ssh_confined addr cfg timeout : confined x vms (wait_for_ssh addr cfg timeout).
Proof. unfold wait_for_ssh, ssh_attempt. confined_auto. Qed.
Lemma take_snapshot_confined snap : confined x vms (take_snapshot vbox vm snap).
Proof. unfold take_snapshot, has_snapshot, delete_snapshot. confined_auto. Qed.
Lemma roll_back_confined : confined x vms (roll_back vbox vm).
Proof.
  unfold roll_back, restore_snapshot, delete_snapshot. pose proof power_off_confined.
  pose proof vm_state_confined. confined_auto.
Qed.
End vm_confined.

Lemma export_appliance_confined vbox vms n p : confined true vms (export_appliance vbox n p).
Proof.
  unfold export_appliance. pose proof (vm_state_confined vbox true vms).
  repeat match goal with
  | |- emits _ _ (vbox_run _ _ _ _) => apply emits_vbox_run; [intros r; by split|done]
  | _ => confined_step || (progress eauto)
  end.
Qed.

(** ** What was seen before an export *)

Lemma confined_no_export {A} vms (m : M A) :
  confined false vms m → emits (λ ev, ¬ exports ev = true) (λ _, True) m.
Proof.
  intros Hm. eapply emits_weaken; [exact Hm| |done]. intros ev [_ He]. by destruct (exports ev).
Qed.

Lemma unexported {A} G vms (m : M A) : confined false vms m → guarded G (λ ev, exports ev = true) m.
Proof. intros Hm. eapply guarded_never, confined_no_export, Hm. Qed.

(** The checks of a finished image: no key of any account survives, no
    opt-out of cloud-init does, and the two drop-ins are in place. *)
Definition image_checks : list (event → Prop) :=
  [sudo_said survivors_command (λ out, bool_decide (py_split out = []));
   said optouts_command (λ out, String.eqb (py_strip out) "");
   sudo_said (cat_command _DATASOURCE_DROPIN) (py_in "NoCloud");
   sudo_said (cat_command _NETWORK_DROPIN) (py_in "disabled")].

(** A result that fails the test raises. *)
Lemma ensures_or_raise {A B} G (m : M A) (p : A → bool) e (k : A → M B) c :
  ensures G m p → ensures G (bind m (λ r, if negb (p r) then raise (e r) else k r)) c.
Proof. intros Hm. apply (ensures_bind_or _ _ _ p); [done|]. intros a ->. apply ensures_raise. Qed.

Lemma verify_keys_ensures host :
  ensures (sudo_said survivors_command (λ out, bool_decide (py_split out = [])))
    (_verify_no_authorized_keys host) (λ _, true).
Proof.
  apply (ensures_bind_or _ _ _ (λ r, bool_decide (py_split (stdout r) = [])));
    [apply (sudo_ensures_said host survivors_command false None (λ out, bool_decide (py_split out = [])))|].
  intros r Hr%bool_decide_eq_false. cbv zeta. rewrite bool_decide_eq_true_2 by done. apply ensures_raise.
Qed.

Lemma bake_ensures {tmp : TempDir} config d host G :
  G ∈ image_checks → ensures G (bake config d host) (λ _, true).
Proof.
  intros HG. unfold bake. apply ensures_bind_r. intros _.
  unfold image_checks in HG. rewrite elem_of_cons in HG. destruct HG as [->|HG].
  { apply ensures_bind_l. unfold sanitize_image. do 2 (apply ensures_bind_r; intros _).
    apply verify_keys_ensures. }
  apply ensures_bind_r. intros _. unfold arm_cloud_init. do 3 (apply ensures_bind_r; intros _).
  unfold _verify_cloud_init_armed. cbv zeta. rewrite elem_of_cons in HG. destruct HG as [->|HG].
  { apply (ensures_or_raise _ _ (λ r, String.eqb (py_strip (stdout r)) "")), host_run_said. }
  apply ensures_bind_r. intros r. destruct (negb _); [apply ensures_raise|].
  rewrite elem_of_cons in HG. destruct HG as [->|HG].
  { apply (ensures_or_raise _ _ (λ r, py_in "NoCloud" (stdout r))), sudo_ensures_said. }
  apply ensures_bind_r. intros ds. destruct (negb _); [apply ensures_raise|].
  rewrite elem_of_cons in HG. destruct HG as [->|[]%elem_of_nil].
  apply (ensures_or_raise _ _ (λ r, py_in "disabled" (stdout r))), sudo_ensures_said.
Qed.

Section build_facts.
Context {tmp : TempDir} (vbox : VBoxManage) (config : ClusterConfig) (d : path).
Let template := template_vm (virtualbox config).

Lemma bake_op host : host_op (sid host) (bake config d host).
Proof. unfold bake. by host_op_auto. Qed.
Lemma bake_terminates host : terminates (bake config d host).
Proof. unfold bake. by terminates_auto. Qed.

Lemma require_template_terminates n : terminates (require_template vbox n).
Proof. unfold require_template. pose proof terminates_vbox_run. unfold list_vms. by terminates_auto. Qed.
Lemma take_snapshot_terminates vm snap : terminates (take_snapshot vbox vm snap).
Proof. unfold take_snapshot, has_snapshot, delete_snapshot. pose proof terminates_vbox_run. by terminates_auto. Qed.
Lemma roll_back_terminates vm : terminates (roll_back vbox vm).
Proof. unfold roll_back, restore_snapshot, delete_snapshot. pose proof terminates_vbox_run. by terminates_auto. Qed.
Lemma export_appliance_terminates vm p : terminates (export_appliance vbox vm p).
Proof. unfold export_appliance. pose proof terminates_vbox_run. by terminates_auto. Qed.
Lemma build_terminates : terminates (build_golden_template vbox config d).
Proof.
  unfold build_golden_template, bake_and_export. cbv zeta. pose proof require_template_terminates.
  pose proof take_snapshot_terminates. pose proof roll_back_terminates.
  pose proof export_appliance_terminates. pose proof bake_terminates. by terminates_auto.
Qed.

Lemma build_balanced : balanced (build_golden_template vbox config d).
Proof.
  unfold build_golden_template, bake_and_export, require_template, roll_back,
    take_snapshot, has_snapshot, restore_snapshot, delete_snapshot, export_appliance. cbv zeta.
  pose proof bake_op. by balanced_auto.
Qed.

(** Everything before the export leaves the checks in the run. *)
Lemma bake_and_export_guarded G :
  G ∈ image_checks → guarded G (λ ev, exports ev = true) (bake_and_export vbox config d).
Proof.
  intros HG. unfold bake_and_export. cbv zeta. fold template.
  assert (template ∈ [template]) as Hin by apply list_elem_of_here.
  apply guarded_bind; [eapply unexported, start_headless_confined, Hin|intros _].
  apply guarded_bind; [apply (unexported _ []), wait_for_guest_ip_confined|intros addr].
  apply guarded_bind; [apply (unexported _ []), wait_for_ssh_confined|intros _].
  apply (guarded_bind_ensures _ _ _ _ (λ _, true)); [| |done].
  - apply (unexported _ []). confined_step. apply bake_confined.
  - apply with_host_ensures; [apply bake_op|intros h; by apply bake_ensures].
Qed.

Lemma build_guarded G :
  G ∈ image_checks → guarded G (λ ev, exports ev = true) (build_golden_template vbox config d).
Proof.
  intros HG. unfold build_golden_template. cbv zeta. fold template.
  assert (template ∈ [template]) as Hin by apply list_elem_of_here.
  apply guarded_bind; [apply (unexported _ []), require_template_confined|intros _].
  apply guarded_bind; [eapply unexported, power_off_confined, Hin|intros _].
  apply guarded_bind; [eapply unexported, take_snapshot_confined, Hin|intros _].
  apply guarded_finally; [by apply bake_and_export_guarded|].
  eapply unexported, roll_back_confined, Hin.
Qed.

Lemma build_confined : confined true [template] (build_golden_template vbox config d).
Proof.
  unfold build_golden_template, bake_and_export. cbv zeta. fold template.
  assert (template ∈ [template]) as Hin by apply list_elem_of_here.
  pose proof require_template_confined. pose proof power_off_confined. pose proof take_snapshot_confined.
  pose proof start_headless_confined. pose proof roll_back_confined. pose proof wait_for_guest_ip_confined.
  pose proof wait_for_ssh_confined. pose proof export_appliance_confined. confined_auto.
Qed.
End build_facts.

(** ** The rollback *)

Section rollback.
Context (vbox : VBoxManage) (vm : string).

(** The exit status of a process. *)
Definition status_of (ev : event) : option Z :=
  match ev with
  | Ev (Subprocess _ _) r => match r : proc_resp with Completed rc _ _ => Some rc | _ => None end
  | _ => None
  end.

(** VirtualBox reported that the snapshot was taken. *)
Definition snapshot_taken (ev : event) : Prop :=
  ∃ out err, ev = Ev (vbox_call vbox ["snapshot"; vm; "take"; _PREBAKE_SNAPSHOT] 300) (Completed 0 out err).

(** The run ends with the machine seen not to run, the snapshot restored with
    success, and its deletion. *)
Definition rolled_back (t : trace) : Prop :=
  ∃ t1 st ev out err deleted,
    t = t1 ++ [ev; Ev (vbox_call vbox ["snapshot"; vm; "restore"; _PREBAKE_SNAPSHOT] 300) (Completed 0 out err);
      Ev (vbox_call vbox ["snapshot"; vm; "delete"; _PREBAKE_SNAPSHOT] 300) deleted] ∧
    state_answer vbox vm st ev ∧ st ≠ RUNNING.

Lemma rolled_back_app t1 t2 : rolled_back t2 → rolled_back (t1 ++ t2).
Proof.
  intros (t & st & ev & out & err & del & -> & ?). exists (t1 ++ t), st, ev, out, err, del.
  by rewrite app_assoc.
Qed.

Lemma restore_wp s :
  wp (restore_snapshot vbox vm _PREBAKE_SNAPSHOT ;; delete_snapshot vbox vm _PREBAKE_SNAPSHOT) s
    (λ t o _, o = Ok tt → rolled_back t).
Proof.
  unfold restore_snapshot, delete_snapshot. repeat wp_step. apply wp_vm_state; [|done].
  intros ev st Hst. cbn [bind_post]. unfold is_running. case_bool_decide as Hr; [by apply wp_raise|].
  repeat wp_step. apply wp_vbox_run. intros r.
  destruct r as [rc out err| |]; cbn [run_outcome bind_post]; [|done..].
  cbn [andb]. unfold result_ok. cbn [exit_status]. destruct (Z.eqb_spec rc 0) as [->|]; [|done].
  cbn [negb bind_post]. repeat wp_step. apply wp_vbox_run. intros r2.
  destruct (run_outcome _ _ _ r2); cbn [bind_post]; [|done..]. apply wp_ret. intros _.
  exists [], st, ev, out, err, r2. split; [done|]. by split.
Qed.

Lemma roll_back_spec s t s' : runs (roll_back vbox vm) s t (Ok tt) s' → rolled_back t.
Proof. intros H. unfold roll_back in H. runs_ok H. apply rolled_back_app. by eapply restore_wp. Qed.

Lemma take_snapshot_taken s t s' :
  runs (take_snapshot vbox vm _PREBAKE_SNAPSHOT) s t (Ok tt) s' → Exists snapshot_taken t.
Proof.
  intros H. unfold take_snapshot in H. do 2 runs_ok H. rewrite !Exists_app. right. right.
  revert H. match goal with |- runs ?m ?s1 ?t1 _ _ → _ =>
    cut (wp m s1 (λ t o _, o = Ok tt → Exists snapshot_taken t)); [intros Hwp H; exact (Hwp _ _ _ H eq_refl)|] end.
  wp_step. apply wp_vbox_run. intros r. destruct r as [rc out err| |]; cbn [run_outcome bind_post]; [|done..].
  unfold result_ok. cbn [exit_status andb]. destruct (Z.eqb_spec rc 0) as [->|]; [|done].
  cbn [negb bind_post]. apply wp_ret. intros _. constructor. by exists out, err.
Qed.

Definition not_taken (ev : event) : Prop := ¬ snapshot_taken ev.

(** A snapshot that could not be taken was not taken. *)
Lemma take_snapshot_fails s t e s' :
  runs (take_snapshot vbox vm _PREBAKE_SNAPSHOT) s t (Raise e) s' → Forall not_taken t.
Proof.
  assert (∀ m : M bool, m = has_snapshot vbox vm _PREBAKE_SNAPSHOT → emits not_taken (λ _, True) m) as Hhas.
  { intros m ->. unfold has_snapshot. apply emits_bind; [|intros ?; apply emits_ret].
    apply emits_vbox_run; [by intros r (? & ? & ?)|done]. }
  assert (emits not_taken (λ _, True) (delete_snapshot vbox vm _PREBAKE_SNAPSHOT)) as Hdel.
  { unfold delete_snapshot. apply emits_bind; [|intros ?; apply emits_ret].
    apply emits_vbox_run; [by intros r (? & ? & ?)|done]. }
  intros H. unfold take_snapshot in H.
  apply runs_bind in H as [(b & s1 & t1 & t2 & -> & H1 & H)|[(e' & _ & H)|[[=] _]]];
    [|by destruct (Hhas _ eq_refl _ _ _ _ H)].
  apply Forall_app. split; [by destruct (Hhas _ eq_refl _ _ _ _ H1)|].
  apply runs_bind in H as [(u & s2 & t3 & t4 & -> & H2 & H)|[(e' & _ & H)|[[=] _]]].
  2: { by destruct (emits_when _ _ b _ (λ _, Hdel) _ _ _ _ H). }
  apply Forall_app. split; [by destruct (emits_when _ _ b _ (λ _, Hdel) _ _ _ _ H2)|].
  revert H. match goal with |- runs ?m ?s1 ?t1 _ _ → _ =>
    cut (wp m s1 (λ t o _, ∀ e, o = Raise e → Forall not_taken t));
      [intros Hwp H; exact (Hwp _ _ _ H _ eq_refl)|] end.
  wp_step. apply wp_vbox_run. intros r. destruct r as [rc out err| |]; cbn [run_outcome bind_post].
  2, 3: intros ? _; constructor; [by intros (? & ? & H%(f_equal status_of))|constructor].
  unfold result_ok. cbn [exit_status andb]. destruct (Z.eqb_spec rc 0) as [->|Hrc]; cbn [negb bind_post].
  - by apply wp_ret.
  - intros ? _. constructor; [intros (? & ? & [= ?]%(f_equal status_of)); congruence|constructor].
Qed.

Lemma emits_not_taken {A} (m : M A) x : confined x [] m → emits not_taken (λ _, True) m.
Proof.
  intros Hm. eapply emits_weaken; [exact Hm| |done]. intros ev [Ht _] (out & err & ->).
  assert (vm ∈ []) as []%elem_of_nil. by apply Ht.
Qed.

Lemma power_off_not_taken wait : emits not_taken (λ _, True) (power_off vbox vm wait).
Proof.
  unfold power_off, vm_state.
  repeat (apply emits_vbox_run || emits_step); try done; intros; by intros (? & ? & ?).
Qed.
End rollback.

Lemma export_appliance_exports vbox vm p :
  ensures (λ ev, exports ev = true) (export_appliance vbox vm p) (λ _, true).
Proof.
  unfold export_appliance. apply ensures_bind_r. intros st.
  destruct (is_running st); [apply ensures_raise|]. do 4 (apply ensures_bind_r; intros ?).
  apply ensures_bind_l. intros s t r s' H _. revert t H.
  match goal with |- ∀ t, runs ?m _ _ _ _ → _ =>
    cut (wp m s (λ t _ _, Exists (λ ev, exports ev = true) t)); [intros Hwp t H; exact (Hwp _ _ _ H)|] end.
  apply wp_vbox_run. intros ?. by constructor.
Qed.

Section build_rollback.
Context {tmp : TempDir} (vbox : VBoxManage) (config : ClusterConfig) (d : path).
Let template := template_vm (virtualbox config).

(** Once the snapshot is taken, the end of the run is a run of the rollback,
    whose exception, if any, is the one of the build. *)
Lemma build_ends_with_rollback s t o s' :
  runs (build_golden_template vbox config d) s t o s' → o ≠ OutOfFuel →
  Exists (snapshot_taken vbox template) t →
  ∃ s1 t1 t2 o2, t = t1 ++ t2 ∧ runs (roll_back vbox template) s1 t2 o2 s' ∧ o2 ≠ OutOfFuel ∧
    ∀ e, o2 = Raise e → o = Raise e.
Proof.
  assert (∀ t, Forall (not_taken vbox template) t → ¬ Exists (snapshot_taken vbox template) t) as Hno.
  { intros t' Ht. by apply Forall_not_Exists. }
  intros H Ho Hex. unfold build_golden_template in H. cbv zeta in H. fold template in H.
  pose proof (emits_not_taken vbox template _ false (require_template_confined vbox false [] template)) as Hreq.
  apply runs_bind in H as [(u1 & s1 & t1 & t2 & -> & H1 & H)|[(e & _ & H)|[? _]]];
    [|destruct (Hno t); [by destruct (Hreq _ _ _ _ H)|done]|done].
  apply Exists_app in Hex as [Hex|Hex]; [destruct (Hno t1); [by destruct (Hreq _ _ _ _ H1)|done]|].
  apply runs_bind in H as [(u2 & s2 & t3 & t4 & -> & H2 & H)|[(e & _ & H)|[? _]]];
    [|destruct (Hno t2); [by destruct (power_off_not_taken _ _ _ _ _ _ _ H)|done]|done].
  apply Exists_app in Hex as [Hex|Hex];
    [destruct (Hno t3); [by destruct (power_off_not_taken _ _ _ _ _ _ _ H2)|done]|].
  apply runs_bind in H as [(u3 & s3 & t5 & t6 & -> & H3 & H)|[(e & _ & H)|[? _]]];
    [|by destruct (Hno t4); [eapply take_snapshot_fails|]|done].
  apply runs_finally in H as [[? _]|(o1 & s4 & t7 & t8 & o2 & -> & _ & _ & H5 & ->)]; [done|].
  exists s4, (t1 ++ t3 ++ t5 ++ t7), t8, o2. split_and!; [by rewrite <- !app_assoc|done| |by intros e ->].
  by destruct o2.
Qed.

Lemma build_returns_taken s t s' :
  runs (build_golden_template vbox config d) s t (Ok tt) s' →
  Exists (snapshot_taken vbox template) t ∧ Exists (λ ev, exports ev = true) t.
Proof.
  intros H. unfold build_golden_template in H. cbv zeta in H. fold template in H.
  do 2 runs_ok H.
  apply runs_bind in H as [(u3 & s3 & t5 & t6 & -> & H3 & H)|[(e & [=] & _)|[[=] _]]].
  destruct u3. apply take_snapshot_taken in H3. split; [rewrite !Exists_app; tauto|].
  apply runs_finally in H as [[[=] _]|(o1 & s4 & t7 & t8 & o2 & -> & H4 & _ & _ & Ho)].
  destruct o2 as [u|e|]; try done. subst o1. rewrite !Exists_app. do 3 right. left.
  unfold bake_and_export in H4. cbv zeta in H4. do 5 runs_ok H4. rewrite !Exists_app.
  do 5 right. destruct u. by eapply export_appliance_exports.
Qed.
End build_rollback.

(** ** A small site *)

(** The guests of [sample_cluster] and its template answer at fixed addresses,
    over connections numbered after them. *)
Definition site_guests : list (string * (string * Z)) :=
  [("jump", ("10.0.0.4", 4%Z)); ("web1", ("10.0.0.7", 7%Z)); ("web2", ("10.0.0.8", 8%Z));
   ("template", ("10.0.0.9", 9%Z))].

Definition site_answer (c : Z) (cmd : string) : string :=
  if String.eqb cmd "hostname" then
    match List.find (λ g, Z.eqb g.2.2 c) site_guests with Some g => g.1 +:+ nl | None => "" end
  else if String.eqb cmd cloud_init_command then "status: done" +:+ nl
  else if py_startswith cmd "go version" then "go version go1.22.5 linux/amd64"
  else if String.eqb cmd (sudo_n (cat_command _DATASOURCE_DROPIN)) then _DATASOURCE_DROPIN_BODY
  else if String.eqb cmd (sudo_n (cat_command _NETWORK_DROPIN)) then _NETWORK_DROPIN_BODY
  else if py_in "is-active" cmd then "active" +:+ nl
  else if py_in "-mindepth 1" cmd then "/tmp/vmdeploy-site/site-main" +:+ nl
  else "".

Definition site_vbox (args : list string) (w : vm_host) : proc_resp * vm_host :=
  match args with
  | ["import"; _; _; _; _; vm] =>
      (Completed 0 "" "", MkVmHost ((vm, false) :: machines w) (clock w) (obeys_acpi w))
  | ["startvm"; vm; _; _] => (Completed 0 "" "", set_power vm true w)
  | ["showvminfo"; vm; _] =>
      (match List.find (λ m, String.eqb m.1 vm) (machines w) with
       | Some m => Completed 0 (render_state m.2 +:+ unlines
           ["bridgeadapter1=" +:+ dq +:+ "eth0" +:+ dq; "storagecontrollername0=" +:+ dq +:+ "IDE" +:+ dq;
            dq +:+ "IDE-0-0" +:+ dq +:+ "=" +:+ dq +:+ "none" +:+ dq]) ""
       | None => Completed 1 "" "not found"
       end, w)
  | _ => answer_vbox args w
  end.

Definition site_world : handler vm_host := λ e w,
  match e return resp e * vm_host with
  | Subprocess (_ :: args) _ => site_vbox args w
  | Monotonic => (clock w, w)
  | Sleep d => (tt, MkVmHost (machines w) (clock w + d) (obeys_acpi w))
  | IsFile _ => (true, w)
  | ReadBytes p =>
      (IoOk (if String.eqb (path_suffix p) ".key" then _encode_key (replicate 32 Byte.x2a)
             else utf8_encode sample_public_key), w)
  | GetAddrInfo h =>
      ((λ g, [g.2.1]) <$> List.find (λ g, String.eqb g.1 h) site_guests, w)
  | SshConnect a _ _ _ =>
      (match List.find (λ g, String.eqb g.2.1 a) site_guests with
       | Some g => Connected g.2.2
       | None => ConnectFailed "no route to host"
       end, w)
  | SshExec c cmd _ _ => (Executed 0 (site_answer c cmd) "", w)
  | HttpGet _ _ => (HttpStatus 200 [], w)
  | e => (default_resp e, w)
  end.

Definition site : vm_host := MkVmHost [("template", true)] 0 true.

Definition sample_build_template : M unit :=
  build_golden_template (tmp:=sample_tmp) sample_vbox sample_cluster (Path "goservice").
Definition build_trace : trace := trace_in site_world sample_build_template site.

Lemma build_runs : ∃ s', runs sample_build_template [] build_trace (Ok tt) s'.
Proof.
  destruct (run_in_runs site_world sample_build_template site) as [s' H]. exists s'.
  assert (outcome_in site_world sample_build_template site = Ok tt) as Ho by (by vm_compute).
  by rewrite Ho in H.
Qed.

(** A machine that cannot be stopped. *)
Definition stuck_world : handler vm_host := λ e w,
  match e return resp e * vm_host with
  | Subprocess (_ :: "controlvm" :: _) _ => (Completed 0 "" "", w)
  | e => site_world e w
  end.

(** ** Properties of the build *)

(** C19: no image leaves without its checks.  In every run of
    [build_golden_template], whatever the hypervisor, the guest and the network
    do, no appliance is exported before: a privileged search for
    authorized_keys came back empty, the test for the two opt-outs of
    cloud-init printed nothing, and the datasource and network drop-ins were
    read back with what they must hold.  Only the template is changed, every
    session opened is closed, and the build ends; when it returns, an appliance
    was exported. *)
Theorem image_exported_only_when_checked {tmp : TempDir} vbox config d now s t o s' :
  runs (build_golden_template vbox config d) s t o s' → clock_ok now t →
  Forall (λ G, preceded G (λ ev, exports ev = true) t) image_checks ∧
  Forall (touches [template_vm (virtualbox config)]) t ∧
  opened t = closed t ∧ o ≠ OutOfFuel ∧
  (o = Ok tt → Exists (λ ev, exports ev = true) t).
Proof.
  intros H Hc. pose proof (build_terminates vbox config d _ _ _ _ _ H Hc) as Ho.
  split_and!; [| |by eapply build_balanced|done|].
  - apply Forall_forall. intros G HG. by eapply build_guarded.
  - destruct (build_confined vbox config d _ _ _ _ H) as [Ht _].
    by eapply Forall_impl; [exact Ht|intros ev []].
  - intros ->. by eapply build_returns_taken.
Qed.

Lemma image_exported_only_when_checked_witness :
  Exists (λ ev, exports ev = true) build_trace ∧
  Forall (λ G, preceded G (λ ev, exports ev = true) build_trace) image_checks.
Proof.
  assert (clock_ok 0 build_trace) as Hc by clock_tac.
  destruct build_runs as [s' H].
  destruct (image_exported_only_when_checked _ _ _ _ _ _ _ _ H Hc) as (Hg & _ & _ & _ & He).
  split; [by apply He|exact Hg].
Defined.

(** C20: the template is given back.  Once the snapshot of the template was
    taken, every run of [build_golden_template], however the bake ended, ends
    with the rollback: the template seen not to run, the snapshot restored
    with success and then deleted; the only exception is a rollback that
    itself fails, whose error the build then raises.  A build that returns
    took the snapshot and rolled it back. *)
Theorem template_rolled_back {tmp : TempDir} vbox config d now s t o s' :
  runs (build_golden_template vbox config d) s t o s' → clock_ok now t →
  let template := template_vm (virtualbox config) in
  (Exists (snapshot_taken vbox template) t →
     rolled_back vbox template t ∨
     ∃ e s1 t1 t2, o = Raise e ∧ t = t1 ++ t2 ∧ runs (roll_back vbox template) s1 t2 (Raise e) s') ∧
  (o = Ok tt → Exists (snapshot_taken vbox template) t ∧ rolled_back vbox template t).
Proof.
  intros H Hc template. pose proof (build_terminates vbox config d _ _ _ _ _ H Hc) as Ho.
  assert (Exists (snapshot_taken vbox template) t → rolled_back vbox template t ∨
     ∃ e s1 t1 t2, o = Raise e ∧ t = t1 ++ t2 ∧ runs (roll_back vbox template) s1 t2 (Raise e) s') as Hex.
  { intros Hex. destruct (build_ends_with_rollback _ _ _ _ _ _ _ H Ho Hex)
      as (s1 & t1 & t2 & [[]|e|] & -> & Hr & Hne & He); [|right; by eauto 10|done].
    left. apply rolled_back_app. by eapply roll_back_spec. }
  split; [exact Hex|]. intros ->. destruct (build_returns_taken _ _ _ _ _ _ H) as [Hs _].
  split; [done|]. by destruct (Hex Hs) as [?|(e & _ & _ & _ & [=] & _)].
Qed.

Lemma template_rolled_back_witness :
  Exists (snapshot_taken sample_vbox "template") build_trace ∧
  rolled_back sample_vbox "template" build_trace.
Proof.
  assert (clock_ok 0 build_trace) as Hc by clock_tac.
  destruct build_runs as [s' H].
  exact (proj2 (template_rolled_back _ _ _ _ _ _ _ _ H Hc) eq_refl).
Defined.

(** A hypervisor command with this word among its arguments. *)
Definition asks (word : string) (ev : event) : bool :=
  match ev_eff ev with Subprocess args _ => bool_decide (word ∈ args) | _ => false end.

(** A template that cannot be powered off in the rollback is not restored: the
    [finally] block stops at its first line. *)
Lemma rollback_skipped :
  let w := MkVmHost [("template", false)] 0 true in
  outcome_in stuck_world sample_build_template w =
    Raise (ProvisioningTimeoutError "template could not be powered off") ∧
  existsb (asks "take") (trace_in stuck_world sample_build_template w) = true ∧
  existsb (asks "restore") (trace_in stuck_world sample_build_template w) = false.
Proof. by vm_compute. Qed.
