(* ===== verification/ClusterFacts.v ===== *)
(** * What provisioning a cluster guarantees

    One guest: its machine is new, its seed is in the drive before it starts,
    and it is returned only once it has named itself.  The cluster: one guest
    after another, readiness at the endpoints, teardown and addresses. *)

From S2P Require Import Prelude PyStr Exceptions Paths Effects Reasoning Values Bytes Seed.
From S2P Require Import Inventory Config VirtualBox VirtualBoxFacts SshClient SshFacts Apache.
From S2P Require Import InventoryService InventoryServiceFacts Setup SetupFacts Provision.
From S2P Require Import ProvisionFacts.

#[export] Set Default Goal Selector "!".

(** ** The order of hypervisor commands *)

(** The command of the hypervisor a call is. *)
Definition verb (ev : event) : option string :=
  match ev_eff ev with Subprocess (_ :: cmd :: _) _ => Some cmd | _ => None end.

(** The program gives the hypervisor no command but those of [vs]. *)
Abbreviation speaks vs m := (emits (λ ev, ∀ v, verb ev = Some v → v ∈ vs) (λ _, True) m).

Lemma speaks_run (vs : list string) vbox args check timeout :
  (∀ v, head args = Some v → v ∈ vs) → speaks vs (vbox_run vbox args check timeout).
Proof.
  intros Hv. apply emits_vbox_run; [|done]. intros r v. unfold verb. simpl.
  destruct args; [done|]. intros [= ->]. by apply Hv.
Qed.

Lemma speaks_guarded {A} G (vs : list string) v (m : M A) :
  speaks vs m → v ∉ vs → guarded G (λ ev, verb ev = Some v) m.
Proof.
  intros Hm Hv. apply guarded_never. eapply emits_weaken; [exact Hm| |done].
  intros ev Hev He. by apply Hv, Hev.
Qed.

Lemma silent ev (vs : list string) : verb ev = None → ∀ v, verb ev = Some v → v ∈ vs.
Proof. by intros ->. Qed.

Lemma plumbing_silent ev (vs : list string) : plumbing ev → ∀ v, verb ev = Some v → v ∈ vs.
Proof. intros H. apply silent. unfold plumbing, verb in *. by destruct (ev_eff ev). Qed.

Lemma host_call_silent ev (vs : list string) : host_call ev → ∀ v, verb ev = Some v → v ∈ vs.
Proof. intros H. apply silent. unfold host_call, verb in *. by destruct (ev_eff ev). Qed.

Ltac verb_tac := intros ? [= <-]; repeat first [apply list_elem_of_here|apply list_elem_of_further].

Ltac speaks_step :=
  lazymatch goal with
  | |- emits _ _ (vbox_run _ _ _ _) => apply speaks_run; verb_tac
  | |- emits _ _ (call ?e) => refine (emits_call _ _ e _); intros ?; by apply silent
  | |- emits _ _ (raise _) => by apply emits_raise
  | |- emits _ _ (lift_io _) => by apply emits_lift_io
  | |- emits _ _ (lift_res _) => by apply emits_lift_res
  | |- emits _ _ (rewrap _ _ _) => apply (emits_rewrap _ _ (λ _, True)); [|done..]
  | |- emits _ _ (catch _ _) => apply emits_catch_same; [|handler_cases; intros _]
  | |- emits _ _ (while_before _ _ _) => apply emits_while_before; [intros ?; by apply silent|]
  | |- emits _ _ (while_with _ _ _ _) => apply emits_while_with; [intros ?; by apply silent|intros ?]
  | |- emits _ _ (with_host _ _ _) =>
      apply with_host_emits; [intros ? ?; by apply plumbing_silent|done|intros ?]
  | |- emits _ _ (host_run _ _ _ _) =>
      eapply emits_weaken; [apply host_run_emits|intros ?; apply host_call_silent|done]
  | |- emits _ _ (host_hostname _) =>
      eapply emits_weaken; [apply host_hostname_emits|intros ?; apply host_call_silent|done]
  | |- emits _ _ (match ?x with _ => _ end) => destruct x eqn:?
  | |- _ => emits_step
  end.
Ltac speaks_auto := repeat speaks_step.

Section verbs.
Context (vbox : VBoxManage) (vm : string).

Lemma bridge_speaks : speaks ["showvminfo"] (bridge_interface_of vbox vm).
Proof. unfold bridge_interface_of. by speaks_auto. Qed.
Lemma delete_attempts_speaks n last :
  speaks ["list"; "showvminfo"; "controlvm"; "unregistervm"] (delete_attempts vbox vm n last).
Proof.
  revert last. induction n as [|n IH]; intros last; simpl; [apply emits_ret|].
  unfold vm_exists, list_vms. speaks_auto. apply IH.
Qed.
Lemma destroy_speaks n :
  speaks ["list"; "showvminfo"; "controlvm"; "unregistervm"] (destroy vbox vm n).
Proof.
  unfold destroy, vm_exists, list_vms, power_off, vm_state.
  repeat (apply delete_attempts_speaks || speaks_step).
Qed.
Lemma import_speaks p : speaks ["import"] (import_appliance vbox p vm).
Proof. unfold import_appliance. by speaks_auto. Qed.
Lemma configure_speaks m c : speaks ["modifyvm"] (configure vbox vm m c).
Proof. unfold configure. by speaks_auto. Qed.
Lemma set_bridge_speaks b : speaks ["modifyvm"] (set_bridge_adapter vbox vm b).
Proof. unfold set_bridge_adapter. by speaks_auto. Qed.
Lemma deployer_key_speaks config : speaks [] (_deployer_public_key config).
Proof. unfold _deployer_public_key, public_key_path, read_text_ascii. by speaks_auto. Qed.
Lemma build_seed_speaks p h u k i : speaks [] (build_seed_iso p h u k i).
Proof. unfold build_seed_iso, resolve_instance_id. by speaks_auto. Qed.
Lemma attach_speaks p : speaks ["showvminfo"; "storageattach"] (attach_optical vbox vm p).
Proof.
  unfold attach_optical, optical_slot. apply emits_bind; [by speaks_auto|intros [[c p1] d]].
  by speaks_auto.
Qed.
Lemma start_speaks : speaks ["showvminfo"; "startvm"] (start_headless vbox vm).
Proof. unfold start_headless, vm_state. by speaks_auto. Qed.
Lemma guest_ip_speaks h timeout : speaks ["guestproperty"] (wait_for_guest_ip vbox vm h timeout).
Proof. unfold wait_for_guest_ip, guest_ipv4_interfaces, _resolve_ipv4, _host_lan_ipv4. by speaks_auto. Qed.
Lemma wait_ssh_speaks a cfg timeout : speaks [] (wait_for_ssh a cfg timeout).
Proof. unfold wait_for_ssh, ssh_attempt. by speaks_auto. Qed.
Lemma identity_speaks a config h :
  speaks [] (with_host a (ssh config) (check_identity config h)).
Proof. unfold check_identity, _wait_for_cloud_init. by speaks_auto. Qed.
End verbs.

Create HintDb speaks.
#[export] Hint Resolve bridge_speaks destroy_speaks import_speaks configure_speaks set_bridge_speaks
  deployer_key_speaks build_seed_speaks attach_speaks start_speaks guest_ip_speaks wait_ssh_speaks
  identity_speaks : speaks.

(** ** One guest *)

(** The hypervisor did a command with success. *)
Definition vbox_did (vbox : VBoxManage) (args : list string) (ev : event) : Prop :=
  ∃ timeout out err, ev = Ev (vbox_call vbox args timeout) (Completed 0 out err).

Lemma vbox_run_did vbox args timeout c : ensures (vbox_did vbox args) (vbox_run vbox args true timeout) c.
Proof.
  intros s t r s' H _. revert t H.
  match goal with |- ∀ t, runs ?m _ _ _ _ → _ =>
    cut (wp m s (λ t o _, ∀ r, o = Ok r → Exists (vbox_did vbox args) t));
      [intros Hwp t H; exact (Hwp _ _ _ H _ eq_refl)|] end.
  apply wp_vbox_run. intros [rc out err| |] r'; simpl; [|done..].
  unfold result_ok. simpl. destruct (Z.eqb_spec rc 0) as [->|]; simpl; [|done].
  intros _. constructor. by eexists _, _, _.
Qed.

(** Whatever a program raises, a normal result of this kind ends it. *)
Lemma ensures_ok {A} G (m : M A) (P : trace → Prop) :
  (∀ s t a s', runs m s t (Ok a) s' → P t) → (∀ t, P t → Exists G t) → ensures G m (λ _, true).
Proof. intros Hm HP s t a s' H _. eapply HP, Hm, H. Qed.

Lemma import_did vbox p vm :
  ensures (vbox_did vbox ["import"; str_path p; "--vsys"; "0"; "--vmname"; vm])
    (import_appliance vbox p vm) (λ _, true).
Proof.
  unfold import_appliance. apply ensures_bind_r. intros present.
  destruct (negb present); [apply ensures_raise|]. apply ensures_bind_l, vbox_run_did.
Qed.

(** The image is in a drive of the machine. *)
Definition attached (vbox : VBoxManage) (vm : string) (iso : path) (ev : event) : Prop :=
  ∃ slot, vbox_did vbox (storageattach vm slot (str_path iso)) ev.

Lemma attach_did vbox vm iso : ensures (attached vbox vm iso) (attach_optical vbox vm iso) (λ _, true).
Proof.
  unfold attach_optical. apply ensures_bind_r. intros slot. apply ensures_bind_l.
  eapply ensures_weaken; [apply vbox_run_did|]. intros ev Hev. by exists slot.
Qed.

(** A listing in which the name is free. *)
Definition name_free (vbox : VBoxManage) (vm : string) (ev : event) : Prop :=
  ∃ vms, listing vbox vms ev ∧ vm ∉ vms.

Lemma destroy_frees vbox vm n : ensures (name_free vbox vm) (destroy vbox vm n) (λ _, true).
Proof.
  apply (ensures_ok _ _ (ends_gone vbox vm)).
  - intros s t [] s' H. by apply (destroy_spec _ _ _ _ _ _ _ H).
  - intros t (t' & ev & vms & -> & Hl & Hn). rewrite Exists_app. right. constructor. by exists vms.
Qed.

Section one_guest.
Context (vbox : VBoxManage) (config : ClusterConfig) (host : HostConfig).
Let vm := vm_name host.
Let iso := seed_path config host.

(** The seed of the guest: its hostname, the operational account, and a key. *)
Definition seed_written (ev : event) : Prop :=
  ∃ key, seed_image iso (hostname host) (user (ssh config)) key ev.

Lemma build_seed_writes key i :
  ensures seed_written (build_seed_iso iso (hostname host) (user (ssh config)) key i) (λ _, true).
Proof.
  intros s t p s' (t1 & ev & -> & Hev)%build_seed_iso_writes _.
  rewrite Exists_app. right. constructor. by exists key.
Qed.

(** What comes before which command of the hypervisor. *)
Definition provision_order : list ((event → Prop) * string) :=
  [(name_free vbox vm, "import");
   (vbox_did vbox ["import"; str_path (template_ova (virtualbox config)); "--vsys"; "0"; "--vmname"; vm],
    "startvm");
   (seed_written, "storageattach");
   (attached vbox vm iso, "startvm")].

(** The first operation is not the command in question. *)
Ltac other_verb :=
  first [eapply speaks_guarded; [by eauto with speaks|apply (bool_decide_unpack _); vm_compute; exact I]
        |apply guarded_when; intros _; other_verb].
Ltac pass := apply guarded_bind; [other_verb|intros ?].
Ltac witness_by lem :=
  apply (guarded_bind_ensures _ _ _ _ (λ _, true)); [other_verb|apply lem|done].

Lemma provision_host_guarded G v :
  (G, v) ∈ provision_order → guarded G (λ ev, verb ev = Some v) (provision_host vbox config host).
Proof.
  intros HG. unfold provision_host. cbv zeta. fold vm iso. unfold provision_order in HG.
  rewrite !elem_of_cons, elem_of_nil in HG.
  destruct HG as [[= -> ->]|[[= -> ->]|[[= -> ->]|[[= -> ->]|[]]]]].
  - pass. witness_by destroy_frees.
  - do 2 pass. witness_by import_did.
  - do 6 pass. witness_by build_seed_writes.
  - do 7 pass. witness_by attach_did.
Qed.
End one_guest.

(** A command over this connection, whose output passes [p]. *)
Definition on_conn (c : Z) (cmd : string) (p : string → bool) (ev : event) : Prop :=
  ∃ tm st out err, ev = Ev (SshExec c cmd None tm) (Executed st out err) ∧ p out = true.

(** A connection to the address was accepted for the configured account, and
    over it cloud-init reported to be done and the guest named itself. *)
Definition identified (cfg : SSHConfig) (addr hn : string) (t : trace) : Prop :=
  ∃ c tm t1 t2, t = t1 ++ Ev (SshConnect addr (user cfg) (key_path cfg) tm) (Connected c) :: t2 ∧
    Exists (on_conn c cloud_init_command (λ out, py_in "status: done" (py_strip out))) t2 ∧
    Exists (on_conn c "hostname" (λ out, String.eqb (py_strip out) hn)) t2.

Lemma identified_r cfg addr hn t1 t2 : identified cfg addr hn t2 → identified cfg addr hn (t1 ++ t2).
Proof.
  intros (c & tm & ta & tb & -> & H1 & H2). exists c, tm, (t1 ++ ta), tb. by rewrite <- !app_assoc.
Qed.
Lemma identified_l cfg addr hn t1 t2 : identified cfg addr hn t1 → identified cfg addr hn (t1 ++ t2).
Proof.
  intros (c & tm & ta & tb & -> & H1 & H2). exists c, tm, ta, (tb ++ t2).
  rewrite !Exists_app. split_and!; [by rewrite <- !app_assoc|tauto|tauto].
Qed.

Lemma check_identity_wp config host h c s :
  s_client (session_of s (sid h)) = Some c →
  wp (check_identity config host h) s (λ t o _, o = Ok tt →
    Exists (on_conn c cloud_init_command (λ out, py_in "status: done" (py_strip out))) t ∧
    Exists (on_conn c "hostname" (λ out, String.eqb (py_strip out) (hostname host))) t).
Proof.
  intros Hc. unfold check_identity, _wait_for_cloud_init, host_hostname. do 2 wp_step.
  apply wp_host_run; [|by intros]. intros c1 [st out err|] Hc1; [|done].
  assert (c1 = c) as -> by congruence. cbn [exec_outcome andb bind_post]. cbv zeta.
  destruct (py_in _ _) eqn:Hdone; [|by apply wp_raise]. cbn [negb]. apply wp_ret. cbn [bind_post].
  do 2 wp_step. apply wp_host_run; [|by intros]. intros c2 [st2 out2 err2|] Hc2; [|done].
  assert (c2 = c) as -> by congruence. unfold exec_outcome. destruct (_ && _); [done|].
  cbn [bind_post]. apply wp_ret. cbn [bind_post stdout].
  destruct (String.eqb _ _) eqn:Hname; [|by apply wp_raise]. apply wp_ret. intros _. cbn [app].
  split; [apply Exists_cons_hd|apply Exists_cons_tl, Exists_cons_hd]; by eexists _, _, _, _.
Qed.

Lemma check_identity_op config host h : host_op (sid h) (check_identity config host h).
Proof. unfold check_identity, _wait_for_cloud_init. by host_op_auto. Qed.
Lemma check_identity_terminates config host h : terminates (check_identity config host h).
Proof. unfold check_identity, _wait_for_cloud_init. by terminates_auto. Qed.

Lemma destroy_balanced vbox vm n : balanced (destroy vbox vm n).
Proof.
  assert (∀ last, balanced (delete_attempts vbox vm n last)) as Hd.
  { induction n as [|n IH]; intros last; simpl; [apply balanced_ret|]. by balanced_auto. }
  unfold destroy. by balanced_auto.
Qed.
#[export] Hint Resolve destroy_balanced : vmdeploy.

Section one_guest_run.
Context (vbox : VBoxManage) (config : ClusterConfig) (host : HostConfig).

Lemma provision_host_identified s t addr s' :
  runs (provision_host vbox config host) s t (Ok addr) s' →
  identified (ssh config) addr (hostname host) t ∧ dotted_quad addr.
Proof.
  intros H. unfold provision_host in H. cbv zeta in H. do 9 runs_ok H.
  apply runs_bind in H as [(a & s1 & t1 & t2 & -> & Ha & H)|[(e & [=] & _)|[[=] _]]].
  apply wait_for_guest_ip_returns in Ha. runs_ok H.
  apply runs_bind in H as [(u & s2 & t3 & t4 & -> & Hb & H)|[(e & [=] & _)|[[=] _]]].
  apply runs_ret in H as (-> & [= ->] & ->). split; [|done].
  apply with_host_spec in Hb as [(e & [=] & _)|(c & s3 & tb & s4 & tc & -> & Hb & _ & _ & _ & _ & _ & Hc)];
    [|apply check_identity_op|done].
  destruct u. destruct (check_identity_wp _ _ _ _ _ Hc _ _ _ Hb eq_refl) as [Hx1 Hx2].
  do 11 apply identified_r. apply identified_l. exists c. eexists _, [_], (tb ++ tc).
  split; [reflexivity|]. rewrite !Exists_app. tauto.
Qed.

Lemma provision_host_confined : confined false [vm_name host] (provision_host vbox config host).
Proof.
  assert (vm_name host ∈ [vm_name host]) as Hin by apply list_elem_of_here.
  pose proof destroy_confined. pose proof start_headless_confined. pose proof wait_for_guest_ip_confined.
  pose proof wait_for_ssh_confined.
  unfold provision_host, bridge_interface_of, import_appliance, configure, set_bridge_adapter,
    _deployer_public_key, public_key_path, read_text_ascii, build_seed_iso, resolve_instance_id,
    check_identity, _wait_for_cloud_init. cbv zeta.
  repeat match goal with
  | |- emits _ _ (attach_optical _ _ _) =>
      unfold attach_optical, optical_slot;
      apply emits_bind; [confined_auto|intros [[? ?] ?]]
  | _ => by auto with confined
  | _ => confined_step
  end.
Qed.

Lemma provision_host_terminates : terminates (provision_host vbox config host).
Proof.
  pose proof terminates_vbox_run. pose proof check_identity_terminates.
  unfold provision_host, bridge_interface_of, import_appliance, configure, set_bridge_adapter,
    _deployer_public_key, public_key_path, read_text_ascii, build_seed_iso, resolve_instance_id,
    attach_optical, optical_slot. cbv zeta. by terminates_auto.
Qed.

Lemma provision_host_balanced : balanced (provision_host vbox config host).
Proof.
  pose proof check_identity_op.
  unfold provision_host, bridge_interface_of, import_appliance, configure, set_bridge_adapter,
    _deployer_public_key, public_key_path, read_text_ascii, build_seed_iso, resolve_instance_id,
    attach_optical, optical_slot. cbv zeta. by balanced_auto.
Qed.
End one_guest_run.

(** ** Readiness *)

(** The endpoint answered well. *)
Definition served (url : string) (ev : event) : Prop :=
  ∃ st body, ev = Ev (HttpGet url 10) (HttpStatus st body) ∧ response_ok st = true.

(** What waiting for the endpoints calls. *)
Definition ready_call (urls : list string) (ev : event) : Prop :=
  match ev_eff ev with
  | HttpGet url _ => url ∈ urls
  | Monotonic => True
  | Sleep d => d = _READINESS_POLL_SECONDS
  | _ => False
  end.

Definition timeout_error (e : exn) : Prop := class_of e = CProvisioningTimeoutError.

Lemma poll_served url last s t s' :
  runs (poll_endpoint url last) s t (Ok (inr tt)) s' → Exists (served url) t.
Proof.
  intros H. unfold poll_endpoint in H.
  apply runs_bind in H as [(r & s1 & t1 & t2 & -> & H1 & H)|[(e & [=] & _)|[[=] _]]].
  apply runs_call in H1 as (r' & -> & [= <-] & ->). rewrite Exists_app. left. constructor.
  destruct r as [st body|msg].
  - destruct (response_ok st) eqn:Hok; [by exists st, body|]. runs_ok H. run_inv1 H.
  - runs_ok H. run_inv1 H.
Qed.

Lemma poll_emits url urls last : url ∈ urls → emits (ready_call urls) timeout_error (poll_endpoint url last).
Proof.
  intros Hin. unfold poll_endpoint. apply emits_bind; [by refine (emits_call _ _ _ _)|intros [st body|msg]].
  - destruct (response_ok st); [apply emits_ret|].
    apply emits_bind; [by refine (emits_call _ _ _ _)|intros _; apply emits_ret].
  - apply emits_bind; [by refine (emits_call _ _ _ _)|intros _; apply emits_ret].
Qed.

Lemma poll_pauses url : pauses_with _READINESS_POLL_SECONDS (poll_endpoint url).
Proof.
  intros last. unfold poll_endpoint.
  apply round_pauses_bind; [by terminates_auto|by refine (emits_call _ _ _ _)|intros [st body|msg]].
  - destruct (response_ok st); [apply round_pauses_leave|apply round_pauses_sleep].
  - apply round_pauses_sleep.
Qed.

Section ready.
Context (timeout deadline : Z).

Lemma wait_endpoint_emits urls ep :
  ep.1 ∈ urls → emits (ready_call urls) timeout_error (wait_endpoint timeout deadline ep).
Proof.
  intros Hin. unfold wait_endpoint. apply emits_bind.
  - apply emits_while_with; [done|intros last; by apply poll_emits].
  - intros [last|[]]; [by apply emits_raise|apply emits_ret].
Qed.

Lemma wait_endpoint_served ep : ensures (served ep.1) (wait_endpoint timeout deadline ep) (λ _, true).
Proof.
  intros s t a s' H _. unfold wait_endpoint in H.
  apply runs_bind in H as [(r & s1 & t1 & t2 & -> & H1 & H)|[(e & [=] & _)|[[=] _]]].
  apply runs_while_with in H1. destruct r as [last|[]]; [run_inv1 H|].
  destruct H1 as (st & s2 & t3 & t4 & -> & H1%poll_served). rewrite !Exists_app. tauto.
Qed.

(** A raise comes at or after the deadline. *)
Lemma wait_endpoint_late ep s t e s' :
  runs (wait_endpoint timeout deadline ep) s t (Raise e) s' →
  ∃ t1 n, t = t1 ++ [Ev Monotonic n] ∧ (deadline ≤ n)%Z.
Proof.
  intros H. unfold wait_endpoint in H.
  apply runs_bind in H as [(r & s1 & t1 & t2 & -> & H1 & H)|[(e' & _ & H)|[[=] _]]].
  - apply runs_while_with in H1. destruct r as [last|[]]; [|run_inv1 H].
    destruct H1 as (t3 & n & -> & Hn). run_inv1 H. exists t3, n. by rewrite app_nil_r.
  - apply runs_while_with in H as (st & s1 & t1 & t2 & -> & H). exfalso. unfold poll_endpoint in H.
    apply runs_bind in H as [(r & s2 & t3 & t4 & -> & H1 & H)|[(e2 & _ & H)|[[=] _]]]; [|run_inv1 H].
    assert (∀ (P : M (string + unit)) x, (P = (call (Sleep _READINESS_POLL_SECONDS) ;; ret (inl x))) →
      ∀ s t e s', ¬ runs P s t (Raise e) s') as Hs.
    { intros P x -> s3 t5 e3 s4 Hr.
      apply runs_bind in Hr as [(? & ? & ? & ? & -> & _ & Hr)|[(? & _ & Hr)|[[=] _]]]; run_inv1 Hr. }
    destruct r as [st1 body|msg]; [destruct (response_ok st1); [run_inv1 H|]|]; by eapply Hs in H.
Qed.

Lemma for_each_served eps :
  ∀ s t s', runs (for_each eps (wait_endpoint timeout deadline)) s t (Ok tt) s' →
  Forall (λ ep, Exists (served ep.1) t) eps.
Proof.
  induction eps as [|ep eps IH]; intros s t s' H; [constructor|]. simpl in H.
  apply runs_bind in H as [(u & s1 & t1 & t2 & -> & H1 & H)|[(e & [=] & _)|[[=] _]]].
  constructor; [rewrite Exists_app; left; by eapply wait_endpoint_served|].
  eapply Forall_impl; [by eapply IH|]. intros ep' Hex. rewrite Exists_app. by right.
Qed.

Lemma for_each_late eps :
  ∀ s t e s', runs (for_each eps (wait_endpoint timeout deadline)) s t (Raise e) s' →
  ∃ t1 n, t = t1 ++ [Ev Monotonic n] ∧ (deadline ≤ n)%Z.
Proof.
  induction eps as [|ep eps IH]; intros s t e s' H; simpl in H; [run_inv1 H|].
  apply runs_bind in H as [(u & s1 & t1 & t2 & -> & _ & H)|[(e' & _ & H)|[[=] _]]];
    [|by eapply wait_endpoint_late].
  destruct (IH _ _ _ _ H) as (t3 & n & -> & Hn). exists (t1 ++ t3), n. by rewrite app_assoc.
Qed.
End ready.

Lemma for_each_terminates timeout eps : ∀ now deadline s t o s',
  runs (for_each eps (wait_endpoint timeout deadline)) s t o s' → clock_ok now t →
  (deadline ≤ now + seconds timeout)%Z → o ≠ OutOfFuel.
Proof.
  induction eps as [|ep eps IH]; intros now deadline s t o s' H Hc Hd; simpl in H; [by run_inv1 H|].
  assert (∀ s t o s', runs (wait_endpoint timeout deadline ep) s t o s' → clock_ok now t →
    o ≠ OutOfFuel ∧ (now ≤ clock_end now t)%Z) as Hone.
  { intros s1 t1 o1 s2 H1 Hc1. split.
    - unfold wait_endpoint in H1.
      apply runs_bind in H1 as [(r & s3 & t3 & t4 & -> & H3 & H1)|[(e & -> & H1)|[-> H1]]]; [|done|].
      + destruct r as [?|[]]; by run_inv1 H1.
      + by eapply terminates_while_with in H1; [|done|apply poll_pauses|exact Hc1|exact Hd].
    - apply clock_end_le; [|done].
      destruct (wait_endpoint_emits timeout deadline [ep.1] ep (list_elem_of_here _ _) _ _ _ _ H1) as [Ht _].
      eapply Forall_impl; [exact Ht|]. intros ev. unfold ready_call, no_negative_pause.
      destruct (ev_eff ev); try done. by intros ->. }
  apply runs_bind in H as [(u & s1 & t1 & t2 & -> & H1 & H)|[(e & -> & H)|[-> H]]]; [|done|].
  - apply clock_ok_app in Hc as [Hc1 Hc2]. destruct (Hone _ _ _ _ H1 Hc1) as [_ Hle].
    eapply IH; [exact H|exact Hc2|lia].
  - by destruct (Hone _ _ _ _ H Hc).
Qed.

Lemma ready_terminates config addr timeout : terminates (wait_for_cluster_ready config addr timeout).
Proof.
  intros now s t o s' H Hc. unfold wait_for_cluster_ready in H.
  apply runs_bind in H as [(n & s1 & t1 & t2 & -> & H1 & H)|[(e & -> & H)|[-> H]]]; [|done|run_inv1 H].
  apply runs_call in H1 as (r & -> & [= <-] & ->). simpl in Hc. destruct Hc as [_ Hc].
  by eapply for_each_terminates.
Qed.
#[export] Hint Resolve ready_terminates : vmdeploy.

Lemma ready_served config addr timeout s t s' :
  runs (wait_for_cluster_ready config addr timeout) s t (Ok tt) s' →
  Forall (λ ep, Exists (served ep.1) t) (endpoints config addr).
Proof.
  intros H. unfold wait_for_cluster_ready in H. runs_ok H.
  eapply Forall_impl; [by eapply for_each_served|]. intros ep Hex. rewrite Exists_app. by right.
Qed.

(** ** The cluster, guest by guest *)

(** The runs of the guests, one after another: each part of the run changes
    the machine of one guest only and ends once that guest named itself. *)
Definition in_turn (config : ClusterConfig) (hosts : list HostConfig) (parts : list (trace * string)) : Prop :=
  Forall2 (λ h part, identified (ssh config) part.2 (hostname h) part.1 ∧
    Forall (may false [vm_name h]) part.1 ∧ dotted_quad part.2) hosts parts.

(** The dictionary filled in that order. *)
Fixpoint filled (found : addresses) (hosts : list HostConfig) (parts : list (trace * string)) : addresses :=
  match hosts, parts with
  | h :: hosts, part :: parts => filled (dict_set (hostname h) part.2 found) hosts parts
  | _, _ => found
  end.

Lemma provision_hosts_in_turn vbox config hosts found s t r s' :
  runs (provision_hosts vbox config hosts found) s t (Ok r) s' →
  ∃ parts, t = concat parts.*1 ∧ in_turn config hosts parts ∧ r = filled found hosts parts.
Proof.
  revert found s t. induction hosts as [|h hosts IH]; intros found s t H; simpl in H.
  { apply runs_ret in H as (-> & [= ->] & ->). exists []. by repeat constructor. }
  apply runs_bind in H as [(addr & s1 & t1 & t2 & -> & H1 & H)|[(e & [=] & _)|[[=] _]]].
  destruct (IH _ _ _ H) as (parts & -> & Hin & ->).
  exists ((t1, addr) :: parts). split_and!; [done| |done].
  constructor; [|done]. destruct (provision_host_identified _ _ _ _ _ _ _ H1) as [? ?].
  split_and!; [done| |done]. by destruct (provision_host_confined _ _ _ _ _ _ _ H1).
Qed.

Lemma filled_get config hosts parts found h :
  in_turn config hosts parts → NoDup (hostname <$> hosts) →
  (∀ part, (h, part) ∈ zip hosts parts → dict_get (hostname h) (filled found hosts parts) = Some part.2) ∧
  (hostname h ∉ hostname <$> hosts →
   dict_get (hostname h) (filled found hosts parts) = dict_get (hostname h) found).
Proof.
  intros Hin. revert found. induction Hin as [|h0 part0 hosts parts _ _ IH]; intros found Hnd.
  { split; [by intros ? ?%elem_of_nil|done]. }
  simpl in Hnd. apply NoDup_cons in Hnd as [Hni Hnd]. split.
  - intros part [[= -> ->]|Hz]%elem_of_cons; simpl.
    + destruct (IH (dict_set (hostname h0) part0.2 found) Hnd) as [_ IH2].
      rewrite IH2 by done. apply dict_get_set_eq.
    + by apply IH.
  - simpl. rewrite not_elem_of_cons. intros [Hne Hn].
    destruct (IH (dict_set (hostname h0) part0.2 found) Hnd) as [_ IH2]. rewrite IH2 by done.
    by apply dict_get_set_ne.
Qed.

Lemma provision_hosts_confined vbox config hosts found :
  confined false (vm_name <$> hosts) (provision_hosts vbox config hosts found).
Proof.
  revert found. induction hosts as [|h hosts IH]; intros found; simpl; [apply emits_ret|].
  apply emits_bind; [|intros addr].
  - eapply confined_weaken; [|apply provision_host_confined]. set_solver.
  - eapply confined_weaken; [|apply IH]. set_solver.
Qed.

Lemma provision_hosts_terminates vbox config hosts found : terminates (provision_hosts vbox config hosts found).
Proof.
  revert found. induction hosts as [|h hosts IH]; intros found; simpl; [apply terminates_ret|].
  apply terminates_bind; [apply provision_host_terminates|done].
Qed.
Lemma provision_hosts_balanced vbox config hosts found : balanced (provision_hosts vbox config hosts found).
Proof.
  revert found. induction hosts as [|h hosts IH]; intros found; simpl; [apply balanced_ret|].
  apply balanced_bind; [apply provision_host_balanced|done].
Qed.

(** ** Teardown *)

Lemma teardown_confined vbox hosts :
  confined false (vm_name <$> hosts) (for_each hosts (λ h, destroy vbox (vm_name h) 3)).
Proof.
  apply emits_for_each. intros h Hh. apply destroy_confined. by apply list_elem_of_fmap_2.
Qed.

(** Every guest is gone, each deleted only once it was seen not to run. *)
Lemma teardown_gone vbox hosts s t s' :
  runs (for_each hosts (λ h, destroy vbox (vm_name h) 3)) s t (Ok tt) s' →
  ∃ parts, t = concat parts ∧ Forall2 (λ h part, ends_gone vbox (vm_name h) part ∧
    stopped_before_delete vbox (vm_name h) part) hosts parts.
Proof.
  revert s t. induction hosts as [|h hosts IH]; intros s t H; simpl in H.
  { apply runs_ret in H as (-> & _ & ->). exists []. by constructor. }
  apply runs_bind in H as [([] & s1 & t1 & t2 & -> & H1 & H)|[(e & [=] & _)|[[=] _]]].
  destruct (IH _ _ H) as (parts & -> & Hf). exists (t1 :: parts). split; [done|].
  constructor; [|done]. destruct (destroy_spec _ _ _ _ _ _ _ H1). by split; [auto|].
Qed.

(** ** Addresses *)

Section addresses.
Context (vbox : VBoxManage).

(** The machine was seen running. *)
Definition seen_running (vm : string) (t : trace) : Prop := Exists (state_answer vbox vm RUNNING) t.

Lemma collect_reports hosts found s t r s' :
  runs (collect_addresses vbox hosts found) s t (Ok r) s' →
  ∀ hn a, dict_get hn r = Some a → dict_get hn found = Some a ∨
    ∃ h, h ∈ hosts ∧ hostname h = hn ∧ dotted_quad a ∧ seen_running (vm_name h) t.
Proof.
  revert found s t. induction hosts as [|h hosts IH]; intros found s t H hn a Hr; simpl in H.
  { apply runs_ret in H as (-> & [= ->] & ->). by left. }
  apply runs_bind in H as [(st & s1 & t1 & t2 & -> & H1 & H)|[(e & [=] & _)|[[=] _]]].
  destruct (negb (is_running st)) eqn:Hst.
  { destruct (IH _ _ _ H _ _ Hr) as [?|(h' & Hh & ? & ? & Hs)]; [by left|right]. exists h'.
    split_and!; [by constructor|done|done|]. unfold seen_running. rewrite Exists_app. by right. }
  apply runs_bind in H as [(ga & s2 & t3 & t4 & -> & H2 & H)|[(e & [=] & _)|[[=] _]]].
  assert (Exists (state_answer vbox (vm_name h) RUNNING) t1) as Hseen.
  { revert H1. cut (wp (vm_state vbox (vm_name h)) s (λ t o _,
      o = Ok st → Exists (state_answer vbox (vm_name h) RUNNING) t)).
    { intros Hwp H1. exact (Hwp _ _ _ H1 eq_refl). }
    apply wp_vm_state; [|done]. intros ev st' Hev [= ->]. constructor.
    apply negb_false_iff in Hst. unfold is_running in Hst. by apply bool_decide_eq_true in Hst as ->. }
  assert (∀ a', ga = Some a' → dotted_quad a') as Hquad.
  { intros a' ->. unfold guest_address in H2.
    apply runs_catch in H2 as [(e & m' & s3 & t5 & t6 & -> & _ & He & H2)|[H2 _]].
    - destruct (isinstance _ _); [|done]. injection He as <-. run_inv1 H2.
    - apply runs_bind in H2 as [(a1 & s3 & t5 & t6 & -> & H2 & H3)|[(e & [=] & _)|[[=] _]]].
      apply runs_ret in H3 as (-> & [= ->] & ->). by eapply wait_for_guest_ip_returns. }
  destruct (IH _ _ _ H _ _ Hr) as [Hf|(h' & Hh & ? & ? & Hs)].
  - destruct ga as [a'|]; [|by left]. rewrite dict_get_set in Hf.
    destruct (String.eqb_spec (hostname h) hn) as [Heq|]; [|by left]. injection Hf as <-.
    right. exists h. split_and!; [by constructor|done|by apply Hquad|].
    unfold seen_running. rewrite Exists_app. by left.
  - right. exists h'. split_and!; [by constructor|done|done|].
    unfold seen_running. rewrite !Exists_app. by right; right.
Qed.

Lemma collect_confined hosts found : confined false [] (collect_addresses vbox hosts found).
Proof.
  pose proof (vm_state_confined vbox false []). pose proof wait_for_guest_ip_confined.
  revert found. induction hosts as [|h hosts IH]; intros found; simpl; [apply emits_ret|].
  unfold guest_address. confined_auto.
Qed.
(** A guest without an address in time is no error. *)
Lemma collect_errors hosts found : emits (λ _, True) vbox_error (collect_addresses vbox hosts found).
Proof.
  revert found. induction hosts as [|h hosts IH]; intros found; simpl; [apply emits_ret|].
  apply emits_bind; [unfold vm_state; apply emits_bind; [by apply emits_vbox_run|intros ?; apply emits_ret]|].
  intros st. destruct (negb _); [apply IH|]. apply emits_bind; [|intros r; apply IH].
  unfold guest_address. apply (emits_catch _ _ vm_error).
  - apply emits_bind; [|intros ?; apply emits_ret].
    eapply emits_weaken; [apply wait_for_guest_ip_looks|done|done].
  - intros e [He|He]; destruct (isinstance e _) eqn:Hi; try done; [apply emits_ret..|].
    unfold isinstance in Hi. by rewrite He in Hi.
Qed.
Lemma collect_terminates hosts found : terminates (collect_addresses vbox hosts found).
Proof.
  revert found. induction hosts as [|h hosts IH]; intros found; simpl; [apply terminates_ret|].
  unfold guest_address. by terminates_auto.
Qed.
Lemma collect_balanced hosts found : balanced (collect_addresses vbox hosts found).
Proof.
  revert found. induction hosts as [|h hosts IH]; intros found; simpl; [apply balanced_ret|].
  unfold guest_address. by balanced_auto.
Qed.
End addresses.

(** ** Properties *)

(** C21: a guest is provisioned in order and returned only when it is who it
    should be.  In every run of [provision_host], however it ends: the
    appliance is imported only after a listing of the machines without the
    name; the seed is put in the drive only after the image with the guest's
    hostname and the operational account was written; the machine is started
    only after the import succeeded and the seed is in its drive; no other
    machine is changed and nothing is exported; every session opened is closed
    and the run ends.  A run that returns an address returns a dotted quad at
    which, over one connection with the deployer's key, cloud-init reported to
    be done and the guest gave the hostname it was meant to have. *)
Theorem guest_provisioned_in_order vbox config host now s t o s' :
  runs (provision_host vbox config host) s t o s' → clock_ok now t →
  Forall (λ '(G, v), preceded G (λ ev, verb ev = Some v) t) (provision_order vbox config host) ∧
  Forall (may false [vm_name host]) t ∧
  opened t = closed t ∧ o ≠ OutOfFuel ∧
  (∀ addr, o = Ok addr → identified (ssh config) addr (hostname host) t ∧ dotted_quad addr).
Proof.
  intros H Hc. pose proof (provision_host_terminates vbox config host _ _ _ _ _ H Hc) as Ho.
  split_and!; [| |by eapply provision_host_balanced|done|].
  - apply Forall_forall. intros [G v] HG. by eapply provision_host_guarded.
  - by destruct (provision_host_confined vbox config host _ _ _ _ H).
  - intros addr ->. by eapply provision_host_identified.
Qed.

Definition sample_guest : HostConfig := sample_backend "web1".
Definition sample_provision : M string := provision_host sample_vbox sample_cluster sample_guest.

Lemma guest_provisioned_in_order_witness :
  outcome_in site_world sample_provision site = Ok "10.0.0.7" ∧
  identified sample_ssh "10.0.0.7" "web1" (trace_in site_world sample_provision site) ∧
  Forall (λ '(G, v), preceded G (λ ev, verb ev = Some v) (trace_in site_world sample_provision site))
    (provision_order sample_vbox sample_cluster sample_guest).
Proof.
  assert (outcome_in site_world sample_provision site = Ok "10.0.0.7") as Ho by (by vm_compute).
  assert (clock_ok 0 (trace_in site_world sample_provision site)) as Hc by clock_tac.
  destruct (run_in_runs site_world sample_provision site) as [s' H].
  destruct (guest_provisioned_in_order _ _ _ _ _ _ _ _ H Hc) as (Hp & _ & _ & _ & Hi).
  split; [exact Ho|]. split; [exact (proj1 (Hi _ Ho))|exact Hp].
Defined.

(** The cluster is provisioned one guest at a time.  A run of
    [provision_cluster] that returns is the runs of its hosts one after
    another, in the order of the configuration, each changing only its own
    machine and ending once its guest named itself over SSH, so that no two
    guests ever boot at once; the result maps every hostname to the address at
    which that guest answered, when the hostnames differ.  However it ends, no
    machine but the cluster's is changed, which for a configuration that loads
    leaves the template alone. *)
Theorem cluster_provisioned_in_turn vbox config now s t o s' :
  runs (provision_cluster vbox config) s t o s' → clock_ok now t →
  NoDup (hostname <$> all_hosts config) → valid_config config →
  o ≠ OutOfFuel ∧ opened t = closed t ∧
  Forall (may false (vm_names config)) t ∧
  Forall (λ ev, changes ev ≠ Some (template_vm (virtualbox config))) t ∧
  (∀ r, o = Ok r → ∃ parts, t = concat parts.*1 ∧ in_turn config (all_hosts config) parts ∧
     ∀ h part, (h, part) ∈ zip (all_hosts config) parts → dict_get (hostname h) r = Some part.2).
Proof.
  intros H Hc Hnd Hv. unfold provision_cluster in H.
  pose proof (provision_hosts_terminates _ _ _ _ _ _ _ _ _ H Hc) as Ho.
  destruct (provision_hosts_confined _ _ _ _ _ _ _ _ H) as [Ht _].
  split_and!; [done|by eapply provision_hosts_balanced|exact Ht| |].
  - eapply Forall_impl; [exact Ht|]. intros ev [Hev _] Hch. by apply (vc_template config Hv), Hev.
  - intros r ->. destruct (provision_hosts_in_turn _ _ _ _ _ _ _ _ H) as (parts & -> & Hin & ->).
    exists parts. split_and!; [done..|]. intros h part Hz.
    by apply (filled_get config (all_hosts config) parts [] h Hin Hnd).
Qed.

Lemma sample_cluster_valid : valid_config sample_cluster.
Proof.
  assert (∀ n, n ∈ ["web1"; "web2"] → valid_host BACKEND (sample_backend n)) as Hb.
  { intros n Hn. rewrite !elem_of_cons, elem_of_nil in Hn. by destruct Hn as [->|[->|[]]]; repeat split. }
  constructor; try by (repeat split).
  - apply Forall_cons. split; [apply Hb; left|]. apply Forall_cons. split; [apply Hb; right; left|constructor].
  - apply (bool_decide_unpack _). by vm_compute.
  - apply (bool_decide_unpack _). by vm_compute.
  - repeat constructor.
Qed.

Lemma cluster_provisioned_in_turn_witness :
  outcome_in site_world (provision_cluster sample_vbox sample_cluster) site =
    Ok [("jump", "10.0.0.4"); ("web1", "10.0.0.7"); ("web2", "10.0.0.8")] ∧
  Forall (λ ev, changes ev ≠ Some "template")
    (trace_in site_world (provision_cluster sample_vbox sample_cluster) site).
Proof.
  set (m := provision_cluster sample_vbox sample_cluster).
  assert (clock_ok 0 (trace_in site_world m site)) as Hc by clock_tac.
  destruct (run_in_runs site_world m site) as [s' H].
  split; [by vm_compute|].
  refine (proj1 (proj2 (proj2 (proj2
    (cluster_provisioned_in_turn _ _ _ _ _ _ _ H Hc _ sample_cluster_valid))))).
  apply (bool_decide_unpack _). by vm_compute.
Defined.

(** C22: the cluster is called ready only when it serves.
    [wait_for_cluster_ready] ends, whatever the endpoints do; it returns only
    if the balancer at port 80 and the inventory service at its configured
    port each answered a GET with a status that is not an error; it raises
    only [ProvisioningTimeoutError], at a reading of the clock that is past
    the deadline; and it asks for nothing else. *)
Theorem ready_means_served config addr timeout now s t o s' :
  runs (wait_for_cluster_ready config addr timeout) s t o s' → clock_ok now t →
  o ≠ OutOfFuel ∧
  (o = Ok tt → Forall (λ ep, Exists (served ep.1) t) (endpoints config addr)) ∧
  (∀ e, o = Raise e → timeout_error e ∧
     ∃ start t1 n, head t = Some (Ev Monotonic start) ∧ t = t1 ++ [Ev Monotonic n] ∧
       (start + seconds timeout ≤ n)%Z) ∧
  Forall (ready_call (endpoints config addr).*1) t.
Proof.
  intros H Hc. pose proof (ready_terminates config addr timeout _ _ _ _ _ H Hc) as Ho.
  assert (o = Ok tt → Forall (λ ep, Exists (served ep.1) t) (endpoints config addr)) as Hok
    by (by intros ->; eapply ready_served).
  unfold wait_for_cluster_ready in H.
  apply runs_bind in H as [(n & s1 & t1 & t2 & -> & H1 & H)|[(e & -> & H)|[-> H]]]; [|run_inv1 H|done].
  apply runs_call in H1 as (r & -> & [= <-] & ->).
  assert (emits (ready_call (endpoints config addr).*1) timeout_error
    (for_each (endpoints config addr) (wait_endpoint timeout (n + seconds timeout)%Z))) as Hem.
  { apply emits_for_each. intros ep Hep. apply wait_endpoint_emits. by apply list_elem_of_fmap_2. }
  destruct (Hem _ _ _ _ H) as [Ht He]. split_and!; [done| | |by constructor].
  - exact Hok.
  - intros e ->. split; [by apply He|]. apply for_each_late in H as (t3 & m & -> & Hm).
    by exists n, (Ev Monotonic n :: t3), m.
Qed.

Lemma ready_means_served_witness :
  let m := wait_for_cluster_ready sample_cluster "10.0.0.4" 180 in
  outcome_in site_world m site = Ok tt ∧
  Exists (served "http://10.0.0.4:9090/healthz") (trace_in site_world m site).
Proof.
  intros m. assert (outcome_in site_world m site = Ok tt) as Ho by (by vm_compute).
  assert (clock_ok 0 (trace_in site_world m site)) as Hc by clock_tac.
  destruct (run_in_runs site_world m site) as [s' H].
  pose proof (proj1 (proj2 (ready_means_served _ _ _ _ _ _ _ _ H Hc)) Ho) as Hs.
  split; [exact Ho|]. by apply Forall_cons in Hs as [_ [Hs _]%Forall_cons].
Defined.

(** Teardown removes the cluster and only the cluster.  In every run of
    [teardown_cluster] no machine is changed but those of the configuration,
    so the template is left alone, and nothing is exported; the run ends; when
    it returns, each guest in turn was missing from a listing, and was deleted
    only after it was seen not to run. *)
Theorem teardown_spares_the_rest vbox config now s t o s' :
  runs (teardown_cluster vbox config) s t o s' → clock_ok now t → valid_config config →
  o ≠ OutOfFuel ∧
  Forall (may false (vm_names config)) t ∧
  Forall (λ ev, changes ev ≠ Some (template_vm (virtualbox config))) t ∧
  (o = Ok tt → ∃ parts, t = concat parts ∧ Forall2 (λ h part, ends_gone vbox (vm_name h) part ∧
     stopped_before_delete vbox (vm_name h) part) (all_hosts config) parts).
Proof.
  intros H Hc Hv. unfold teardown_cluster in H.
  destruct (teardown_confined _ _ _ _ _ _ H) as [Ht _]. split_and!; [|exact Ht| |].
  - revert H Hc. cut (terminates (for_each (all_hosts config) (λ h, destroy vbox (vm_name h) 3)));
      [by eauto|]. by terminates_auto.
  - eapply Forall_impl; [exact Ht|]. intros ev [Hev _] Hch. by apply (vc_template config Hv), Hev.
  - intros ->. by eapply teardown_gone.
Qed.

Definition full_site : vm_host :=
  MkVmHost [("template", false); ("vm-jump", true); ("vm-web1", true); ("vm-web2", false)] 0 true.

Lemma teardown_spares_the_rest_witness :
  let m := teardown_cluster sample_vbox sample_cluster in
  machines (run_in site_world m full_site).1.2 = [("template", false)] ∧
  ∃ parts, trace_in site_world m full_site = concat parts ∧
    Forall2 (λ h part, ends_gone sample_vbox (vm_name h) part ∧
      stopped_before_delete sample_vbox (vm_name h) part) (all_hosts sample_cluster) parts.
Proof.
  intros m. assert (outcome_in site_world m full_site = Ok tt) as Ho by (by vm_compute).
  assert (clock_ok 0 (trace_in site_world m full_site)) as Hc by clock_tac.
  destruct (run_in_runs site_world m full_site) as [s' H]. split; [by vm_compute|].
  exact (proj2 (proj2 (proj2 (teardown_spares_the_rest _ _ _ _ _ _ _ H Hc sample_cluster_valid))) Ho).
Defined.

(** The addresses reported are those of running guests.
    [cluster_addresses] changes no machine and ends; every address it maps a
    hostname to is a dotted quad, found for a host of the configuration with
    that hostname whose machine was seen running; a guest that reports no
    address in time is left out instead of failing the rest. *)
Theorem addresses_of_running_guests vbox config now s t o s' :
  runs (cluster_addresses vbox config) s t o s' → clock_ok now t →
  o ≠ OutOfFuel ∧ Forall (may false []) t ∧
  (∀ r hn a, o = Ok r → dict_get hn r = Some a →
     ∃ h, h ∈ all_hosts config ∧ hostname h = hn ∧ dotted_quad a ∧ seen_running vbox (vm_name h) t) ∧
  (∀ e, o = Raise e → ¬ timeout_error e).
Proof.
  intros H Hc. unfold cluster_addresses in H.
  split_and!; [by eapply collect_terminates|by destruct (collect_confined _ _ _ _ _ _ _ H)| |].
  - intros r hn a -> Hr. destruct (collect_reports _ _ _ _ _ _ _ H _ _ Hr) as [[=]|Hh]. exact Hh.
  - intros e -> He. destruct (collect_errors _ _ _ _ _ _ _ H) as [_ Hx]. specialize (Hx e eq_refl).
    unfold timeout_error, vbox_error in *. congruence.
Qed.

Lemma addresses_of_running_guests_witness :
  let m := cluster_addresses sample_vbox sample_cluster in
  outcome_in site_world m full_site = Ok [("jump", "10.0.0.4"); ("web1", "10.0.0.7")] ∧
  ∃ h, h ∈ all_hosts sample_cluster ∧ hostname h = "web1" ∧ dotted_quad "10.0.0.7" ∧
    seen_running sample_vbox (vm_name h) (trace_in site_world m full_site).
Proof.
  intros m. assert (outcome_in site_world m full_site = Ok [("jump", "10.0.0.4"); ("web1", "10.0.0.7")])
    as Ho by (by vm_compute).
  assert (clock_ok 0 (trace_in site_world m full_site)) as Hc by clock_tac.
  destruct (run_in_runs site_world m full_site) as [s' H]. split; [exact Ho|].
  exact (proj1 (proj2 (proj2 (addresses_of_running_guests _ _ _ _ _ _ _ H Hc))) _ "web1" "10.0.0.7" Ho eq_refl).
Defined.
