(* ===== verification/Accounts.v ===== *)
(** * Setup against a guest with accounts

    What the guest is, as far as setup relies on it: the accounts that have a
    way in, the account behind every connection, and the files staged for
    installation ([Guest], with its laws in [GuestLaws]).  An account has a
    way in when the guest accepts its key and lets it become root.  Against
    any such guest, no run of [run_setup] visits a state in which neither the
    bootstrap account nor the new one has a way in.  The guest is the machine
    that answers at the address of the template; the keys themselves, on the
    automation host, are not part of it. *)

From stdpp Require Import gmap.
From S2P Require Import Prelude PyStr Exceptions Paths Effects Reasoning Worlds Values Bytes Sha256.
From S2P Require Import Json Inventory Config VirtualBox VirtualBoxFacts SshClient SshFacts Apache Setup SetupFacts ClusterFacts.

#[export] Set Default Goal Selector "!".

(** ** What leaves an account alone *)

(** Names the guest's tools take for the name of an account and nothing else. *)
Definition name_char (c : ascii) : bool :=
  is_lower_az c || is_digit c || Ascii.eqb c "_" || Ascii.eqb c "-".
Definition plain_name (u : string) : bool :=
  match u with "" => false | String c _ => negb (Ascii.eqb c "-") && str_forall name_char u end.

(** The commands that change an account, as root. *)
Definition account_commands (u : string) : list string :=
  ["useradd --create-home --shell /bin/bash " +:+ u; "usermod -aG sudo " +:+ u; ssh_dir_command u;
   "chown " +:+ u +:+ ":" +:+ u +:+ " " +:+ authorized_keys u; "chmod 600 " +:+ authorized_keys u;
   visudo u] ++ disable_commands u.

(** Commands to the hypervisor that leave the disk of a guest as it is. *)
Definition harmless_verbs : list string := ["list"; "showvminfo"; "guestproperty"; "startvm"].

(** A call that is neither a command nor a file for the guest. *)
Definition elsewhere (ev : event) : Prop :=
  match ev_eff ev with
  | SshExec _ _ _ _ | SftpWrite _ _ _ | SftpPut _ _ _ => False
  | _ => ∀ v, verb ev = Some v → v ∈ harmless_verbs
  end.

(** Calls that are about no account, or about another one than [v]. *)
Inductive spares (v : string) (ev : event) : Prop :=
  | spares_elsewhere : elsewhere ev → spares v ev
  | spares_true : plain "true" ev → spares v ev
  | spares_id u : plain_name u = true → plain ("id -u " +:+ u) ev → spares v ev
  | spares_stage ch random payload :
      ev_eff ev = SftpWrite ch (staging_path random) payload → spares v ev
  | spares_unstage random : plain ("rm -f " +:+ staging_path random) ev → spares v ev
  | spares_verify : privileged verify_command ev → spares v ev
  | spares_account u cmd :
      plain_name u = true → u ≠ v → cmd ∈ account_commands u → privileged cmd ev → spares v ev
  | spares_key u random :
      plain_name u = true → u ≠ v →
      privileged (install_command mode_600 (staging_path random) (authorized_keys u)) ev → spares v ev.

(** The file of the sudo rule of [u] is put in its place. *)
Definition installs_rule (random : bytes) (u : string) : event → Prop :=
  privileged (install_command mode_440 (staging_path random) (sudoers_file u)).

(** ** The interface *)

Class Guest : Type := {
  gs_state : Type;
  (** The accounts the guest lets in with their key and lets become root. *)
  gs_access : gs_state → gset string;
  (** The account each connection was accepted for. *)
  gs_logins : gs_state → gmap Z string;
  (** The contents of the files at the staging paths. *)
  gs_staged : gs_state → gmap string bytes;
  gs_answers : gs_state → event → gs_state → Prop }.

(** What setup relies on. *)
Class GuestLaws (g : Guest) : Prop := {
  (** Nothing else takes the way in from an account. *)
  gs_spares w ev w' v : gs_answers w ev w' → spares v ev → v ∈ gs_access w → v ∈ gs_access w';
  (** A connection is the account's it was accepted for. *)
  gs_connect w addr u k tm c w' : gs_answers w (Ev (SshConnect addr u k tm) (Connected c)) w' →
    gs_logins w' !! c = Some u;
  gs_connected w ev w' : gs_answers w ev w' → opened_by ev = None → gs_logins w' = gs_logins w;
  (** A file that was written is there until another command than its
      installation. *)
  gs_write w ch p payload w' : gs_answers w (Ev (SftpWrite ch p payload) (IoOk tt)) w' →
    gs_staged w' !! p = Some payload;
  gs_reads w ev w' random u : gs_answers w ev w' → ev_eff ev = Environ ∨ installs_rule random u ev →
    gs_staged w' = gs_staged w;
  (** A well-formed rule for an account takes no way in from any. *)
  gs_rule w ev w' random u v : gs_answers w ev w' → installs_rule random u ev → plain_name u = true →
    Some <$> gs_staged w !! staging_path random = Some (ascii_encode (sudoers_rule u)) →
    v ∈ gs_access w → v ∈ gs_access w';
  (** Only root has the number zero. *)
  gs_root w c cmd stdin tm out err w' :
    gs_answers w (Ev (SshExec c cmd stdin tm) (Executed 0 out err)) w' →
    cmd = sudo_n verify_command ∨ cmd = sudo_S verify_command → py_strip out = "0" →
    ∀ u, gs_logins w !! c = Some u → u ∈ gs_access w' }.

(** ** Calls that spare an account *)

Lemma emits_host_run I h cmd check timeout :
  (∀ ev, plain cmd ev → I ev) → emits I (λ _, True) (host_run h cmd check timeout).
Proof.
  intros HI s t o s' H. revert t o s' H. apply wp_host_run; [|done]. intros c r _. split; [|done].
  constructor; [|constructor]. apply HI. by eexists _, _, _.
Qed.

Lemma emits_sudo (I : event → Prop) h cmd check timeout :
  (∀ ev, privileged cmd ev → I ev) → (∀ r, I (Ev Environ r)) →
  emits I (λ _, True) (sudo h cmd check timeout).
Proof.
  intros HI HE s t o s' H. revert t o s' H. apply wp_sudo. intros t o Ht _ _ _. split; [|done].
  eapply Forall_impl; [exact Ht|]. intros [e r] Hev. unfold sudo_event in Hev. cbn [ev_eff] in Hev.
  destruct e; try done; apply HI. destruct Hev as [[-> _]|[-> _]]; [left|right]; by eexists _, _, _.
Qed.

Lemma emits_sftp (I : event → Prop) h : (∀ c r, I (Ev (SftpOpen c) r)) → emits I (λ _, True) (sftp h).
Proof.
  intros HI. unfold sftp, host_client.
  repeat match goal with
  | |- emits _ _ (get_session _) => by intros ? ? ? ? (-> & -> & ->)%runs_get_session
  | |- emits _ _ (set_sftp _ _) => by intros ? ? ? ? (-> & -> & ->)%runs_set_sftp
  | |- emits _ _ (raise _) => by apply emits_raise
  | |- emits _ _ (call _) => refine (emits_call _ _ _ _); intros ?; apply HI
  | _ => emits_step
  end.
Qed.

Lemma plumbing_elsewhere ev : plumbing ev → elsewhere ev.
Proof. intros H. unfold elsewhere, plumbing, verb in *. by destruct (ev_eff ev). Qed.

Ltac elsewhere_tac := apply spares_elsewhere; first [done|verb_tac].

Ltac spares_step :=
  lazymatch goal with
  | |- emits _ _ (vbox_run _ _ _ _) => apply emits_vbox_run; [intros ?; elsewhere_tac|done]
  | |- emits _ _ (call ?e) => refine (emits_call _ _ e _); intros ?; elsewhere_tac
  | |- emits _ _ (raise _) => by apply emits_raise
  | |- emits _ _ (lift_io _) => by apply emits_lift_io
  | |- emits _ _ (lift_res _) => by apply emits_lift_res
  | |- emits _ _ (rewrap _ _ _) => apply (emits_rewrap _ _ (λ _, True)); [|done..]
  | |- emits _ _ (catch _ _) => apply emits_catch_same; [|handler_cases; intros _]
  | |- emits _ _ (while_before _ _ _) => apply emits_while_before; [intros ?; elsewhere_tac|]
  | |- emits _ _ (while_with _ _ _ _) => apply emits_while_with; [intros ?; elsewhere_tac|intros [? ?]]
  | |- emits _ _ (with_host _ _ _) =>
      apply with_host_emits; [intros ? ?; by apply spares_elsewhere, plumbing_elsewhere|done|intros ?]
  | |- emits _ _ (host_run _ "true" _ _) => apply emits_host_run; by apply spares_true
  | |- emits _ _ (host_run _ ("rm -f " +:+ staging_path _) _ _) =>
      apply emits_host_run; intros ?; by apply spares_unstage
  | |- emits _ _ (sudo _ verify_command _ _) =>
      apply emits_sudo; [by apply spares_verify|intros ?; elsewhere_tac]
  | |- emits _ _ (match ?x with _ => _ end) => destruct x eqn:?
  | |- _ => emits_step
  end.
Ltac spares_auto := repeat spares_step.

Section spared.
Context (v : string).

Lemma new_VBoxManage_spares exe : emits (spares v) (λ _, True) (new_VBoxManage exe).
Proof. unfold new_VBoxManage. by spares_auto. Qed.
Lemma vm_exists_spares vbox vm : emits (spares v) (λ _, True) (vm_exists vbox vm).
Proof. unfold vm_exists, list_vms. by spares_auto. Qed.
Lemma generate_ssh_keypair_spares p c : emits (spares v) (λ _, True) (generate_ssh_keypair p c).
Proof.
  unfold generate_ssh_keypair, public_key_path, read_text_ascii, write_text_ascii, try_chmod, is_file.
  by spares_auto.
Qed.
Lemma load_or_create_key_spares p : emits (spares v) (λ _, True) (load_or_create_key p).
Proof. unfold load_or_create_key, load_key, generate_key, write_key_file. by spares_auto. Qed.
Lemma write_local_overlay_spares {parser : TomlParser} p u k :
  emits (spares v) (λ _, True) (write_local_overlay p u k).
Proof. unfold write_local_overlay, local_overlay_path, read_overlay, is_file. by spares_auto. Qed.
Lemma reach_template_spares vbox config : emits (spares v) (λ _, True) (reach_template vbox config).
Proof.
  unfold reach_template, start_headless, vm_state, wait_for_guest_ip, guest_ipv4_interfaces,
    _resolve_ipv4, _host_lan_ipv4, wait_for_ssh, ssh_attempt.
  by spares_auto.
Qed.
Lemma verify_admin_access_spares addr cfg : emits (spares v) (λ _, True) (verify_admin_access addr cfg).
Proof. unfold verify_admin_access. by spares_auto. Qed.

(** Commands about an account other than [v]. *)
Context (h : RemoteHost) (u : string) (Hu : plain_name u = true) (Hne : u ≠ v).

Lemma account_sudo_spares cmd check timeout :
  cmd ∈ account_commands u → emits (spares v) (λ _, True) (sudo h cmd check timeout).
Proof.
  intros Hin. apply emits_sudo; [|intros ?; elsewhere_tac].
  intros ev Hp. by eapply spares_account.
Qed.

Lemma id_spares check timeout : emits (spares v) (λ _, True) (host_run h ("id -u " +:+ u) check timeout).
Proof. apply emits_host_run. intros ev. by apply spares_id. Qed.

Lemma put_key_spares payload :
  emits (spares v) (λ _, True) (put_bytes h payload (authorized_keys u) mode_600).
Proof.
  unfold put_bytes. apply emits_bind; [spares_step|intros random]. cbv zeta.
  apply emits_bind; [apply emits_sftp; intros ? ?; elsewhere_tac|intros ch].
  apply emits_bind; [|intros r].
  { refine (emits_call _ _ (SftpWrite _ _ _) _). intros r. by eapply spares_stage. }
  destruct r; [|spares_step].
  apply emits_bind; [|intros ?; by spares_auto].
  apply emits_sudo; [|intros ?; elsewhere_tac]. intros ev. by apply spares_key.
Qed.

Lemma disable_spares : emits (spares v) (λ _, True) (disable_bootstrap_account h u).
Proof.
  unfold disable_bootstrap_account. apply emits_for_each. intros c Hc.
  apply emits_bind; [|intros ?; apply emits_ret]. apply account_sudo_spares.
  apply elem_of_app. by right.
Qed.
End spared.

(** A privileged command goes over the connection of its session. *)
Lemma sudo_client h cmd check timeout s :
  wp (sudo h cmd check timeout) s (λ t _ _, Forall (λ ev, ∀ c cmd' i tm,
    ev_eff ev = SshExec c cmd' i tm → s_client (session_of s (sid h)) = Some c) t).
Proof.
  unfold sudo. apply wp_bind, wp_host_run; [|by constructor].
  intros c r Hc. set (I := λ ev, ∀ c cmd' i tm, ev_eff ev = SshExec c cmd' i tm → _).
  assert (I (Ev (SshExec c (sudo_n cmd) None (effective_timeout h timeout)) r)) as H1.
  { by intros ? ? ? ? [= <- _ _ _]. }
  destruct r as [status out err|exc]; cbn [exec_outcome andb bind_post]; [|by constructor].
  destruct (cmd_ok _); [by apply wp_ret; constructor|].
  apply wp_bind, wp_sudo_password. intros environ.
  assert (I (Ev Environ environ)) as H2 by done.
  split; [|by intros msg; repeat constructor]. intros p _ _. cbn [bind_post].
  apply wp_bind, wp_host_client; [|by intros msg; repeat constructor].
  intros c' Hc'. cbn [bind_post]. apply wp_bind. refine (wp_call _ _ _ _). intros r2. cbn [bind_post].
  assert (I (Ev (SshExec c' (sudo_S cmd) (Some (p +:+ nl)) (effective_timeout h timeout)) r2)) as H3.
  { by intros ? ? ? ? [= <- _ _ _]. }
  destruct r2; [|apply wp_raise; by repeat constructor].
  cbv zeta. destruct (_ && _); [apply wp_raise|apply wp_ret]; by repeat constructor.
Qed.

(** ** The operations keep the way in *)

Section guest.
Context {g : Guest} {laws : GuestLaws g}.

Definition has (v : string) (w : gs_state) : Prop := v ∈ gs_access w.

Lemma kept_spares {A} (S : gs_state → Prop) v (m : M A) :
  (∀ w, has v w → S w) → emits (spares v) (λ _, True) m → kept gs_answers S (has v) m (λ _, has v).
Proof. intros HS Hm. apply (kept_emits _ _ _ (spares v)); [done| |done]. intros. by eapply gs_spares. Qed.

(** A with statement keeps the way in if its body does. *)
Lemma kept_with_host {A} v addr cfg (body : RemoteHost → M A) :
  (∀ h, kept gs_answers (has v) (has v) (body h) (λ _, has v)) →
  kept gs_answers (has v) (has v) (with_host addr cfg body) (λ _, has v).
Proof.
  intros Hb. unfold with_host.
  assert (∀ h, emits (spares v) (λ _, True) (close h)) as Hclose.
  { intros h. unfold close. repeat match goal with
    | |- emits _ _ (get_session _) => by intros ? ? ? ? (-> & -> & ->)%runs_get_session
    | |- emits _ _ (set_sftp _ _) => by intros ? ? ? ? (-> & -> & ->)%runs_set_sftp
    | |- emits _ _ (set_client _ _) => by intros ? ? ? ? (-> & -> & ->)%runs_set_client
    | _ => spares_step
    end. }
  eapply kept_bind; [apply kept_spares; [done|by unfold new_RemoteHost; spares_auto]|intros h].
  eapply kept_bind; [apply kept_spares; [done|]|intros ?].
  { unfold connect. repeat match goal with
    | |- emits _ _ (get_session _) => by intros ? ? ? ? (-> & -> & ->)%runs_get_session
    | |- emits _ _ (set_client _ _) => by intros ? ? ? ? (-> & -> & ->)%runs_set_client
    | _ => spares_step
    end. }
  apply kept_finally; [apply Hb|by apply kept_spares|intros ?; by apply kept_spares].
Qed.

(** The rule of an account is staged, then installed. *)
Lemma put_rule_kept v h u rule :
  plain_name u = true → ascii_encode (sudoers_rule u) = Some rule →
  kept gs_answers (has v) (has v) (put_bytes h rule (sudoers_file u) mode_440) (λ _, has v).
Proof.
  intros Hu Hrule. unfold put_bytes.
  eapply kept_bind; [apply kept_spares; [done|spares_step]|intros random]. cbv zeta.
  eapply kept_bind; [apply kept_spares; [done|apply emits_sftp; intros ? ?; elsewhere_tac]|intros ch].
  set (staged w := gs_staged w !! staging_path random = Some rule).
  eapply (kept_bind _ _ _ (λ r w, has v w ∧ (r = IoOk tt → staged w))).
  { refine (kept_call _ _ _ (SftpWrite _ _ _) _ _ _); [done|]. intros w r w' Ha Hw.
    assert (has v w') by (eapply gs_spares; [exact Ha|by eapply spares_stage|done]).
    split_and!; [done..|]. intros ->. by eapply gs_write. }
  intros [[]|]; [|by apply kept_raise; intros w []].
  eapply (kept_bind _ _ _ (λ _, has v)); [|intros ?].
  - apply (kept_conseq _ (has v) (has v) _ (λ w, has v w ∧ staged w) _ _ (λ _ w, has v w ∧ staged w));
      [|done|by intros w [? ?]; auto|by intros ? ? []].
    apply (kept_emits _ _ _ (λ ev, ev_eff ev = Environ ∨ installs_rule random u ev)).
    + apply emits_sudo; [by right|by left].
    + intros w ev w' Hev Ha [Hw Hst]. split.
      * destruct Hev as [He|Hev].
        { eapply gs_spares; [exact Ha|apply spares_elsewhere|done].
          unfold elsewhere, verb. by rewrite He. }
        eapply gs_rule; [exact Ha|exact Hev|done| |done]. unfold staged in Hst. by rewrite Hst, Hrule.
      * unfold staged. by rewrite (gs_reads _ _ _ _ _ Ha Hev).
    + by intros w [].
  - apply kept_spares; [done|]. by spares_auto.
Qed.

Lemma kept_encode {A} v text (f : bytes → M A) (Q : A → gs_state → Prop) :
  (∀ b, ascii_encode text = Some b → kept gs_answers (has v) (has v) (f b) Q) →
  kept gs_answers (has v) (has v) (bind (encode_ascii text) f) Q.
Proof.
  intros Hf. unfold encode_ascii. destruct (ascii_encode text) as [b|].
  - eapply (kept_bind _ _ _ (λ b' w, b' = b ∧ has v w)); [by apply kept_ret|].
    intros b' s t o s' w H [-> Hw]. by eapply Hf.
  - by eapply (kept_bind _ _ _ (λ _ _, False)); [apply kept_raise|].
Qed.

(** Creating an account keeps the way in of every other. *)
Lemma create_admin_user_kept v h u key :
  plain_name u = true → u ≠ v →
  kept gs_answers (has v) (has v) (create_admin_user h u key) (λ _, has v).
Proof.
  intros Hu Hne. unfold create_admin_user, install_key.
  assert (∀ cmd check, cmd ∈ account_commands u →
    kept gs_answers (has v) (has v) (sudo h cmd check None) (λ _, has v)) as Hsudo.
  { intros cmd check Hin. apply kept_spares; [done|by eapply account_sudo_spares]. }
  unfold account_commands, disable_commands in Hsudo.
  repeat match goal with
  | |- kept _ _ _ (bind (encode_ascii _) _) _ => apply kept_encode; intros ? ?
  | |- kept _ _ _ (bind _ _) _ => eapply (kept_bind _ _ _ (λ _, has v)); [|intros ?]
  | |- kept _ _ _ (sudo _ _ _ _) _ => apply Hsudo; repeat first [apply list_elem_of_here|apply list_elem_of_further]
  | |- kept _ _ _ (host_run _ _ _ _) _ => apply kept_spares; [done|by apply id_spares]
  | |- kept _ _ _ (put_bytes _ _ (authorized_keys _) _) _ =>
      apply kept_spares; [done|by apply put_key_spares]
  | |- kept _ _ _ (put_bytes _ _ (sudoers_file _) _) _ => by apply put_rule_kept
  | |- kept _ _ _ (when ?b _) _ => destruct b; cbn [when]
  | |- kept _ _ _ (if ?b then _ else _) _ => destruct b
  | |- kept _ _ _ (ret _) _ => by apply kept_ret
  | |- kept _ _ _ (raise _) _ => by apply kept_raise
  end.
Qed.

(** A verification that succeeds is right about the account. *)
Lemma verify_gives_access addr cfg s t s' w w' :
  runs (verify_admin_access addr cfg) s t (Ok true) s' → along gs_answers w t w' → has (user cfg) w'.
Proof.
  intros H Hp. destruct (verify_admin_access_spares (user cfg) addr cfg _ _ _ _ H) as [Hsp _].
  unfold verify_admin_access in H.
  apply runs_catch in H as [(e & m' & s1 & t1 & t2 & -> & _ & He & H)|[H _]].
  { destruct (_ || _); [|done]. injection He as <-. by run_inv1 H. }
  apply with_host_spec in H as [(e & [=] & _)|(c & s1 & tb & s2 & tc & -> & Hb & Ho & _ & _ & _ & _ & Hc)];
    [|intros; by host_op_auto|done].
  apply runs_bind in Hb as [(r & s3 & t3 & t4 & -> & H3 & H4)|[(e & [=] & _)|[[=] _]]].
  apply runs_ret in H4 as (-> & Hr & ->). injection Hr as Hr. symmetry in Hr.
  apply andb_prop in Hr as [Hok Hout%String.eqb_eq]. apply Z.eqb_eq in Hok.
  pose proof (sudo_client _ _ _ _ _ _ _ _ H3) as Hclient.
  assert (sudo_ran verify_command t3 r) as (c' & cmd & stdin & tm & Hcmd & _ & Hlast).
  { exact (proj1 (sudo_returns _ _ _ _ _ _ _ _ H3)). }
  apply last_Some in Hlast as [l ->]. rewrite Hok in *.
  apply Forall_app in Hclient as [_ [Hclient _]%Forall_cons].
  specialize (Hclient _ _ _ _ eq_refl). rewrite Hc in Hclient. injection Hclient as <-.
  rewrite app_nil_r, !opened_app in Ho. apply app_nil in Ho as [Ho _].
  rewrite app_nil_r, <- app_assoc, !Forall_app in Hsp. destruct Hsp as (_ & _ & _ & Hsp).
  rewrite app_nil_r, <- app_assoc in Hp.
  apply along_cons_inv in Hp as (w1 & _ & (w2 & Hconn & Hp)%along_cons_inv).
  pose proof (gs_connect _ _ _ _ _ _ _ Hconn) as Hlogin. apply along_app in Hp as (w3 & Hl & Hp).
  apply along_app in Hp as (w4 & Hroot%along_one & Hp).
  assert (gs_logins w3 = gs_logins w2) as Hlog.
  { revert Hl Ho. clear -laws. induction 1 as [|w ev w1 t w2 Ha Hl IH]; [done|]. intros Ho.
    unfold opened in *. simpl in Ho. destruct (opened_by ev) eqn:He; [done|].
    rewrite IH by done. by eapply gs_connected. }
  assert (has (user cfg) w4) as Hw4.
  { refine (gs_root _ _ _ _ _ _ _ _ Hroot Hcmd Hout _ _). by rewrite Hlog. }
  refine (along_keeps gs_answers _ (spares (user cfg)) w4 _ _ _ Hsp Hp Hw4).
  intros w5 ev w6 Hev Ha. by eapply gs_spares.
Qed.

Lemma verify_kept v addr cfg :
  kept gs_answers (has v) (has v) (verify_admin_access addr cfg)
    (λ b w, has v w ∧ (b = true → has (user cfg) w)).
Proof.
  intros s t o s' w H Hw.
  destruct (kept_spares (has v) v _ (λ _ H, H) (verify_admin_access_spares v addr cfg) _ _ _ _ _ H Hw)
    as [HS HQ]. split; [exact HS|]. intros b w' -> Hp. split; [by eapply HQ|].
  intros ->. by eapply verify_gives_access.
Qed.

Section run_setup.
Context {parser : TomlParser} (config : ClusterConfig) (base : path) (new_user : string) (key : path).
Context (Hnew : plain_name new_user = true) (Hboot : plain_name (user (ssh config)) = true).

(** One of the two accounts has a way in. *)
Definition way_in (w : gs_state) : Prop := has (user (ssh config)) w ∨ has new_user w.

Lemma way_in_kept {A} v (m : M A) (Q : A → gs_state → Prop) P :
  v = user (ssh config) ∨ v = new_user → (∀ w, P w → has v w) →
  kept gs_answers (has v) (has v) m Q → kept gs_answers way_in P m Q.
Proof.
  intros Hv HP Hm. eapply kept_conseq; [exact Hm| |exact HP|done].
  intros w Hw. unfold way_in. destruct Hv as [Hv|Hv]; rewrite <- Hv; auto.
Qed.

Lemma run_setup_kept :
  kept gs_answers way_in (has (user (ssh config))) (run_setup config base new_user key)
    (λ _, has new_user).
Proof.
  unfold run_setup. destruct (String.eqb_spec new_user (user (ssh config))) as [_|Hne].
  { apply kept_raise. by left. }
  assert (∀ A (m : M A), emits (spares (user (ssh config))) (λ _, True) m →
    kept gs_answers way_in (has (user (ssh config))) m (λ _, has (user (ssh config)))) as Hspares.
  { intros A m. apply kept_spares. by left. }
  eapply kept_bind; [by apply Hspares, generate_ssh_keypair_spares|intros pk].
  eapply kept_bind; [by apply Hspares, load_or_create_key_spares|intros ?].
  eapply kept_bind; [by apply Hspares, new_VBoxManage_spares|intros vbox]. cbv zeta.
  eapply kept_bind; [by apply Hspares, vm_exists_spares|intros present].
  destruct present; cbn [negb]; [|apply kept_raise; by left].
  eapply kept_bind; [by apply Hspares, reach_template_spares|intros addr].
  eapply kept_bind.
  { eapply way_in_kept; [by left|done|]. apply kept_with_host. intros h.
    by apply create_admin_user_kept. }
  intros ?. eapply kept_bind; [eapply way_in_kept; [by left|done|apply verify_kept]|].
  intros []; cbn [negb]; [|apply kept_raise; intros w [Hw _]; by left].
  eapply kept_bind.
  { eapply way_in_kept; [by right|intros w [_ Hw]; by apply Hw|]. apply kept_with_host. intros h.
    apply kept_spares; [done|]. by apply disable_spares. }
  intros ?. eapply (kept_bind _ _ _ (λ _, has new_user));
    [|intros ?; apply kept_ret; intros w Hw; by split; [right|]].
  apply kept_spares; [by right|]. apply write_local_overlay_spares.
Qed.
End run_setup.
End guest.

(** ** A guest that satisfies the laws *)

(** The staged file and the account of an installation of a rule. *)
Definition installed_rule (root : string) : option (string * string) :=
  r ← after "install -D -m 440 " root;
  '(p, f) ← py_partition " " r;
  u ← after "/etc/sudoers.d/90-" f;
  Some (p, u).

Record box : Type := MkBox {
  b_access : gset string;
  b_logins : gmap Z string;
  b_staged : gmap string bytes;
  b_clock : Z }.

(** A command run as root.  A rule that is not the account's own makes sudo
    refuse to work for everyone. *)
Definition act (root : string) (b : box) : gset string :=
  let rest := filter (λ u, root ∉ disable_commands u) (b_access b) in
  match installed_rule root with
  | Some (p, u) =>
      match b_staged b !! p with
      | Some payload =>
          if bool_decide (Some payload = ascii_encode (sudoers_rule u)) then {[u]} ∪ rest else ∅
      | None => rest
      end
  | None => rest
  end.

Definition may_sudo (b : box) (c : Z) : bool :=
  match b_logins b !! c with Some u => bool_decide (u ∈ b_access b) | None => false end.

(** Passwords are not accepted; every other call is answered as for
    [template_world]. *)
Definition box_world : handler box := λ e b,
  match e return resp e * box with
  | SshConnect _ u _ _ =>
      let c := Z.of_nat (size (b_logins b)) in
      (Connected c, MkBox (b_access b) (<[c := u]> (b_logins b)) (b_staged b) (b_clock b))
  | SshExec c cmd _ _ =>
      match after "sudo -n " cmd with
      | Some root =>
          if may_sudo b c then
            (Executed 0 (if String.eqb root verify_command then "0" +:+ nl else "") "",
             MkBox (act root b) (b_logins b) (b_staged b) (b_clock b))
          else (Executed 1 "" "a password is required", b)
      | None =>
          (Executed (if after "sudo -S " cmd is Some _ then 1 else 0) "" "", b)
      end
  | SftpWrite _ p payload =>
      (IoOk tt, MkBox (b_access b) (b_logins b) (<[p := payload]> (b_staged b)) (b_clock b))
  | e => let '(r, clock) := template_world e (b_clock b) in
         (r, MkBox (b_access b) (b_logins b) (b_staged b) clock)
  end.

Definition box_guest : Guest := {|
  gs_state := box; gs_access := b_access; gs_logins := b_logins; gs_staged := b_staged;
  gs_answers := handled box_world |}.

Lemma partition_at p f : str_forall (λ c, negb (Ascii.eqb c " ")) p = true →
  py_partition " " (p +:+ String " " f) = Some (p, f).
Proof.
  induction p as [|c p IH]; [done|]. cbn [str_forall]. intros [Hc Hp]%andb_prop.
  rewrite str_app_cons. cbn [py_partition]. apply negb_true_iff in Hc. by rewrite Hc, IH.
Qed.

Lemma installed_rule_of random u :
  installed_rule (install_command mode_440 (staging_path random) (sudoers_file u)) =
    Some (staging_path random, u).
Proof.
  unfold installed_rule.
  assert (after "install -D -m 440 " (install_command mode_440 (staging_path random) (sudoers_file u)) =
    Some (staging_path random +:+ String " " (sudoers_file u))) as -> by done. cbn [mbind option_bind].
  rewrite partition_at; [done|]. unfold staging_path. simpl.
  eapply str_forall_impl; [|apply hex_of_bytes_hex]. intros c Hc.
  destruct (Ascii.eqb_spec c " "); [by subst|done].
Qed.

Lemma str_app_inj_l a b c : a +:+ c = b +:+ c → a = b.
Proof.
  revert b. induction a as [|x a IH]; intros [|y b] H; [done| | |].
  - apply (f_equal String.length) in H. rewrite !str_length_app in H. simpl in H. lia.
  - apply (f_equal String.length) in H. rewrite !str_length_app in H. simpl in H. lia.
  - rewrite !str_app_cons in H. injection H as -> H. f_equal. eauto.
Qed.

(** A command that takes the way in from [v] is about [v]. *)
Lemma account_command_own u v cmd :
  cmd ∈ account_commands u → cmd ∈ disable_commands v → u = v.
Proof.
  unfold account_commands, disable_commands. simpl app. intros Hu Hv.
  repeat (apply elem_of_cons in Hv as [->|Hv]; [|]); [..|by apply elem_of_nil in Hv];
    (repeat (apply elem_of_cons in Hu as [Hu|Hu]; [|]); [..|by apply elem_of_nil in Hu]);
    simpl in Hu; try discriminate Hu.
  all: symmetry; apply (inj (String.append _)) in Hu; try done; by apply str_app_inj_l in Hu.
Qed.

Lemma act_rest root b v : root ∉ disable_commands v → installed_rule root = None →
  v ∈ b_access b → v ∈ act root b.
Proof. intros Hr Hi Hv. unfold act. rewrite Hi. by apply elem_of_filter. Qed.

Lemma act_rule random u b v :
  Some <$> b_staged b !! staging_path random = Some (ascii_encode (sudoers_rule u)) →
  v ∈ b_access b → v ∈ act (install_command mode_440 (staging_path random) (sudoers_file u)) b.
Proof.
  intros Hst Hv. unfold act. rewrite installed_rule_of.
  destruct (b_staged b !! staging_path random) as [payload|]; [|done]. injection Hst as <-.
  rewrite bool_decide_eq_true_2 by done. apply elem_of_union_r, elem_of_filter. split; [|done].
  unfold disable_commands. rewrite !not_elem_of_cons. split_and!; try done. apply not_elem_of_nil.
Qed.

(** What a box does with a call that is neither a login, a command nor a file. *)
Lemma box_world_other e b :
  match e with SshConnect _ _ _ _ | SshExec _ _ _ _ | SftpWrite _ _ _ => False | _ => True end →
  ∃ clock, (box_world e b).2 = MkBox (b_access b) (b_logins b) (b_staged b) clock.
Proof. intros He. destruct e; try done; cbn [box_world]; destruct (template_world _ _); by eexists. Qed.

(** What it does with a command. *)
Lemma box_world_plain b ev b' cmd :
  handled box_world b ev b' → plain cmd ev → after "sudo -n " cmd = None → b' = b.
Proof.
  destruct ev as [e r]. intros H (c & i & tm & He) Hn. cbn in He. subst e.
  unfold handled in H. cbn [box_world ev_eff ev_resp] in H. rewrite Hn in H. by injection H.
Qed.

Lemma box_world_root b ev b' cmd :
  handled box_world b ev b' → privileged cmd ev →
  b' = b ∨ b' = MkBox (act cmd b) (b_logins b) (b_staged b) (b_clock b).
Proof.
  intros H [Hp|Hp]; [|left; by eapply box_world_plain].
  destruct ev as [e r]. destruct Hp as (c & i & tm & He). cbn in He. subst e.
  unfold handled in H. cbn [box_world ev_eff ev_resp] in H.
  change (after "sudo -n " (sudo_n cmd)) with (Some cmd) in H.
  destruct (may_sudo b c); injection H as _ <-; auto.
Qed.

Lemma box_root_keeps b ev b' cmd v :
  handled box_world b ev b' → privileged cmd ev → v ∈ b_access b → v ∈ act cmd b → v ∈ b_access b'.
Proof. intros H Hp Hv Ha. by destruct (box_world_root _ _ _ _ H Hp) as [-> | ->]. Qed.

Lemma handled_after {W} (h : handler W) w ev w' : handled h w ev w' → w' = (h (ev_eff ev) w).2.
Proof. unfold handled. by intros ->. Qed.

Lemma box_spares b ev b' v :
  handled box_world b ev b' → spares v ev → v ∈ b_access b → v ∈ b_access b'.
Proof.
  intros H Hs Hv. destruct Hs as [He|Hp|u _ Hp|ch random payload He|random Hp|Hp|u cmd _ Hne Hin Hp|u random _ Hne Hp].
  - pose proof (handled_after _ _ _ _ H) as ->. destruct ev as [e r]. cbn [ev_eff] in *.
    destruct e; try done;
      match goal with |- context [box_world ?e b] => by destruct (box_world_other e b) as [clock ->] end.
  - by rewrite (box_world_plain _ _ _ _ H Hp).
  - by rewrite (box_world_plain _ _ _ _ H Hp).
  - pose proof (handled_after _ _ _ _ H) as ->. by rewrite He.
  - by rewrite (box_world_plain _ _ _ _ H Hp).
  - eapply box_root_keeps; [exact H|exact Hp|exact Hv|]. apply act_rest; [|done..].
    unfold disable_commands. rewrite !not_elem_of_cons. split_and!; try done. apply not_elem_of_nil.
  - eapply box_root_keeps; [exact H|exact Hp|exact Hv|]. apply act_rest; [| |done].
    + intros Hd. by apply Hne, (account_command_own u v cmd).
    + unfold account_commands, disable_commands in Hin. simpl app in Hin.
      by repeat (apply elem_of_cons in Hin as [->|Hin]; [done|]); apply elem_of_nil in Hin.
  - eapply box_root_keeps; [exact H|exact Hp|exact Hv|]. apply act_rest; [|done..].
    unfold disable_commands. rewrite !not_elem_of_cons. split_and!; try done. apply not_elem_of_nil.
Qed.

Lemma box_laws : GuestLaws box_guest.
Proof.
  split; cbn [gs_state gs_access gs_logins gs_staged gs_answers box_guest].
  - intros b ev b' v. apply box_spares.
  - intros b addr u k tm c b' H. unfold handled in H. cbn [box_world ev_eff ev_resp] in H.
    injection H as <- <-. apply lookup_insert_eq.
  - intros b ev b' H Ho. pose proof (handled_after _ _ _ _ H) as ->. destruct ev as [e r].
    cbn [ev_eff] in *. destruct e; try done;
      try match goal with |- context [box_world ?e b] => by destruct (box_world_other e b) as [clock ->] end.
    + unfold handled in H. cbn [box_world ev_eff ev_resp] in H. by injection H as <-.
    + cbn [box_world]. destruct (after _ _); [destruct (may_sudo _ _)|]; done.
  - intros b ch p payload b' H. unfold handled in H. cbn [box_world ev_eff ev_resp] in H.
    injection H as <-. apply lookup_insert_eq.
  - intros b [e r] b' random u H [He|Hp].
    + cbn [ev_eff] in He. subst e. pose proof (handled_after _ _ _ _ H) as ->. cbn [ev_eff].
      by destruct (box_world_other Environ b) as [clock ->].
    + by destruct (box_world_root _ _ _ _ H Hp) as [-> | ->].
  - intros b ev b' random u v H Hp _ Hst Hv. eapply box_root_keeps; [exact H|exact Hp|exact Hv|].
    by apply act_rule.
  - intros b c cmd stdin tm out err b' H [-> | ->] _ u Hu;
      unfold handled in H; cbn [box_world ev_eff ev_resp] in H; [|by injection H].
    change (after "sudo -n " (sudo_n verify_command)) with (Some verify_command) in H.
    unfold may_sudo in H. rewrite Hu in H. case_bool_decide as Hin; [|by injection H].
    injection H as _ _ <-. cbn [b_access]. apply act_rest; [|done..].
    unfold disable_commands. rewrite !not_elem_of_cons. split_and!; try done. apply not_elem_of_nil.
Qed.

(** ** Property *)

(** C11: setup never locks everyone out of the template.  Against any guest
    that satisfies the laws, for accounts with plain names, from any state in
    which the bootstrap account has a way in, at every point of a run of [run_setup], also of one that raises
    or is broken off there, the bootstrap account or the new one has a way in;
    and when the run returns, the new one has. *)
Theorem setup_keeps_a_way_in {parser : TomlParser} {g : Guest} {laws : GuestLaws g}
    config base new_user key s t o s' w :
  runs (run_setup config base new_user key) s t o s' →
  plain_name new_user = true → plain_name (user (ssh config)) = true →
  user (ssh config) ∈ gs_access w →
  (∀ t1 t2 w1, t = t1 ++ t2 → along gs_answers w t1 w1 →
     user (ssh config) ∈ gs_access w1 ∨ new_user ∈ gs_access w1) ∧
  (∀ w', o = Ok tt → along gs_answers w t w' → new_user ∈ gs_access w').
Proof.
  intros H Hn Hb Hw. destruct (run_setup_kept config base new_user key Hn Hb _ _ _ _ _ H Hw) as [HS HQ].
  split; [exact HS|]. intros w' Ho Hp. by eapply HQ.
Qed.

Definition sample_box : box := MkBox {["deploy"]} ∅ ∅ 0.

Lemma setup_keeps_a_way_in_witness :
  outcome_in box_world sample_setup sample_box = Ok tt ∧
  elements (b_access (run_in box_world sample_setup sample_box).1.2) = ["vmadmin"] ∧
  "vmadmin" ∈ b_access (run_in box_world sample_setup sample_box).1.2.
Proof.
  assert (outcome_in box_world sample_setup sample_box = Ok tt) as Ho by (by vm_compute).
  split; [exact Ho|]. split; [by vm_compute|].
  destruct (run_in_along box_world sample_setup sample_box) as (s' & H & Hp). rewrite Ho in H.
  assert ("deploy" ∈ b_access sample_box) as Hb.
  { change (b_access sample_box) with ({["deploy"]} : gset string). set_solver. }
  revert H Hp. generalize (trace_in box_world sample_setup sample_box).
  generalize ((run_in box_world sample_setup sample_box).1.2). unfold sample_setup. intros w' t H Hp.
  exact (proj2 (setup_keeps_a_way_in (parser := sample_parser) (g := box_guest) (laws := box_laws)
    sample_cluster (Path "config/cluster.toml") "vmadmin" (Path "/root/keys/vm_key")
    _ _ _ _ _ H eq_refl eq_refl Hb) w' eq_refl Hp).
Defined.
