(* ===== verification/Restore.v ===== *)
(** * Restoring the bootstrap account

    What the guest is, as far as [restore_bootstrap] relies on it: the
    accounts whose shell is bash, the members of the group sudo, the accounts
    whose password is not locked, and, for the files the operation works with,
    what they hold and whose they are ([AccountHost], with its laws in
    [AccountHostLaws]).  The files are those of authorised keys, the sudo rules
    of accounts and the files staged for installation ([tracked]); nothing is
    assumed of what the operation leaves of any other, such as the databases of
    accounts that [usermod] writes.  Names of files are without aliases.
    Whatever had been taken from the account before, a run of
    [restore_bootstrap] that returns leaves it with its shell, its group, the
    key it was given, its own, and its sudo rule, and no run takes anything
    from another account.  The guest is the machine that answers at the address
    of the template.  The code does not look at what [usermod -U] says, so that
    the password is unlocked if that command succeeded, and else not known. *)

From stdpp Require Import gmap.
From S2P Require Import Prelude PyStr Exceptions Paths Effects Reasoning Worlds Values Bytes Sha256 Json Inventory Config.
From S2P Require Import VirtualBox VirtualBoxFacts SshClient SshFacts Apache Setup SetupFacts ClusterFacts Accounts.

#[export] Set Default Goal Selector "!".

(** ** What can hold of a guest *)

Inductive fact : Type :=
  | BashShell (u : string)
  | Sudoer (u : string)
  | Unlocked (u : string)
  | Owned (p u : string)
  | Holds (p : string) (content : bytes).

(** The file a fact is about. *)
Definition about (f : fact) : option string :=
  match f with Holds p _ | Owned p _ => Some p | _ => None end.

Definition ssh_dir (u : string) : string := "/home/" +:+ u +:+ "/.ssh".

(** The facts the guest is relied on for. *)
Definition tracked (f : fact) : Prop :=
  match f with
  | Holds p _ => (∃ random, p = staging_path random) ∨
                 ∃ v, plain_name v = true ∧ (p = authorized_keys v ∨ p = sudoers_file v)
  | Owned p _ => ∃ v, plain_name v = true ∧ (p = ssh_dir v ∨ p = authorized_keys v)
  | _ => True
  end.

(** The fact is not about a file staged for installation, nor about [p]. *)
Definition not_staged (f : fact) : Prop := ∀ random, about f ≠ Some (staging_path random).
Definition clear_of (p : string) (f : fact) : Prop := not_staged f ∧ about f ≠ Some p.

(** The facts the operation on [u] leaves alone. *)
Definition untouched (u : string) (f : fact) : Prop :=
  tracked f ∧ clear_of (ssh_dir u) f ∧ clear_of (authorized_keys u) f ∧ clear_of (sudoers_file u) f.

(** The commands of [enable_account], as root: those that give a file to the
    account, and the others. *)
Definition unlock_command (u : string) : string := "usermod -U " +:+ u.
Definition shell_command (u : string) : string := "usermod -s /bin/bash " +:+ u.
Definition group_command (u : string) : string := "usermod -aG sudo " +:+ u.
Definition enable_commands (u : string) : list string :=
  [unlock_command u; shell_command u; group_command u; "chmod 600 " +:+ authorized_keys u; visudo u].
Definition chown_command (u : string) : string :=
  "chown " +:+ u +:+ ":" +:+ u +:+ " " +:+ authorized_keys u.
Definition owner_commands (u : string) : list (string * string) :=
  [(ssh_dir_command u, ssh_dir u); (chown_command u, authorized_keys u)].

(** The files of an account, with the mode each is installed with. *)
Definition account_file (u : string) (mode : N) (p : string) : Prop :=
  mode = mode_600 ∧ p = authorized_keys u ∨ mode = mode_440 ∧ p = sudoers_file u.

(** Commands to the hypervisor that leave the disk of a guest as it is. *)
Definition disk_verbs : list string := "controlvm" :: harmless_verbs.

(** A call that is neither a command nor a file for the guest. *)
Definition beside (ev : event) : Prop :=
  match ev_eff ev with
  | SshExec _ _ _ _ | SftpWrite _ _ _ | SftpPut _ _ _ => False
  | _ => ∀ v, verb ev = Some v → v ∈ disk_verbs
  end.

(** Calls that leave a fact as it is, whatever their answer. *)
Inductive keeps (f : fact) (ev : event) : Prop :=
  | keeps_beside : beside ev → keeps f ev
  | keeps_true : plain "true" ev → keeps f ev
  | keeps_id u : plain_name u = true → plain ("id -u " +:+ u) ev → keeps f ev
  | keeps_stage ch random payload :
      not_staged f → ev_eff ev = SftpWrite ch (staging_path random) payload → keeps f ev
  | keeps_unstage random : not_staged f → plain ("rm -f " +:+ staging_path random) ev → keeps f ev
  | keeps_account u cmd :
      plain_name u = true → cmd ∈ enable_commands u → privileged cmd ev → keeps f ev
  | keeps_owner u cmd p :
      plain_name u = true → (cmd, p) ∈ owner_commands u → (∀ v, f = Owned p v → v = u) →
      privileged cmd ev → keeps f ev
  | keeps_install u mode random p :
      plain_name u = true → account_file u mode p → about f ≠ Some p →
      privileged (install_command mode (staging_path random) p) ev → keeps f ev
  | keeps_rule u :
      plain_name u = true → about f ≠ Some (sudoers_file u) →
      privileged ("rm -f " +:+ sudoers_file u) ev → keeps f ev.

(** ** The interface *)

Class AccountHost : Type := {
  ah_state : Type;
  ah_bash : ah_state → gset string;
  ah_sudoers : ah_state → gset string;
  ah_unlocked : ah_state → gset string;
  ah_owners : ah_state → gmap string string;
  ah_files : ah_state → gmap string bytes;
  ah_answers : ah_state → event → ah_state → Prop }.

Definition holds {g : AccountHost} (w : ah_state) (f : fact) : Prop :=
  match f with
  | BashShell u => u ∈ ah_bash w
  | Sudoer u => u ∈ ah_sudoers w
  | Unlocked u => u ∈ ah_unlocked w
  | Owned p u => ah_owners w !! p = Some u
  | Holds p content => ah_files w !! p = Some content
  end.

(** What [usermod], [install], [chown] and the transfer of files do, and what
    they do not.  The account is restored through the names its tools take for
    it. *)
Class AccountHostLaws (g : AccountHost) : Prop := {
  ah_keeps w ev w' f : ah_answers w ev w' → tracked f → keeps f ev → holds w f → holds w' f;
  ah_unlock w ev w' u : ah_answers w ev w' → plain_name u = true →
    privileged_ok (unlock_command u) ev → holds w' (Unlocked u);
  ah_shell w ev w' u : ah_answers w ev w' → plain_name u = true →
    privileged_ok (shell_command u) ev → holds w' (BashShell u);
  ah_group w ev w' u : ah_answers w ev w' → plain_name u = true →
    privileged_ok (group_command u) ev → holds w' (Sudoer u);
  ah_owner w ev w' u cmd p : ah_answers w ev w' → plain_name u = true →
    (cmd, p) ∈ owner_commands u → privileged_ok cmd ev → holds w' (Owned p u);
  ah_write w ch random payload w' :
    ah_answers w (Ev (SftpWrite ch (staging_path random) payload) (IoOk tt)) w' →
    holds w' (Holds (staging_path random) payload);
  ah_install w ev w' u mode random p payload : ah_answers w ev w' →
    plain_name u = true → account_file u mode p →
    privileged_ok (install_command mode (staging_path random) p) ev →
    holds w (Holds (staging_path random) payload) → holds w' (Holds p payload) }.

(** ** Calls that keep a fact *)

Ltac beside_tac := apply keeps_beside; first [done|verb_tac].

Ltac keeps_step :=
  lazymatch goal with
  | |- emits _ _ (vbox_run _ _ _ _) => apply emits_vbox_run; [intros ?; beside_tac|done]
  | |- emits _ _ (call ?e) => refine (emits_call _ _ e _); intros ?; beside_tac
  | |- emits _ _ (get_session _) => by intros ? ? ? ? (-> & -> & ->)%runs_get_session
  | |- emits _ _ (set_sftp _ _) => by intros ? ? ? ? (-> & -> & ->)%runs_set_sftp
  | |- emits _ _ (set_client _ _) => by intros ? ? ? ? (-> & -> & ->)%runs_set_client
  | |- emits _ _ (raise _) => by apply emits_raise
  | |- emits _ _ (lift_io _) => by apply emits_lift_io
  | |- emits _ _ (lift_res _) => by apply emits_lift_res
  | |- emits _ _ (rewrap _ _ _) => apply (emits_rewrap _ _ (λ _, True)); [|done..]
  | |- emits _ _ (catch _ _) => apply emits_catch_same; [|handler_cases; intros _]
  | |- emits _ _ (while_before _ _ _) => apply emits_while_before; [intros ?; beside_tac|]
  | |- emits _ _ (while_with _ _ _ _) => apply emits_while_with; [intros ?; beside_tac|intros [? ?]]
  | |- emits _ _ (with_host _ _ _) =>
      apply with_host_emits; [intros [[] ?] Hev; first [by destruct Hev|beside_tac]|done|intros ?]
  | |- emits _ _ (host_run _ "true" _ _) => apply emits_host_run; by apply keeps_true
  | |- emits _ _ (match ?x with _ => _ end) => destruct x eqn:?
  | |- _ => emits_step
  end.
Ltac keeps_auto := repeat keeps_step.

Section kept_facts.
Context (f : fact).
Abbreviation quiet m := (emits (keeps f) (λ _, True) m).

Lemma new_VBoxManage_keeps exe : quiet (new_VBoxManage exe).
Proof. unfold new_VBoxManage. by keeps_auto. Qed.
Lemma vm_exists_keeps vbox vm : quiet (vm_exists vbox vm).
Proof. unfold vm_exists, list_vms. by keeps_auto. Qed.
Lemma power_off_keeps vbox vm seconds : quiet (power_off vbox vm seconds).
Proof. unfold power_off, vm_state. by keeps_auto. Qed.
Lemma reach_template_keeps vbox config : quiet (reach_template vbox config).
Proof.
  unfold reach_template, start_headless, vm_state, wait_for_guest_ip, guest_ipv4_interfaces,
    _resolve_ipv4, _host_lan_ipv4, wait_for_ssh, ssh_attempt.
  by keeps_auto.
Qed.
Lemma new_RemoteHost_keeps addr cfg : quiet (new_RemoteHost addr cfg).
Proof. unfold new_RemoteHost. by keeps_auto. Qed.
Lemma connect_keeps h : quiet (connect h).
Proof. unfold connect. by keeps_auto. Qed.
Lemma close_keeps h : quiet (close h).
Proof. unfold close. by keeps_auto. Qed.
Lemma sftp_keeps h : quiet (sftp h).
Proof. apply emits_sftp. intros ? ?. beside_tac. Qed.
Lemma sudo_keeps h cmd check timeout :
  (∀ ev, privileged cmd ev → keeps f ev) → quiet (sudo h cmd check timeout).
Proof. intros H. apply emits_sudo; [exact H|intros ?; beside_tac]. Qed.
End kept_facts.

(** ** What the operations give *)

Section host.
Context {g : AccountHost} {laws : AccountHostLaws g}.

(** A fact the guest is relied on for holds. *)
Definition stands (w : ah_state) (f : fact) : Prop := tracked f ∧ holds w f.
Definition all (l : list fact) (w : ah_state) : Prop := Forall (stands w) l.

Section frame.
(** The facts that hold at every point of a run. *)
Context (l0 : list fact).
Abbreviation keeping P m Q := (kept ah_answers (all l0) P m Q).

Lemma all_frame l w : all (l ++ l0) w → all l0 w.
Proof. by intros [_ H]%Forall_app. Qed.

Lemma all_keeps l w ev w' : Forall (λ f, keeps f ev) l → ah_answers w ev w' → all l w → all l w'.
Proof.
  intros Hk Ha Hl. apply Forall_forall. intros f Hf.
  eapply Forall_forall in Hl as [Htr Hl]; [|exact Hf]. split; [exact Htr|].
  eapply ah_keeps; [exact Ha|exact Htr| |exact Hl]. by eapply Forall_forall in Hk.
Qed.

Lemma emits_all {A} (m : M A) l :
  (∀ f, f ∈ l → emits (keeps f) (λ _, True) m) → emits (λ ev, Forall (λ f, keeps f ev) l) (λ _, True) m.
Proof.
  intros Hm s t o s' H. split; [|done]. apply Forall_forall. intros ev Hev.
  apply Forall_forall. intros f Hf. destruct (Hm f Hf _ _ _ _ H) as [Ht _].
  by eapply Forall_forall in Ht.
Qed.

Lemma kept_quiet {A} l (m : M A) :
  (∀ f, f ∈ l ++ l0 → emits (keeps f) (λ _, True) m) → keeping (all (l ++ l0)) m (λ _, all (l ++ l0)).
Proof.
  intros Hm. apply (kept_emits _ _ _ (λ ev, Forall (λ f, keeps f ev) (l ++ l0))).
  - by apply emits_all.
  - intros w ev w' Hk Ha. by apply all_keeps with ev.
  - apply all_frame.
Qed.

(** The last call of a privileged command that is checked succeeded, and what
    it does to the guest is the fact gained. *)
Lemma kept_sudo l h cmd timeout new :
  (∀ f ev, f ∈ l ++ l0 → privileged cmd ev → keeps f ev) →
  (∀ w ev w', ah_answers w ev w' → privileged_ok cmd ev → all (l ++ l0) w → stands w' new) →
  keeping (all (l ++ l0)) (sudo h cmd true timeout) (λ _, all ((new :: l) ++ l0)).
Proof.
  intros Hk Hnew s t o s' w H Hw.
  assert (∀ f, f ∈ l ++ l0 → emits (keeps f) (λ _, True) (sudo h cmd true timeout)) as Hm.
  { intros f Hf. apply sudo_keeps. intros ev. by apply Hk. }
  destruct (kept_quiet l _ Hm _ _ _ _ _ H Hw) as [HS HQ]. split; [exact HS|].
  intros r w' -> Hp. apply Forall_cons. split; [|by eapply HQ].
  assert (sudo_ran cmd t r ∧ exit_status r = 0%Z) as [(c & cmd' & i & tm & Hcmd & _ & Hlast) Hz].
  { destruct (sudo_returns _ _ _ _ _ _ _ _ H). auto. }
  apply last_Some in Hlast as [t1 ->]. rewrite Hz in *.
  apply along_app in Hp as (w1 & H1 & H2%along_one).
  destruct (emits_all _ _ Hm _ _ _ _ H) as [[Ht _]%Forall_app _].
  eapply Hnew; [exact H2| |].
  - split; [destruct Hcmd as [-> | ->]; [left|right]; by eexists _, _, _|by eexists _, _, _, _, _, _].
  - refine (along_keeps ah_answers _ _ w _ w1 _ Ht H1 Hw). intros w2 ev w3 Hev Ha. by apply all_keeps with ev.
Qed.

(** A file of an account written by [put_bytes] holds its payload. *)
Lemma account_file_tracked u mode p payload :
  plain_name u = true → account_file u mode p → tracked (Holds p payload) ∧ not_staged (Holds p payload).
Proof. intros Hu [[_ ->]|[_ ->]]; (split; [right; exists u; auto|intros random; done]). Qed.

Lemma kept_put_bytes l u h payload p mode :
  plain_name u = true → account_file u mode p → Forall (clear_of p) (l ++ l0) →
  keeping (all (l ++ l0)) (put_bytes h payload p mode) (λ _, all ((Holds p payload :: l) ++ l0)).
Proof.
  intros Hu Hfile Hl. destruct (account_file_tracked u mode p payload Hu Hfile) as [Htr Hp].
  rewrite Forall_forall in Hl. unfold put_bytes.
  eapply kept_bind; [apply kept_quiet; intros f _; keeps_step|intros random]. cbv zeta.
  eapply kept_bind; [apply kept_quiet; intros f _; apply sftp_keeps|intros ch].
  set (st := Holds (staging_path random) payload).
  eapply (kept_bind _ _ _ (λ r w, all (l ++ l0) w ∧ (r = IoOk tt → stands w st))).
  { refine (kept_call _ _ _ (SftpWrite _ _ _) _ _ _); [apply all_frame|]. intros w r w' Ha Hw.
    assert (all (l ++ l0) w').
    { eapply all_keeps; [|exact Ha|done]. apply Forall_forall. intros f Hf.
      eapply keeps_stage; [apply (Hl f Hf)|done]. }
    split_and!; [by eapply all_frame|done|]. intros ->. split; [left; by eexists|by eapply ah_write]. }
  intros [[]|]; [|apply kept_raise; intros w [Hw _]; by eapply all_frame].
  eapply (kept_bind _ _ _ (λ _, all ((Holds p payload :: l) ++ l0))); [|intros ?].
  - apply (kept_conseq _ _ (all l0) _ (all ((st :: l) ++ l0)) _ _ (λ _, all ((Holds p payload :: st :: l) ++ l0))).
    + apply kept_sudo.
      * intros f ev Hf Hev. apply (keeps_install _ _ u mode random p); [done|done| |done].
        apply elem_of_cons in Hf as [->|Hf]; [|by apply Hl]. intros [= Heq].
        by apply (Hp random); rewrite <- Heq.
      * intros w ev w' Ha Hok Hw. apply Forall_cons in Hw as [[_ Hst] _]. split; [done|by eapply ah_install].
    + done.
    + intros w [Hw Hst]. apply Forall_cons. auto.
    + intros _ w Hw. apply Forall_cons in Hw as [H1 Hw]. apply Forall_cons in Hw as [_ Hw].
      by apply Forall_cons.
  - eapply (kept_bind _ _ _ (λ _, all ((Holds p payload :: l) ++ l0)));
      [|intros ?; apply kept_ret; intros w Hw; split; [by apply (all_frame (Holds p payload :: l))|done]].
    apply kept_quiet. intros f Hf. apply emits_host_run. intros ev. apply keeps_unstage.
    apply elem_of_cons in Hf as [->|Hf]; [done|by apply Hl].
Qed.

(** Some facts of a kind hold. *)
Definition some_of (C : list fact → Prop) (w : ah_state) : Prop := ∃ l, C l ∧ all (l ++ l0) w.

Lemma some_of_frame C w : some_of C w → all l0 w.
Proof. intros (l & _ & Hw). by eapply all_frame. Qed.

Lemma kept_some {A} C (m : M A) :
  (∀ f, emits (keeps f) (λ _, True) m) → keeping (some_of C) m (λ _, some_of C).
Proof.
  intros Hm s t o s' w H (l & HC & Hw).
  destruct (kept_quiet l m (λ f _, Hm f) _ _ _ _ _ H Hw) as [HS HQ].
  split; [exact HS|]. intros a w' Ho Hp. exists l. split; [done|by eapply HQ].
Qed.

(** A with statement gives what its body gives. *)
Lemma kept_session {A} l C addr cfg (body : RemoteHost → M A) :
  (∀ h, keeping (all (l ++ l0)) (body h) (λ _, some_of C)) →
  keeping (all (l ++ l0)) (with_host addr cfg body) (λ _, some_of C).
Proof.
  intros Hb. unfold with_host.
  eapply kept_bind; [apply kept_quiet; intros; apply new_RemoteHost_keeps|intros h].
  eapply kept_bind; [apply kept_quiet; intros; apply connect_keeps|intros ?].
  apply kept_finally; [apply Hb|apply (kept_quiet []); intros; apply close_keeps|].
  intros ?. apply kept_some. intros. apply close_keeps.
Qed.

Lemma kept_encoded {A} l text (m : bytes → M A) Q :
  (∀ b, ascii_encode text = Some b → keeping (all (l ++ l0)) (m b) Q) →
  keeping (all (l ++ l0)) (bind (encode_ascii text) m) Q.
Proof.
  intros Hm. unfold encode_ascii. destruct (ascii_encode text) as [b|].
  - eapply (kept_bind _ _ _ (λ b' w, b' = b ∧ all (l ++ l0) w)).
    + apply kept_ret. intros w Hw. split_and!; [by eapply all_frame|done|done].
    + intros b' s t o s' w H [-> Hw]. by eapply Hm.
  - eapply (kept_bind _ _ _ (λ _ _, False)); [apply kept_raise, all_frame|]. done.
Qed.
End frame.

(** *** The account *)

Section enable.
Context (u key : string) (Hu : plain_name u = true).

(** What [enable_account] gives, the last first. *)
Definition restored_facts (l : list fact) : Prop :=
  ∃ k rule, ascii_encode (py_strip key +:+ nl) = Some k ∧ ascii_encode (sudoers_rule u) = Some rule ∧
    l = [Holds (sudoers_file u) rule; Owned (authorized_keys u) u; Holds (authorized_keys u) k;
         Owned (ssh_dir u) u; Sudoer u; BashShell u].

Context (l0 : list fact) (Hl0 : Forall (untouched u) l0).
Abbreviation keeping P m Q := (kept ah_answers (all l0) P m Q).

Lemma account_keeps f h cmd check :
  cmd ∈ enable_commands u → emits (keeps f) (λ _, True) (sudo h cmd check None).
Proof. intros Hin. apply sudo_keeps. intros ev Hp. by eapply keeps_account. Qed.

Ltac in_enable := repeat first [apply list_elem_of_here|apply list_elem_of_further].

Lemma kept_account l h cmd check :
  cmd ∈ enable_commands u → keeping (all (l ++ l0)) (sudo h cmd check None) (λ _, all (l ++ l0)).
Proof. intros Hin. apply kept_quiet. intros f _. by apply account_keeps. Qed.

Lemma ssh_dir_other : ssh_dir u ≠ authorized_keys u.
Proof. intros Heq. do 2 apply (inj (String.append _)) in Heq. done. Qed.

(** A file given to the account is its own. *)
Lemma kept_owner l h cmd p :
  (cmd, p) ∈ owner_commands u → (∀ v, Owned p v ∈ l → v = u) →
  keeping (all (l ++ l0)) (sudo h cmd true None) (λ _, all ((Owned p u :: l) ++ l0)).
Proof.
  intros Hin Hl. apply kept_sudo.
  - intros f ev Hf Hp. eapply keeps_owner; [exact Hu|exact Hin| |exact Hp]. intros v ->.
    apply elem_of_app in Hf as [Hf|Hf]; [by apply Hl|].
    rewrite Forall_forall in Hl0. destruct (Hl0 _ Hf) as (_ & [_ H1] & [_ H2] & _).
    repeat (apply elem_of_cons in Hin as [[= -> ->]|Hin]); [done|done|by apply elem_of_nil in Hin].
  - intros w ev w' Ha Hok _. split; [|by eapply ah_owner]. exists u. split; [done|].
    repeat (apply elem_of_cons in Hin as [[= -> ->]|Hin]); [by left|by right|by apply elem_of_nil in Hin].
Qed.

Lemma install_key_gives h :
  keeping (all ([Sudoer u; BashShell u] ++ l0)) (install_key h u (py_strip key))
    (λ _, some_of l0 restored_facts).
Proof.
  unfold install_key. pose proof ssh_dir_other as Hne.
  assert (∀ p, p = authorized_keys u ∨ p = sudoers_file u → Forall (clear_of p) l0) as Hclear.
  { intros p Hp. eapply Forall_impl; [exact Hl0|]. intros f (_ & _ & H1 & H2). by destruct Hp as [-> | ->]. }
  eapply kept_bind; [apply (kept_owner [Sudoer u; BashShell u] h _ (ssh_dir u)); [in_enable|set_solver]|intros ?].
  apply kept_encoded. intros k Hk.
  eapply kept_bind.
  { apply (kept_put_bytes l0 _ u); [exact Hu|by left|].
    apply Forall_cons. split; [split; [done|by intros Heq%(inj Some)]|].
    repeat (apply Forall_cons; split; [done|]). apply Hclear. by left. }
  intros ?. eapply kept_bind; [apply (kept_owner _ h (chown_command u) (authorized_keys u)); [in_enable|]|intros ?].
  { intros v Hv. repeat (apply elem_of_cons in Hv as [Heq|Hv]; [first [done|by apply (f_equal about), (inj Some) in Heq]|]).
    by apply elem_of_nil in Hv. }
  eapply kept_bind; [apply kept_account; in_enable|intros ?].
  apply kept_encoded. intros rule Hrule.
  pose proof (kept_put_bytes l0 [Owned (authorized_keys u) u; Holds (authorized_keys u) k; Owned (ssh_dir u) u;
    Sudoer u; BashShell u] u h rule (sudoers_file u) mode_440 Hu) as Hput.
  eapply kept_conseq; [apply Hput; [by right|]|done|done|].
  - repeat (apply Forall_cons; split; [done|]). apply Hclear. by right.
  - intros ? w Hw. eexists. split; [exists k, rule; split_and!; [done..|reflexivity]|exact Hw].
Qed.

Lemma enable_account_gives h :
  keeping (all l0) (enable_account h u key) (λ _, some_of l0 restored_facts).
Proof.
  unfold enable_account. change l0 with ([] ++ l0) at 2.
  eapply kept_bind; [apply kept_quiet; intros f _; apply emits_host_run; intros ev; by apply keeps_id|].
  intros present. destruct (cmd_ok present); cbn [negb]; [|by apply kept_raise].
  eapply kept_bind; [apply kept_account; in_enable|intros ?].
  eapply kept_bind.
  { apply (kept_sudo _ _ _ _ _ (BashShell u)); [|intros w ev w' Ha Hok _; split; [done|by eapply ah_shell]].
    intros f ev _ Hp. eapply keeps_account; [exact Hu| |exact Hp]. in_enable. }
  intros ?. eapply kept_bind.
  { apply (kept_sudo _ _ _ _ _ (Sudoer u)); [|intros w ev w' Ha Hok _; split; [done|by eapply ah_group]].
    intros f ev _ Hp. eapply keeps_account; [exact Hu| |exact Hp]. in_enable. }
  intros ?. eapply kept_bind; [apply install_key_gives|intros ?].
  eapply kept_bind; [apply kept_some; intros f; apply account_keeps; in_enable|intros check].
  destruct (cmd_ok check); cbn [negb]; [apply kept_ret; intros w Hw; split; [by eapply some_of_frame|done]|].
  eapply (kept_bind _ _ _ (λ _, all l0)); [|intros ?; by apply kept_raise].
  eapply kept_conseq; [apply (kept_quiet l0 [])|done|intros w; apply some_of_frame|done].
  intros f Hf. apply sudo_keeps. intros ev. apply keeps_rule; [done|].
  rewrite Forall_forall in Hl0. by apply (Hl0 f Hf).
Qed.

Lemma restore_bootstrap_gives config leave :
  keeping (all l0) (restore_bootstrap config u key leave) (λ _, some_of l0 restored_facts).
Proof.
  unfold restore_bootstrap. change l0 with ([] ++ l0) at 2.
  eapply kept_bind; [apply kept_quiet; intros f _; apply new_VBoxManage_keeps|intros vbox]. cbv zeta.
  eapply kept_bind; [apply kept_quiet; intros f _; apply vm_exists_keeps|intros present].
  destruct present; cbn [negb]; [|by apply kept_raise].
  eapply kept_bind; [apply kept_quiet; intros f _; apply reach_template_keeps|intros addr].
  eapply kept_bind; [apply kept_session; intros h; apply enable_account_gives|intros ?].
  destruct leave; cbn [negb when].
  - apply kept_ret. intros w Hw. split; [by eapply some_of_frame|done].
  - apply kept_some. intros f. apply power_off_keeps.
Qed.

(** A fact about no file is kept by every call of the operation. *)
Lemma put_bytes_keeps f h payload p mode :
  about f = None → account_file u mode p → emits (keeps f) (λ _, True) (put_bytes h payload p mode).
Proof.
  intros Hf Hp. assert (not_staged f) as Hs by (intros random; by rewrite Hf). unfold put_bytes.
  apply emits_bind; [keeps_step|intros random]. cbv zeta.
  apply emits_bind; [apply sftp_keeps|intros ch].
  apply emits_bind; [refine (emits_call _ _ (SftpWrite _ _ _) _); intros ?; by eapply keeps_stage|].
  intros [?|?]; [|by apply emits_raise].
  apply emits_bind; [apply sudo_keeps; intros ev; apply (keeps_install f ev u mode); [done|done|by rewrite Hf]|].
  intros ?. apply emits_bind; [apply emits_host_run; intros ev; by apply keeps_unstage|].
  intros ?. by apply emits_ret.
Qed.

Lemma owner_keeps f h cmd p :
  about f = None → (cmd, p) ∈ owner_commands u → emits (keeps f) (λ _, True) (sudo h cmd true None).
Proof.
  intros Hf Hin. apply sudo_keeps. intros ev. eapply keeps_owner; [exact Hu|exact Hin|]. by intros v ->.
Qed.

Lemma enable_account_keeps f h :
  about f = None → emits (keeps f) (λ _, True) (enable_account h u key).
Proof.
  intros Hf. unfold enable_account, install_key.
  apply emits_bind; [apply emits_host_run; intros ev; by apply keeps_id|intros present].
  destruct (negb _); [by apply emits_raise|].
  do 3 (apply emits_bind; [apply account_keeps; in_enable|intros ?]).
  apply emits_bind.
  - apply emits_bind; [eapply owner_keeps; [done|in_enable]|intros ?].
    apply emits_bind; [unfold encode_ascii; by keeps_auto|intros k].
    apply emits_bind; [apply put_bytes_keeps; [done|by left]|intros ?].
    apply emits_bind; [apply (owner_keeps _ _ (chown_command u) (authorized_keys u)); [done|in_enable]|intros ?].
    apply emits_bind; [apply account_keeps; in_enable|intros ?].
    apply emits_bind; [unfold encode_ascii; by keeps_auto|intros rule].
    apply put_bytes_keeps; [done|by right].
  - intros ?. apply emits_bind; [apply account_keeps; in_enable|intros check].
    destruct (negb _); [|by apply emits_ret].
    apply emits_bind; [|intros ?; by apply emits_raise].
    apply sudo_keeps. intros ev. apply keeps_rule; [done|by rewrite Hf].
Qed.

Lemma restore_bootstrap_keeps f config leave :
  about f = None → emits (keeps f) (λ _, True) (restore_bootstrap config u key leave).
Proof.
  intros Hf. unfold restore_bootstrap.
  apply emits_bind; [apply new_VBoxManage_keeps|intros vbox]. cbv zeta.
  apply emits_bind; [apply vm_exists_keeps|intros present]. destruct (negb _); [by apply emits_raise|].
  apply emits_bind; [apply reach_template_keeps|intros addr].
  apply emits_bind; [|intros ?; unfold when; destruct (negb _); [apply power_off_keeps|by apply emits_ret]].
  apply with_host_emits; [intros [[] ?] Hev; first [by destruct Hev|beside_tac]|done|intros h].
  by apply enable_account_keeps.
Qed.

(** The unlocking is tried, and holds to the end if it succeeded. *)
Lemma sudo_tried h cmd check timeout :
  ensures (privileged cmd) (sudo h cmd check timeout) (λ _, true).
Proof.
  intros s t r s' H _. destruct (sudo_returns _ _ _ _ _ _ _ _ H) as [(c & cmd' & i & tm & Hcmd & _ & Hl) _].
  apply last_Some in Hl as [t1 ->]. apply Exists_app. right. constructor.
  destruct Hcmd as [-> | ->]; [left|right]; by eexists _, _, _.
Qed.

Lemma restore_bootstrap_tries config leave :
  ensures (privileged (unlock_command u)) (restore_bootstrap config u key leave) (λ _, true).
Proof.
  unfold restore_bootstrap. apply ensures_bind_r. intros vbox. cbv zeta.
  apply ensures_bind_r. intros present. destruct (negb present); [apply ensures_raise|].
  apply ensures_bind_r. intros addr. apply ensures_bind_l.
  apply with_host_ensures; intros h; [by apply enable_account_op|].
  unfold enable_account. apply ensures_bind_r. intros r. destruct (negb _); [apply ensures_raise|].
  apply ensures_bind_l. apply sudo_tried.
Qed.

Lemma unlocked_stays config leave s t o s' w w' :
  runs (restore_bootstrap config u key leave) s t o s' → along ah_answers w t w' →
  Exists (privileged_ok (unlock_command u)) t → holds w' (Unlocked u).
Proof.
  intros H Hp (ev & Hin & Hev)%Exists_exists. apply list_elem_of_split in Hin as (t1 & t2 & ->).
  destruct (restore_bootstrap_keeps (Unlocked u) config leave eq_refl _ _ _ _ H) as [Ht _].
  apply along_app in Hp as (w1 & _ & (w2 & Ha & Hp)%along_cons_inv).
  apply Forall_app in Ht as [_ [_ Ht]%Forall_cons].
  eapply (along_keeps ah_answers (λ w, holds w (Unlocked u))); [|exact Ht|exact Hp|by eapply ah_unlock].
  intros w3 ev' w4 Hk Ha'. by eapply ah_keeps.
Qed.

(** The rule is in place only once it was checked. *)
Lemma restore_bootstrap_checked config leave :
  ensures (privileged_ok (visudo u)) (restore_bootstrap config u key leave) (λ _, true).
Proof.
  unfold restore_bootstrap. apply ensures_bind_r. intros vbox. cbv zeta.
  apply ensures_bind_r. intros present. destruct (negb present); [apply ensures_raise|].
  apply ensures_bind_r. intros addr. apply ensures_bind_l.
  apply with_host_ensures; intros h; [by apply enable_account_op|].
  unfold enable_account. apply ensures_bind_r. intros r. destruct (negb _); [apply ensures_raise|].
  do 4 (apply ensures_bind_r; intros ?).
  eapply ensures_bind_or; [apply sudo_ensures|]. intros check Hc. apply orb_false_iff in Hc as [-> _].
  cbn [negb]. apply ensures_bind_r. intros ?. apply ensures_raise.
Qed.
End enable.
End host.

(** ** A guest that satisfies the laws *)

Record disk : Type := MkDisk {
  d_bash : gset string;
  d_sudoers : gset string;
  d_unlocked : gset string;
  d_owners : gmap string string;
  d_files : gmap string bytes;
  d_clock : Z }.

Definition shelled (u : string) (d : disk) : disk :=
  MkDisk ({[u]} ∪ d_bash d) (d_sudoers d) (d_unlocked d) (d_owners d) (d_files d) (d_clock d).
Definition grouped (u : string) (d : disk) : disk :=
  MkDisk (d_bash d) ({[u]} ∪ d_sudoers d) (d_unlocked d) (d_owners d) (d_files d) (d_clock d).
Definition unlocked (u : string) (d : disk) : disk :=
  MkDisk (d_bash d) (d_sudoers d) ({[u]} ∪ d_unlocked d) (d_owners d) (d_files d) (d_clock d).
Definition given (p u : string) (d : disk) : disk :=
  MkDisk (d_bash d) (d_sudoers d) (d_unlocked d) (<[p := u]> (d_owners d)) (d_files d) (d_clock d).
Definition written (p : string) (payload : bytes) (d : disk) : disk :=
  MkDisk (d_bash d) (d_sudoers d) (d_unlocked d) (d_owners d) (<[p := payload]> (d_files d)) (d_clock d).
Definition removed (p : string) (d : disk) : disk :=
  MkDisk (d_bash d) (d_sudoers d) (d_unlocked d) (delete p (d_owners d)) (delete p (d_files d)) (d_clock d).
Definition at_clock (clock : Z) (d : disk) : disk :=
  MkDisk (d_bash d) (d_sudoers d) (d_unlocked d) (d_owners d) (d_files d) clock.

(** The words of a command line. *)
Definition words (s : string) : list string := py_split_char " " s.

(** A command run as root; the file an installation puts in place is root's. *)
Definition root_act (cmd : string) (d : disk) : disk :=
  match words cmd with
  | [tool; flag; x] =>
      if String.eqb tool "rm" then removed x d
      else if String.eqb tool "chown" then
        match py_partition ":" flag with Some (u, _) => given x u d | None => d end
      else if String.eqb flag "-U" then unlocked x d else d
  | [_; flag; _; u] =>
      if String.eqb flag "-s" then shelled u d else if String.eqb flag "-aG" then grouped u d else d
  | ["install"; _; _; _; p; dest] =>
      match d_files d !! p with
      | Some payload => written dest payload (given dest "root" d)
      | None => d
      end
  | ["install"; _; _; _; _; u; _; _; p] => given p u d
  | _ => d
  end.

(** A guest whose sudo asks for no password; every other call is answered as
    for [template_world]. *)
Definition disk_world : handler disk := λ e d,
  match e return resp e * disk with
  | SshExec _ cmd _ _ =>
      match after "sudo -n " cmd with
      | Some root => (Executed 0 "" "", root_act root d)
      | None =>
          if after "sudo -S " cmd is Some _ then (Executed 1 "" "", d)
          else (Executed 0 "" "", match after "rm -f " cmd with Some p => removed p d | None => d end)
      end
  | SftpWrite _ p payload => (IoOk tt, written p payload d)
  | e => let '(r, clock) := template_world e (d_clock d) in (r, at_clock clock d)
  end.

Definition disk_host : AccountHost := {|
  ah_state := disk; ah_bash := d_bash; ah_sudoers := d_sudoers; ah_unlocked := d_unlocked;
  ah_owners := d_owners; ah_files := d_files; ah_answers := handled disk_world |}.

Lemma plain_words u : plain_name u = true → has_char " " u = false ∧ has_char ":" u = false.
Proof.
  intros Hu. assert (str_forall name_char u = true) as Hf
    by (destruct u; [done|by apply andb_prop in Hu as [_ Hu]]).
  clear Hu. induction u as [|c u IH]; [done|]. cbn [str_forall] in Hf. apply andb_prop in Hf as [Hc Hf].
  destruct (IH Hf) as [H1 H2]. unfold has_char in *. cbn [str_exists]. rewrite H1, H2, !orb_false_r.
  split; [by destruct (Ascii.eqb_spec " " c); subst|by destruct (Ascii.eqb_spec ":" c); subst].
Qed.

Lemma words_join l : Forall (λ f, has_char " " f = false) l → l ≠ [] → words (py_join " " l) = l.
Proof. intros Hl Hne. by apply (split_join " "). Qed.

(** What the commands of the operation do to the disk. *)
Section acts.
Context (u : string) (Hu : plain_name u = true) (d : disk).

Lemma file_words :
  Forall (λ f, has_char " " f = false) [u; u +:+ ":" +:+ u; ssh_dir u; authorized_keys u; sudoers_file u].
Proof.
  destruct (plain_words u Hu) as [Hs _]. unfold ssh_dir, authorized_keys, sudoers_file.
  repeat (constructor; [by rewrite ?has_char_app, ?Hs|]). constructor.
Qed.

Lemma staging_words random : has_char " " (staging_path random) = false.
Proof.
  unfold staging_path. rewrite has_char_app. simpl.
  pose proof (hex_of_bytes_hex random) as Hh. revert Hh. generalize (hex_of_bytes random). intros x.
  unfold has_char. induction x as [|c x IH]; [done|]. cbn [str_forall str_exists].
  intros [Hc Hx]%andb_prop. rewrite IH by done. by destruct (Ascii.eqb_spec " " c); subst.
Qed.

Ltac act_tac l :=
  let Hw := fresh in
  unfold root_act;
  match goal with |- context [words ?c] => assert (words c = l) as Hw; [|by rewrite Hw] end;
  transitivity (words (py_join " " l)); [f_equal; simpl; by rewrite ?str_app_assoc|];
  pose proof file_words as Hf; rewrite !Forall_cons in Hf; destruct Hf as (? & ? & ? & ? & ? & _);
  apply words_join; [repeat (apply Forall_cons; split; [first [done|apply staging_words]|]); constructor|done].

Lemma act_unlock : root_act (unlock_command u) d = unlocked u d.
Proof. act_tac ["usermod"; "-U"; u]. Qed.
Lemma act_shell : root_act (shell_command u) d = shelled u d.
Proof. act_tac ["usermod"; "-s"; "/bin/bash"; u]. Qed.
Lemma act_group : root_act (group_command u) d = grouped u d.
Proof. act_tac ["usermod"; "-aG"; "sudo"; u]. Qed.
Lemma act_chmod : root_act ("chmod 600 " +:+ authorized_keys u) d = d.
Proof. act_tac ["chmod"; "600"; authorized_keys u]. Qed.
Lemma act_visudo : root_act (visudo u) d = d.
Proof. act_tac ["visudo"; "-cf"; sudoers_file u]. Qed.
Lemma act_remove : root_act ("rm -f " +:+ sudoers_file u) d = removed (sudoers_file u) d.
Proof. act_tac ["rm"; "-f"; sudoers_file u]. Qed.
Lemma act_ssh_dir : root_act (ssh_dir_command u) d = given (ssh_dir u) u d.
Proof. act_tac ["install"; "-d"; "-m"; "700"; "-o"; u; "-g"; u; ssh_dir u]. Qed.
Lemma act_chown : root_act (chown_command u) d = given (authorized_keys u) u d.
Proof.
  transitivity (match py_partition ":" (u +:+ ":" +:+ u) with
    Some (v, _) => given (authorized_keys u) v d | None => d end).
  - act_tac ["chown"; u +:+ ":" +:+ u; authorized_keys u].
  - change (":" +:+ u) with (String ":" u). by rewrite (partition_app ":") by apply (plain_words u Hu).
Qed.
Lemma act_install mode random p : account_file u mode p →
  root_act (install_command mode (staging_path random) p) d =
    match d_files d !! staging_path random with
    | Some payload => written p payload (given p "root" d)
    | None => d
    end.
Proof.
  intros [[-> ->]|[-> ->]].
  - act_tac ["install"; "-D"; "-m"; "600"; staging_path random; authorized_keys u].
  - act_tac ["install"; "-D"; "-m"; "440"; staging_path random; sudoers_file u].
Qed.

(** None of the commands of the operation takes a fact away. *)
Lemma act_enable cmd f :
  cmd ∈ enable_commands u → holds (g := disk_host) d f → holds (g := disk_host) (root_act cmd d) f.
Proof.
  unfold enable_commands. intros Hin Hf.
  repeat (apply elem_of_cons in Hin as [->|Hin]); [..|by apply elem_of_nil in Hin];
    rewrite ?act_unlock, ?act_shell, ?act_group, ?act_chmod, ?act_visudo; destruct f; simpl in *; set_solver.
Qed.

Lemma act_owner cmd p : (cmd, p) ∈ owner_commands u → root_act cmd d = given p u d.
Proof.
  intros Hin. repeat (apply elem_of_cons in Hin as [[= -> ->]|Hin]); [..|by apply elem_of_nil in Hin];
    [apply act_ssh_dir|apply act_chown].
Qed.
End acts.

(** What the disk does with a privileged command. *)
Lemma disk_world_root d ev d' cmd :
  handled disk_world d ev d' → privileged cmd ev → d' = d ∨ d' = root_act cmd d.
Proof.
  destruct ev as [e r]. intros H [Hp|Hp]; destruct Hp as (c & i & tm & He); cbn in He; subst e;
    unfold handled in H; cbn [disk_world ev_eff ev_resp] in H.
  - change (after "sudo -n " (sudo_n cmd)) with (Some cmd) in H. injection H as _ <-. by right.
  - change (after "sudo -n " (sudo_S cmd)) with (@None string) in H. injection H as _ <-. by left.
Qed.

Lemma succeeded_status c cmd i tm status out err :
  succeeded (Ev (SshExec c cmd i tm) (Executed status out err)) → status = 0%Z.
Proof.
  intros (c' & cmd' & i' & tm' & out' & err' & Heq).
  apply (f_equal (λ ev, match ev with
    | Ev (SshExec _ _ _ _) r => match r : exec_resp with Executed n _ _ => n | _ => 0%Z end
    | _ => 0%Z
    end)) in Heq. exact Heq.
Qed.

Lemma disk_world_succeeds d ev d' cmd :
  handled disk_world d ev d' → privileged_ok cmd ev → d' = root_act cmd d.
Proof.
  intros H [[Hp|Hp] Hok]; destruct ev as [e r], Hp as (c & i & tm & He); cbn in He; subst e;
    unfold handled in H; cbn [disk_world ev_eff ev_resp] in H.
  - change (after "sudo -n " (sudo_n cmd)) with (Some cmd) in H. by injection H as _ <-.
  - change (after "sudo -n " (sudo_S cmd)) with (@None string) in H. injection H as Hr _.
    subst r. by apply succeeded_status in Hok.
Qed.

(** What it does with a call that is neither a command nor a file. *)
Lemma disk_world_other e d :
  match e with SshExec _ _ _ _ | SftpWrite _ _ _ => False | _ => True end →
  ∃ clock, (disk_world e d).2 = at_clock clock d.
Proof. intros He. destruct e; try done; cbn [disk_world]; destruct (template_world _ _); by eexists. Qed.

Abbreviation holds_on := (holds (g := disk_host)).

Lemma given_holds d p u f : (∀ v, f = Owned p v → v = u) → holds_on d f → holds_on (given p u d) f.
Proof.
  intros Hv Hf. destruct f as [v|v|v|p' v|p' c]; try exact Hf. simpl in *.
  destruct (decide (p' = p)) as [->|Hne]; [by rewrite lookup_insert_eq, (Hv v)|by rewrite lookup_insert_ne].
Qed.

Lemma written_holds d p payload f : about f ≠ Some p → holds_on d f → holds_on (written p payload d) f.
Proof.
  intros Hne Hf. destruct f as [v|v|v|p' v|p' c]; try exact Hf. simpl in *.
  rewrite lookup_insert_ne; [exact Hf|congruence].
Qed.

Lemma removed_holds d p f : about f ≠ Some p → holds_on d f → holds_on (removed p d) f.
Proof.
  intros Hne Hf. destruct f as [v|v|v|p' v|p' c]; try exact Hf; simpl in *;
    (rewrite lookup_delete_ne; [exact Hf|congruence]).
Qed.

Lemma disk_plain d ev d' cmd : handled disk_world d ev d' → plain cmd ev →
  after "sudo -n " cmd = None → after "sudo -S " cmd = None →
  d' = match after "rm -f " cmd with Some p => removed p d | None => d end.
Proof.
  destruct ev as [e r]. intros H (c & i & tm & He) Hn HS. cbn in He. subst e.
  unfold handled in H. cbn [disk_world ev_eff ev_resp] in H. rewrite Hn, HS in H. by injection H.
Qed.

Lemma disk_keeps d ev d' f : handled disk_world d ev d' → keeps f ev → holds_on d f → holds_on d' f.
Proof.
  intros H Hk Hf.
  destruct Hk as [Hb|Hp|u _ Hp|ch random payload Hs He|random Hs Hp|u cmd Hu Hin Hp
                 |u cmd p Hu Hin Hv Hp|u mode random p Hu Hm Hne Hp|u Hu Hne Hp].
  - pose proof (handled_after _ _ _ _ H) as ->. destruct ev as [e r]. cbn [ev_eff] in *.
    destruct e; try done;
      match goal with |- context [disk_world ?e d] => destruct (disk_world_other e d I) as [clock ->] end;
      by destruct f.
  - by rewrite (disk_plain _ _ _ _ H Hp).
  - by rewrite (disk_plain _ _ _ _ H Hp).
  - pose proof (handled_after _ _ _ _ H) as ->. rewrite He. by apply written_holds.
  - rewrite (disk_plain _ _ _ _ H Hp) by done. by apply removed_holds.
  - destruct (disk_world_root _ _ _ _ H Hp) as [-> | ->]; [done|]. by apply act_enable with u.
  - destruct (disk_world_root _ _ _ _ H Hp) as [-> | ->]; [done|]. rewrite (act_owner u Hu _ _ p) by done.
    by apply given_holds.
  - destruct (disk_world_root _ _ _ _ H Hp) as [-> | ->]; [done|]. rewrite (act_install u) by done.
    destruct (_ !! _); [|done]. apply written_holds; [done|]. apply given_holds; [|done].
    intros v ->. by destruct Hne.
  - destruct (disk_world_root _ _ _ _ H Hp) as [-> | ->]; [done|]. rewrite act_remove by done.
    by apply removed_holds.
Qed.

Lemma disk_laws : AccountHostLaws disk_host.
Proof.
  split; cbn [ah_state ah_answers disk_host].
  - intros d ev d' f H _. by apply disk_keeps.
  - intros d ev d' u H Hu Hok. rewrite (disk_world_succeeds _ _ _ _ H Hok), act_unlock by done. simpl. set_solver.
  - intros d ev d' u H Hu Hok. rewrite (disk_world_succeeds _ _ _ _ H Hok), act_shell by done. simpl. set_solver.
  - intros d ev d' u H Hu Hok. rewrite (disk_world_succeeds _ _ _ _ H Hok), act_group by done. simpl. set_solver.
  - intros d ev d' u cmd p H Hu Hin Hok.
    rewrite (disk_world_succeeds _ _ _ _ H Hok), (act_owner u Hu _ _ p) by done. apply lookup_insert_eq.
  - intros d ch random payload d' H. unfold handled in H. cbn [disk_world ev_eff ev_resp] in H.
    injection H as <-. apply lookup_insert_eq.
  - intros d ev d' u mode random p payload H Hu Hm Hok Hst.
    rewrite (disk_world_succeeds _ _ _ _ H Hok), (act_install u) by done.
    cbn [holds ah_files disk_host] in Hst. rewrite Hst. apply lookup_insert_eq.
Qed.

(** ** Property *)


(** A template whose bootstrap account was disabled, and an account whose facts
    are to be left alone. *)
Definition operator_key : bytes := utf8_encode "ssh-ed25519 BBBB vmadmin".
Definition operator_facts : list fact :=
  [BashShell "vmadmin"; Sudoer "vmadmin"; Unlocked "vmadmin"; Owned (authorized_keys "vmadmin") "vmadmin";
   Holds (authorized_keys "vmadmin") operator_key].
Definition disabled_disk : disk :=
  MkDisk {["vmadmin"]} {["vmadmin"]} {["vmadmin"]} {[authorized_keys "vmadmin" := "vmadmin"]}
    {[authorized_keys "vmadmin" := operator_key]} 0.
Definition sample_restore : M unit :=
  restore_bootstrap sample_cluster "deploy" ("ssh-ed25519 AAAA me" +:+ nl) true.

Lemma operator_untouched : Forall (untouched "deploy") operator_facts.
Proof.
  repeat (apply Forall_cons; split); [..|by constructor];
    (split_and!; [first [exact I|exists "vmadmin"; split; [done|by right]
                        |right; exists "vmadmin"; split; [done|by left]]|done..]).
Qed.

