(* ===== verification/Float64.v ===== *)
(** * Floating point numbers

    Python's [float] is binary64, here the standard library's [spec_float] at
    53 bits of precision: the conversion of integers, their true division,
    truncation, and the [.1f] format. *)

From Stdlib Require Import SpecFloat.
From S2P Require Import Prelude PyStr Exceptions.

#[export] Set Default Goal Selector "!".

Abbreviation float := spec_float.

Definition float_div : float → float → float := SFdiv 53 1024.
Definition float_mul : float → float → float := SFmul 53 1024.
Definition float_ge (x y : float) : bool := SFleb y x.

(** The float an integer rounds to, ties to even. *)
Definition nearest (z : Z) : float := binary_normalize 53 1024 z 0 false.

Definition is_finite (x : float) : bool :=
  match x with S754_zero _ | S754_finite _ _ _ => true | _ => false end.

(** [float(z)], which arithmetic with a float applies to an integer. *)
Definition float_of_int (z : Z) : res float :=
  if is_finite (nearest z) then inr (nearest z)
  else inl (OverflowError "int too large to convert to float").

(** The integer as a float of as many bits as it takes. *)
Definition exact (z : Z) : float :=
  match z with
  | Z0 => S754_zero false
  | Zpos m => S754_finite false m 0
  | Zneg m => S754_finite true m 0
  end.

(** [a / b] of two integers: the exact quotient, rounded once. *)
Definition int_true_div (a b : Z) : res float :=
  let q := float_div (exact a) (exact b) in
  if is_finite q then inr q
  else inl (OverflowError "integer division result too large for a float").

(** [m * 2 ** e], towards zero. *)
Definition scale (m e : Z) : Z := if (0 <=? e)%Z then Z.shiftl m e else Z.shiftr m (- e).

(** [int(x)] of a finite float. *)
Definition truncate (x : float) : Z :=
  match x with
  | S754_finite s m e => let n := scale (Zpos m) e in if s then (- n)%Z else n
  | _ => 0%Z
  end.

(** [m * 2 ** e], to the nearest integer, ties to even. *)
Definition round_scaled (m e : Z) : Z :=
  if (0 <=? e)%Z then Z.shiftl m e
  else
    let d := Z.shiftl 1 (- e) in
    let q := (m / d)%Z in
    match (2 * (m mod d) ?= d)%Z with
    | Lt => q
    | Gt => q + 1
    | Eq => if Z.even q then q else q + 1
    end%Z.

(** [f"{x:.1f}"]. *)
Definition format_1f (x : float) : string :=
  let sign (s : bool) := if s then "-" else "" in
  match x with
  | S754_zero s => sign s +:+ "0.0"
  | S754_infinity s => sign s +:+ "inf"
  | S754_nan => "nan"
  | S754_finite s m e =>
      let tenths := round_scaled (Zpos m * 10) e in
      sign s +:+ str_of_Z (tenths / 10) +:+ "." +:+ str_of_Z (tenths mod 10)
  end.

(** Rounding is to a nearest integer. *)
Lemma round_scaled_nearest m e :
  (0 ≤ m)%Z → (e < 0)%Z →
  (2 * Z.abs (round_scaled m e * 2 ^ (- e) - m) ≤ 2 ^ (- e))%Z.
Proof.
  intros Hm He. unfold round_scaled. destruct (Z.leb_spec 0 e); [lia|].
  rewrite Z.shiftl_1_l. set (d := (2 ^ (- e))%Z). assert (0 < d)%Z by (apply Z.pow_pos_nonneg; lia).
  pose proof (Z.div_mod m d ltac:(lia)). pose proof (Z.mod_pos_bound m d ltac:(lia)).
  destruct (Z.compare_spec (2 * (m mod d)) d); [destruct (Z.even _)| |]; lia.
Qed.

(** ** Division by a power of two *)

Lemma digits2_log2 p : Zpos (digits2_pos p) = (Z.log2 (Zpos p) + 1)%Z.
Proof.
  induction p as [p IH|p IH|]; [| |done].
  - change (Zpos p~1) with (2 * Zpos p + 1)%Z. rewrite Z.log2_succ_double by lia.
    cbn [digits2_pos]. rewrite Pos2Z.inj_succ, IH. lia.
  - change (Zpos p~0) with (2 * Zpos p)%Z. rewrite Z.log2_double by lia.
    cbn [digits2_pos]. rewrite Pos2Z.inj_succ, IH. lia.
Qed.

Lemma Zdigits2_pos z : (0 < z)%Z → Zdigits2 z = (Z.log2 z + 1)%Z.
Proof. destruct z; [lia| |lia]. intros _. apply digits2_log2. Qed.

Lemma shr_1_even m : (0 < m)%Z → shr_1 (Build_shr_record (2 * m) false false) = Build_shr_record m false false.
Proof. by destruct m. Qed.

(** A mantissa of 54 bits that ends in zero loses that zero and nothing else. *)
Lemma binary_round_aux_even m e :
  (0 < m)%Z → Z.log2 m = 52%Z → (-1074 ≤ e ≤ 970)%Z →
  binary_round_aux 53 1024 false (2 * m) e loc_Exact = S754_finite false (Z.to_pos m) (e + 1).
Proof.
  intros Hm Hl He. unfold binary_round_aux.
  assert (shr_fexp 53 1024 (2 * m) e loc_Exact = (Build_shr_record m false false, (e + 1)%Z)) as ->.
  { unfold shr_fexp. rewrite Zdigits2_pos, Z.log2_double, Hl by lia. unfold fexp, emin.
    replace (_ - e)%Z with 1%Z by lia. unfold shr, shr_record_of_loc, iter_pos.
    by rewrite shr_1_even. }
  unfold round_nearest_even, loc_of_shr_record. cbn [shr_m].
  assert (shr_fexp 53 1024 m (e + 1) loc_Exact = (Build_shr_record m false false, (e + 1)%Z)) as ->.
  { unfold shr_fexp. rewrite Zdigits2_pos, Hl by lia. unfold fexp, emin.
    by replace (_ - (e + 1))%Z with 0%Z by lia. }
  cbn [shr_m]. destruct m as [|m|]; [lia| |lia].
  destruct (Z.leb_spec (e + 1) (1024 - 53)); [done|lia].
Qed.

Section power_of_two.
Context (k : Z).
Hypothesis Hk : (0 ≤ k ≤ 900)%Z.

(** An integer of at most 53 bits is divided exactly. *)
Lemma float_div_power a :
  (0 < a < 2 ^ 53)%Z →
  float_div (exact a) (exact (2 ^ k)) =
    S754_finite false (Z.to_pos (a * 2 ^ (52 - Z.log2 a))) (Z.log2 a - k - 52).
Proof.
  intros Ha. set (l := Z.log2 a).
  assert (0 ≤ l < 53)%Z as Hl by (split; [apply Z.log2_nonneg|apply Z.log2_lt_pow2; lia]).
  assert (0 < 2 ^ k)%Z as Hpos by (apply Z.pow_pos_nonneg; lia).
  assert (exact a = S754_finite false (Z.to_pos a) 0) as -> by (by destruct a; [lia| |lia]).
  assert (exact (2 ^ k) = S754_finite false (Z.to_pos (2 ^ k)) 0) as -> by (by destruct (2 ^ k)%Z; [lia| |lia]).
  unfold float_div, SFdiv, SFdiv_core_binary. rewrite !Z2Pos.id by lia.
  rewrite !Zdigits2_pos, Z.log2_pow2 by lia. fold l. unfold fexp, emin.
  replace (Z.min _ _) with (l - k - 53)%Z by lia.
  replace (0 - 0 - (l - k - 53))%Z with (53 - l + k)%Z by lia.
  assert (match (53 - l + k)%Z with Zpos _ => Z.shiftl a (53 - l + k) | Z0 => a | Zneg _ => 0%Z end
    = (2 * (a * 2 ^ (52 - l)) * 2 ^ k + 0)%Z) as ->.
  { destruct (53 - l + k)%Z eqn:E; [lia| |lia]. rewrite Z.shiftl_mul_pow2, <- E by lia.
    replace (53 - l + k)%Z with (1 + (52 - l) + k)%Z by lia. rewrite !Z.pow_add_r by lia. lia. }
  set (m := (a * 2 ^ (52 - l))%Z).
  assert (0 < m)%Z as Hm by (apply Z.mul_pos_pos; [lia|apply Z.pow_pos_nonneg; lia]).
  pose proof (Z_div_mod_full (2 * m * 2 ^ k + 0) (2 ^ k) ltac:(lia)) as Hdm.
  destruct (Z.div_eucl (2 * m * 2 ^ k + 0) (2 ^ k)) as [q r] eqn:Hqr.
  destruct Hdm as [Heq Hr]. unfold Remainder in Hr.
  destruct (Z.div_mod_unique (2 ^ k) q (2 * m) r 0) as [-> ->]; [lia..|].
  assert (new_location (2 ^ k) 0 = loc_Exact) as -> by (unfold new_location; by destruct (Z.even _)).
  assert (Z.log2 m = 52%Z) as Hlm by (unfold m; rewrite Z.log2_mul_pow2 by lia; unfold l; lia).
  rewrite binary_round_aux_even by lia. f_equal; lia.
Qed.

Lemma int_true_div_power a :
  (0 ≤ a < 2 ^ 53)%Z → ∃ f, int_true_div a (2 ^ k) = inr f ∧ truncate f = (a / 2 ^ k)%Z.
Proof.
  intros Ha. assert (0 < 2 ^ k)%Z as Hpos by (apply Z.pow_pos_nonneg; lia).
  unfold int_true_div. destruct (decide (a = 0)%Z) as [->|Hne].
  { exists (S754_zero false). assert (exact (2 ^ k) = S754_finite false (Z.to_pos (2 ^ k)) 0) as ->
      by (by destruct (2 ^ k)%Z; [lia| |lia]). by rewrite Z.div_0_l by lia. }
  rewrite float_div_power by lia. eexists. split; [done|]. cbn [truncate].
  set (l := Z.log2 a). assert (0 ≤ l < 53)%Z as Hl by (split; [apply Z.log2_nonneg|apply Z.log2_lt_pow2; lia]).
  assert (0 < a * 2 ^ (52 - l))%Z as Hm by (apply Z.mul_pos_pos; [lia|apply Z.pow_pos_nonneg; lia]).
  rewrite Z2Pos.id by done. unfold scale. destruct (Z.leb_spec 0 (l - k - 52)).
  - rewrite Z.shiftl_mul_pow2 by lia. replace l with 52%Z in * by lia. assert (k = 0)%Z as -> by lia.
    simpl. by rewrite Z.div_1_r, !Z.mul_1_r.
  - rewrite Z.shiftr_div_pow2 by lia. replace (- (l - k - 52))%Z with ((52 - l) + k)%Z by lia.
    rewrite Z.pow_add_r, (Z.mul_comm a) by lia.
    apply Z.div_mul_cancel_l; [lia|]. apply Z.pow_nonzero; lia.
Qed.
End power_of_two.

Example format_half : format_1f (S754_finite false 1 (-2)) = "0.2".
Proof. reflexivity. Qed.
Example format_up : format_1f (S754_finite false 3 (-2)) = "0.8".
Proof. reflexivity. Qed.
