(* ===== verification/Preflight.v ===== *)
(** * Pre-deployment checks (preflight.py)

    The six checks, their order, the verdict over them, and the report. *)

From S2P Require Import Prelude PyStr Exceptions Paths Effects Reasoning Bytes Config VirtualBox.
From S2P Require Import Float64.

#[export] Set Default Goal Selector "!".

Definition _HOST_RAM_HEADROOM_MB : Z := 1024.
(** The float nearest to 1.3. *)
Definition _DISK_SLACK : float := SpecFloat.S754_finite false 5854679515581645 (-52).
Definition _MB : Z := 1024 * 1024.
Definition _GB : float := float_mul (nearest 1024) (nearest _MB).

Inductive CheckStatus : Type := PASS | WARN | FAIL.

#[export] Instance CheckStatus_eq_dec : EqDecision CheckStatus.
Proof. solve_decision. Defined.

Definition status_value (s : CheckStatus) : string :=
  match s with PASS => "PASS" | WARN => "WARN" | FAIL => "FAIL" end.

Record CheckResult : Type := MkCheckResult { check_name : string; status : CheckStatus; detail : string }.

(** ** The host *)

Definition _windows_available_ram_mb : M (option Z) :=
  r <- call WindowsAvailPhys ;;
  match r with
  | None => ret None
  | Some avail => mb <- lift_res (int_true_div avail _MB) ;; ret (Some (truncate mb))
  end.

(** The two values are read in turn; an error of either gives nothing. *)
Definition posix_available_ram_mb : M (option Z) :=
  pages <- call (Sysconf "SC_AVPHYS_PAGES") ;;
  match pages with
  | SysconfMissing | SysconfError => ret None
  | SysconfValue pages =>
      size <- call (Sysconf "SC_PAGE_SIZE") ;;
      match size with
      | SysconfMissing | SysconfError => ret None
      | SysconfValue size =>
          mb <- lift_res (int_true_div (pages * size) _MB) ;; ret (Some (truncate mb))
      end
  end.

Definition _host_available_ram_mb : M (option Z) :=
  system <- call PlatformSystem ;;
  if String.eqb system "Windows" then _windows_available_ram_mb else posix_available_ram_mb.

Definition _vbox_machine_folder (vbox : VBoxManage) : M (option path) :=
  result <- vbox_run vbox ["list"; "systemproperties"] false 120 ;;
  ret (if negb (result_ok result) then None
       else match List.find (λ line, py_startswith line "Default machine folder:")
                    (py_splitlines (stdout result)) with
            | Some line => Some (Path (py_strip (after_char ":" line)))
            | None => None
            end).

(** ** The checks *)

Definition check_vboxmanage (config : ClusterConfig) : M CheckResult :=
  let path := vboxmanage (virtualbox config) in
  present <- call (IsFile path) ;;
  if negb present then
    ret (MkCheckResult "VBoxManage" FAIL
      ("not found at " +:+ str_path path +:+ "; set [virtualbox].vboxmanage in the configuration"))
  else
    catch
      (vbox <- new_VBoxManage path ;; version <- vbox_version vbox ;;
       ret (MkCheckResult "VBoxManage" PASS ("VirtualBox " +:+ version +:+ " at " +:+ str_path path)))
      (λ exc, if isinstance exc COSError || isinstance exc CValueError
              then Some (ret (MkCheckResult "VBoxManage" FAIL
                ("found but not runnable: " +:+ str_exn exc)))
              else None).

Definition check_ssh_key (config : ClusterConfig) : M CheckResult :=
  let path := key_path (ssh config) in
  present <- call (IsFile path) ;;
  ret (if negb present
       then MkCheckResult "SSH key" FAIL
         ("private key not found at " +:+ str_path path +:+ "; set [ssh].key_path")
       else MkCheckResult "SSH key" PASS ("present at " +:+ str_path path)).

Definition check_key_directory_writable (config : ClusterConfig) : M CheckResult :=
  let target := parent (manifest_file (inventory config)) in
  let probe := path_div target ".vmdeploy-write-test" in
  catch
    (r <- call (Mkdir target) ;; lift_io r ;;
     r <- call (WriteBytes probe (utf8_encode "ok")) ;; lift_io r ;;
     r <- call (Unlink probe) ;; lift_io r ;;
     ret (MkCheckResult "Key/manifest dir" PASS (str_path target +:+ " is writable")))
    (λ exc, if isinstance exc COSError
            then Some (ret (MkCheckResult "Key/manifest dir" FAIL
              (str_path target +:+ " is not writable: " +:+ str_exn exc)))
            else None).

Definition guest_count (config : ClusterConfig) : Z := Z.of_nat (length (all_hosts config)).
Definition guests_ram (config : ClusterConfig) : Z :=
  guest_count config * memory_mb (virtualbox config).
Definition required_ram (config : ClusterConfig) : Z := guests_ram config + _HOST_RAM_HEADROOM_MB.

Definition ram_summary (config : ClusterConfig) (available : Z) : string :=
  str_of_Z available +:+ " MB available, need ~" +:+ str_of_Z (required_ram config) +:+ " MB ("
  +:+ str_of_Z (guest_count config) +:+ " guest(s) x " +:+ str_of_Z (memory_mb (virtualbox config))
  +:+ " MB + " +:+ str_of_Z _HOST_RAM_HEADROOM_MB +:+ " MB headroom)".

Definition check_host_ram (config : ClusterConfig) : M CheckResult :=
  available <- _host_available_ram_mb ;;
  ret match available with
  | None => MkCheckResult "Host RAM" WARN "could not determine available RAM on this platform"
  | Some available =>
      let summary := ram_summary config available in
      if (required_ram config <=? available)%Z then MkCheckResult "Host RAM" PASS summary
      else if (guests_ram config <=? available)%Z then
        MkCheckResult "Host RAM" WARN
          (summary +:+ "; guests fit but headroom is tight, expect paging")
      else MkCheckResult "Host RAM" FAIL summary
  end.

(** [path.stat().st_size / _GB]. *)
Definition size_gb (p : path) : M float :=
  size <- call (StatSize p) ;; n <- lift_io size ;; f <- lift_res (float_of_int n) ;;
  ret (float_div f _GB).

(** The free bytes of the drive, or the error. *)
Definition disk_free (probe_dir : path) : M (string + Z) :=
  catch
    (present <- call (PathExists probe_dir) ;;
     usage <- call (DiskFree (if present : bool then str_path probe_dir else p_root probe_dir)) ;;
     free <- lift_io usage ;; ret (inr free))
    (λ exc, if isinstance exc COSError then Some (ret (inl (str_exn exc))) else None).

Definition check_host_disk (config : ClusterConfig) : M CheckResult :=
  let vbox_path := vboxmanage (virtualbox config) in
  let ova := template_ova (virtualbox config) in
  present <- call (IsFile vbox_path) ;;
  machine_folder <-
    (if present : bool then vbox <- new_VBoxManage vbox_path ;; _vbox_machine_folder vbox
     else ret None) ;;
  let probe_dir := default (parent ova) machine_folder in
  usage <- disk_free probe_dir ;;
  match usage with
  | inl exc => ret (MkCheckResult "Host disk" WARN
      ("could not measure " +:+ str_path probe_dir +:+ ": " +:+ exc))
  | inr free =>
      built <- call (IsFile ova) ;;
      per_guest_gb <- (if built : bool then size_gb ova else ret (nearest 8)) ;;
      guests <- lift_res (float_of_int (guest_count config)) ;;
      free_float <- lift_res (float_of_int free) ;;
      let required_gb := float_mul (float_mul per_guest_gb guests) _DISK_SLACK in
      let free_gb := float_div free_float _GB in
      let summary := format_1f free_gb +:+ " GB free on " +:+ str_path probe_dir +:+ ", need ~"
        +:+ format_1f required_gb +:+ " GB (" +:+ str_of_Z (guest_count config) +:+ " guest(s) x "
        +:+ format_1f per_guest_gb +:+ " GB)" in
      ret (if float_ge free_gb required_gb then MkCheckResult "Host disk" PASS summary
           else MkCheckResult "Host disk" FAIL summary)
  end.

Definition check_template_or_ova (config : ClusterConfig) : M CheckResult :=
  let ova := template_ova (virtualbox config) in
  let template := template_vm (virtualbox config) in
  built <- call (IsFile ova) ;;
  if built : bool then
    gb <- size_gb ova ;;
    ret (MkCheckResult "Template/OVA" PASS
      ("golden OVA present at " +:+ str_path ova +:+ " (" +:+ format_1f gb +:+ " GB)"))
  else
    present <- call (IsFile (vboxmanage (virtualbox config))) ;;
    registered <-
      (if present : bool then
         vbox <- new_VBoxManage (vboxmanage (virtualbox config)) ;; vm_exists vbox template
       else ret false) ;;
    ret (if registered : bool
         then MkCheckResult "Template/OVA" WARN
           ("no golden OVA yet, but template VM '" +:+ template +:+ "' is "
            +:+ "registered; run 'vmdeploy template' to build the image first")
         else MkCheckResult "Template/OVA" FAIL
           ("neither a golden OVA (" +:+ str_path ova +:+ ") nor the template VM '" +:+ template
            +:+ "' is available")).

Definition run_preflight (config : ClusterConfig) : M (list CheckResult) :=
  vboxmanage_result <- check_vboxmanage config ;;
  key_result <- check_ssh_key config ;;
  directory_result <- check_key_directory_writable config ;;
  ram_result <- check_host_ram config ;;
  disk_result <- check_host_disk config ;;
  template_result <- check_template_or_ova config ;;
  ret [vboxmanage_result; key_result; directory_result; ram_result; disk_result; template_result].

(** ** The verdict *)

Definition worst_status (results : list CheckResult) : CheckStatus :=
  let statuses := map status results in
  if bool_decide (FAIL ∈ statuses) then FAIL
  else if bool_decide (WARN ∈ statuses) then WARN
  else PASS.

Definition report_width (results : list CheckResult) : nat :=
  fold_right Nat.max 0 (map (λ r, String.length (check_name r)) results).

Definition report_line (width : nat) (r : CheckResult) : string :=
  "  [" +:+ py_ljust 4 (status_value (status r)) +:+ "] " +:+ py_ljust width (check_name r) +:+ "  "
  +:+ detail r.

Definition format_report (results : list CheckResult) : string :=
  py_join nl (map (report_line (report_width results)) results).
