(* ===== verification/PreflightFacts.v ===== *)
(** * What the preflight guarantees

    It changes no machine and opens no session, the verdict is the worst of
    the statuses, and the memory check is exact although it goes through a
    float. *)

From S2P Require Import Prelude PyStr Exceptions Paths Effects Reasoning Bytes Config VirtualBox.
From S2P Require Import VirtualBoxFacts SshClient SshFacts Apache SetupFacts Provision ProvisionFacts.
From S2P Require Import Float64 Preflight.

#[export] Set Default Goal Selector "!".

(** ** The checks look and write a probe *)

Ltac check_defs :=
  unfold run_preflight, check_vboxmanage, check_ssh_key, check_key_directory_writable, check_host_ram,
    _host_available_ram_mb, _windows_available_ram_mb, posix_available_ram_mb, check_host_disk,
    disk_free, _vbox_machine_folder, check_template_or_ova, size_gb, new_VBoxManage, vbox_version,
    vm_exists, list_vms.

Section checks.
Context (config : ClusterConfig).

Lemma run_preflight_confined : confined false [] (run_preflight config).
Proof. check_defs. cbv zeta. confined_auto. Qed.

Lemma run_preflight_terminates : terminates (run_preflight config).
Proof. check_defs. cbv zeta. pose proof terminates_vbox_run. by terminates_auto. Qed.

Lemma run_preflight_balanced : balanced (run_preflight config).
Proof. check_defs. cbv zeta. by balanced_auto. Qed.
End checks.

#[export] Hint Resolve run_preflight_terminates run_preflight_balanced : vmdeploy.

(** ** The verdict *)

(** How bad a status is. *)
Definition severity (s : CheckStatus) : nat := match s with PASS => 0 | WARN => 1 | FAIL => 2 end.

Lemma severity_inj s s' : severity s = severity s' → s = s'.
Proof. by destruct s, s'. Qed.

(** The verdict is the maximum of the severities. *)
Lemma worst_status_max results :
  severity (worst_status results) = fold_right (λ r n, Nat.max (severity (status r)) n) 0 results.
Proof.
  induction results as [|r results IH]; [done|]. cbn [fold_right]. rewrite <- IH. clear IH.
  unfold worst_status. cbn [map]. generalize (map status results) as l. intros l.
  repeat case_bool_decide; rewrite ?elem_of_cons in *; destruct (status r); simpl; try done; naive_solver.
Qed.

Lemma worst_status_fail results :
  worst_status results = FAIL ↔ ∃ r, r ∈ results ∧ status r = FAIL.
Proof.
  unfold worst_status. case_bool_decide as H.
  - apply list_elem_of_fmap in H as (r & Hr & Hin). split; [by exists r|done].
  - split; [by case_bool_decide|]. intros (r & Hin & Hr). destruct H. rewrite <- Hr.
    by apply list_elem_of_fmap_2.
Qed.

(** ** The memory check *)

(** On POSIX the memory check makes three calls. *)
Definition sysconf_trace (system : string) (pages size : Z) : trace :=
  [Ev PlatformSystem system; Ev (Sysconf "SC_AVPHYS_PAGES") (SysconfValue pages);
   Ev (Sysconf "SC_PAGE_SIZE") (SysconfValue size)].

(** The responses of such a trace. *)
Definition system_of (t : trace) : list string :=
  omap (λ ev, match ev with Ev PlatformSystem r => Some (r : string) | _ => None end) t.
Definition sysconf_of (t : trace) : list sysconf_resp :=
  omap (λ ev, match ev with Ev (Sysconf _) r => Some (r : sysconf_resp) | _ => None end) t.

Lemma ram_of_pages system pages size s :
  system ≠ "Windows" → (0 ≤ pages * size < 2 ^ 53)%Z →
  wp _host_available_ram_mb s (λ t o _,
    t = sysconf_trace system pages size → o = Ok (Some (pages * size / 2 ^ 20)%Z)).
Proof.
  intros Hsys Hb. unfold _host_available_ram_mb, _windows_available_ram_mb, posix_available_ram_mb.
  wp_step. wp_step. cbn [bind_post].
  match goal with |- context [String.eqb ?r _] => rename r into sys end.
  destruct (String.eqb_spec sys "Windows") as [->|_].
  { intros t o s' _ Ht.
    apply (f_equal system_of) in Ht. simpl in Ht. by injection Ht. }
  wp_step. wp_step. cbn [bind_post].
  match goal with |- wp (match ?r with _ => _ end) _ _ => rename r into p end.
  destruct p as [| |p]; [apply wp_ret; intros Ht; by apply (f_equal length) in Ht..|].
  wp_step. wp_step. cbn [bind_post].
  match goal with |- wp (match ?r with _ => _ end) _ _ => rename r into n end.
  assert (∀ t', ([Ev PlatformSystem sys] ++ [Ev (Sysconf "SC_AVPHYS_PAGES") (SysconfValue p)] ++
      [Ev (Sysconf "SC_PAGE_SIZE") n] ++ t' : trace) = sysconf_trace system pages size →
    p = pages ∧ n = SysconfValue size) as Hresp.
  { intros t' Ht. apply (f_equal sysconf_of) in Ht. by injection Ht as -> ->. }
  destruct n as [| |n]; [apply wp_ret; intros Ht; by destruct (Hresp _ Ht)..|].
  change _MB with (2 ^ 20)%Z. wp_step.
  assert (∀ t', ([Ev PlatformSystem sys] ++ [Ev (Sysconf "SC_AVPHYS_PAGES") (SysconfValue p)] ++
      [Ev (Sysconf "SC_PAGE_SIZE") (SysconfValue n)] ++ t' : trace) = sysconf_trace system pages size →
    (p * n = pages * size)%Z) as Hprod.
  { intros t' Ht. by destruct (Hresp _ Ht) as [-> [= ->]]. }
  destruct (int_true_div (p * n) (2 ^ 20)) as [e|f] eqn:Hf; cbn [lift_res].
  - apply wp_raise. cbn [bind_post]. intros Ht. exfalso. rewrite (Hprod _ Ht) in Hf.
    destruct (int_true_div_power 20 ltac:(lia) _ Hb) as (f & Hf' & _). congruence.
  - apply wp_ret. cbn [bind_post]. apply wp_ret. intros Ht. rewrite (Hprod _ Ht) in Hf.
    destruct (int_true_div_power 20 ltac:(lia) _ Hb) as (f' & Hf' & <-). congruence.
Qed.

(** C23: the memory check is exact.  When the operating system reports a number
    of free pages and a page size whose product is below 2^53 bytes, so that
    the detour of the code through a float loses nothing, the check passes
    exactly if the guests and one gigabyte of headroom fit into the free bytes,
    warns exactly if only the guests do, and fails otherwise; the megabytes it
    prints are the free ones, rounded down. *)
Theorem ram_verdict_exact config system pages size s o s' :
  system ≠ "Windows" → (0 ≤ pages * size < 2 ^ 53)%Z →
  runs (check_host_ram config) s (sysconf_trace system pages size) o s' →
  ∃ r, o = Ok r ∧ check_name r = "Host RAM" ∧
    (status r = PASS ↔ (required_ram config * 2 ^ 20 ≤ pages * size)%Z) ∧
    (status r = FAIL ↔ (pages * size < guests_ram config * 2 ^ 20)%Z) ∧
    ∃ tl, detail r = str_of_Z (pages * size / 2 ^ 20) +:+ " MB available" +:+ tl.
Proof.
  intros Hsys Hb H. revert H.
  assert (∀ x, (x <=? pages * size / 2 ^ 20)%Z = (x * 2 ^ 20 <=? pages * size)%Z) as Hdiv.
  { intros x. destruct (Z.leb_spec (x * 2 ^ 20) (pages * size)).
    - apply Z.leb_le. apply Z.div_le_lower_bound; lia.
    - apply Z.leb_gt. apply Z.div_lt_upper_bound; lia. }
  assert (guests_ram config < required_ram config)%Z as Hlt by (unfold required_ram, _HOST_RAM_HEADROOM_MB; lia).
  cut (wp (check_host_ram config) s (λ t o _, t = sysconf_trace system pages size → ∃ r, o = Ok r ∧
    check_name r = "Host RAM" ∧
    (status r = PASS ↔ (required_ram config * 2 ^ 20 ≤ pages * size)%Z) ∧
    (status r = FAIL ↔ (pages * size < guests_ram config * 2 ^ 20)%Z) ∧
    ∃ tl, detail r = str_of_Z (pages * size / 2 ^ 20) +:+ " MB available" +:+ tl)).
  { intros Hwp H. exact (Hwp _ _ _ H eq_refl). }
  unfold check_host_ram. wp_step. eapply wp_conseq; [by apply ram_of_pages|].
  intros t o1 s1 Ho. destruct o1 as [a|e|]; cbn [bind_post]; [|intros Ht; by specialize (Ho Ht)..].
  apply wp_ret. rewrite app_nil_r. intros Ht. apply Ho, Ok_inj in Ht as ->.
  eexists. split; [done|]. rewrite !Hdiv.
  assert (∀ tl, ∃ tl', ram_summary config (pages * size / 2 ^ 20) +:+ tl =
    str_of_Z (pages * size / 2 ^ 20) +:+ " MB available" +:+ tl') as Hpre.
  { intros tl. eexists. unfold ram_summary. rewrite str_app_assoc. f_equal. }
  pose proof (Hpre "") as Hpre0. rewrite str_app_nil_r in Hpre0.
  destruct (Z.leb_spec (required_ram config * 2 ^ 20) (pages * size));
    [|destruct (Z.leb_spec (guests_ram config * 2 ^ 20) (pages * size))]; cbn [check_name status detail].
  all: split_and!; try apply Hpre; try done; (split; intros; done || lia).
Qed.

(** A host with a little more than four gigabytes free. *)
Definition memory_world : handler unit := λ e w,
  (match e return resp e with
   | Sysconf "SC_AVPHYS_PAGES" => SysconfValue 1048577
   | Sysconf _ => SysconfValue 4096
   | e => default_resp e
   end, w).

Lemma ram_verdict_exact_witness :
  outcome_in memory_world (check_host_ram sample_cluster) tt =
    Ok (MkCheckResult "Host RAM" PASS
      "4096 MB available, need ~4096 MB (3 guest(s) x 1024 MB + 1024 MB headroom)") ∧
  ∃ r, outcome_in memory_world (check_host_ram sample_cluster) tt = Ok r ∧
    (status r = PASS ↔ (required_ram sample_cluster * 2 ^ 20 ≤ 1048577 * 4096)%Z).
Proof.
  split; [by vm_compute|].
  destruct (run_in_runs memory_world (check_host_ram sample_cluster) tt) as [s' H].
  assert (trace_in memory_world (check_host_ram sample_cluster) tt = sysconf_trace "Linux" 1048577 4096)
    as Ht by (by vm_compute).
  rewrite Ht in H.
  destruct (ram_verdict_exact sample_cluster "Linux" 1048577 4096 _ _ _ ltac:(done) ltac:(lia) H)
    as (r & Hr & _ & Hs & _).
  by exists r.
Defined.

(** A host whose [VBoxManage] is there and hangs. *)
Definition hanging_world : handler unit := λ e w,
  (match e return resp e with
   | IsFile _ => true
   | Subprocess _ _ => TimeoutExpired
   | e => default_resp e
   end, w).

(** The check meant to report it raises instead. *)
Lemma not_runnable_raises :
  ∃ args msg, outcome_in hanging_world (check_vboxmanage sample_cluster) tt = Raise (VirtualBoxError args (-1) msg).
Proof. eexists _, _. by vm_compute. Qed.
