(* ===== verification/Cli.v ===== *)
(** * The command line (cli.py)

    The handlers of the subcommands over the arguments they read, and the
    [try] statement of [main] with its exit codes; the arguments themselves
    are in CliParser.v.  What the program prints is the call [PrintLine]; log
    messages are left out. *)

From S2P Require Import Prelude PyStr Exceptions Paths Effects Reasoning Values Bytes Inventory.
From S2P Require Import Config VirtualBox SshClient Website Apache InventoryService Setup.
From S2P Require Import Provision Float64 Preflight.

#[export] Set Default Goal Selector "!".

Definition EXIT_OK : Z := 0.
Definition EXIT_FAILURE : Z := 1.
Definition EXIT_INTERRUPTED : Z := 130.

(** The subcommands with the arguments argparse gives them. *)
Inductive subcommand : Type :=
  | CmdSetup (new_user new_key : string) (keys_only : bool)
  | CmdRestoreBootstrap (user pubkey_file : string) (leave_running : bool)
  | CmdTemplate (export_only : bool)
  | CmdProvision
  | CmdConfigure
  | CmdPreflight
  | CmdDeploy (export_only skip_preflight : bool)
  | CmdStatus
  | CmdTeardown (yes : bool).

Record Namespace : Type := MkNamespace {
  config_file : path;
  goservice_dir : path;
  command : subcommand }.

(** [getattr(args, "export_only", False)] and its like. *)
Definition export_only (args : Namespace) : bool :=
  match command args with CmdTemplate b | CmdDeploy b _ => b | _ => false end.
Definition skip_preflight (args : Namespace) : bool :=
  match command args with CmdDeploy _ b => b | _ => false end.

Definition print (line : string) : M unit := call (PrintLine line).
Definition print_all (lines : list string) : M unit := for_each lines print.

(** [Path(s).expanduser()]. *)
Definition path_expanduser (p : path) : M path :=
  match p_parts p with
  | String "~" r :: rest =>
      if negb (String.eqb (p_root p) "") then ret p
      else
        home <- expanduser (String "~" r) ;;
        if py_startswith home "~" then raise (RuntimeError "Could not determine home directory.")
        else ret (MkPath (p_root (Path home)) (p_parts (Path home) ++ rest))
  | _ => ret p
  end.

(** [addresses[hostname]]. *)
Definition getitem (addrs : addresses) (hostname : string) : M string :=
  match dict_get hostname addrs with
  | Some a => ret a
  | None => raise (LookupError (py_repr hostname))
  end.

Section cli.
Context {tmp : TempDir} {parser : TomlParser} {aead : AEAD}.

(** ** Template, provision, configure *)

Definition cmd_template (config : ClusterConfig) (args : Namespace) : M Z :=
  vbox <- new_VBoxManage (vboxmanage (virtualbox config)) ;;
  (if export_only args then export_golden_template vbox config
   else build_golden_template vbox config (goservice_dir args)) ;;
  ret EXIT_OK.

Definition cmd_provision (config : ClusterConfig) (_args : Namespace) : M Z :=
  vbox <- new_VBoxManage (vboxmanage (virtualbox config)) ;;
  provision_cluster vbox config ;;
  ret EXIT_OK.

Definition endpoint_lines (config : ClusterConfig) (jump_address : option string) : list string :=
  let host := hostname (jump config) in
  let jump_port := if (http_port (jump config) =? 80)%Z then ""
    else ":" +:+ str_of_Z (http_port (jump config)) in
  let port := str_of_Z (service_port (inventory config)) in
  let inventory_base := "http://" +:+ host +:+ ":" +:+ port in
  [""; "Endpoints (use hostnames; the DHCP address changes across reboots):";
   "  Load balancer      http://" +:+ host +:+ jump_port +:+ "/";
   "  Inventory (HTML)   " +:+ inventory_base +:+ "/clusterview";
   "  Inventory (JSON)   " +:+ inventory_base +:+ "/api/inventory";
   "  Local manifest     scripts/manifest.ps1 show"] ++
  match jump_address with
  | Some a => if String.eqb a "" then [] else ["  (" +:+ host +:+ " currently resolves to " +:+ a +:+ ")"]
  | None => []
  end ++
  [""; "  Remote access from off the jump station:";
   "    curl http://" +:+ host +:+ ":" +:+ port +:+ "/api/inventory";
   "    # or tunnel over SSH, then browse http://localhost:" +:+ port +:+ "/clusterview :";
   "    ssh -L " +:+ port +:+ ":localhost:" +:+ port +:+ " " +:+ user (ssh config) +:+ "@" +:+ host].

Definition _print_endpoints (config : ClusterConfig) (jump_address : option string) : M unit :=
  print_all (endpoint_lines config jump_address).

Definition missing_addresses (config : ClusterConfig) (addrs : addresses) : list string :=
  List.filter (λ n, negb (dict_in n addrs)) (hostname <$> all_hosts config).

Definition configure_one_backend (config : ClusterConfig) (addrs : addresses) (backend : HostConfig) :
    M unit :=
  addr <- getitem addrs (hostname backend) ;;
  with_host addr (ssh config) (λ guest,
    configure_backend guest backend (document_root (website config)) ;;
    publish_site guest (website config) (hostname backend)).

(** What is done over the session with the jump station. *)
Definition configure_jump (config : ClusterConfig) (addrs : addresses) (source_dir : path)
    (jump : RemoteHost) : M unit :=
  configure_balancer jump config addrs ;;
  deploy_service jump config source_dir ;;
  ipv6 <- enrich_with_ipv6 config addrs ;;
  records <- build_records config addrs (Some ipv6) ;;
  seed_inventory jump config records.

Definition cmd_configure (config : ClusterConfig) (args : Namespace) : M Z :=
  vbox <- new_VBoxManage (vboxmanage (virtualbox config)) ;;
  addrs <- cluster_addresses vbox config ;;
  let missing := missing_addresses config addrs in
  if bool_decide (missing ≠ []) then
    raise (VmDeployError
      ("Cannot configure the cluster; no address for " +:+ repr_list missing +:+ ". "
       +:+ "Run 'vmdeploy provision' first."))
  else
    for_each (backends config) (configure_one_backend config addrs) ;;
    jump_address <- getitem addrs (hostname (jump config)) ;;
    with_host jump_address (ssh config) (configure_jump config addrs (goservice_dir args)) ;;
    wait_for_cluster_ready config jump_address 180 ;;
    _print_endpoints config (Some jump_address) ;;
    ret EXIT_OK.

(** ** Deploy *)

Definition print_report (results : list CheckResult) : M unit :=
  print "Preflight checks:" ;; print (format_report results).

(** The loop over the steps stops at the first status that is not zero. *)
Fixpoint run_steps (config : ClusterConfig) (args : Namespace)
    (steps : list (ClusterConfig → Namespace → M Z)) : M Z :=
  match steps with
  | [] => ret EXIT_OK
  | step :: steps =>
      status <- step config args ;;
      if negb (status =? EXIT_OK)%Z then ret status else run_steps config args steps
  end.

Definition deploy_steps : list (ClusterConfig → Namespace → M Z) :=
  [cmd_template; cmd_provision; cmd_configure].

(** Whether the checks, if they are not skipped, refuse the deployment. *)
Definition preflight_refuses (config : ClusterConfig) (args : Namespace) : M bool :=
  if negb (skip_preflight args) then
    results <- run_preflight config ;;
    print_report results ;;
    ret (bool_decide (worst_status results = FAIL))
  else ret false.

Definition cmd_deploy (config : ClusterConfig) (args : Namespace) : M Z :=
  refused <- preflight_refuses config args ;;
  if refused : bool then ret EXIT_FAILURE else run_steps config args deploy_steps.

(** ** Status *)

Definition status_header : string :=
  py_ljust 16 "HOSTNAME" +:+ py_ljust 10 "ROLE" +:+ py_ljust 14 "VM STATE" +:+ py_ljust 16 "ADDRESS".
Definition status_line (host : HostConfig) (state : VMState) (addr : string) : string :=
  py_ljust 16 (hostname host) +:+ py_ljust 10 (role_value (role host))
  +:+ py_ljust 14 (vmstate_value state) +:+ py_ljust 16 addr.

Fixpoint status_loop (vbox : VBoxManage) (addrs : addresses) (hosts : list HostConfig)
    (all_running : bool) : M bool :=
  match hosts with
  | [] => ret all_running
  | host :: hosts =>
      state <- vm_state vbox (vm_name host) ;;
      let addr := default "-" (dict_get (hostname host) addrs) in
      print (status_line host state addr) ;;
      status_loop vbox addrs hosts (all_running && String.eqb (vmstate_value state) "running")
  end.

Definition cmd_status (config : ClusterConfig) (_args : Namespace) : M Z :=
  vbox <- new_VBoxManage (vboxmanage (virtualbox config)) ;;
  addrs <- cluster_addresses vbox config ;;
  print status_header ;;
  all_running <- status_loop vbox addrs (all_hosts config) true ;;
  _print_endpoints config (dict_get (hostname (jump config)) addrs) ;;
  ret (if all_running : bool then EXIT_OK else EXIT_FAILURE).

(** ** Setup *)

Definition cmd_setup (new_user new_key : string) (keys_only : bool) (config : ClusterConfig)
    (args : Namespace) : M Z :=
  new_key_path <- path_expanduser (Path new_key) ;;
  (if keys_only then run_keys_only_setup config (config_file args) new_user new_key_path
   else run_setup config (config_file args) new_user new_key_path) ;;
  ret EXIT_OK.

Definition cmd_restore_bootstrap (username pubkey_file : string) (leave_running : bool)
    (config : ClusterConfig) (_args : Namespace) : M Z :=
  key_source <- path_expanduser (Path pubkey_file) ;;
  text <- rewrap (read_text_ascii key_source) COSError (λ exc, VmDeployError
    ("Cannot read public key from " +:+ str_path key_source +:+ ": " +:+ str_exn exc)) ;;
  restore_bootstrap config username (py_strip text) leave_running ;;
  ret EXIT_OK.

(** ** Preflight and teardown *)

Definition cmd_preflight (config : ClusterConfig) (_args : Namespace) : M Z :=
  results <- run_preflight config ;;
  print_report results ;;
  ret (if bool_decide (worst_status results = FAIL) then EXIT_FAILURE else EXIT_OK).

Definition cmd_teardown (yes : bool) (config : ClusterConfig) (_args : Namespace) : M Z :=
  let targets := vm_names config in
  if negb yes then
    print ("This permanently deletes " +:+ pretty (length targets) +:+ " VM(s) and their disks: "
           +:+ repr_list targets) ;;
    print "Re-run with --yes to proceed." ;;
    ret EXIT_FAILURE
  else
    vbox <- new_VBoxManage (vboxmanage (virtualbox config)) ;;
    teardown_cluster vbox config ;;
    catch (mark_manifest_removed config ;; ret tt)
      (λ e, if isinstance e CInventoryError then Some (ret tt) else None) ;;
    ret EXIT_OK.

(** ** The commands *)

(** [_COMMANDS], with the arguments of the subcommand. *)
Definition handler_of (c : subcommand) : ClusterConfig → Namespace → M Z :=
  match c with
  | CmdSetup new_user new_key keys_only => cmd_setup new_user new_key keys_only
  | CmdRestoreBootstrap u k leave_running => cmd_restore_bootstrap u k leave_running
  | CmdTemplate _ => cmd_template
  | CmdProvision => cmd_provision
  | CmdConfigure => cmd_configure
  | CmdPreflight => cmd_preflight
  | CmdDeploy _ _ => cmd_deploy
  | CmdStatus => cmd_status
  | CmdTeardown yes => cmd_teardown yes
  end.

(** The [try] statement of [main]. *)
Definition guard_main (m : M Z) : M Z :=
  catch m (λ e,
    if isinstance e CVmDeployError then Some (ret EXIT_FAILURE)
    else if isinstance e CKeyboardInterrupt then Some (ret EXIT_INTERRUPTED)
    else None).

(** [main] once the arguments are parsed. *)
Definition dispatch (args : Namespace) : M Z :=
  guard_main (config <- load_cluster_config (config_file args) ;; handler_of (command args) config args).
End cli.
