(* ===== verification/ArgParse.v ===== *)
(** * argparse

    What the command line uses of the standard library's [argparse]: options
    that store a string, a path or [True], [--help], and one level of
    subcommands.  [parse_args] is [ArgumentParser.parse_args] over such a
    description: the classification of every argument before any is consumed,
    abbreviated long options, [--opt=value], clustered short options, [--],
    the unrecognized and the required arguments, with the order in which the
    errors are found, as in the version of the supported interpreter (3.11).  An
    error or [--help] leaves the parser by [SystemExit]. *)

From S2P Require Import Prelude PyStr Paths Regex.

#[export] Set Default Goal Selector "!".

(** ** Descriptions of parsers *)

(** The value of an attribute of a [Namespace]. *)
Inductive argval : Type :=
  | NoneV
  | BoolV (b : bool)
  | StrV (s : string)
  | PathV (p : path).

Abbreviation attrs := (gmap string argval).

(** [action="store"] with [type=None] or [type=Path], [action="store_true"],
    [action="help"]. *)
Inductive action_type : Type := StoreStr | StorePath | StoreTrue | Help.

Record option_arg : Type := MkOption {
  option_strings : list string;
  dest : string;
  action : action_type;
  default_value : argval;
  required : bool }.

(** A subcommand has options only. *)
Record arg_parser : Type := MkParser {
  prog : string;
  options : list option_arg;
  sub_dest : string;
  choices : list (string * list option_arg) }.

(** [SystemExit], with the program name and the text of the error: status 2
    for an error, 0 for [--help]. *)
Inductive parsed (A : Type) : Type :=
  | Parsed (a : A)
  | Exit (status : Z) (prog_name message : string).
Arguments Parsed {A} _.
Arguments Exit {A} _ _ _.

#[export] Instance parsed_ret : MRet parsed := @Parsed.
#[export] Instance parsed_bind : MBind parsed := λ A B f m,
  match m with Parsed a => f a | Exit st p msg => Exit st p msg end.

Definition takes_value (o : option_arg) : bool :=
  match action o with StoreStr | StorePath => true | StoreTrue | Help => false end.

(** [_get_value]: the conversion of an argument. *)
Definition get_value (o : option_arg) (s : string) : argval :=
  match action o with StorePath => PathV (Path s) | _ => StrV s end.

(** [_get_action_name]. *)
Definition action_name (o : option_arg) : string := py_join "/" (option_strings o).

(** [self.error(str(ArgumentError(action, msg)))]. *)
Definition argument_error {A} (prog_name name msg : string) : parsed A :=
  Exit 2 prog_name ("argument " +:+ name +:+ ": " +:+ msg).

(** ** Classification of the arguments *)

(** The letter of an argument in the pattern: [A], [-], or [O] with the option
    tuple. *)
Inductive arg_class : Type :=
  | ArgA
  | ArgDashes
  | ArgO (o : option option_arg) (option_string : string) (explicit : option string).

Section parser.
Context (prog_name : string) (opts : list option_arg).

(** [_option_string_actions], in insertion order. *)
Definition option_string_actions : list (string * option_arg) :=
  flat_map (λ o, (λ s, (s, o)) <$> option_strings o) opts.

Definition find_option (s : string) : option option_arg :=
  snd <$> List.find (λ e, String.eqb (fst e) s) option_string_actions.

(** [_negative_number_matcher]: [^-\d+$|^-\d*\.\d+$]. *)
Definition _NEGATIVE_NUMBER : rx unit :=
  (rx_alt (rx_lit "-" ⨾ rx_some is_digit ⨾ rx_end)
          (rx_lit "-" ⨾ rx_many is_digit ⨾ rx_lit "." ⨾ rx_some is_digit ⨾ rx_end))%rx.
Definition is_negative_number (s : string) : bool :=
  match re_match _NEGATIVE_NUMBER s with Some _ => true | None => false end.

(** [option_string[1] in chars]. *)
Definition second_dash (os : string) : bool :=
  match os with String _ (String c _) => Ascii.eqb c "-" | _ => false end.

(** [_get_option_tuples]: the options an argument that begins with a dash
    may abbreviate; the argument has at least two characters. *)
Definition option_tuples (s : string) : list arg_class :=
  if second_dash s then
    let '(prefix, explicit) :=
      match py_partition "=" s with Some (p, e) => (p, Some e) | None => (s, None) end in
    (λ e, ArgO (Some (snd e)) (fst e) explicit)
      <$> List.filter (λ e, py_startswith (fst e) prefix) option_string_actions
  else
    match s with
    | String c (String d rest) =>
        let short := String c (String d "") in
        flat_map (λ e,
          if String.eqb (fst e) short then [ArgO (Some (snd e)) (fst e) (Some rest)]
          else if py_startswith (fst e) s then [ArgO (Some (snd e)) (fst e) None]
          else []) option_string_actions
    | _ => []
    end.

Definition matched_string (c : arg_class) : string :=
  match c with ArgO _ s _ => s | _ => "" end.

(** The end of [_parse_optional]: an abbreviation, or no option of this
    parser. *)
Definition abbreviated (s : string) : parsed arg_class :=
  match option_tuples s with
  | [] =>
      if is_negative_number s
         && negb (existsb (λ e, is_negative_number (fst e)) option_string_actions)
      then Parsed ArgA
      else if has_char " " s then Parsed ArgA
      else Parsed (ArgO None s None)
  | [c] => Parsed c
  | cs => Exit 2 prog_name ("ambiguous option: " +:+ s +:+ " could match "
                            +:+ py_join ", " (matched_string <$> cs))
  end.

(** [_parse_optional]. *)
Definition parse_optional (s : string) : parsed arg_class :=
  match s with
  | "" => Parsed ArgA
  | String c rest =>
      if negb (Ascii.eqb c "-") then Parsed ArgA
      else match find_option s with
      | Some o => Parsed (ArgO (Some o) s None)
      | None =>
          if String.eqb rest "" then Parsed ArgA
          else match py_partition "=" s with
          | Some (p, e) =>
              match find_option p with
              | Some o => Parsed (ArgO (Some o) p (Some e))
              | None => abbreviated s
              end
          | None => abbreviated s
          end
      end
  end.

(** The letters of all arguments: after [--] everything is an [A]. *)
Fixpoint classify (args : list string) : parsed (list (string * arg_class)) :=
  match args with
  | [] => Parsed []
  | s :: args =>
      if String.eqb s "--" then Parsed ((s, ArgDashes) :: ((λ a, (a, ArgA)) <$> args))
      else
        c ← parse_optional s;
        cs ← classify args;
        mret ((s, c) :: cs)
  end.

(** ** Consuming the arguments *)

(** The namespace and the [dest] of [seen_actions]. *)
Record parse_state : Type := MkState { values : attrs; seen : list string }.

(** [take_action]. *)
Definition take_action (st : parse_state) (o : option_arg) (arg : option string) :
    parsed parse_state :=
  match action o with
  | Help => Exit 0 prog_name ""
  | _ =>
      let v := match arg with Some s => get_value o s | None => BoolV true end in
      Parsed (MkState (<[dest o := v]> (values st)) (dest o :: seen st))
  end.

Fixpoint take_flags (st : parse_state) (flags : list option_arg) : parsed parse_state :=
  match flags with
  | [] => Parsed st
  | o :: flags => st ← take_action st o None; take_flags st flags
  end.

(** The loop of [consume_optional] over an explicit argument [e] of the
    option [o] given as [os]: short options without a value may be followed by
    others.  The result is the options before the last, and the last with its
    value. *)
Fixpoint cluster (o : option_arg) (os e : string) :
    parsed (list option_arg * option_arg * option string) :=
  if takes_value o then Parsed ([], o, Some e)
  else
    let ignored := argument_error prog_name (action_name o)
      ("ignored explicit argument " +:+ py_repr e) in
    match e with
    | "" => ignored
    | String c rest =>
        if second_dash os then ignored
        else
          let os' := String "-" (String c "") in
          match find_option os' with
          | None => ignored
          | Some o' =>
              if String.eqb rest "" then Parsed ([o], o', None)
              else '(flags, last, e') ← cluster o' os' rest; mret (o :: flags, last, e')
          end
    end.

(** The alternation of [consume_positionals] and [consume_optional]; the
    result is the state and the arguments nothing recognized.  [sub] is the
    pending subcommand: the first argument that is not an option starts it,
    and it takes all the rest. *)
Section consume.
Context (sub : option (list string → parse_state → parsed (parse_state * list string))).

Fixpoint consume (args : list (string * arg_class)) (st : parse_state) (extras : list string) :
    parsed (parse_state * list string) :=
  match args with
  | [] => Parsed (st, extras)
  | (s, ArgO None _ _) :: args => consume args st (extras ++ [s])
  | (s, ArgO (Some o) os explicit) :: args =>
      '(flags, last, value) ←
        match explicit with Some e => cluster o os e | None => Parsed ([], o, None) end;
      match value, takes_value last, args with
      | None, true, (v, ArgA) :: args =>
          st ← take_flags st flags; st ← take_action st last (Some v); consume args st extras
      | None, true, _ => argument_error prog_name (action_name last) "expected one argument"
      | _, _, _ =>
          st ← take_flags st flags; st ← take_action st last value; consume args st extras
      end
  | (s, c) :: args =>
      match sub, c, args with
      | None, _, _ | _, ArgDashes, [] => consume args st (extras ++ [s])
      | Some run, _, _ =>
          '(st, unrecognized) ← run (s :: (fst <$> args)) st; mret (st, extras ++ unrecognized)
      end
  end.
End consume.

(** The attributes before any argument is read. *)
Definition defaults : attrs :=
  foldr (λ o m, match action o with Help => m | _ => <[dest o := default_value o]> m end) ∅ opts.

(** A default that is a string is converted like an argument. *)
Definition convert_defaults (st : parse_state) : attrs :=
  foldr (λ o m,
    match default_value o with
    | StrV s => if bool_decide (dest o ∈ seen st) then m else <[dest o := get_value o s]> m
    | _ => m
    end) (values st) opts.

Definition missing_options (st : parse_state) : list string :=
  action_name <$> List.filter (λ o, required o && negb (bool_decide (dest o ∈ seen st))) opts.

Definition required_error {A} (names : list string) : parsed A :=
  Exit 2 prog_name ("the following arguments are required: " +:+ py_join ", " names).

(** [parse_known_args] of a subcommand. *)
Definition parse_known (args : list string) : parsed (attrs * list string) :=
  cs ← classify args;
  '(st, extras) ← consume None cs (MkState defaults []) [];
  match missing_options st with
  | [] => mret (convert_defaults st, extras)
  | names => required_error names
  end.
End parser.

(** ** The whole parser *)

Section arg_parser.
Context (p : arg_parser).

(** [_check_value] and [_SubParsersAction.__call__]. *)
Definition run_subcommand (args : list string) (st : parse_state) :
    parsed (parse_state * list string) :=
  match args with
  | [] => mret (st, [])
  | name :: args =>
      match List.find (λ e, String.eqb (fst e) name) (choices p) with
      | None => argument_error (prog p) (sub_dest p)
          ("invalid choice: " +:+ py_repr name +:+ " (choose from "
           +:+ py_join ", " (py_repr ∘ fst <$> choices p) +:+ ")")
      | Some (_, opts) =>
          '(sub_values, extras) ← parse_known (prog p +:+ " " +:+ name) opts args;
          mret (MkState (sub_values ∪ <[sub_dest p := StrV name]> (values st))
                        (sub_dest p :: seen st), extras)
      end
  end.

(** [parse_args], with [required=True] for the subcommand. *)
Definition parse_args (argv : list string) : parsed attrs :=
  cs ← classify (prog p) (options p) argv;
  '(st, extras) ← consume (prog p) (options p) (Some run_subcommand) cs
    (MkState (<[sub_dest p := NoneV]> (defaults (options p))) []) [];
  match missing_options (options p) st
        ++ (if bool_decide (sub_dest p ∈ seen st) then [] else [sub_dest p]) with
  | [] =>
      if bool_decide (extras = []) then mret (convert_defaults (options p) st)
      else Exit 2 (prog p) ("unrecognized arguments: " +:+ py_join " " extras)
  | names => required_error (prog p) names
  end.
End arg_parser.
