(* ===== verification/ArgParseFacts.v ===== *)
(** * Facts about argparse

    What a parsed namespace looks like whatever the arguments were: it has the
    attributes of the parser and of the chosen subcommand, each with the type
    of its option ([parse_args_inv], [parse_known_typed]).  A long flag is set
    only by an argument that is that flag or an abbreviation of it
    ([flag_was_given]).  The parser leaves with status 0 or 2. *)

From S2P Require Import Prelude PyStr Paths ArgParse.

#[export] Set Default Goal Selector "!".

Lemma parsed_bind_ok {A B} (m : parsed A) (f : A → parsed B) b :
  (m ≫= f) = Parsed b ↔ ∃ a, m = Parsed a ∧ f a = Parsed b.
Proof. destruct m as [a|]; cbn; naive_solver. Qed.

(** Takes a successful run of a bind apart. *)
Ltac parsed_inv H :=
  repeat match type of H with
  | (_ ≫= _) = Parsed _ => let a := fresh "a" in let Ha := fresh "Ha" in
      apply parsed_bind_ok in H as (a & Ha & H)
  | mret _ = Parsed _ => unfold mret, parsed_ret in H
  | (let '(_, _) := ?x in _) = Parsed _ => destruct x as [? ?]
  end; simplify_eq/=.

(** The type of an option's values. *)
Definition has_type (o : option_arg) (v : argval) : Prop :=
  match action o, v with
  | StoreStr, StrV _ | StorePath, PathV _ | StoreTrue, BoolV _ => True
  | _, _ => False
  end.

Definition converted_default (o : option_arg) : argval :=
  match default_value o with StrV s => get_value o s | v => v end.

(** An option that need not be given has a default of its type. *)
Definition wf_option (o : option_arg) : Prop :=
  match action o with
  | Help => required o = false ∧ default_value o = NoneV
  | _ => required o = true ∨ has_type o (converted_default o)
  end.

Definition stores (opts : list option_arg) : list option_arg :=
  List.filter (λ o, match action o with Help => false | _ => true end) opts.

(** A namespace has exactly the attributes of the options, with their types. *)
Definition typed (opts : list option_arg) (m : attrs) : Prop :=
  dom m = list_to_set (dest <$> stores opts) ∧
  ∀ o, o ∈ stores opts → ∃ v, m !! dest o = Some v ∧ has_type o v.

Lemma elem_of_stores opts o : o ∈ stores opts ↔ o ∈ opts ∧ action o ≠ Help.
Proof.
  unfold stores. rewrite !list_elem_of_In, filter_In. destruct (action o); naive_solver.
Qed.

Section facts.
Context (prog_name : string) (opts : list option_arg).

Lemma elem_of_option_strings s o :
  (s, o) ∈ option_string_actions opts ↔ o ∈ opts ∧ s ∈ option_strings o.
Proof.
  unfold option_string_actions. rewrite list_elem_of_In, in_flat_map. split.
  - intros (o' & Ho & Hs). apply list_elem_of_In, list_elem_of_fmap in Hs as (s' & [= -> ->] & ?).
    by apply list_elem_of_In in Ho.
  - intros [Ho Hs]. exists o. rewrite <- !list_elem_of_In. split; [done|].
    apply list_elem_of_fmap. by exists s.
Qed.

Lemma find_option_elem s o : find_option opts s = Some o → o ∈ opts ∧ s ∈ option_strings o.
Proof.
  unfold find_option. intros ([s' o'] & Hf & ->)%fmap_Some.
  apply find_Some_elem in Hf as [Hin Hs]. apply String.eqb_eq in Hs as <-.
  by apply elem_of_option_strings in Hin.
Qed.

(** The options an argument is classified as are of the parser. *)
Definition class_ok (c : arg_class) : Prop :=
  match c with ArgO (Some o) os _ => o ∈ opts ∧ os ∈ option_strings o | _ => True end.

Lemma option_tuples_ok s : Forall class_ok (option_tuples opts s).
Proof.
  unfold option_tuples. apply Forall_forall. intros c Hc. revert Hc.
  assert (∀ p e, c ∈ (λ x : string * option_arg, ArgO (Some (snd x)) (fst x) e) <$>
    List.filter (λ x, py_startswith (fst x) p) (option_string_actions opts) → class_ok c) as Hlong.
  { intros p e ([s' o] & -> & Hin)%list_elem_of_fmap.
    apply list_elem_of_In, filter_In in Hin as [Hin _]. by apply elem_of_option_strings, list_elem_of_In. }
  destruct (second_dash s); [by repeat case_match; eauto|].
  destruct s as [|x [|y s]]; [by intros ?%elem_of_nil..|].
  assert (c ∈ flat_map (λ e, if String.eqb (fst e) (String x (String y ""))
      then [ArgO (Some (snd e)) (fst e) (Some s)]
      else if py_startswith (fst e) (String x (String y s)) then [ArgO (Some (snd e)) (fst e) None]
      else []) (option_string_actions opts) → class_ok c) as Hshort.
  { rewrite list_elem_of_In. intros ([s' o] & Hin & Hc)%in_flat_map.
    apply list_elem_of_In, elem_of_option_strings in Hin. simpl in Hc.
    destruct (String.eqb _ _); [by destruct Hc as [<-|[]]|].
    destruct (py_startswith _ _); [by destruct Hc as [<-|[]]|by destruct Hc]. }
  done.
Qed.

Lemma parse_optional_ok s c : parse_optional prog_name opts s = Parsed c → class_ok c.
Proof.
  assert (abbreviated prog_name opts s = Parsed c → class_ok c) as Ha.
  { unfold abbreviated. pose proof (option_tuples_ok s) as Ht. intros H.
    destruct (option_tuples opts s) as [|c1 [|]]; [|injection H as ->; by inversion Ht|done].
    repeat case_match; by simplify_eq/=. }
  unfold parse_optional. intros H. repeat case_match; simplify_eq/=; try done; try (by apply Ha);
    by apply find_option_elem.
Qed.

Lemma classify_ok args cs :
  classify prog_name opts args = Parsed cs → Forall (λ e, class_ok e.2) cs ∧ cs.*1 = args.
Proof.
  revert cs. induction args as [|s args IH]; intros cs H; simpl in H; [by simplify_eq|].
  destruct (String.eqb_spec s "--") as [->|_].
  - simplify_eq. split.
    + constructor; [done|]. apply Forall_fmap, Forall_true. done.
    + simpl. f_equal. rewrite <- list_fmap_compose. apply list_fmap_id.
  - parsed_inv H. apply IH in Ha0 as [? <-]. split; [|done]. constructor; [|done].
    by eapply parse_optional_ok.
Qed.

Lemma cluster_ok o os e flags last v :
  o ∈ opts → cluster prog_name opts o os e = Parsed (flags, last, v) →
  Forall (λ o, o ∈ opts ∧ takes_value o = false) flags ∧ last ∈ opts ∧
  (is_Some v → takes_value last = true).
Proof.
  revert o os flags. induction e as [|c e IH]; intros o os flags Ho H; cbn [cluster] in H.
  - destruct (takes_value o) eqn:Ht; by simplify_eq.
  - destruct (takes_value o) eqn:Ht; [by simplify_eq|].
    destruct (second_dash os); [done|]. rename H into H'.
    destruct (find_option opts _) as [o'|] eqn:Hf; [|done].
    apply find_option_elem in Hf as [Ho' _]. destruct (String.eqb e "").
    + simplify_eq. split_and!; [by repeat constructor|done|by intros []].
    + apply parsed_bind_ok in H' as ([[fl la] v'] & Hc & H'). unfold mret, parsed_ret in H'. simplify_eq.
      apply IH in Hc as (? & ? & ?); [|done]. split_and!; [by constructor|done|done].
Qed.

(** A state on the way: the attributes of [base], those of the options with a
    value of their type once they were seen and the default before, the others
    as in [base]; of those only the ones in [ran] were seen. *)
Context (base : attrs) (ran : list string).
Hypothesis Hnd : NoDup (dest <$> stores opts).

Definition state_ok (st : parse_state) : Prop :=
  dom (values st) = dom base ∧
  (∀ o, o ∈ stores opts → ∃ v, values st !! dest o = Some v ∧
     ((dest o ∈ seen st ∧ has_type o v) ∨ ((dest o ∉ seen st) ∧ v = default_value o))) ∧
  (∀ k, k ∉ dest <$> stores opts → values st !! k = base !! k ∧ (k ∈ seen st → k ∈ ran)).

Lemma get_value_type o s : takes_value o = true → has_type o (get_value o s).
Proof. unfold takes_value, has_type, get_value. by destruct (action o). Qed.

Lemma dest_inj o o' : o ∈ stores opts → o' ∈ stores opts → dest o = dest o' → o = o'.
Proof.
  intros Ho Ho'. revert Hnd. generalize dependent (stores opts). intros l Ho Ho' Hn Heq.
  apply list_elem_of_lookup in Ho as [i Hi], Ho' as [j Hj].
  assert (i = j) as ->; [|congruence].
  eapply (NoDup_lookup _ _ _ (dest o)); [exact Hn|..]; rewrite list_lookup_fmap.
  - by rewrite Hi.
  - by rewrite Hj, Heq.
Qed.

Lemma take_action_ok st o arg st' :
  o ∈ opts → (is_Some arg ↔ takes_value o = true) → state_ok st →
  take_action prog_name st o arg = Parsed st' → state_ok st' ∧ seen st' = dest o :: seen st.
Proof.
  intros Ho Harg (Hd & Hv & Hk) H. unfold take_action in H.
  assert (action o ≠ Help ∧ st' = MkState (<[dest o := match arg with Some s => get_value o s
    | None => BoolV true end]> (values st)) (dest o :: seen st)) as [Hh ->].
  { destruct (action o); by simplify_eq. }
  clear H. split; [|done].
  assert (o ∈ stores opts) as Hs by (by apply elem_of_stores).
  assert (has_type o (match arg with Some s => get_value o s | None => BoolV true end)) as Ht.
  { destruct arg as [s|]; [apply get_value_type; naive_solver|].
    unfold has_type, takes_value in *. destruct (action o); try done; by destruct Harg as [_ [? [=]]]. }
  split_and!; cbn [values seen].
  - rewrite dom_insert_L. destruct (Hv _ Hs) as (v & Hl & _). apply elem_of_dom_2 in Hl. set_solver.
  - intros o' Hs'. destruct (decide (dest o = dest o')) as [Heq|Hne].
    + apply dest_inj in Heq as <-; [|done..]. rewrite lookup_insert_eq. eexists. split; [done|]. left. set_solver.
    + rewrite lookup_insert_ne by done. destruct (Hv _ Hs') as (v & -> & Hc). exists v. split; [done|].
      rewrite elem_of_cons. destruct Hc as [[? ?]|[? ?]]; [left; auto|right]. split; [by intros [?|?]|done].
  - intros k Hn. assert (k ≠ dest o) as Hko.
    { intros ->. apply Hn, list_elem_of_fmap. by exists o. }
    rewrite lookup_insert_ne by done. destruct (Hk _ Hn) as [? Hr]. split; [done|].
    by intros [?|?%Hr]%elem_of_cons.
Qed.

Lemma take_flags_ok flags st st' :
  Forall (λ o, o ∈ opts ∧ takes_value o = false) flags → state_ok st →
  take_flags prog_name st flags = Parsed st' → state_ok st' ∧ seen st ⊆ seen st'.
Proof.
  intros Hf. revert st. induction Hf as [|o flags [Ho Ht] _ IH]; intros st Hst H; cbn [take_flags] in H.
  - by simplify_eq.
  - parsed_inv H. apply take_action_ok in Ha as [Hst' Hs]; [|done| |done].
    + apply IH in H as [? Hss]; [|done]. split; [done|]. intros k Hk. apply Hss. rewrite Hs. by right.
    + rewrite Ht. split; [by intros []|done].
Qed.

(** Every successful end of [consume]: a good state, or a subcommand that was
    run on the arguments from its name on. *)
Lemma consume_ok sub cs st extras st' extras' :
  Forall (λ e, class_ok e.2) cs → state_ok st →
  consume prog_name opts sub cs st extras = Parsed (st', extras') →
  state_ok st' ∨
  ∃ run st0 pre rest ex un, sub = Some run ∧ state_ok st0 ∧ cs.*1 = pre ++ rest ∧
    run rest st0 = Parsed (st', un) ∧ extras' = ex ++ un.
Proof.
  revert st extras. induction cs as [cs IH] using (induction_ltof1 _ (@length _)).
  unfold ltof in IH. intros st extras Hcs Hst H.
  assert (∀ e cs' st extras, cs = e ++ cs' → e ≠ [] → state_ok st →
    consume prog_name opts sub cs' st extras = Parsed (st', extras') →
    state_ok st' ∨ ∃ run st0 pre rest ex un, sub = Some run ∧ state_ok st0 ∧ cs.*1 = pre ++ rest ∧
      run rest st0 = Parsed (st', un) ∧ extras' = ex ++ un) as Hrec.
  { clear H Hst st extras. intros e cs' st extras -> He Hst H. apply Forall_app in Hcs as [_ Hcs].
    apply IH in H as [?|(run & st0 & pre & rest & ex & un & ? & ? & Heq & ? & ?)]; [by left| |..]; [|..|done|done].
    - right. exists run, st0, (e.*1 ++ pre), rest, ex, un. by rewrite fmap_app, Heq, app_assoc.
    - rewrite length_app. destruct e; [done|simpl; lia]. }
  destruct cs as [|[s [| |[o|] os ex]] cs]; cbn [consume] in H.
  - left. by simplify_eq.
  - destruct sub as [run|]; [|by apply (Hrec [_] _ _ _ eq_refl) in H].
    parsed_inv H. right. exists run, st, [], (s :: cs.*1). by do 2 eexists.
  - destruct sub as [run|]; [|by apply (Hrec [_] _ _ _ eq_refl) in H].
    destruct cs as [|c cs]; [by apply (Hrec [_] _ _ _ eq_refl) in H|].
    parsed_inv H. right. exists run, st, [], (s :: c.1 :: cs.*1). by do 2 eexists.
  - apply Forall_cons in Hcs as [[Ho Hos] Hcs'].
    apply parsed_bind_ok in H as ([[flags last] value] & Hfl & H).
    assert (Forall (λ o, o ∈ opts ∧ takes_value o = false) flags ∧ last ∈ opts ∧
      (is_Some value → takes_value last = true)) as (Hflags & Hlast & Hval).
    { destruct ex as [e|]; [by eapply cluster_ok|]. simplify_eq. split_and!; [done|done|by intros []]. }
    assert (∀ e cs' v, (s, ArgO (Some o) os ex) :: cs = e ++ cs' → e ≠ [] →
      (is_Some v ↔ takes_value last = true) →
      (st ← take_flags prog_name st flags; st ← take_action prog_name st last v;
       consume prog_name opts sub cs' st extras) = Parsed (st', extras') →
      state_ok st' ∨ ∃ run st0 pre rest ex' un, sub = Some run ∧ state_ok st0 ∧
        ((s, ArgO (Some o) os ex) :: cs).*1 = pre ++ rest ∧ run rest st0 = Parsed (st', un) ∧
        extras' = ex' ++ un) as Htake.
    { intros e cs' v Heq Hne Hv Ht. apply parsed_bind_ok in Ht as (st1 & Hst1 & Ht).
      apply parsed_bind_ok in Ht as (st2 & Hst2 & Ht).
      apply take_flags_ok in Hst1 as [Hst1 _]; [|done..].
      apply take_action_ok in Hst2 as [Hst2 _]; [|done..]. by eapply Hrec. }
    destruct value as [v|].
    + apply (Htake [(s, ArgO (Some o) os ex)] cs (Some v)); [done..| |done]. split; [naive_solver|done].
    + destruct (takes_value last) eqn:Hl.
      * destruct cs as [|[v [| |]] cs]; try done. apply (Htake [(s, ArgO (Some o) os ex); (v, ArgA)] cs (Some v)); [done..|].
        exact H.
      * apply (Htake [(s, ArgO (Some o) os ex)] cs None); [done..| |done]. by split; [intros []|].
  - by apply (Hrec [_] _ _ _ eq_refl) in H.
Qed.

Definition converts (st : parse_state) (o : option_arg) : bool :=
  match default_value o with StrV _ => negb (bool_decide (dest o ∈ seen st)) | _ => false end.

Lemma convert_defaults_lookup st k :
  convert_defaults opts st !! k =
  match List.find (λ o, converts st o && String.eqb (dest o) k) opts with
  | Some o => Some (converted_default o)
  | None => values st !! k
  end.
Proof.
  unfold convert_defaults. clear Hnd. induction opts as [|o l IH]; [done|]. cbn [foldr List.find].
  assert (converts st o = match default_value o with
    | StrV _ => negb (bool_decide (dest o ∈ seen st)) | _ => false end) as -> by done.
  destruct (default_value o) as [|b|s|p] eqn:Hd; try done.
  case_bool_decide; [done|]. cbn [negb andb]. destruct (String.eqb_spec (dest o) k) as [<-|Hne].
  - unfold converted_default. by rewrite lookup_insert_eq, Hd.
  - by rewrite lookup_insert_ne.
Qed.

Hypothesis Hwf : Forall wf_option opts.

Lemma converts_stores st o : o ∈ opts → converts st o = true → o ∈ stores opts.
Proof.
  intros Ho Hc. apply elem_of_stores. split; [done|]. intros Hh.
  rewrite Forall_forall in Hwf. apply Hwf in Ho. unfold wf_option, converts in *. rewrite Hh in Ho.
  by destruct Ho as [_ Hd]; rewrite Hd in Hc.
Qed.

Lemma find_converts st k o :
  List.find (λ o, converts st o && String.eqb (dest o) k) opts = Some o →
  o ∈ stores opts ∧ dest o = k ∧ k ∉ seen st.
Proof.
  intros [Ho [Hc Hk%String.eqb_eq]%andb_prop]%find_Some_elem. split_and!; [by eapply converts_stores|done|].
  unfold converts in Hc. rewrite Hk in Hc. by destruct (default_value o), (bool_decide_reflect (k ∈ seen st)).
Qed.

Lemma not_missing o st :
  o ∈ stores opts → missing_options opts st = [] → dest o ∉ seen st →
  has_type o (converted_default o).
Proof.
  intros [Ho Hh]%elem_of_stores Hm Hs. unfold missing_options in Hm. apply fmap_nil_inv in Hm.
  rewrite Forall_forall in Hwf. pose proof (Hwf _ Ho) as Hw. unfold wf_option in Hw.
  assert (required o = false) as Hr.
  { destruct (required o) eqn:Hr; [|done]. exfalso. apply (not_elem_of_nil o). rewrite <- Hm.
    apply list_elem_of_In, filter_In. rewrite Hr, bool_decide_eq_false_2 by done.
    split; [by apply list_elem_of_In|done]. }
  rewrite Hr in Hw. destruct (action o); naive_solver.
Qed.

(** The attributes of a subparser or of the main parser once nothing required
    is missing. *)
Lemma converted_ok st :
  state_ok st → missing_options opts st = [] →
  dom (convert_defaults opts st) = dom base ∧
  (∀ o, o ∈ stores opts → ∃ v, convert_defaults opts st !! dest o = Some v ∧ has_type o v) ∧
  (∀ k, k ∉ dest <$> stores opts → convert_defaults opts st !! k = base !! k).
Proof.
  intros (Hd & Hv & Hk) Hm. split_and!.
  - rewrite <- Hd. apply set_eq. intros k. rewrite !elem_of_dom, convert_defaults_lookup.
    destruct (List.find _ opts) as [o|] eqn:Hf; [|done]. apply find_converts in Hf as (Ho & <- & _).
    destruct (Hv _ Ho) as (v & -> & _). done.
  - intros o Ho. destruct (Hv _ Ho) as (v & Hl & Hc). rewrite convert_defaults_lookup, Hl.
    destruct (List.find _ opts) as [o'|] eqn:Hf.
    + apply find_converts in Hf as (Ho' & Heq%dest_inj & Hs); [subst o'|done..].
      eexists. split; [done|]. by eapply not_missing.
    + exists v. split; [done|]. destruct Hc as [[_ ?]|[Hs ->]]; [done|].
      pose proof (not_missing _ _ Ho Hm Hs) as Ht. unfold converted_default in Ht.
      destruct (default_value o) eqn:Hdef; try done.
      apply elem_of_stores in Ho as [Ho _].
      apply find_None_Forall in Hf. rewrite Forall_forall in Hf. apply Hf in Ho.
      unfold converts in Ho. by rewrite Hdef, bool_decide_eq_false_2, String.eqb_refl in Ho.
  - intros k Hn. rewrite convert_defaults_lookup.
    destruct (List.find _ opts) as [o|] eqn:Hf; [|by apply Hk].
    apply find_converts in Hf as (Ho & <- & _). destruct Hn. apply list_elem_of_fmap. by exists o.
Qed.
End facts.

Lemma defaults_lookup opts o :
  NoDup (dest <$> stores opts) → o ∈ stores opts → defaults opts !! dest o = Some (default_value o).
Proof.
  intros Hnd Ho. apply elem_of_stores in Ho as Hh. destruct Hh as [Hin Hh].
  unfold defaults. revert Hnd Ho. unfold stores. induction opts as [|o' l IH]; [by apply elem_of_nil in Hin|].
  cbn [foldr List.filter]. apply elem_of_cons in Hin as [->|Hin].
  - intros _ _. by destruct (action o'); rewrite ?lookup_insert_eq.
  - assert (o ∈ stores l) as Hs by (by apply elem_of_stores).
    assert (dest o ∈ dest <$> stores l) as Hd by (apply list_elem_of_fmap; by exists o).
    destruct (action o'); try (by intros; apply IH); cbn [fmap list_fmap]; intros [Hn Hnd]%NoDup_cons _;
      (rewrite lookup_insert_ne; [by apply IH|by intros Heq; rewrite Heq in Hn]).
Qed.

Lemma defaults_dom opts : dom (defaults opts) = list_to_set (dest <$> stores opts).
Proof.
  unfold defaults, stores. induction opts as [|o l IH]; cbn [foldr List.filter fmap list_fmap];
    [apply dom_empty_L|].
  destruct (action o); rewrite ?dom_insert_L, IH; done.
Qed.

Lemma initial_ok opts base :
  (∀ o, o ∈ stores opts → base !! dest o = Some (default_value o)) →
  state_ok opts base [] (MkState base []).
Proof.
  intros Hb. split_and!; [done| |by intros; split].
  intros o Ho. exists (default_value o). split; [by apply Hb|]. right. split; [|done]. apply not_elem_of_nil.
Qed.

(** A subparser's namespace has its attributes and no other, each with the
    type of its option. *)
Lemma parse_known_typed prog_name opts args m extras :
  Forall wf_option opts → NoDup (dest <$> stores opts) →
  parse_known prog_name opts args = Parsed (m, extras) → typed opts m.
Proof.
  intros Hwf Hnd H. unfold parse_known in H.
  apply parsed_bind_ok in H as (cs & Hcs & H). apply classify_ok in Hcs as [Hcs _].
  apply parsed_bind_ok in H as ([st ex] & Hst & H).
  apply (consume_ok _ _ (defaults opts) []) in Hst as [Hst|(run & st0 & pre & rest & un & ex' & [=] & _)];
    [|done..|by apply initial_ok; intros; apply defaults_lookup].
  destruct (missing_options opts st) eqn:Hm; [|done]. unfold mret, parsed_ret in H. simplify_eq.
  destruct (converted_ok _ _ _ Hnd Hwf st Hst Hm) as (Hd & Hv & _). split; [|done].
  by rewrite Hd, defaults_dom.
Qed.

(** A parser whose attributes are distinct and whose defaults have the types
    of their options. *)
Record wf_parser (p : arg_parser) : Prop := {
  wf_options : Forall wf_option (options p);
  wf_dests : NoDup (sub_dest p :: (dest <$> stores (options p)));
  wf_choices : Forall (λ c, Forall wf_option c.2 ∧ NoDup (dest <$> stores c.2) ∧
    Forall (λ d, d ≠ sub_dest p ∧ d ∉ dest <$> stores (options p)) (dest <$> stores c.2)) (choices p) }.

(** What a parsed namespace is, whatever the arguments were. *)
Lemma parse_args_inv p argv m :
  wf_parser p → parse_args p argv = Parsed m →
  ∃ pre name args opts sub_m,
    argv = pre ++ name :: args ∧ (name, opts) ∈ choices p ∧
    parse_known (prog p +:+ " " +:+ name) opts args = Parsed (sub_m, []) ∧
    typed opts sub_m ∧ (∀ o, o ∈ stores opts → m !! dest o = sub_m !! dest o) ∧
    m !! sub_dest p = Some (StrV name) ∧
    (∀ o, o ∈ stores (options p) → ∃ v, m !! dest o = Some v ∧ has_type o v) ∧
    dom m = dom sub_m ∪ {[sub_dest p]} ∪ list_to_set (dest <$> stores (options p)).
Proof.
  intros [Hwf [Hsd Hnd]%NoDup_cons Hch] H. unfold parse_args in H.
  set (base := <[sub_dest p := NoneV]> (defaults (options p))) in H.
  assert (∀ o, o ∈ stores (options p) → sub_dest p ≠ dest o) as Hne.
  { intros o Ho Heq. apply Hsd. rewrite Heq. apply list_elem_of_fmap. by exists o. }
  apply parsed_bind_ok in H as (cs & Hcs & H). apply classify_ok in Hcs as [Hcs Hargv].
  apply parsed_bind_ok in H as ([st ex] & Hst & H).
  apply (consume_ok _ _ base [] Hnd) in Hst;
    [|done|apply initial_ok; intros o Ho; unfold base; rewrite lookup_insert_ne by auto; by apply defaults_lookup].
  destruct Hst as [(_ & _ & Hk)|(run & st0 & pre & rest & ex0 & un & [= <-] & Hst0 & Hrest & Hrun & ->)].
  { rewrite bool_decide_eq_false_2 in H; [by destruct (missing_options _ _)|].
    intros Hs. destruct (Hk _ Hsd) as [_ Hr]. by apply Hr, elem_of_nil in Hs. }
  unfold run_subcommand in Hrun. destruct rest as [|name args].
  { unfold mret, parsed_ret in Hrun. simplify_eq. destruct Hst0 as (_ & _ & Hk).
    rewrite bool_decide_eq_false_2 in H; [by destruct (missing_options _ _)|].
    intros Hs. destruct (Hk _ Hsd) as [_ Hr]. by apply Hr, elem_of_nil in Hs. }
  destruct (List.find _ (choices p)) as [[name' opts]|] eqn:Hf; [|done].
  apply find_Some_elem in Hf as [Hin Hn%String.eqb_eq]. simpl in Hn. subst name'.
  apply parsed_bind_ok in Hrun as ([sub_m un'] & Hsub & Hrun). unfold mret, parsed_ret in Hrun. simplify_eq.
  rewrite Forall_forall in Hch. destruct (Hch _ Hin) as (Hwf' & Hnd' & Hdis). cbn [snd] in *.
  pose proof (parse_known_typed _ _ _ _ _ Hwf' Hnd' Hsub) as Hty.
  set (st := MkState _ _) in H.
  assert (∀ k, k ∈ dest <$> stores (options p) ∨ k = sub_dest p → sub_m !! k = None) as Hsep.
  { intros k Hk. apply not_elem_of_dom. rewrite (proj1 Hty), elem_of_list_to_set.
    intros Hk'. rewrite Forall_forall in Hdis. destruct (Hdis _ Hk') as [? ?]. by destruct Hk. }
  assert (state_ok (options p) (sub_m ∪ <[sub_dest p := StrV name]> base) [sub_dest p] st) as Hst.
  { destruct Hst0 as (Hd & Hv & Hk). unfold st, state_ok. cbn [values seen]. split_and!.
    - by rewrite !dom_union_L, !dom_insert_L, Hd.
    - intros o Ho. destruct (Hv _ Ho) as (v & Hl & Hc). exists v.
      assert (dest o ∈ dest <$> stores (options p)) by (apply list_elem_of_fmap; by exists o).
      rewrite lookup_union_r, lookup_insert_ne by auto. split; [done|].
      rewrite elem_of_cons. destruct Hc as [[? ?]|[? ?]]; [by left; auto|right].
      split; [|done]. intros [Heq|?]; [|done]. by apply (Hne _ Ho).
    - intros k Hn. destruct (Hk k Hn) as [Heq Hr]. split.
      + destruct (decide (k = sub_dest p)) as [->|]; [by rewrite !lookup_union_r, !lookup_insert_eq by auto|].
        apply option_eq. intros v. rewrite !lookup_union_Some_raw. by rewrite !lookup_insert_ne, Heq by done.
      + intros [->|?%Hr%elem_of_nil]%elem_of_cons; [apply list_elem_of_here|done]. }
  destruct (missing_options (options p) st) eqn:Hm; [|by destruct (bool_decide _) in H].
  rewrite bool_decide_eq_true_2 in H by apply list_elem_of_here. cbn [app] in H.
  case_bool_decide as Hex; [|done]. unfold mret, parsed_ret in H. apply app_nil in Hex as [-> ->].
  simplify_eq.
  destruct (converted_ok _ _ _ Hnd Hwf st Hst Hm) as (Hd & Hv & Hk).
  exists pre, name, args, opts, sub_m. split_and!; [done..| | |done|].
  - intros o Ho. assert (dest o ∈ dest <$> stores opts) as Hin' by (apply list_elem_of_fmap; by exists o).
    rewrite Forall_forall in Hdis. rewrite Hk by apply (Hdis _ Hin').
    destruct (proj2 Hty _ Ho) as (v & Hl & _). rewrite Hl. by apply lookup_union_Some_l.
  - rewrite Hk by done. rewrite lookup_union_r by auto. apply lookup_insert_eq.
  - rewrite Hd, dom_union_L, dom_insert_L. unfold base. rewrite dom_insert_L, defaults_dom. set_solver.
Qed.

(** ** Flags that were given *)

(** An option string that only a long argument can mean. *)
Definition long_string (s : string) : bool := py_startswith s "--" && (2 <? String.length s).

Lemma long_second s : long_string s = true → second_dash s = true.
Proof.
  unfold long_string. intros [H _]%andb_prop. apply prefix_split in H as [r ->]. done.
Qed.

Section flags.
Context (prog_name : string) (opts : list option_arg).

(** The options an argument of this class takes without a value. *)
Definition reaches (c : arg_class) (o : option_arg) : Prop :=
  match c with
  | ArgO (Some o') os None => o = o'
  | ArgO (Some o') os (Some e) =>
      ∃ flags last v, cluster prog_name opts o' os e = Parsed (flags, last, v) ∧ o ∈ flags ++ [last]
  | _ => False
  end.

Lemma take_action_seen o arg st st' :
  take_action prog_name st o arg = Parsed st' → seen st' = dest o :: seen st ∧ action o ≠ Help.
Proof. unfold take_action. destruct (action o); intros; by simplify_eq. Qed.

Lemma take_flags_seen flags st st' d :
  take_flags prog_name st flags = Parsed st' → d ∈ seen st' →
  d ∈ seen st ∨ ∃ o, o ∈ flags ∧ dest o = d ∧ action o ≠ Help.
Proof.
  revert st. induction flags as [|o flags IH]; intros st H Hd; cbn [take_flags] in H.
  - simplify_eq. by left.
  - apply parsed_bind_ok in H as (st1 & H1 & H). destruct (IH _ H Hd) as [Hd'|(o' & ? & ?)].
    + apply take_action_seen in H1 as [Hs Hh]. rewrite Hs in Hd'.
      apply elem_of_cons in Hd' as [->|?]; [right; exists o; split; [left|done]|by left].
    + right. exists o'. split; [by right|done].
Qed.

(** What a subparser has seen, one of its arguments reaches. *)
Lemma consume_seen cs st extras st' extras' d :
  consume prog_name opts None cs st extras = Parsed (st', extras') → d ∈ seen st' →
  d ∈ seen st ∨ ∃ a c o, (a, c) ∈ cs ∧ reaches c o ∧ dest o = d ∧ action o ≠ Help.
Proof.
  revert st extras. induction cs as [cs IH] using (induction_ltof1 _ (@length _)).
  unfold ltof in IH. intros st extras H Hd.
  assert (∀ e cs' st extras, cs = e ++ cs' → e ≠ [] →
    consume prog_name opts None cs' st extras = Parsed (st', extras') →
    d ∈ seen st ∨ ∃ a c o, (a, c) ∈ cs ∧ reaches c o ∧ dest o = d ∧ action o ≠ Help) as Hrec.
  { clear H st extras. intros e cs' st extras -> He H.
    destruct (IH cs') with st extras as [?|(a & c & o & Hin & ?)]; [| |done|by left|].
    - rewrite length_app. destruct e; [done|simpl; lia].
    - exact H.
    - right. exists a, c, o. split; [|done]. apply elem_of_app. by right. }
  destruct cs as [|[s [| |[o|] os ex]] cs]; cbn [consume] in H.
  - left. by simplify_eq.
  - by apply (Hrec [(s, ArgA)] _ _ _ eq_refl) in H.
  - by apply (Hrec [(s, ArgDashes)] _ _ _ eq_refl) in H.
  - apply parsed_bind_ok in H as ([[flags last] value] & Hfl & H).
    assert (∀ o', o' ∈ flags ++ [last] → reaches (ArgO (Some o) os ex) o') as Hre.
    { intros o' Ho'. destruct ex as [e|]; simpl; [by exists flags, last, value|].
      simplify_eq. by apply list_elem_of_singleton in Ho'. }
    assert (∀ e cs' v, (s, ArgO (Some o) os ex) :: cs = e ++ cs' → e ≠ [] →
      (st ← take_flags prog_name st flags; st ← take_action prog_name st last v;
       consume prog_name opts None cs' st extras) = Parsed (st', extras') →
      d ∈ seen st ∨ ∃ a c o', (a, c) ∈ (s, ArgO (Some o) os ex) :: cs ∧ reaches c o' ∧ dest o' = d ∧ action o' ≠ Help) as Htake.
    { intros e cs' v Heq Hne Ht. apply parsed_bind_ok in Ht as (st1 & Hst1 & Ht).
      apply parsed_bind_ok in Ht as (st2 & Hst2 & Ht).
      eapply Hrec in Ht as [Hin|?]; [|by right|done|done].
      apply take_action_seen in Hst2 as [Hs2 Hh]. rewrite Hs2 in Hin. apply elem_of_cons in Hin as [->|Hin].
      - right. eexists s, _, last. split; [left|]. split; [|done]. apply Hre, elem_of_app. right. left.
      - destruct (take_flags_seen _ _ _ _ Hst1 Hin) as [?|(o' & Ho' & <- & ?)]; [by left|].
        right. eexists s, _, o'. split; [left|]. split; [|done]. apply Hre, elem_of_app. by left. }
    destruct value as [v|]; [by apply (Htake [(s, ArgO (Some o) os ex)] cs (Some v))|].
    destruct (takes_value last).
    + destruct cs as [|[v [| |]] cs]; try done.
      by apply (Htake [(s, ArgO (Some o) os ex); (v, ArgA)] cs (Some v)).
    + by apply (Htake [(s, ArgO (Some o) os ex)] cs None).
  - by apply (Hrec [(s, ArgO None os ex)] _ _ _ eq_refl) in H.
Qed.

(** A long flag is reached only by itself. *)
Lemma reaches_long c o :
  class_ok opts c → reaches c o → takes_value o = false → Forall long_string (option_strings o) →
  ∃ os, c = ArgO (Some o) os None ∧ os ∈ option_strings o.
Proof.
  destruct c as [| |[o'|] os [e|]]; simpl; try done.
  - intros [Ho' Hos] (flags & last & v & Hc & Hin) Ht Hl. exfalso.
    assert (∀ s, s ∈ option_strings o → long_string s = true) as Hlong.
    { intros s. rewrite Forall_forall in Hl. intros Hs. by apply Is_true_true, Hl. }
    clear Ho'. revert o' os flags Hos Hc Hin. induction e as [|x e IH]; intros o' os flags Hos Hc Hin;
      cbn [cluster] in Hc; destruct (takes_value o') eqn:Ht'.
    + simplify_eq. apply list_elem_of_singleton in Hin as ->. by rewrite Ht' in Ht.
    + done.
    + simplify_eq. apply list_elem_of_singleton in Hin as ->. by rewrite Ht' in Ht.
    + destruct (second_dash os) eqn:Hns; [done|].
      destruct (find_option opts _) as [o2|] eqn:Hf; [|done]. apply find_option_elem in Hf as [_ Hos2].
      assert (o ≠ o') as Hne.
      { intros ->. apply Hlong, long_second in Hos. by rewrite Hns in Hos. }
      assert (o ≠ o2) as Hne2.
      { intros ->. apply Hlong in Hos2. unfold long_string in Hos2.
        by rewrite andb_comm in Hos2. }
      destruct (String.eqb e "").
      * simplify_eq. rewrite elem_of_app, !list_elem_of_singleton in Hin. naive_solver.
      * apply parsed_bind_ok in Hc as ([[fl la] v'] & Hc & Heq). unfold mret, parsed_ret in Heq.
        simplify_eq. rewrite <- app_comm_cons in Hin. apply elem_of_cons in Hin as [->|Hin]; [done|].
        by eapply IH.
  - intros [_ ?] -> _ _. by exists os.
Qed.

(** An argument that means a long option without a value is that option or an
    abbreviation. *)
Lemma parse_optional_long s o os :
  parse_optional prog_name opts s = Parsed (ArgO (Some o) os None) → long_string os = true →
  py_startswith os s = true ∧ (s = "--" ∨ 2 < String.length s).
Proof.
  intros H Hl. pose proof Hl as [[r ->]%prefix_split Hlen%Nat.ltb_lt]%andb_prop.
  assert (∀ s, py_startswith s s = true) as Hrefl.
  { intros s1. unfold py_startswith. rewrite <- (str_app_nil_r s1) at 2. apply prefix_app. }
  destruct s as [|c s]; [done|]. unfold parse_optional in H.
  destruct (Ascii.eqb_spec c "-") as [->|Hc]; [|done]. cbn [negb] in H.
  destruct (find_option opts (String "-" s)) as [o'|] eqn:Hf; [simplify_eq; split; [apply Hrefl|by right]|].
  destruct (String.eqb_spec s "") as [->|Hs]; [done|].
  assert (abbreviated prog_name opts (String "-" s) = Parsed (ArgO (Some o) ("--" +:+ r) None)) as Ha.
  { destruct (py_partition "=" (String "-" s)) as [[p e]|]; [|done].
    destruct (find_option opts p); by simplify_eq. }
  clear H. unfold abbreviated in Ha.
  assert (ArgO (Some o) ("--" +:+ r) None ∈ option_tuples opts (String "-" s)) as Hin.
  { destruct (option_tuples opts (String "-" s)) as [|c0 [|]]; [|injection Ha as ->; left|done].
    by repeat case_match. }
  clear Ha. destruct s as [|d s]; [done|]. 
  assert (d = "-"%char ∧ py_startswith ("--" +:+ r) (String "-" (String d s)) = true) as [-> Hpre].
  { unfold option_tuples, second_dash in Hin. destruct (Ascii.eqb_spec d "-") as [->|Hd].
    - split; [done|].
      assert (∀ p e, ArgO (Some o) ("--" +:+ r) None ∈ (λ x : string * option_arg, ArgO (Some (snd x)) (fst x) e)
        <$> List.filter (λ x, py_startswith (fst x) p) (option_string_actions opts) →
        e = None ∧ py_startswith ("--" +:+ r) p = true) as Hp.
      { intros p e ([s' o'] & [= -> -> <-] & Hf')%list_elem_of_fmap.
        by apply list_elem_of_In, filter_In in Hf' as [_ ?]. }
      destruct (py_partition "=" _) as [[p e]|]; apply Hp in Hin as [Hn ?]; done.
    - exfalso. apply list_elem_of_In, in_flat_map in Hin as ([s' o'] & _ & Hin). simpl in Hin.
      destruct (String.eqb _ _); [by destruct Hin|].
      destruct (py_startswith s' _) eqn:Hp; [|done]. destruct Hin as [[= <- ->]|[]].
      apply prefix_split in Hp as [r' Hp]. by injection Hp as <-. }
  split; [done|]. destruct s; [by left|right; simpl; lia].
Qed.

Lemma classify_elem args cs s o os e :
  classify prog_name opts args = Parsed cs → (s, ArgO o os e) ∈ cs →
  s ∈ args ∧ s ≠ "--" ∧ parse_optional prog_name opts s = Parsed (ArgO o os e).
Proof.
  revert cs. induction args as [|a args IH]; intros cs H Hin; cbn [classify] in H.
  - simplify_eq. by apply elem_of_nil in Hin.
  - destruct (String.eqb_spec a "--") as [->|Hne].
    + simplify_eq. apply elem_of_cons in Hin as [[=]|Hin]. by apply list_elem_of_fmap in Hin as (? & [=] & _).
    + apply parsed_bind_ok in H as (c & Hc & H). apply parsed_bind_ok in H as (cs' & Hcs & H).
      unfold mret, parsed_ret in H. simplify_eq. apply elem_of_cons in Hin as [[= -> ->]|Hin].
      * split_and!; [left|done|done].
      * destruct (IH _ Hcs Hin) as (? & ? & ?). split_and!; [by right|done|done].
Qed.

Lemma reaches_in c o : class_ok opts c → reaches c o → o ∈ opts.
Proof.
  destruct c as [| |[o'|] os [e|]]; simpl; try done.
  - intros [Ho' _] (flags & last & v & Hc & Hin). apply cluster_ok in Hc as (Hf & Hl & _); [|done].
    apply elem_of_app in Hin as [Hin|Hin%list_elem_of_singleton]; [|by subst].
    rewrite Forall_forall in Hf. by apply Hf.
  - by intros [? _] ->.
Qed.

Lemma flag_was_given args m extras o :
  Forall wf_option opts → NoDup (dest <$> stores opts) →
  parse_known prog_name opts args = Parsed (m, extras) →
  o ∈ opts → action o = StoreTrue → default_value o = BoolV false →
  Forall long_string (option_strings o) → m !! dest o = Some (BoolV true) →
  ∃ s os, s ∈ args ∧ os ∈ option_strings o ∧ py_startswith os s = true ∧ 2 < String.length s.
Proof.
  intros Hwf Hnd H Ho Hact Hdef Hlong Hm. unfold parse_known in H.
  apply parsed_bind_ok in H as (cs & Hcs & H).
  apply parsed_bind_ok in H as ([st ex] & Hst & H). pose proof (classify_ok _ _ _ _ Hcs) as [Hok _].
  pose proof (consume_seen _ _ _ _ _ (dest o) Hst) as Hseen.
  apply (consume_ok _ _ (defaults opts) [] Hnd) in Hst as [Hst|(run & st0 & pre & rest & un & ex' & [=] & _)];
    [|done|by apply initial_ok; intros; apply defaults_lookup].
  destruct (missing_options opts st); [|done]. unfold mret, parsed_ret in H. simplify_eq.
  assert (o ∈ stores opts) as Hs by (apply elem_of_stores; by rewrite Hact).
  assert (dest o ∈ seen st) as Hd.
  { destruct Hst as (_ & Hv & _). destruct (Hv _ Hs) as (v & Hl & [[? _]|[Hn ->]]); [done|].
    rewrite convert_defaults_lookup, Hl in Hm by done.
    destruct (List.find _ opts) as [o'|] eqn:Hf.
    - apply find_converts in Hf as (Ho' & Heq & _); [|done]. apply (dest_inj _ Hnd) in Heq as ->; [|done..].
      unfold converted_default in Hm. by rewrite Hdef in Hm.
    - by rewrite Hdef in Hm. }
  destruct (Hseen Hd) as [[]%elem_of_nil|(a & c & o' & Hin & Hr & Heq & Hh)].
  rewrite Forall_forall in Hok. pose proof (Hok _ Hin) as Hc. cbn [snd] in Hc.
  assert (o' = o) as ->.
  { apply (dest_inj _ Hnd); [|done..]. apply elem_of_stores. split; [by eapply reaches_in|done]. }
  apply reaches_long in Hr as (os & -> & Hos); [|done| |done]; [|unfold takes_value; by rewrite Hact].
  destruct (classify_elem _ _ _ _ _ _ Hcs Hin) as (Ha & Hne & Hp).
  apply parse_optional_long in Hp as [Hpre [?|Hlen]]; [done|by exists a, os|].
  rewrite Forall_forall in Hlong. by apply Is_true_true, Hlong.
Qed.
End flags.

(** ** Exit statuses *)

(** Status 0 is the help, status 2 an error. *)
Definition leaves_ok {A} (m : parsed A) : Prop :=
  match m with Parsed _ => True | Exit st _ msg => st = 2%Z ∨ st = 0%Z ∧ msg = "" end.

Lemma leaves_bind {A B} (m : parsed A) (f : A → parsed B) :
  leaves_ok m → (∀ a, leaves_ok (f a)) → leaves_ok (m ≫= f).
Proof. intros Hm Hf. destruct m as [a|]; [apply Hf|done]. Qed.

#[export] Hint Resolve leaves_bind : vmdeploy.

Section leaves.
Context (prog_name : string) (opts : list option_arg).

Lemma parse_optional_leaves s : leaves_ok (parse_optional prog_name opts s).
Proof.
  unfold parse_optional, abbreviated. repeat case_match; simpl; auto.
Qed.

Lemma classify_leaves args : leaves_ok (classify prog_name opts args).
Proof.
  induction args as [|s args IH]; [done|]. cbn [classify]. destruct (String.eqb s "--"); [done|].
  apply leaves_bind; [apply parse_optional_leaves|intros c]. by apply leaves_bind.
Qed.

Lemma take_action_leaves st o arg : leaves_ok (take_action prog_name st o arg).
Proof. unfold take_action. destruct (action o); simpl; auto. Qed.

Lemma take_flags_leaves flags st : leaves_ok (take_flags prog_name st flags).
Proof.
  revert st. induction flags as [|o flags IH]; intros st; [done|]. cbn [take_flags].
  apply leaves_bind; [apply take_action_leaves|done].
Qed.

Lemma cluster_leaves o os e : leaves_ok (cluster prog_name opts o os e).
Proof.
  revert o os. induction e as [|c e IH]; intros o os; cbn [cluster]; destruct (takes_value o); simpl; auto.
  destruct (second_dash os); simpl; auto. destruct (find_option opts _); simpl; auto.
  destruct (String.eqb e ""); [done|]. apply leaves_bind; [apply IH|by intros [[] ]].
Qed.

Lemma consume_leaves sub cs st extras :
  (∀ run args st, sub = Some run → leaves_ok (run args st)) →
  leaves_ok (consume prog_name opts sub cs st extras).
Proof.
  intros Hsub. revert st extras. induction cs as [cs IH] using (induction_ltof1 _ (@length _)).
  unfold ltof in IH. intros st extras.
  assert (∀ cs' flags last v, length cs' < length cs → leaves_ok
    (st ← take_flags prog_name st flags; st ← take_action prog_name st last v;
     consume prog_name opts sub cs' st extras)) as Htake.
  { intros cs' flags last v Hlt. apply leaves_bind; [apply take_flags_leaves|intros st1].
    apply leaves_bind; [apply take_action_leaves|intros st2]. by apply IH. }
  destruct cs as [|[s [| |[o|] os ex]] cs]; cbn [consume].
  - done.
  - destruct sub as [run|]; [|apply IH; simpl; lia]. apply leaves_bind; [by eapply Hsub|by intros []].
  - destruct sub as [run|]; [|apply IH; simpl; lia]. destruct cs; [apply IH; simpl; lia|].
    apply leaves_bind; [by eapply Hsub|by intros []].
  - apply leaves_bind; [destruct ex; [apply cluster_leaves|done]|intros [[flags last] value]].
    destruct value as [v|]; [apply Htake; simpl; lia|].
    destruct (takes_value last); [|apply Htake; simpl; lia].
    destruct cs as [|[v [| |]] cs]; simpl; auto. apply Htake. simpl. lia.
  - apply IH. simpl. lia.
Qed.

Lemma parse_known_leaves args : leaves_ok (parse_known prog_name opts args).
Proof.
  unfold parse_known. apply leaves_bind; [apply classify_leaves|intros cs].
  apply leaves_bind; [by apply consume_leaves|intros [st extras]].
  destruct (missing_options opts st); simpl; auto.
Qed.
End leaves.

Lemma parse_args_leaves p argv : leaves_ok (parse_args p argv).
Proof.
  unfold parse_args. apply leaves_bind; [apply classify_leaves|intros cs].
  apply leaves_bind; [apply consume_leaves|intros [st extras]].
  - intros run args st [= <-]. unfold run_subcommand. destruct args as [|name args]; [done|].
    destruct (List.find _ _) as [[n opts]|]; [|simpl; auto].
    apply leaves_bind; [apply parse_known_leaves|by intros []].
  - destruct (missing_options _ _ ++ _); [|simpl; auto]. case_bool_decide; simpl; auto.
Qed.

(** ** Arguments that ask for given options *)

(** [--opt=value], and a flag. *)
Inductive given : Type :=
  | GivenValue (os : string) (o : option_arg) (v : string)
  | GivenFlag (os : string) (o : option_arg).

Definition given_string (g : given) : string :=
  match g with GivenValue os _ v => os +:+ "=" +:+ v | GivenFlag os _ => os end.
Definition given_class (g : given) : arg_class :=
  match g with GivenValue os o v => ArgO (Some o) os (Some v) | GivenFlag os o => ArgO (Some o) os None end.

(** The argument is understood as it is meant. *)
Definition given_ok (prog_name : string) (opts : list option_arg) (g : given) : Prop :=
  given_string g ≠ "--" ∧ parse_optional prog_name opts (given_string g) = Parsed (given_class g) ∧
  match g with
  | GivenValue _ o _ => takes_value o = true
  | GivenFlag _ o => action o = StoreTrue
  end.

Definition give (st : parse_state) (g : given) : parse_state :=
  match g with
  | GivenValue _ o v => MkState (<[dest o := get_value o v]> (values st)) (dest o :: seen st)
  | GivenFlag _ o => MkState (<[dest o := BoolV true]> (values st)) (dest o :: seen st)
  end.

Section given.
Context (prog_name : string) (opts : list option_arg).

Lemma classify_given gs rest cs :
  Forall (given_ok prog_name opts) gs → classify prog_name opts rest = Parsed cs →
  classify prog_name opts ((given_string <$> gs) ++ rest) =
  Parsed (((λ g, (given_string g, given_class g)) <$> gs) ++ cs).
Proof.
  intros Hgs Hrest. induction Hgs as [|g gs (Hne & Hp & _) _ IH]; [done|].
  cbn [fmap list_fmap app classify]. destruct (String.eqb_spec (given_string g) "--"); [done|].
  by rewrite Hp; cbn; rewrite IH.
Qed.

Lemma consume_given sub gs cs st extras :
  Forall (given_ok prog_name opts) gs →
  consume prog_name opts sub (((λ g, (given_string g, given_class g)) <$> gs) ++ cs) st extras =
  consume prog_name opts sub cs (foldl give st gs) extras.
Proof.
  intros Hgs. revert st. induction Hgs as [|[os o v|os o] gs (_ & _ & Ha) _ IH]; intros st; [done|..];
    cbn [fmap list_fmap app foldl consume given_string given_class].
  - assert (cluster prog_name opts o os v = Parsed ([], o, Some v)) as ->.
    { destruct v; cbn [cluster]; by rewrite Ha. }
    cbn. unfold take_action, takes_value in *. destruct (action o); try done; apply IH.
  - cbn. unfold take_action, takes_value. rewrite Ha. cbn. apply IH.
Qed.

Lemma parse_known_given gs :
  Forall (given_ok prog_name opts) gs →
  let st := foldl give (MkState (defaults opts) []) gs in
  missing_options opts st = [] →
  parse_known prog_name opts (given_string <$> gs) = Parsed (convert_defaults opts st, []).
Proof.
  intros Hgs st Hm. unfold parse_known. rewrite <- (app_nil_r (given_string <$> gs)).
  rewrite (classify_given gs [] []) by done. unfold mbind, parsed_bind.
  rewrite (consume_given None gs []) by done. cbn [consume]. by fold st; rewrite Hm.
Qed.
End given.

(** Options of the main parser, then a subcommand with its options, whatever
    the main parser makes of those. *)
Lemma parse_args_given p gs name opts gs' :
  Forall (given_ok (prog p) (options p)) gs →
  name ≠ "--" → parse_optional (prog p) (options p) name = Parsed ArgA →
  List.find (λ e, String.eqb (fst e) name) (choices p) = Some (name, opts) →
  Forall (given_ok (prog p +:+ " " +:+ name) opts) gs' →
  Forall (λ g, ∃ c, parse_optional (prog p) (options p) (given_string g) = Parsed c) gs' →
  let st := foldl give (MkState (<[sub_dest p := NoneV]> (defaults (options p))) []) gs in
  let st' := foldl give (MkState (defaults opts) []) gs' in
  let st2 := MkState (convert_defaults opts st' ∪ <[sub_dest p := StrV name]> (values st))
    (sub_dest p :: seen st) in
  missing_options opts st' = [] → missing_options (options p) st2 = [] →
  parse_args p ((given_string <$> gs) ++ name :: (given_string <$> gs')) =
  Parsed (convert_defaults (options p) st2).
Proof.
  intros Hgs Hne Hname Hf Hgs' Hcs st st' st2 Hm Hm2.
  assert (∃ cs, classify (prog p) (options p) (given_string <$> gs') = Parsed cs ∧
    cs.*1 = given_string <$> gs') as (cs & Hc & Hfst).
  { clear -Hcs Hgs'. induction Hcs as [|g l [c Hc] _ IH]; [by exists []|].
    apply Forall_cons in Hgs' as [(Hn & _) Hl]. destruct (IH Hl) as (cs & Hcs & Hfst).
    exists ((given_string g, c) :: cs). cbn [fmap list_fmap classify].
    destruct (String.eqb_spec (given_string g) "--"); [done|]. rewrite Hc. cbn. rewrite Hcs. cbn.
    by f_equal; rewrite <- Hfst. }
  unfold parse_args.
  rewrite (classify_given _ _ gs (name :: (given_string <$> gs')) ((name, ArgA) :: cs)); [|done|].
  - unfold mbind at 1, parsed_bind. rewrite consume_given by done. fold st. cbn [consume].
    unfold run_subcommand. rewrite Hf, Hfst, (parse_known_given _ _ gs') by done. fold st'.
    cbn. fold st2. rewrite Hm2, bool_decide_eq_true_2 by apply list_elem_of_here. done.
  - cbn [classify]. destruct (String.eqb_spec name "--"); [done|]. rewrite Hname. cbn. by rewrite Hc.
Qed.
