(* ===== verification/CliParser.v ===== *)
(** * The arguments of the command (cli.py)

    [build_parser] as a description for ArgParse.v, the configuration of
    logging, and [main] from the argument vector: parse, configure logging,
    look the command up, run it (Cli.v).  A handler finds its arguments as
    attributes of the namespace; [_COMMANDS] reads them into the typed
    [subcommand], and an attribute that is not there is [AttributeError]. *)

From S2P Require Import Prelude PyStr Exceptions Paths Effects Values Bytes Inventory Config.
From S2P Require Import VirtualBox SshClient Website Apache InventoryService Setup Provision Cli ArgParse.

#[export] Set Default Goal Selector "!".

Definition _DEFAULT_CONFIG : path := Path "config/cluster.toml".
Definition _GOSERVICE_DIR : path := Path "goservice".

(** ** The parser *)

(** What [add_argument] is called with. *)
Definition store_true (flags : list string) (dest : string) : option_arg :=
  MkOption flags dest StoreTrue (BoolV false) false.
Definition store_path (flags : list string) (dest : string) (default : path) : option_arg :=
  MkOption flags dest StorePath (PathV default) false.
Definition store (flag dest default : string) : option_arg :=
  MkOption [flag] dest StoreStr (StrV default) false.
Definition store_required (flag dest : string) : option_arg :=
  MkOption [flag] dest StoreStr NoneV true.
(** The option every parser has. *)
Definition help_option : option_arg := MkOption ["-h"; "--help"] "help" Help NoneV false.

Definition main_options : list option_arg :=
  [help_option;
   store_path ["-c"; "--config"] "config" _DEFAULT_CONFIG;
   store_path ["--goservice-dir"] "goservice_dir" _GOSERVICE_DIR;
   store_true ["-v"; "--verbose"] "verbose"].

Definition template_options : list option_arg := [store_true ["--export-only"] "export_only"].
Definition setup_options : list option_arg :=
  [store "--new-user" "new_user" DEFAULT_ADMIN_USER;
   store "--new-key" "new_key" "~/.vmdeploy/keys/vm_key";
   store_true ["--keys-only"] "keys_only"].
Definition restore_options : list option_arg :=
  [store_required "--user" "user"; store_required "--pubkey-file" "pubkey_file";
   store_true ["--leave-running"] "leave_running"].
Definition deploy_options : list option_arg :=
  [store_true ["--export-only"] "export_only"; store_true ["--skip-preflight"] "skip_preflight"].
Definition teardown_options : list option_arg := [store_true ["--yes"] "yes"].

Definition subparsers : list (string * list option_arg) :=
  prod_map id (cons help_option) <$>
  [("template", template_options); ("setup", setup_options); ("restore-bootstrap", restore_options);
   ("provision", []); ("configure", []); ("preflight", []); ("deploy", deploy_options);
   ("status", []); ("teardown", teardown_options)].

Definition build_parser : arg_parser := MkParser "vmdeploy" main_options "command" subparsers.

(** ** The namespace *)

Definition attr_str (ns : attrs) (name : string) : option string :=
  match ns !! name with Some (StrV s) => Some s | _ => None end.
Definition attr_path (ns : attrs) (name : string) : option path :=
  match ns !! name with Some (PathV p) => Some p | _ => None end.
Definition attr_bool (ns : attrs) (name : string) : option bool :=
  match ns !! name with Some (BoolV b) => Some b | _ => None end.
(** [getattr(args, name, False)]. *)
Definition getattr_false (ns : attrs) (name : string) : bool := default false (attr_bool ns name).

(** [_COMMANDS]: each handler with the attributes it reads. *)
Definition _COMMANDS : list (string * (attrs → option subcommand)) :=
  [("setup", λ ns, u ← attr_str ns "new_user"; k ← attr_str ns "new_key";
      b ← attr_bool ns "keys_only"; Some (CmdSetup u k b));
   ("restore-bootstrap", λ ns, u ← attr_str ns "user"; k ← attr_str ns "pubkey_file";
      b ← attr_bool ns "leave_running"; Some (CmdRestoreBootstrap u k b));
   ("template", λ ns, Some (CmdTemplate (getattr_false ns "export_only")));
   ("provision", λ _, Some CmdProvision);
   ("configure", λ _, Some CmdConfigure);
   ("preflight", λ _, Some CmdPreflight);
   ("deploy", λ ns, Some (CmdDeploy (getattr_false ns "export_only") (getattr_false ns "skip_preflight")));
   ("status", λ _, Some CmdStatus);
   ("teardown", λ ns, CmdTeardown <$> attr_bool ns "yes")].

(** [_COMMANDS.get(name)]. *)
Definition command_reader (name : string) : option (attrs → option subcommand) :=
  snd <$> List.find (λ e, String.eqb (fst e) name) _COMMANDS.

(** The attributes every handler may read, and those of the given one. *)
Definition read_namespace (ns : attrs) (reader : attrs → option subcommand) : option Namespace :=
  c ← attr_path ns "config"; g ← attr_path ns "goservice_dir"; sub ← reader ns;
  Some (MkNamespace c g sub).

(** ** Logging *)

Definition DEBUG : Z := 10.
Definition INFO : Z := 20.
Definition WARNING : Z := 30.

Definition configure_logging (verbose : bool) : M unit :=
  call (LogBasicConfig (if verbose then DEBUG else INFO)) ;;
  call (LogSetLevel "paramiko" WARNING).

(** ** The entry point *)

(** [parser.exit]: the help, or the usage and the error. *)
Definition parser_exit {A} (status : Z) (prog message : string) : M A :=
  (if (status =? 0)%Z then call (PrintHelp prog) else call (PrintUsageError prog message)) ;;
  raise (SystemExit status).

Section main.
Context {tmp : TempDir} {parser : TomlParser} {aead : AEAD}.

Definition main (argv : list string) : M Z :=
  match parse_args build_parser argv with
  | Exit status prog message => parser_exit status prog message
  | Parsed ns =>
      match attr_bool ns "verbose", attr_str ns "command" with
      | Some verbose, Some command =>
          configure_logging verbose ;;
          match command_reader command with
          | None => parser_exit 2 (prog build_parser) ("unknown command: " +:+ command)
          | Some reader =>
              match read_namespace ns reader with
              | Some args => dispatch args
              | None => raise (AttributeError "'Namespace' object has no such attribute")
              end
          end
      | _, _ => raise (AttributeError "'Namespace' object has no such attribute")
      end
  end.
End main.
