(* ===== verification/CliParserFacts.v ===== *)
(** * Facts about the command line's arguments

    What [parse_args] can return for [build_parser]: always a namespace from
    which the handler of its command finds every attribute it reads.  Every
    command can be asked for, and the destruction of the cluster only by
    spelling it out.  [main] is the dispatch of Cli.v behind that. *)

From S2P Require Import Prelude PyStr Exceptions Paths Effects Reasoning Values Bytes Inventory Config.
From S2P Require Import VirtualBox SshClient Website Apache InventoryService Setup Provision Cli.
From S2P Require Import ArgParse ArgParseFacts CliParser.

#[export] Set Default Goal Selector "!".

(** ** The description is well formed *)

#[local] Ltac options_ok :=
  repeat apply Forall_cons_2; try apply Forall_nil_2;
  solve [by right | by left | split; done].

Lemma build_parser_wf : wf_parser build_parser.
Proof.
  split.
  - options_ok.
  - apply (bool_decide_unpack _). by vm_compute.
  - unfold build_parser, subparsers. cbn [choices sub_dest options fmap list_fmap prod_map id].
    repeat apply Forall_cons_2; try apply Forall_nil_2; cbn [snd];
      (split; [options_ok|split; apply (bool_decide_unpack _); by vm_compute]).
Qed.

#[local] Ltac member := cbn; first [apply list_elem_of_here | apply list_elem_of_further; member].

(** What the main program reads from the arguments. *)
Definition read_command_line (argv : list string) : option (bool * Namespace) :=
  match parse_args build_parser argv with
  | Parsed ns =>
      verbose ← attr_bool ns "verbose";
      command ← attr_str ns "command";
      reader ← command_reader command;
      args ← read_namespace ns reader;
      Some (verbose, args)
  | Exit _ _ _ => None
  end.

Definition command_name (c : subcommand) : string :=
  match c with
  | CmdSetup _ _ _ => "setup"
  | CmdRestoreBootstrap _ _ _ => "restore-bootstrap"
  | CmdTemplate _ => "template"
  | CmdProvision => "provision"
  | CmdConfigure => "configure"
  | CmdPreflight => "preflight"
  | CmdDeploy _ _ => "deploy"
  | CmdStatus => "status"
  | CmdTeardown _ => "teardown"
  end.

(** An attribute of the type of its option is read. *)
Lemma attr_bool_typed ns o : action o = StoreTrue →
  (∃ v, ns !! dest o = Some v ∧ has_type o v) → ∃ b, attr_bool ns (dest o) = Some b.
Proof.
  intros Ha (v & Hv & Ht). unfold has_type in Ht. rewrite Ha in Ht. unfold attr_bool. rewrite Hv.
  destruct v; try done. by eexists.
Qed.
Lemma attr_str_typed ns o : action o = StoreStr →
  (∃ v, ns !! dest o = Some v ∧ has_type o v) → ∃ s, attr_str ns (dest o) = Some s.
Proof.
  intros Ha (v & Hv & Ht). unfold has_type in Ht. rewrite Ha in Ht. unfold attr_str. rewrite Hv.
  destruct v; try done. by eexists.
Qed.
Lemma attr_path_typed ns o : action o = StorePath →
  (∃ v, ns !! dest o = Some v ∧ has_type o v) → ∃ p, attr_path ns (dest o) = Some p.
Proof.
  intros Ha (v & Hv & Ht). unfold has_type in Ht. rewrite Ha in Ht. unfold attr_path. rewrite Hv.
  destruct v; try done. by eexists.
Qed.

(** The command of a parsed namespace, as its handler finds it. *)
Lemma handler_attributes ns name opts sub_m :
  (name, opts) ∈ choices build_parser → typed opts sub_m →
  (∀ o, o ∈ stores opts → ns !! dest o = sub_m !! dest o) →
  ∃ reader c, command_reader name = Some reader ∧ reader ns = Some c ∧ command_name c = name.
Proof.
  intros Hin [_ Hv] Heq.
  assert (∀ o, o ∈ stores opts → ∃ v, ns !! dest o = Some v ∧ has_type o v) as Hns.
  { intros o Ho. rewrite (Heq _ Ho). by apply Hv. }
  clear Heq Hv. unfold build_parser, subparsers in Hin.
  cbn [choices fmap list_fmap prod_map id] in Hin.
  repeat (apply elem_of_cons in Hin as [[= -> ->]|Hin]; [|]); [..|by apply elem_of_nil in Hin].
  - by eexists _, (CmdTemplate _).
  - destruct (attr_str_typed ns (store "--new-user" "new_user" DEFAULT_ADMIN_USER) eq_refl) as [u Hu];
      [apply Hns; member|].
    destruct (attr_str_typed ns (store "--new-key" "new_key" "~/.vmdeploy/keys/vm_key") eq_refl)
      as [k Hk]; [apply Hns; member|].
    destruct (attr_bool_typed ns (store_true ["--keys-only"] "keys_only") eq_refl) as [b Hb];
      [apply Hns; member|].
    cbn [dest store store_true] in *. eexists _, (CmdSetup u k b). split; [reflexivity|]. cbn.
    by rewrite Hu; cbn; rewrite Hk; cbn; rewrite Hb.
  - destruct (attr_str_typed ns (store_required "--user" "user") eq_refl) as [u Hu];
      [apply Hns; member|].
    destruct (attr_str_typed ns (store_required "--pubkey-file" "pubkey_file") eq_refl)
      as [k Hk]; [apply Hns; member|].
    destruct (attr_bool_typed ns (store_true ["--leave-running"] "leave_running") eq_refl) as [b Hb];
      [apply Hns; member|].
    cbn [dest store_required store_true] in *. eexists _, (CmdRestoreBootstrap u k b).
    split; [reflexivity|]. cbn. by rewrite Hu; cbn; rewrite Hk; cbn; rewrite Hb.
  - by eexists _, CmdProvision.
  - by eexists _, CmdConfigure.
  - by eexists _, CmdPreflight.
  - by eexists _, (CmdDeploy _ _).
  - by eexists _, CmdStatus.
  - destruct (attr_bool_typed ns (store_true ["--yes"] "yes") eq_refl) as [b Hb]; [apply Hns; member|].
    cbn [dest store_true] in *. eexists _, (CmdTeardown b). split; [reflexivity|]. cbn. by rewrite Hb.
Qed.

Lemma namespace_attributes argv ns :
  parse_args build_parser argv = Parsed ns →
  ∃ verbose args reader pre post,
    attr_bool ns "verbose" = Some verbose ∧
    attr_str ns "command" = Some (command_name (command args)) ∧
    command_reader (command_name (command args)) = Some reader ∧
    read_namespace ns reader = Some args ∧
    argv = pre ++ command_name (command args) :: post.
Proof.
  intros H. apply (parse_args_inv _ _ _ build_parser_wf) in H
    as (pre & name & args & opts & sub_m & -> & Hin & _ & Hty & Heq & Hc & Ho & _).
  destruct (handler_attributes ns name opts sub_m Hin Hty Heq) as (reader & c & Hr & Hread & <-).
  destruct (attr_bool_typed ns (store_true ["-v"; "--verbose"] "verbose") eq_refl) as [v Hv];
    [apply Ho; member|].
  destruct (attr_path_typed ns (store_path ["-c"; "--config"] "config" _DEFAULT_CONFIG) eq_refl)
    as [cf Hcf]; [apply Ho; member|].
  destruct (attr_path_typed ns (store_path ["--goservice-dir"] "goservice_dir" _GOSERVICE_DIR) eq_refl)
    as [g Hg]; [apply Ho; member|].
  cbn [dest store_path store_true] in *.
  exists v, (MkNamespace cf g c), reader, pre, args. cbn [command]. split_and!; [done| |done| |done].
  - unfold attr_str. cbn [sub_dest build_parser] in Hc. by rewrite Hc.
  - unfold read_namespace. rewrite Hcf. cbn. rewrite Hg. cbn. by rewrite Hread.
Qed.

(** C5: the namespace is typed.  For every argument vector [parse_args]
    either leaves, with status 2 for an error or 0 for the help, or returns a
    namespace in which [main] finds the flag of the verbosity, a command that
    [_COMMANDS] knows, and every attribute the command's handler reads, each
    with the type it is used at: the error of an unknown command and
    [AttributeError] are never reached.  The command was named by one of the
    arguments, and its options come after it. *)
Theorem namespace_typed argv :
  match parse_args build_parser argv with
  | Parsed ns =>
      ∃ verbose args reader pre post,
        attr_bool ns "verbose" = Some verbose ∧
        attr_str ns "command" = Some (command_name (command args)) ∧
        command_reader (command_name (command args)) = Some reader ∧
        read_namespace ns reader = Some args ∧
        argv = pre ++ command_name (command args) :: post
  | Exit status _ message => status = 2%Z ∨ status = 0%Z ∧ message = ""
  end.
Proof.
  pose proof (parse_args_leaves build_parser argv) as Hl.
  destruct (parse_args build_parser argv) as [ns|st p msg] eqn:H; [|done].
  by apply namespace_attributes.
Qed.

(** ** Every command can be asked for *)

Definition flag (b : bool) (s : string) : list string := if b then [s] else [].

Definition render_command (c : subcommand) : list string :=
  command_name c ::
  match c with
  | CmdSetup u k b => ["--new-user=" +:+ u; "--new-key=" +:+ k] ++ flag b "--keys-only"
  | CmdRestoreBootstrap u k b => ["--user=" +:+ u; "--pubkey-file=" +:+ k] ++ flag b "--leave-running"
  | CmdTemplate b => flag b "--export-only"
  | CmdDeploy b1 b2 => flag b1 "--export-only" ++ flag b2 "--skip-preflight"
  | CmdTeardown yes => flag yes "--yes"
  | CmdProvision | CmdConfigure | CmdPreflight | CmdStatus => []
  end.

(** An argument vector that asks for the command. *)
Definition render (verbose : bool) (args : Namespace) : list string :=
  ["--config=" +:+ str_path (config_file args); "--goservice-dir=" +:+ str_path (goservice_dir args)]
  ++ flag verbose "--verbose" ++ render_command (command args).

(** The same vector as options of the parsers. *)
Definition main_given (verbose : bool) (c g : string) : list given :=
  [GivenValue "--config" (store_path ["-c"; "--config"] "config" _DEFAULT_CONFIG) c;
   GivenValue "--goservice-dir" (store_path ["--goservice-dir"] "goservice_dir" _GOSERVICE_DIR) g]
  ++ if verbose then [GivenFlag "--verbose" (store_true ["-v"; "--verbose"] "verbose")] else [].

Definition given_flag (b : bool) (s d : string) : list given :=
  if b then [GivenFlag s (store_true [s] d)] else [].

Definition command_given (c : subcommand) : list given :=
  match c with
  | CmdSetup u k b =>
      [GivenValue "--new-user" (store "--new-user" "new_user" DEFAULT_ADMIN_USER) u;
       GivenValue "--new-key" (store "--new-key" "new_key" "~/.vmdeploy/keys/vm_key") k]
      ++ given_flag b "--keys-only" "keys_only"
  | CmdRestoreBootstrap u k b =>
      [GivenValue "--user" (store_required "--user" "user") u;
       GivenValue "--pubkey-file" (store_required "--pubkey-file" "pubkey_file") k]
      ++ given_flag b "--leave-running" "leave_running"
  | CmdTemplate b => given_flag b "--export-only" "export_only"
  | CmdDeploy b1 b2 =>
      given_flag b1 "--export-only" "export_only" ++ given_flag b2 "--skip-preflight" "skip_preflight"
  | CmdTeardown yes => given_flag yes "--yes" "yes"
  | CmdProvision | CmdConfigure | CmdPreflight | CmdStatus => []
  end.

#[local] Ltac given_tac :=
  repeat apply Forall_cons_2; try apply Forall_nil_2; (split_and!; [discriminate|reflexivity|reflexivity]).

Lemma main_given_ok verbose c g : Forall (given_ok "vmdeploy" main_options) (main_given verbose c g).
Proof. destruct verbose; given_tac. Qed.

Lemma parse_optional_unmatched prog_name opts s :
  option_tuples opts s = [] → ∃ c, parse_optional prog_name opts s = Parsed c.
Proof.
  intros Ht. unfold parse_optional, abbreviated. rewrite Ht. repeat case_match; eauto.
Qed.

#[local] Ltac unmatched_tac :=
  repeat apply Forall_cons_2; try apply Forall_nil_2; by apply parse_optional_unmatched.

Lemma command_given_ok cmd :
  ∃ opts, List.find (λ e, String.eqb (fst e) (command_name cmd)) subparsers = Some (command_name cmd, opts) ∧
    Forall (given_ok ("vmdeploy " +:+ command_name cmd) opts) (command_given cmd) ∧
    Forall (λ g, ∃ c, parse_optional "vmdeploy" main_options (given_string g) = Parsed c) (command_given cmd) ∧
    missing_options opts (foldl give (MkState (defaults opts) []) (command_given cmd)) = [].
Proof.
  destruct cmd as [u k []|u k []|[]| | | |[] []| |[]]; (eexists; split; [reflexivity|]);
    (split; [given_tac|]); (split; [unmatched_tac|reflexivity]).
Qed.

Lemma read_rendered verbose c g cmd :
  read_command_line (["--config=" +:+ c; "--goservice-dir=" +:+ g] ++ flag verbose "--verbose"
    ++ render_command cmd) = Some (verbose, MkNamespace (Path c) (Path g) cmd).
Proof.
  assert (["--config=" +:+ c; "--goservice-dir=" +:+ g] ++ flag verbose "--verbose" ++ render_command cmd =
    (given_string <$> main_given verbose c g) ++ command_name cmd :: (given_string <$> command_given cmd)) as ->.
  { by destruct verbose, cmd as [u k []|u k []|[]| | | |[] []| |[]]. }
  destruct (command_given_ok cmd) as (opts & Hf & Hgs & Hcs & Hm).
  unfold read_command_line.
  rewrite (parse_args_given build_parser _ _ opts);
    [|apply main_given_ok|by destruct cmd|by destruct cmd|exact Hf|exact Hgs|exact Hcs|exact Hm|];
    cbn [prog options sub_dest build_parser].
  - clear Hgs Hcs Hm. unfold main_given. cbn [app foldl give get_value store_path action].
    generalize (Path c) (Path g). intros pc pg.
    destruct cmd as [u k []|u k []|[]| | | |[] []| |[]]; injection Hf as <-; destruct verbose;
      by vm_compute.
  - destruct verbose; reflexivity.
Qed.

(** C7: every command can be asked for.  For every verbosity and every
    namespace with parsed paths, whatever its strings hold (spaces, leading
    dashes, an equals sign, nothing), the argument vector that spells each
    option out as [--option=value] is read back as exactly that. *)
Theorem command_line_round_trip verbose args :
  (∃ c, config_file args = Path c) → (∃ g, goservice_dir args = Path g) →
  read_command_line (render verbose args) = Some (verbose, args).
Proof.
  intros [c Hc] [g Hg]. unfold render. rewrite read_rendered, Hc, Hg, !path_str_path.
  by rewrite <- Hc, <- Hg; destruct args.
Qed.

Lemma command_line_round_trip_witness :
  let args := MkNamespace (Path "./conf dir//x.toml") (Path "/srv/-go") (CmdSetup "--yes" "a=b c" true) in
  render true args = ["--config=conf dir/x.toml"; "--goservice-dir=/srv/-go"; "--verbose"; "setup";
    "--new-user=--yes"; "--new-key=a=b c"; "--keys-only"] ∧
  read_command_line (render true args) = Some (true, args).
Proof.
  intros args. split; [by vm_compute|]. apply (command_line_round_trip true args); by eexists.
Defined.

(** C6: destruction is spelled out.  If the command read from the arguments
    is the confirmed [teardown], the vector has the word [teardown] and, after
    it, one of [--yes], [--ye] and [--y]: no other argument, no option value
    and no other abbreviation stands for the confirmation. *)
Theorem confirmation_is_typed argv verbose args :
  read_command_line argv = Some (verbose, args) → command args = CmdTeardown true →
  ∃ pre post s, argv = pre ++ "teardown" :: post ∧ s ∈ post ∧ s ∈ ["--yes"; "--ye"; "--y"].
Proof.
  unfold read_command_line. intros H Hcmd.
  destruct (parse_args build_parser argv) as [ns|] eqn:Hp; [|done].
  apply (parse_args_inv _ _ _ build_parser_wf) in Hp
    as (pre & name & post & opts & sub_m & -> & Hin & Hsub & Hty & Heq & Hc & _ & _).
  destruct (handler_attributes ns name opts sub_m Hin Hty Heq) as (reader & c & Hr & Hread & Hname).
  apply bind_Some in H as (v & _ & H). apply bind_Some in H as (name' & Hn' & H).
  assert (name' = name) as ->.
  { unfold attr_str in Hn'. cbn [sub_dest build_parser] in Hc. rewrite Hc in Hn'. by injection Hn'. }
  rewrite Hr in H. apply bind_Some in H as (? & [= <-] & H). apply bind_Some in H as (args' & Ha & [= -> ->]).
  unfold read_namespace in Ha. apply bind_Some in Ha as (? & _ & Ha). apply bind_Some in Ha as (? & _ & Ha).
  rewrite Hread in Ha. injection Ha as <-. cbn [command] in Hcmd. subst c. cbn [command_name] in Hname. subst name.
  assert ((λ ns, CmdTeardown <$> attr_bool ns "yes") = reader) as <- by (by injection Hr).
  apply fmap_Some in Hread as (b & Hb & [= <-]).
  assert (opts = help_option :: teardown_options) as ->.
  { unfold build_parser, subparsers in Hin. cbn [choices fmap list_fmap prod_map id] in Hin.
    repeat (apply elem_of_cons in Hin as [[=]|Hin]); [done|by apply elem_of_nil in Hin]. }
  set (o := store_true ["--yes"] "yes").
  assert (o ∈ stores (help_option :: teardown_options)) as Ho by member.
  unfold attr_bool in Hb. change "yes" with (dest o) in Hb. rewrite (Heq o Ho) in Hb.
  destruct (sub_m !! dest o) as [[| | |]|] eqn:Hl; simplify_eq/=.
  destruct (flag_was_given "vmdeploy teardown" (help_option :: teardown_options) post sub_m [] o)
    as (s & os & Hs & Hos & Hpre & Hlen); try done.
  - options_ok.
  - apply (bool_decide_unpack _). by vm_compute.
  - member.
  - by repeat constructor.
  - exists pre, post, s. split_and!; [done..|].
    apply list_elem_of_singleton in Hos as ->. apply prefix_split in Hpre as [r Hpre].
    destruct s as [|c1 [|c2 [|c3 [|c4 [|c5 [|]]]]]]; simpl in Hlen; try lia;
      rewrite ?str_app_cons in Hpre; simplify_eq; member.
Qed.

Lemma confirmation_is_typed_witness :
  let argv := ["-v"; "teardown"; "--ye"] in
  read_command_line argv = Some (true, MkNamespace _DEFAULT_CONFIG _GOSERVICE_DIR (CmdTeardown true)) ∧
  ∃ pre post s, argv = pre ++ "teardown" :: post ∧ s ∈ post ∧ s ∈ ["--yes"; "--ye"; "--y"].
Proof.
  intros argv.
  assert (read_command_line argv = Some (true, MkNamespace _DEFAULT_CONFIG _GOSERVICE_DIR (CmdTeardown true)))
    as H by (by vm_compute).
  split; [exact H|]. exact (confirmation_is_typed argv true _ H eq_refl).
Defined.

(** ** The entry point *)

(** What configuring the log does. *)
Definition logging_events (verbose : bool) : trace :=
  [Ev (LogBasicConfig (if verbose then DEBUG else INFO)) tt; Ev (LogSetLevel "paramiko" WARNING) tt].

(** The usage and an error, or the help. *)
Definition usage_event (status : Z) (ev : event) : Prop :=
  ∃ prog, status = 0%Z ∧ ev = Ev (PrintHelp prog) tt ∨
    ∃ msg, status = 2%Z ∧ ev = Ev (PrintUsageError prog msg) tt.

Lemma parser_exit_runs {A} st prog msg s t (o : outcome A) s' :
  st = 2%Z ∨ st = 0%Z → runs (parser_exit st prog msg) s t o s' →
  o = Raise (SystemExit st) ∧ s' = s ∧ ∃ ev, t = [ev] ∧ usage_event st ev.
Proof.
  intros Hst H. unfold parser_exit in H.
  unfold runs, bind, call, raise in H. destruct Hst as [-> | ->]; cbn in H;
    apply exec_inv in H as ([] & t' & -> & H); cbn in H; apply exec_inv in H as [-> [= -> ->]];
    (split_and!; [done..|]); (eexists; split; [done|]); exists prog; [right; by exists msg|by left].
Qed.

Lemma configure_logging_runs verbose s t o s' :
  runs (configure_logging verbose) s t o s' → o = Ok tt ∧ s' = s ∧ t = logging_events verbose.
Proof.
  intros H. unfold runs, configure_logging, bind, call in H. cbn in H.
  apply exec_inv in H as ([] & t1 & -> & H). cbn in H. apply exec_inv in H as ([] & t2 & -> & H).
  by apply exec_inv in H as [-> [= -> ->]].
Qed.

Section entry.
Context {tmp : TempDir} {parser : TomlParser} {aead : AEAD}.

(** [main] leaves with the usage or runs the command that was read. *)
Lemma main_runs argv s t o s' :
  runs (main argv) s t o s' →
  match read_command_line argv with
  | None => ∃ st ev, o = Raise (SystemExit st) ∧ (st = 0%Z ∨ st = 2%Z) ∧ t = [ev] ∧ usage_event st ev
  | Some (verbose, args) => ∃ t2, t = logging_events verbose ++ t2 ∧ runs (dispatch args) s t2 o s'
  end.
Proof.
  intros H. unfold main in H. unfold read_command_line.
  pose proof (parse_args_leaves build_parser argv) as Hl.
  destruct (parse_args build_parser argv) as [ns|st p msg] eqn:Hp.
  - destruct (namespace_attributes _ _ Hp) as (v & args & reader & _ & _ & Hv & Hc & Hr & Ha & _).
    rewrite Hv, Hc in H |- *. cbn [mbind option_bind]. rewrite Hr in H |- *. cbn [mbind option_bind].
    rewrite Ha in H |- *. cbn [mbind option_bind].
    apply runs_bind in H as [([] & s1 & t1 & t2 & -> & H1 & H)|[(e & _ & H)|[_ H]]];
      [|by apply configure_logging_runs in H as ([=] & _)..].
    apply configure_logging_runs in H1 as (_ & -> & ->). by exists t2.
  - apply parser_exit_runs in H as (-> & -> & ev & -> & Hev); [|by destruct Hl as [?|[? _]]; auto].
    exists st, ev. split_and!; [done| |done..]. destruct Hl as [->|[-> _]]; auto.
Qed.
End entry.
