(* ===== verification/CliFacts.v ===== *)
(** * The bounds of every subcommand

    Every subcommand ends, closes its sessions and changes only the machines
    it is for. *)

From S2P Require Import Prelude PyStr Exceptions Paths Effects Reasoning Values Bytes Seed.
From S2P Require Import Inventory Config VirtualBox VirtualBoxFacts SshClient SshFacts SshNesting.
From S2P Require Import Website Apache InventoryService InventoryServiceFacts Setup SetupFacts.
From S2P Require Import Provision ProvisionFacts ClusterFacts Float64 Preflight PreflightFacts Cli.

#[export] Set Default Goal Selector "!".

Section cli_facts.
Context {tmp : TempDir} {parser : TomlParser} {aead : AEAD}.
Context (config : ClusterConfig) (args : Namespace).

(** ** Machines *)

Lemma new_VBoxManage_confined x vms exe : confined x vms (new_VBoxManage exe).
Proof. unfold new_VBoxManage. confined_auto. Qed.
Lemma print_all_confined x vms lines : confined x vms (print_all lines).
Proof. unfold print_all, print. confined_auto. Qed.
Lemma ready_confined x vms addr timeout : confined x vms (wait_for_cluster_ready config addr timeout).
Proof. unfold wait_for_cluster_ready, wait_endpoint, poll_endpoint. confined_auto. Qed.

Hint Resolve new_VBoxManage_confined print_all_confined ready_confined : confined.

Lemma cmd_template_confined :
  confined true [template_vm (virtualbox config)] (cmd_template config args).
Proof.
  assert (template_vm (virtualbox config) ∈ [template_vm (virtualbox config)]) by apply list_elem_of_here.
  unfold cmd_template, export_golden_template. cbv zeta.
  pose proof build_confined. pose proof require_template_confined. pose proof power_off_confined.
  pose proof export_appliance_confined. confined_auto.
Qed.

Lemma cmd_provision_confined : confined false (vm_names config) (cmd_provision config args).
Proof.
  unfold cmd_provision, provision_cluster. pose proof provision_hosts_confined. confined_auto.
  apply provision_hosts_confined.
Qed.

Section hosts.
Context (x : bool) (vms : list string) (h : RemoteHost).

Lemma install_apache_confined' : confined x vms (install_apache h).
Proof. unfold install_apache. confined_auto. Qed.
Lemma enable_modules_confined ms : confined x vms (enable_modules h ms).
Proof. unfold enable_modules. confined_auto. Qed.
Lemma restart_apache_confined : confined x vms (restart_apache h).
Proof. unfold restart_apache. confined_auto. Qed.
Lemma listen_port_confined port : confined x vms (_ensure_listen_port h port).
Proof. unfold _ensure_listen_port. confined_auto. Qed.
Lemma load_or_create_key_confined p : confined x vms (load_or_create_key p).
Proof. unfold load_or_create_key, load_key, generate_key, write_key_file. confined_auto. Qed.
Lemma encrypt_records_confined rs key : confined x vms (encrypt_records rs key).
Proof. unfold encrypt_records. confined_auto. Qed.
Lemma write_manifest_confined rs : confined x vms (write_local_manifest config rs).
Proof.
  pose proof load_or_create_key_confined. pose proof encrypt_records_confined.
  unfold write_local_manifest. confined_auto.
Qed.

Hint Resolve install_apache_confined' enable_modules_confined restart_apache_confined
  listen_port_confined load_or_create_key_confined encrypt_records_confined write_manifest_confined
  source_hash_confined build_service_confined install_go_confined : confined.

Lemma backend_confined backend root : confined x vms (configure_backend h backend root).
Proof. unfold configure_backend. confined_auto. Qed.
Lemma publish_confined site n : confined x vms (publish_site h site n).
Proof.
  unfold publish_site, fetch_site_to_guest, stamp_backend_identity. cbv zeta. confined_auto.
Qed.
Lemma balancer_confined addrs : confined x vms (configure_balancer h config addrs).
Proof. unfold configure_balancer. confined_auto. Qed.
Lemma deploy_service_confined d : confined x vms (deploy_service h config d).
Proof.
  unfold deploy_service, sudo_all, ensure_service_binary, installed_source_hash. cbv zeta. confined_auto.
Qed.
Lemma seed_inventory_confined rs : confined x vms (seed_inventory h config rs).
Proof. unfold seed_inventory. cbv zeta. confined_auto. Qed.
Lemma build_records_confined addrs ipv6 : confined x vms (build_records config addrs ipv6).
Proof. unfold build_records. confined_auto. Qed.
Lemma enrich_confined addrs hosts found : confined x vms (enrich config addrs hosts found).
Proof.
  revert found. induction hosts as [|host hosts IH]; intros found; simpl; [apply emits_ret|].
  unfold probe_ipv6. confined_auto.
Qed.
End hosts.

Hint Resolve backend_confined publish_confined balancer_confined deploy_service_confined
  seed_inventory_confined build_records_confined : confined.

Lemma cmd_configure_confined : confined false [] (cmd_configure config args).
Proof.
  pose proof collect_confined. pose proof enrich_confined.
  unfold cmd_configure, cluster_addresses, configure_one_backend, getitem, configure_jump,
    enrich_with_ipv6, _print_endpoints. cbv zeta. confined_auto.
Qed.

Lemma cmd_status_confined : confined false [] (cmd_status config args).
Proof.
  pose proof collect_confined. pose proof vm_state_confined.
  unfold cmd_status, cluster_addresses, _print_endpoints.
  assert (∀ vbox addrs hosts b, confined false [] (status_loop vbox addrs hosts b)) as Hloop.
  { intros vbox addrs hosts. induction hosts as [|h hosts IH]; intros b; simpl; [apply emits_ret|].
    unfold print. confined_auto. }
  unfold print. confined_auto.
Qed.

Lemma print_report_confined x vms results : confined x vms (print_report results).
Proof. unfold print_report, print. confined_auto. Qed.

Lemma cmd_preflight_confined : confined false [] (cmd_preflight config args).
Proof.
  pose proof run_preflight_confined. pose proof print_report_confined. unfold cmd_preflight. confined_auto.
Qed.

Lemma refuses_confined : confined false [] (preflight_refuses config args).
Proof.
  pose proof run_preflight_confined. pose proof print_report_confined. unfold preflight_refuses.
  confined_auto.
Qed.

(** The machines of the deployment: the template and the guests. *)
Lemma cmd_deploy_confined :
  confined true (template_vm (virtualbox config) :: vm_names config) (cmd_deploy config args).
Proof.
  unfold cmd_deploy, run_steps, deploy_steps. apply emits_bind; [|intros [|]].
  - eapply confined_weaken; [|apply confined_allow, refuses_confined]. set_solver.
  - apply emits_ret.
  - apply emits_bind; [|intros ?].
    { eapply confined_weaken; [|apply cmd_template_confined]. set_solver. }
    destruct (negb _); [apply emits_ret|]. apply emits_bind; [|intros ?].
    { eapply confined_weaken; [|apply confined_allow, cmd_provision_confined]. set_solver. }
    destruct (negb _); [apply emits_ret|]. apply emits_bind; [|intros ?].
    { eapply confined_weaken; [|apply confined_allow, cmd_configure_confined]. set_solver. }
    destruct (negb _); apply emits_ret.
Qed.

(** ** Setup and teardown *)

Lemma path_expanduser_confined x vms p : confined x vms (path_expanduser p).
Proof. unfold path_expanduser, expanduser. confined_auto. Qed.

Lemma keypair_confined x vms p c : confined x vms (generate_ssh_keypair p c).
Proof.
  unfold generate_ssh_keypair, public_key_path, read_text_ascii, write_text_ascii, try_chmod,
    Setup.is_file.
  confined_auto.
Qed.
Lemma overlay_confined x vms p u k : confined x vms (write_local_overlay p u k).
Proof. unfold write_local_overlay, local_overlay_path, read_overlay, Setup.is_file. confined_auto. Qed.

Hint Resolve path_expanduser_confined keypair_confined overlay_confined load_or_create_key_confined
  : confined.

Section template_setup.
Let template := template_vm (virtualbox config).

Lemma reach_template_confined vbox : confined false [template] (reach_template vbox config).
Proof.
  assert (template ∈ [template]) by apply list_elem_of_here.
  pose proof start_headless_confined. pose proof wait_for_guest_ip_confined.
  pose proof wait_for_ssh_confined. unfold reach_template. cbv zeta. fold template. confined_auto.
Qed.

Lemma run_setup_confined base u k : confined false [template] (run_setup config base u k).
Proof.
  pose proof reach_template_confined. unfold run_setup. cbv zeta. fold template.
  unfold vm_exists, list_vms, create_admin_user, install_key, encode_ascii, verify_admin_access,
    disable_bootstrap_account. confined_auto.
Qed.

Lemma keys_only_confined base u k : confined false [template] (run_keys_only_setup config base u k).
Proof. unfold run_keys_only_setup. confined_auto. Qed.

Lemma restore_confined u k b : confined false [template] (restore_bootstrap config u k b).
Proof.
  assert (template ∈ [template]) by apply list_elem_of_here.
  pose proof reach_template_confined. pose proof power_off_confined.
  unfold restore_bootstrap. cbv zeta. fold template.
  unfold vm_exists, list_vms, enable_account, install_key, encode_ascii. confined_auto.
Qed.

Lemma cmd_setup_confined u k b : confined false [template] (cmd_setup u k b config args).
Proof. pose proof run_setup_confined. pose proof keys_only_confined. unfold cmd_setup. confined_auto. Qed.

Lemma cmd_restore_confined u k b : confined false [template] (cmd_restore_bootstrap u k b config args).
Proof. pose proof restore_confined. unfold cmd_restore_bootstrap, read_text_ascii. confined_auto. Qed.
End template_setup.

Lemma mark_removed_confined x vms : confined x vms (mark_manifest_removed config).
Proof.
  pose proof write_manifest_confined.
  unfold mark_manifest_removed, read_local_manifest, InventoryService.is_file, load_key. confined_auto.
Qed.

Lemma cmd_teardown_confined (yes : bool) :
  confined false (if yes then vm_names config else []) (cmd_teardown yes config args).
Proof.
  pose proof mark_removed_confined. unfold cmd_teardown, print. cbv zeta. destruct yes; cbn [negb]; [|confined_auto].
  apply emits_bind; [apply new_VBoxManage_confined|intros vbox].
  apply emits_bind; [apply teardown_confined|intros _]. confined_auto.
Qed.

(** The machines a subcommand is for. *)
Definition machines_of (c : subcommand) : list string :=
  match c with
  | CmdSetup _ _ _ | CmdRestoreBootstrap _ _ _ | CmdTemplate _ => [template_vm (virtualbox config)]
  | CmdProvision | CmdTeardown true => vm_names config
  | CmdDeploy _ _ => template_vm (virtualbox config) :: vm_names config
  | CmdConfigure | CmdPreflight | CmdStatus | CmdTeardown false => []
  end.

(** Whether it may write an appliance. *)
Definition exports_image (c : subcommand) : bool :=
  match c with CmdTemplate _ | CmdDeploy _ _ => true | _ => false end.

Lemma handler_confined c : confined (exports_image c) (machines_of c) (handler_of c config args).
Proof.
  destruct c as [u k b|u k b|b| | | |b1 b2| |[]]; cbn [handler_of machines_of exports_image].
  - apply cmd_setup_confined.
  - apply cmd_restore_confined.
  - apply cmd_template_confined.
  - apply cmd_provision_confined.
  - apply cmd_configure_confined.
  - apply cmd_preflight_confined.
  - apply cmd_deploy_confined.
  - apply cmd_status_confined.
  - apply cmd_teardown_confined.
  - apply (cmd_teardown_confined false).
Qed.

(** ** Endings *)

Lemma print_all_terminates lines : terminates (print_all lines).
Proof. unfold print_all, print. by terminates_auto. Qed.
Lemma new_vbox_balanced exe : balanced (new_VBoxManage exe).
Proof. apply new_VBoxManage_balanced. Qed.

Lemma cmd_template_terminates : terminates (cmd_template config args).
Proof.
  pose proof build_terminates. pose proof require_template_terminates.
  pose proof export_appliance_terminates.
  unfold cmd_template, export_golden_template. cbv zeta. by terminates_auto.
Qed.

Lemma cmd_provision_terminates : terminates (cmd_provision config args).
Proof.
  pose proof provision_hosts_terminates. unfold cmd_provision, provision_cluster. by terminates_auto.
Qed.

Lemma publish_terminates h site n : terminates (publish_site h site n).
Proof. unfold publish_site, fetch_site_to_guest, stamp_backend_identity. cbv zeta. by terminates_auto. Qed.

Lemma cmd_configure_terminates : terminates (cmd_configure config args).
Proof.
  pose proof collect_terminates. pose proof publish_terminates. pose proof print_all_terminates.
  pose proof configure_backend_terminates. pose proof configure_balancer_terminates.
  pose proof enrich_terminates.
  unfold cmd_configure, cluster_addresses, configure_one_backend, getitem, configure_jump,
    enrich_with_ipv6, _print_endpoints. cbv zeta. by terminates_auto.
Qed.

Lemma cmd_status_terminates : terminates (cmd_status config args).
Proof.
  pose proof collect_terminates. pose proof print_all_terminates.
  unfold cmd_status, cluster_addresses, _print_endpoints.
  assert (∀ vbox addrs hosts b, terminates (status_loop vbox addrs hosts b)) as Hloop.
  { intros vbox addrs hosts. induction hosts as [|h hosts IH]; intros b; simpl; [apply terminates_ret|].
    unfold print. by terminates_auto. }
  unfold print. by terminates_auto.
Qed.

Lemma print_report_terminates results : terminates (print_report results).
Proof. unfold print_report, print. by terminates_auto. Qed.

Lemma refuses_terminates : terminates (preflight_refuses config args).
Proof. pose proof print_report_terminates. unfold preflight_refuses. by terminates_auto. Qed.

Lemma cmd_deploy_terminates : terminates (cmd_deploy config args).
Proof.
  pose proof refuses_terminates. pose proof cmd_template_terminates. pose proof cmd_provision_terminates.
  pose proof cmd_configure_terminates. unfold cmd_deploy, deploy_steps, run_steps. by terminates_auto.
Qed.

Lemma path_expanduser_terminates p : terminates (path_expanduser p).
Proof. unfold path_expanduser, expanduser. by terminates_auto. Qed.

Lemma cmd_setup_terminates u k b : terminates (cmd_setup u k b config args).
Proof.
  pose proof path_expanduser_terminates. pose proof (run_setup_terminates config).
  unfold cmd_setup, run_keys_only_setup. by terminates_auto.
Qed.

Lemma cmd_restore_terminates u k b : terminates (cmd_restore_bootstrap u k b config args).
Proof.
  pose proof path_expanduser_terminates.
  unfold cmd_restore_bootstrap, read_text_ascii, restore_bootstrap. cbv zeta. by terminates_auto.
Qed.

Lemma cmd_teardown_terminates yes : terminates (cmd_teardown yes config args).
Proof. unfold cmd_teardown, print, teardown_cluster. cbv zeta. by terminates_auto. Qed.

Lemma handler_terminates c : terminates (handler_of c config args).
Proof.
  pose proof print_report_terminates.
  destruct c as [u k b|u k b|b| | | |b1 b2| |yes]; cbn [handler_of].
  - apply cmd_setup_terminates.
  - apply cmd_restore_terminates.
  - apply cmd_template_terminates.
  - apply cmd_provision_terminates.
  - apply cmd_configure_terminates.
  - unfold cmd_preflight. by terminates_auto.
  - apply cmd_deploy_terminates.
  - apply cmd_status_terminates.
  - apply cmd_teardown_terminates.
Qed.

(** ** Sessions *)

Lemma balanced_host_op {A} i (m : M A) : host_op i m → balanced m.
Proof.
  intros Hm s t o s' H _. destruct (Hm _ _ _ _ H) as [Ht _].
  by destruct (no_connection_opened _ Ht) as [-> ->].
Qed.

Lemma host_run_storeless h cmd check timeout s t o s' :
  runs (host_run h cmd check timeout) s t o s' → s' = s.
Proof.
  intros H. revert t o s' H.
  cut (wp (host_run h cmd check timeout) s (λ _ _ s', s' = s)); [done|]. by apply wp_host_run.
Qed.

(** The probe of another guest keeps the session around it. *)
Lemma probe_keeps i addr : keeps i (probe_ipv6 config addr).
Proof.
  assert (∀ h j, keeps j (result <- host_run h ipv6_command false None ;;
    ret (let text := py_strip (SshClient.stdout result) in
         if String.eqb text "" then None else Some text))) as Hbody.
  { intros h j. apply keeps_bind; [|intros ?; apply keeps_ret].
    apply keeps_storeless; [intros ? ? ? ?; apply host_run_storeless|].
    eapply balanced_host_op, host_run_op. }
  unfold probe_ipv6. apply keeps_catch; [|handler_cases; apply keeps_ret].
  apply with_host_keeps; [intros h; apply (Hbody h)|intros h _; apply (Hbody h)].
Qed.

Lemma enrich_keeps i addrs hosts found : keeps i (enrich config addrs hosts found).
Proof.
  revert found. induction hosts as [|host hosts IH]; intros found; simpl; [apply keeps_ret|].
  destruct (String.eqb _ ""); [apply IH|]. apply keeps_bind; [apply probe_keeps|intros r; apply IH].
Qed.

Lemma configure_jump_keeps addrs d h : keeps (sid h) (configure_jump config addrs d h).
Proof.
  unfold configure_jump, enrich_with_ipv6.
  apply keeps_bind; [apply keeps_host_op, configure_balancer_op|intros _].
  apply keeps_bind; [apply keeps_host_op, deploy_service_op|intros _].
  apply keeps_bind; [apply enrich_keeps|intros ipv6].
  apply keeps_bind; [apply keeps_host_op, build_records_op|intros rs].
  apply keeps_host_op, seed_inventory_op.
Qed.

Lemma ready_balanced addr timeout : balanced (wait_for_cluster_ready config addr timeout).
Proof. unfold wait_for_cluster_ready, wait_endpoint, poll_endpoint. by balanced_auto. Qed.
Lemma print_all_balanced lines : balanced (print_all lines).
Proof. unfold print_all, print. by balanced_auto. Qed.

Lemma publish_op h site n : host_op (sid h) (publish_site h site n).
Proof. unfold publish_site, fetch_site_to_guest, stamp_backend_identity. cbv zeta. by host_op_auto. Qed.

Lemma cmd_configure_settled : settled (cmd_configure config args).
Proof.
  unfold cmd_configure, cluster_addresses. cbv zeta.
  apply settled_bind; [apply settled_balanced, new_VBoxManage_balanced|intros vbox].
  apply settled_bind; [apply settled_balanced, collect_balanced|intros addrs].
  destruct (bool_decide _); [apply settled_raise|].
  apply settled_bind.
  { apply settled_for_each. intros b. apply settled_balanced. unfold configure_one_backend, getitem.
    pose proof configure_backend_op. pose proof publish_op. by balanced_auto; host_op_auto. }
  intros _. apply settled_bind; [apply settled_balanced; unfold getitem; by balanced_auto|intros a].
  apply settled_bind; [apply settled_with_host, configure_jump_keeps|intros _].
  apply settled_bind; [apply settled_balanced, ready_balanced|intros _].
  apply settled_bind; [apply settled_balanced, print_all_balanced|intros _]. apply settled_ret.
Qed.

Lemma cmd_template_balanced : balanced (cmd_template config args).
Proof.
  pose proof build_balanced. unfold cmd_template, export_golden_template, require_template,
    export_appliance. cbv zeta. by balanced_auto.
Qed.
Lemma cmd_provision_balanced : balanced (cmd_provision config args).
Proof. pose proof provision_hosts_balanced. unfold cmd_provision, provision_cluster. by balanced_auto. Qed.
Lemma refuses_balanced : balanced (preflight_refuses config args).
Proof. unfold preflight_refuses, print_report, print. by balanced_auto. Qed.

Lemma cmd_deploy_settled : settled (cmd_deploy config args).
Proof.
  unfold cmd_deploy, deploy_steps, run_steps.
  apply settled_bind; [apply settled_balanced, refuses_balanced|intros [|]; [apply settled_ret|]].
  apply settled_bind; [apply settled_balanced, cmd_template_balanced|intros c1].
  destruct (negb _); [apply settled_ret|].
  apply settled_bind; [apply settled_balanced, cmd_provision_balanced|intros c2].
  destruct (negb _); [apply settled_ret|].
  apply settled_bind; [apply cmd_configure_settled|intros c3]. destruct (negb _); apply settled_ret.
Qed.

Lemma cmd_status_balanced : balanced (cmd_status config args).
Proof.
  pose proof collect_balanced. pose proof print_all_balanced.
  assert (∀ vbox addrs hosts b, balanced (status_loop vbox addrs hosts b)) as Hloop.
  { intros vbox addrs hosts. induction hosts as [|h hosts IH]; intros b; simpl; [apply balanced_ret|].
    unfold print. by balanced_auto. }
  unfold cmd_status, cluster_addresses, _print_endpoints, print. by balanced_auto.
Qed.

Lemma path_expanduser_balanced p : balanced (path_expanduser p).
Proof. unfold path_expanduser, expanduser. by balanced_auto. Qed.

Lemma cmd_setup_balanced u k b : balanced (cmd_setup u k b config args).
Proof.
  pose proof path_expanduser_balanced. pose proof (run_setup_balanced config).
  unfold cmd_setup, run_keys_only_setup. by balanced_auto.
Qed.

Lemma cmd_restore_balanced u k b : balanced (cmd_restore_bootstrap u k b config args).
Proof.
  pose proof path_expanduser_balanced.
  unfold cmd_restore_bootstrap, read_text_ascii, restore_bootstrap. cbv zeta. by balanced_auto; host_op_auto.
Qed.

Lemma cmd_teardown_balanced (yes : bool) : balanced (cmd_teardown yes config args).
Proof.
  pose proof (balanced_host_op 0 _ (mark_manifest_removed_op 0 config)).
  unfold cmd_teardown, print, teardown_cluster. cbv zeta. by balanced_auto.
Qed.

Lemma handler_settled c : settled (handler_of c config args).
Proof.
  destruct c as [u k b|u k b|b| | | |b1 b2| |yes]; cbn [handler_of].
  - apply settled_balanced, cmd_setup_balanced.
  - apply settled_balanced, cmd_restore_balanced.
  - apply settled_balanced, cmd_template_balanced.
  - apply settled_balanced, cmd_provision_balanced.
  - apply cmd_configure_settled.
  - apply settled_balanced. unfold cmd_preflight, print_report, print. by balanced_auto.
  - apply cmd_deploy_settled.
  - apply settled_balanced, cmd_status_balanced.
  - apply settled_balanced, cmd_teardown_balanced.
Qed.
End cli_facts.
