(* ===== verification/Hypervisor.v ===== *)
(** * The operations against a hypervisor

    What the hypervisor is, as far as the package relies on it: a collection
    of registered machines, each running or not, that answers [VBoxManage]
    commands ([Hypervisor], with its laws in [HypervisorLaws]).  Machines may
    stop on their own at any time, and for a while after a machine stopped its
    session may hold a lock that keeps it from being deleted.  Against any such
    hypervisor the operations implement operations on the collection: powering
    off stops a machine, deleting removes it unless it is locked for longer
    than the attempts last, tearing down removes the cluster's machines and
    provisioning registers them. *)

From stdpp Require Import gmap.
From S2P Require Import Prelude PyStr Exceptions Paths Effects Reasoning Worlds Regex Bytes Seed.
From S2P Require Import Config VirtualBox VirtualBoxFacts SshClient SshFacts Apache Setup SetupFacts.
From S2P Require Import Provision ProvisionFacts ClusterFacts.

#[export] Set Default Goal Selector "!".

(** ** Collections of machines *)

(** The registered machines, each running or not. *)
Abbreviation park := (gmap string bool).

(** Some running machines have stopped in the meantime. *)
Definition may_stop (m m' : park) : Prop :=
  ∀ vm, m' !! vm = m !! vm ∨ m !! vm = Some true ∧ m' !! vm = Some false.

#[export] Instance may_stop_preorder : PreOrder may_stop.
Proof.
  split; [intros m vm; by left|].
  intros m1 m2 m3 H1 H2 vm. destruct (H1 vm) as [E1|[E1 E2]], (H2 vm) as [E3|[E3 E4]].
  - left. congruence.
  - right. split; congruence.
  - right. split; congruence.
  - congruence.
Qed.

Lemma may_stop_trans m1 m2 m3 : may_stop m1 m2 → may_stop m2 m3 → may_stop m1 m3.
Proof. apply transitivity. Qed.

#[export] Instance delete_may_stop vm : Proper (may_stop ==> may_stop) (delete vm : park → park).
Proof.
  intros m m' H n. destruct (decide (n = vm)) as [->|]; [rewrite !lookup_delete_eq; by left|].
  rewrite !lookup_delete_ne by done. apply H.
Qed.

#[export] Instance insert_may_stop vm b : Proper (may_stop ==> may_stop) (insert vm b : park → park).
Proof.
  intros m m' H n. destruct (decide (n = vm)) as [->|]; [rewrite !lookup_insert_eq; by left|].
  rewrite !lookup_insert_ne by done. apply H.
Qed.

(** A machine that does not run stays that way. *)
Lemma may_stop_off m m' vm : may_stop m m' → m !! vm ≠ Some true → m' !! vm ≠ Some true.
Proof. intros H Hm. destruct (H vm) as [->|[? _]]; [done|congruence]. Qed.

Lemma may_stop_dom m m' : may_stop m m' → dom m' = dom m.
Proof.
  intros H. apply set_eq. intros vm. rewrite !elem_of_dom.
  destruct (H vm) as [->|[-> ->]]; [done|]. split; eauto.
Qed.

(** The collection without these machines. *)
Definition without (vms : list string) (m : park) : park := filter (λ kv, kv.1 ∉ vms) m.

Lemma without_nil m : without [] m = m.
Proof. apply map_filter_id. intros vm b _. apply not_elem_of_nil. Qed.

Lemma without_cons vm vms m : without (vm :: vms) m = without vms (delete vm m).
Proof.
  apply map_eq. intros n. unfold without. rewrite !map_lookup_filter.
  destruct (decide (n = vm)) as [->|Hne].
  - rewrite lookup_delete_eq. simpl. destruct (m !! vm); [|done]. simpl.
    rewrite option_guard_False; [done|]. intros H. apply H. left.
  - rewrite lookup_delete_ne by done. destruct (m !! n); [|done]. simpl.
    apply option_guard_iff. simpl. rewrite elem_of_cons. tauto.
Qed.

Lemma dom_without vms m : dom (without vms m) = dom m ∖ list_to_set vms.
Proof.
  apply set_eq. intros vm. unfold without. rewrite elem_of_difference, elem_of_list_to_set, !elem_of_dom.
  split.
  - intros [b [Hb Hn]%map_lookup_filter_Some]. split; [by exists b|done].
  - intros [[b Hb] Hn]. exists b. by apply map_lookup_filter_Some.
Qed.

(** ** The interface *)

Class Hypervisor : Type := {
  hv_state : Type;
  hv_machines : hv_state → park;
  (** For how long the hypervisor still holds the lock of a machine that does
      not run, as its session closes, and a bound of that time. *)
  hv_lock : hv_state → string → Z;
  hv_settle : Z;
  (** The hypervisor answers the call, and is left in the second state.  The
      other calls of a run, to the network, the files and the clock, are seen
      by it too, as time passing. *)
  hv_answers : hv_state → event → hv_state → Prop }.

(** The commands that register, delete, start or stop a machine. *)
Definition power_verbs : list string := ["import"; "unregistervm"; "startvm"; "controlvm"].

Definition completes (r : proc_resp) : Prop := ∃ rc out err, r = Completed rc out err.

(** What the package relies on, for the executable of [vbox]. *)
Class HypervisorLaws (hv : Hypervisor) (vbox : VBoxManage) : Prop := {
  (** Nothing else changes the collection. *)
  hv_quiet w ev w' : hv_answers w ev w' → (∀ v, verb ev = Some v → v ∉ power_verbs) →
    may_stop (hv_machines w) (hv_machines w');
  (** [list vms] prints the registered machines. *)
  hv_list w timeout r w' :
    hv_answers w (Ev (vbox_call vbox ["list"; "vms"] timeout) r) w' →
    ∃ out err, r = Completed 0 out err ∧ ∀ vm, vm ∈ parse_vms out ↔ is_Some (hv_machines w !! vm);
  (** [showvminfo] prints whether a machine runs. *)
  hv_info w vm timeout r w' :
    hv_answers w (Ev (vbox_call vbox (showvminfo vm) timeout) r) w' →
    ∃ rc out err, r = Completed rc out err ∧
      ((if (rc =? 0)%Z then parse_state out else ABSENT) = RUNNING ↔ hv_machines w !! vm = Some true);
  (** A command to a machine's power may stop it; [poweroff] does. *)
  hv_control w vm cmd timeout r w' :
    hv_answers w (Ev (vbox_call vbox ["controlvm"; vm; cmd] timeout) r) w' →
    completes r ∧ may_stop (hv_machines w) (hv_machines w') ∧
    (cmd = "poweroff" → hv_machines w' !! vm ≠ Some true);
  (** The deletion of a machine that does not run removes it, or, while its
      lock is held, may leave everything as it is, whatever its status. *)
  hv_delete w vm timeout r w' :
    hv_answers w (Ev (vbox_call vbox (unregister vm) timeout) r) w' →
    hv_machines w !! vm ≠ Some true →
    completes r ∧
    (may_stop (delete vm (hv_machines w)) (hv_machines w') ∨
     (0 < hv_lock w vm)%Z ∧ may_stop (hv_machines w) (hv_machines w'));
  (** A lock is held for a bounded time, which passes. *)
  hv_bound w ev w' vm : hv_answers w ev w' → (hv_lock w vm ≤ hv_settle)%Z;
  hv_unlocks w ev w' vm : hv_answers w ev w' → hv_machines w !! vm ≠ Some true →
    (∀ v, verb ev = Some v → v ∈ ["list"; "unregistervm"]) → (hv_lock w' vm ≤ hv_lock w vm)%Z;
  hv_sleeps w d r w' vm : hv_answers w (Ev (Sleep d) r) w' → hv_machines w !! vm ≠ Some true →
    (hv_lock w' vm ≤ Z.max 0 (hv_lock w vm - d))%Z;
  (** A successful import registers a machine that is off. *)
  hv_import w p vm timeout out err w' :
    hv_answers w (Ev (vbox_call vbox ["import"; p; "--vsys"; "0"; "--vmname"; vm] timeout)
      (Completed 0 out err)) w' →
    may_stop (<[vm := false]> (hv_machines w)) (hv_machines w');
  (** A successful start runs a machine that is registered. *)
  hv_start w vm timeout out err w' :
    hv_answers w (Ev (vbox_call vbox ["startvm"; vm; "--type"; "headless"] timeout)
      (Completed 0 out err)) w' →
    is_Some (hv_machines w !! vm) ∧ may_stop (<[vm := true]> (hv_machines w)) (hv_machines w') }.

(** The hypervisor goes along with a run. *)
Abbreviation hv_path := (along hv_answers).

(** However a run fails. *)
Definition anyhow : exn → park → Prop := λ _ _, True.

(** ** A logic of the collection *)

Section logic.
Context {hv : Hypervisor}.

(** From a collection in [P], a run of [m] returns in [Q] or raises in [X];
    how it exhausts its fuel is left to [terminates]. *)
Definition hoare {A} (X : exn → park → Prop) (P : park → Prop) (m : M A) (Q : A → park → Prop) : Prop :=
  ∀ s t o s' w w', runs m s t o s' → hv_path w t w' → P (hv_machines w) →
    match o with Ok a => Q a (hv_machines w') | Raise e => X e (hv_machines w') | OutOfFuel => True end.

Section rules.
Context {A B : Type} (X : exn → park → Prop).
Implicit Types (P : park → Prop).

Lemma hoare_ret P (a : A) (Q : A → park → Prop) : (∀ m, P m → Q a m) → hoare X P (ret a) Q.
Proof.
  intros HQ s t o s' w w' H Hp HP. apply runs_ret in H as (-> & -> & ->).
  apply along_nil_inv in Hp as ->. by apply HQ.
Qed.

Lemma hoare_raise P e (Q : A → park → Prop) : (∀ m, P m → X e m) → hoare X P (raise e) Q.
Proof. intros HX s t o s' w w' H Hp HP. apply runs_raise in H as (-> & -> & ->). apply along_nil_inv in Hp as ->. by apply HX. Qed.

Lemma hoare_conseq P P' (m : M A) (Q Q' : A → park → Prop) :
  hoare X P' m Q' → (∀ p, P p → P' p) → (∀ a p, Q' a p → Q a p) → hoare X P m Q.
Proof.
  intros Hm HP HQ s t o s' w w' H Hp Hw. specialize (Hm _ _ _ _ _ _ H Hp (HP _ Hw)).
  destruct o; [by apply HQ|done|done].
Qed.

Lemma hoare_bind P (m : M A) (f : A → M B) R (Q : B → park → Prop) :
  hoare X P m R → (∀ a, hoare X (R a) (f a) Q) → hoare X P (bind m f) Q.
Proof.
  intros Hm Hf s t o s' w w' H Hp HP.
  apply runs_bind in H as [(a & s1 & t1 & t2 & -> & H1 & H)|[(e & -> & H)|[-> H]]]; [| |done].
  - apply along_app in Hp as (w1 & Hp1 & Hp2).
    exact (Hf a _ _ _ _ _ _ H Hp2 (Hm _ _ _ _ _ _ H1 Hp1 HP)).
  - exact (Hm _ _ _ _ _ _ H Hp HP).
Qed.

Lemma hoare_weaken (X' : exn → park → Prop) P (m : M A) (Q : A → park → Prop) :
  hoare X' P m Q → (∀ e p, X' e p → X e p) → hoare X P m Q.
Proof.
  intros Hm HX s t o s' w w' H Hp Hw. specialize (Hm _ _ _ _ _ _ H Hp Hw). destruct o; auto.
Qed.

(** The collection at the start, as the machines may have stopped since. *)
Lemma hoare_at P (m : M A) (Q : A → park → Prop) :
  (∀ p, P p → hoare X (may_stop p) m Q) → hoare X P m Q.
Proof. intros Hm s t o s' w w' H Hp HP. by apply (Hm _ HP _ _ _ _ _ _ H Hp). Qed.

(** A call whose answer is known. *)
Lemma hoare_call P e (Q : resp e → park → Prop) :
  (∀ w r w', hv_answers w (Ev e r) w' → P (hv_machines w) → Q r (hv_machines w')) → hoare X P (call e) Q.
Proof.
  intros HQ s t o s' w w' H Hp HP. apply runs_call in H as (r & -> & -> & ->).
  apply along_one in Hp. by eapply HQ.
Qed.

(** One command of the hypervisor. *)
Lemma hoare_vbox_run P vbox args check timeout (Q : ProcessResult → park → Prop) :
  (∀ w r w', hv_answers w (Ev (vbox_call vbox args timeout) r) w' → P (hv_machines w) →
    match run_outcome args check timeout r with
    | Ok a => Q a (hv_machines w') | Raise e => X e (hv_machines w') | OutOfFuel => True end) →
  hoare X P (vbox_run vbox args check timeout) Q.
Proof.
  intros HQ s t o s' w w' H. revert t o s' H.
  cut (wp (vbox_run vbox args check timeout) s (λ t o s', hv_path w t w' → P (hv_machines w) →
    match o with Ok a => Q a (hv_machines w') | Raise e => X e (hv_machines w') | OutOfFuel => True end)); [done|].
  apply wp_vbox_run. intros r Hp HP. apply along_one in Hp. by apply (HQ w).
Qed.

End rules.

Section loops.
Context {A : Type} (X : exn → park → Prop).

(** A loop on the clock keeps its invariant until its body leaves. *)
Lemma hoare_while_before (I : park → Prop) fuel deadline (body : M (option A)) (Q : A → park → Prop) :
  hoare X I (call Monotonic) (λ _, I) →
  hoare X I body (λ r p, match r with Some a => Q a p | None => I p end) →
  hoare X I (while_before fuel deadline body)
    (λ r p, match r with Some a => Q a p | None => I p end).
Proof.
  intros Hc Hb. induction fuel as [|fuel IH]; simpl.
  { by intros s t o s' w w' (-> & -> & ->)%runs_out_of_fuel. }
  eapply hoare_bind; [exact Hc|]. intros now. simpl. destruct (_ <? _)%Z; [|by apply hoare_ret].
  eapply hoare_bind; [exact Hb|]. intros [a|]; simpl; [by apply hoare_ret|exact IH].
Qed.

Lemma hoare_for_each {C} (l : list C) (f : C → M unit) (P : list C → park → Prop) :
  (∀ x l', hoare X (P (x :: l')) (f x) (λ _, P l')) → hoare X (P l) (for_each l f) (λ _, P []).
Proof.
  intros Hf. induction l as [|x l IH]; simpl; [by apply hoare_ret|].
  eapply hoare_bind; [apply Hf|intros ?; exact IH].
Qed.
End loops.
End logic.

(** ** The operations *)

Section operations.
Context {hv : Hypervisor} {vbox : VBoxManage} {laws : HypervisorLaws hv vbox}.

(** A program without such a command changes nothing. *)
Lemma path_quiet w t w' :
  Forall (λ ev, ∀ v, verb ev = Some v → v ∉ power_verbs) t → hv_path w t w' →
  may_stop (hv_machines w) (hv_machines w').
Proof.
  intros Ht Hp. induction Hp as [|w ev w1 t w2 Ha Hp IH]; [done|].
  apply Forall_cons in Ht as [Hev Ht]. eapply may_stop_trans; [by eapply hv_quiet|by apply IH].
Qed.

Lemma hoare_quiet {A} (D : gset string) (m : M A) vs :
  speaks vs m → Forall (λ v, v ∉ power_verbs) vs →
  hoare anyhow (λ p, dom p = D) m (λ _ p, dom p = D).
Proof.
  intros Hm Hd s t o s' w w' H Hp Hw. destruct (Hm _ _ _ _ H) as [Ht _].
  destruct o; [|done..]. rewrite <- Hw. eapply may_stop_dom, path_quiet; [|exact Hp].
  eapply Forall_impl; [exact Ht|]. intros ev Hev v Hv. rewrite Forall_forall in Hd. by apply Hd, Hev.
Qed.

Lemma silent_call X m0 e :
  (∀ r, verb (Ev e r) = None) → hoare X (may_stop m0) (call e) (λ _, may_stop m0).
Proof.
  intros Hv. apply hoare_call. intros w r w' Ha Hw. eapply may_stop_trans; [exact Hw|].
  eapply hv_quiet; [exact Ha|]. intros v. by rewrite Hv.
Qed.

(** The state that is reported and the machine as it is by then. *)
Definition reported m0 vm (st : VMState) (p : park) : Prop :=
  may_stop m0 p ∧ (st ≠ RUNNING → p !! vm ≠ Some true) ∧ (m0 !! vm ≠ Some true → st ≠ RUNNING).

Lemma vm_state_hoare X m0 vm : hoare X (may_stop m0) (vm_state vbox vm) (reported m0 vm).
Proof.
  unfold vm_state. eapply (hoare_bind _ _ _ _ (λ r, reported m0 vm
    (if result_ok r then parse_state (VirtualBox.stdout r) else ABSENT))); [|intros r; by apply hoare_ret].
  apply hoare_vbox_run. intros w r w' Ha Hw.
  assert (may_stop (hv_machines w) (hv_machines w')) as Hq.
  { eapply hv_quiet; [exact Ha|]. intros v [= <-]. apply (bool_decide_unpack _). by vm_compute. }
  apply hv_info in Ha as (rc & out & err & -> & Hst). cbn [run_outcome andb]. split_and!.
  - by eapply may_stop_trans.
  - intros Hne. eapply may_stop_off; [exact Hq|]. intros Hon. by apply Hne, Hst.
  - intros Hoff Hr. by apply (may_stop_off _ _ _ Hw Hoff), Hst.
Qed.

Lemma vm_exists_hoare X m0 vm :
  hoare X (may_stop m0) (vm_exists vbox vm) (λ b p, may_stop m0 p ∧ (b = true ↔ is_Some (m0 !! vm))).
Proof.
  unfold vm_exists, list_vms.
  eapply (hoare_bind _ _ _ _ (λ vms p, may_stop m0 p ∧ (vm ∈ vms ↔ is_Some (m0 !! vm)))).
  - eapply (hoare_bind _ _ _ _ (λ r p, may_stop m0 p ∧ (vm ∈ parse_vms (VirtualBox.stdout r) ↔ is_Some (m0 !! vm))));
      [|intros r; by apply hoare_ret].
    apply hoare_vbox_run. intros w r w' Ha Hw.
    assert (may_stop (hv_machines w) (hv_machines w')) as Hq.
    { eapply hv_quiet; [exact Ha|]. intros v [= <-]. apply (bool_decide_unpack _). by vm_compute. }
    apply hv_list in Ha as (out & err & -> & Hin). split; [by eapply may_stop_trans|].
    simpl. rewrite Hin, <- !elem_of_dom. by rewrite (may_stop_dom _ _ Hw).
  - intros vms. apply hoare_ret. intros p [Hp Hin]. split; [done|]. by rewrite bool_decide_eq_true.
Qed.

Lemma control_hoare X m0 vm cmd timeout :
  hoare X (may_stop m0) (vbox_run vbox ["controlvm"; vm; cmd] false timeout)
    (λ _ p, may_stop m0 p ∧ (cmd = "poweroff" → p !! vm ≠ Some true)).
Proof.
  apply hoare_vbox_run. intros w r w' Ha Hw.
  apply hv_control in Ha as ((rc & out & err & ->) & Hst & Hoff). cbn [run_outcome andb].
  split; [by eapply may_stop_trans|done].
Qed.

(** Powering off stops the machine and does not raise. *)
Lemma power_off_hoare X m0 vm wait :
  hoare X (may_stop m0) (power_off vbox vm wait) (λ _ p, may_stop m0 p ∧ p !! vm ≠ Some true).
Proof.
  unfold power_off. eapply hoare_bind; [apply vm_state_hoare|]. intros st. unfold is_running.
  case_bool_decide as Hst; cbn [negb]; [|apply hoare_ret; intros p (Hp & Hn & _); split; [done|by apply Hn]].
  eapply hoare_bind; [eapply hoare_conseq; [apply control_hoare|by intros p []|done]|intros ?].
  eapply (hoare_bind _ _ _ _ (λ _ p, may_stop m0 p));
    [eapply hoare_conseq; [by apply (silent_call X m0 Monotonic)|by intros p []|done]|intros now].
  eapply (hoare_bind _ _ _ _ (λ r p, match r with
    | Some _ => may_stop m0 p ∧ p !! vm ≠ Some true | None => may_stop m0 p end)).
  { apply hoare_while_before; [by apply (silent_call X m0 Monotonic)|].
    eapply hoare_bind; [apply vm_state_hoare|]. intros st1. case_bool_decide as Hst1; cbn [negb].
    - eapply hoare_bind; [eapply hoare_conseq;
        [by apply (silent_call X m0 (Sleep _POLL_INTERVAL_SECONDS))|by intros p []|done]|intros ?; by apply hoare_ret].
    - apply hoare_ret. intros p (Hp & Hn & _). split; [done|by apply Hn]. }
  intros [u|]; [by apply hoare_ret|].
  eapply hoare_bind; [apply control_hoare|]. intros ?.
  eapply (hoare_bind _ _ _ _ (λ _ p, may_stop m0 p ∧ p !! vm ≠ Some true)).
  { refine (hoare_call _ _ (Sleep _) _ _). intros w r w' Ha [Hp Hn].
    assert (may_stop (hv_machines w) (hv_machines w')) as Hq by (by eapply hv_quiet).
    split; [by eapply may_stop_trans|]. eapply may_stop_off; [exact Hq|by apply Hn]. }
  intros ?. apply hoare_at. intros p [Hp Hoff]. eapply hoare_bind; [apply vm_state_hoare|].
  intros st1. case_bool_decide as Hst1.
  - apply hoare_raise. intros q (_ & _ & Hq). by destruct (Hq Hoff).
  - apply hoare_ret. intros q (Hq & Hn & _). split; [by eapply may_stop_trans|by apply Hn].
Qed.

(** The lock of a machine that is off is not held longer by a listing. *)
Lemma vm_exists_lock vm vm' s t o s' w w' :
  runs (vm_exists vbox vm') s t o s' → hv_path w t w' → hv_machines w !! vm ≠ Some true →
  (hv_lock w' vm ≤ hv_lock w vm)%Z.
Proof.
  intros H Hp Hoff.
  assert (speaks ["list"] (vm_exists vbox vm')) as Hm.
  { unfold vm_exists, list_vms. by speaks_auto. }
  destruct (Hm _ _ _ _ H) as [Ht _].
  cut (hv_machines w' !! vm ≠ Some true ∧ (hv_lock w' vm ≤ hv_lock w vm)%Z); [by intros []|].
  refine (along_keeps hv_answers (λ w1, hv_machines w1 !! vm ≠ Some true ∧ (hv_lock w1 vm ≤ hv_lock w vm)%Z)
    _ _ _ _ _ Ht Hp _); [|by split].
  intros w1 ev w2 Hev Ha [Ho Hl]. split.
  - eapply may_stop_off; [|exact Ho]. eapply hv_quiet; [exact Ha|]. intros v Hv.
    specialize (Hev _ Hv). apply list_elem_of_singleton in Hev as ->. apply (bool_decide_unpack _). by vm_compute.
  - etrans; [|exact Hl]. eapply hv_unlocks; [exact Ha|done|]. intros v Hv.
    specialize (Hev _ Hv). apply list_elem_of_singleton in Hev as ->. left.
Qed.

Lemma runs_vbox_run args check timeout s t o s' :
  runs (vbox_run vbox args check timeout) s t o s' →
  ∃ r, t = [Ev (vbox_call vbox args timeout) r] ∧ o = run_outcome args check timeout r.
Proof.
  intros H. revert t o s' H.
  cut (wp (vbox_run vbox args check timeout) s (λ t o _,
    ∃ r, t = [Ev (vbox_call vbox args timeout) r] ∧ o = run_outcome args check timeout r)); [done|].
  apply wp_vbox_run. eauto.
Qed.

(** A listing after a deletion was tried: whether the machine is still
    registered, and how long it is locked from now on. *)
Lemma seen_after m0 vm s t o s' w w' :
  runs (vm_exists vbox vm) s t o s' → hv_path w t w' → may_stop m0 (hv_machines w) → m0 !! vm ≠ Some true →
  may_stop m0 (hv_machines w') ∧ (hv_lock w' vm ≤ hv_lock w vm)%Z ∧
  match o with Ok b => b = true ↔ is_Some (m0 !! vm) | Raise _ => False | OutOfFuel => True end.
Proof.
  intros H Hp Hm Hoff.
  pose proof (vm_exists_hoare (λ _ _, False) m0 vm _ _ _ _ _ _ H Hp Hm) as Ho.
  assert (may_stop m0 (hv_machines w')) as Hm'.
  { assert (speaks ["list"] (vm_exists vbox vm)) as Hs by (unfold vm_exists, list_vms; by speaks_auto).
    destruct (Hs _ _ _ _ H) as [Ht _]. eapply may_stop_trans; [exact Hm|]. eapply path_quiet; [|exact Hp].
    eapply Forall_impl; [exact Ht|]. intros ev Hev v Hv. specialize (Hev _ Hv).
    apply list_elem_of_singleton in Hev as ->. apply (bool_decide_unpack _). by vm_compute. }
  split; [exact Hm'|]. split.
  - eapply vm_exists_lock; [exact H|exact Hp|]. by eapply may_stop_off.
  - destruct o; [by destruct Ho|done..].
Qed.

(** One attempt after another removes the machine, or it is still registered
    and was locked longer than they took. *)
Lemma delete_attempts_spec vm tries last s t o s' w w' :
  runs (delete_attempts vbox vm tries last) s t o s' → hv_path w t w' → hv_machines w !! vm ≠ Some true →
  match o with
  | Ok None => may_stop (delete vm (hv_machines w)) (hv_machines w')
  | Ok (Some _) => may_stop (hv_machines w) (hv_machines w') ∧
      (0 < tries → is_Some (hv_machines w' !! vm) ∧
         ((Z.of_nat tries - 1) * _POLL_INTERVAL_SECONDS < hv_lock w vm ≤ hv_settle)%Z)
  | Raise _ => False
  | OutOfFuel => True
  end.
Proof.
  revert last s t o s' w. induction tries as [|tries IH]; intros last s t o s' w H Hp Hoff; cbn [delete_attempts] in H.
  { apply runs_ret in H as (-> & -> & ->). apply along_nil_inv in Hp as ->. split; [done|lia]. }
  apply runs_bind in H as [(r & s1 & t1 & t2 & -> & H1 & H)|[(e & -> & H)|[-> H]]]; [|apply runs_vbox_run in H as (r & -> & Ho)..|].
  2: { apply along_one in Hp. destruct (hv_delete _ _ _ _ _ Hp Hoff) as ((rc & out & err & ->) & _). done. }
  2: { done. }
  apply runs_vbox_run in H1 as (r1 & -> & Hr). apply along_app in Hp as (w1 & Ha%along_one & Hp).
  assert (hv_lock w1 vm ≤ hv_lock w vm)%Z as Hl1.
  { eapply hv_unlocks; [exact Ha|done|]. intros v [= <-]. apply list_elem_of_further, list_elem_of_here. }
  destruct (hv_delete _ _ _ _ _ Ha Hoff) as (_ & Hgone). pose proof (hv_bound _ _ _ vm Ha) as Hbound.
  clear Hr r1 Ha.
  set (m1 := hv_machines w).
  assert (∃ m0, may_stop m0 (hv_machines w1) ∧ m0 !! vm ≠ Some true ∧
    (m0 = delete vm m1 ∨ m0 = m1 ∧ (0 < hv_lock w vm)%Z)) as (m0 & Hm0 & Hoff0 & Hcase).
  { destruct Hgone as [Hg|[Hk Hg]]; [exists (delete vm m1)|exists m1]; split_and!; auto.
    by rewrite lookup_delete_eq. }
  apply runs_bind in H as [(b & s2 & t3 & t4 & -> & H3 & H)|[(e & -> & H)|[-> H]]]; [| |done].
  2: { by destruct (seen_after _ _ _ _ _ _ _ _ H Hp Hm0 Hoff0) as (_ & _ & []). }
  apply along_app in Hp as (w2 & Hp2 & Hp).
  destruct (seen_after _ _ _ _ _ _ _ _ H3 Hp2 Hm0 Hoff0) as (Hm2 & Hl2 & Hb).
  destruct b; cbn [negb] in H.
  - destruct Hcase as [->|[-> Hk]].
    { destruct (proj1 Hb eq_refl) as [? Hx]. by rewrite lookup_delete_eq in Hx. }
    apply runs_bind in H as [(u & s3 & t5 & t6 & -> & H5 & H)|[(e & -> & H)|[-> H]]];
      [|by run_inv1 H..].
    apply runs_call in H5 as (u' & -> & _ & ->). apply along_app in Hp as (w3 & Ha%along_one & Hp).
    assert (hv_machines w2 !! vm ≠ Some true) as Hoff2 by (by eapply may_stop_off).
    assert (may_stop m1 (hv_machines w3)) as Hm3.
    { eapply may_stop_trans; [exact Hm2|]. by eapply hv_quiet. }
    pose proof (hv_sleeps _ _ _ _ vm Ha Hoff2) as Hl3.
    specialize (IH _ _ _ _ _ _ H Hp (may_stop_off _ _ _ Hm3 Hoff)).
    destruct o as [[last'|]|e|]; [| |done|done].
    + destruct IH as [Hm4 Hn]. split; [by eapply may_stop_trans|]. intros _.
      assert (_POLL_INTERVAL_SECONDS = 5000000000%Z) as Hi by done.
      destruct tries as [|tries].
      * split; [|lia]. apply elem_of_dom. rewrite (may_stop_dom m1) by by eapply may_stop_trans.
        apply elem_of_dom. by apply Hb.
      * destruct (Hn ltac:(lia)) as [Hs Hlt]. split; [done|]. lia.
    + eapply may_stop_trans; [by apply delete_may_stop|exact IH].
  - apply runs_ret in H as (-> & -> & ->). apply along_nil_inv in Hp as ->.
    destruct Hcase as [->|[-> _]]; [done|].
    rewrite delete_id; [done|]. apply eq_None_not_Some. intros Hs. by apply Hb in Hs.
Qed.

(** What deleting raises: only for a machine that is still registered, and was
    locked for longer than the attempts took. *)
Definition still_registered (vm : string) (attempts : nat) (e : exn) (p : park) : Prop :=
  class_of e = CVirtualBoxError ∧ is_Some (p !! vm) ∧
  ((Z.of_nat attempts - 1) * _POLL_INTERVAL_SECONDS < hv_settle)%Z.

(** Deleting removes the machine, or leaves the collection as it is. *)
Lemma destroy_hoare m0 vm attempts :
  0 < attempts →
  hoare (λ e p, may_stop m0 p ∧ still_registered vm attempts e p) (may_stop m0)
    (destroy vbox vm attempts) (λ _, may_stop (delete vm m0)).
Proof.
  intros Ht. unfold destroy. eapply hoare_bind; [apply vm_exists_hoare|]. intros b.
  destruct b; cbn [negb].
  - eapply hoare_bind; [eapply hoare_conseq; [apply power_off_hoare|by intros p []|done]|]. intros u.
    set (Q (r : option string) p := match r with
      | None => may_stop (delete vm m0) p
      | Some _ => may_stop m0 p ∧ is_Some (p !! vm) ∧
          ((Z.of_nat attempts - 1) * _POLL_INTERVAL_SECONDS < hv_settle)%Z end).
    eapply (hoare_bind _ _ _ _ Q).
    + intros s t o s' w w' H Hp [Hm Hoff].
      pose proof (delete_attempts_spec _ _ _ _ _ _ _ _ _ H Hp Hoff) as Hd.
      destruct o as [[last|]|e|]; [| |done|done].
      * destruct Hd as [Hm' Hd]. destruct (Hd Ht) as [Hs ?]. split_and!; [by eapply may_stop_trans|done|lia].
      * eapply may_stop_trans; [by apply delete_may_stop|exact Hd].
    + intros [last|]; [|by apply hoare_ret]. apply hoare_raise. intros p (Hm & Hs & Hl). by split.
  - apply hoare_at. intros p [Hp Hb]. apply hoare_ret. intros q Hq.
    rewrite delete_id; [by eapply may_stop_trans|].
    apply eq_None_not_Some. intros Hs. by apply Hb in Hs.
Qed.

(** What tearing down raises, and what it has done by then. *)
Definition left_behind (vms : list string) (m0 : park) (e : exn) (p : park) : Prop :=
  ∃ gone vm rest, vms = gone ++ vm :: rest ∧ may_stop (without gone m0) p ∧ still_registered vm 3 e p.

(** Tearing down removes the machines of the cluster. *)
Lemma teardown_hoare m0 config :
  hoare (left_behind (vm_names config) m0) (may_stop m0) (teardown_cluster vbox config)
    (λ _, may_stop (without (vm_names config) m0)).
Proof.
  unfold teardown_cluster, vm_names. generalize (all_hosts config) as hosts. intros hosts.
  revert m0. induction hosts as [|h hosts IH]; intros m0; simpl.
  { apply hoare_ret. intros p Hp. by rewrite without_nil. }
  rewrite without_cons. eapply hoare_bind.
  - eapply hoare_weaken; [by apply destroy_hoare; lia|]. intros e p [Hp He].
    exists [], (vm_name h), (vm_name <$> hosts). by rewrite without_nil.
  - intros u. eapply hoare_weaken; [apply IH|]. intros e p (gone & vm & rest & Hl & Hp & He).
    exists (vm_name h :: gone), vm, rest. rewrite without_cons. split_and!; [by rewrite <- app_comm_cons, <- Hl|done..].
Qed.

Lemma teardown_terminates config : terminates (teardown_cluster vbox config).
Proof. unfold teardown_cluster. by terminates_auto. Qed.

(** ** Provisioning *)

Lemma import_hoare m0 vm source :
  hoare anyhow (may_stop m0) (import_appliance vbox source vm) (λ _, may_stop (<[vm := false]> m0)).
Proof.
  unfold import_appliance. eapply hoare_bind; [by apply (silent_call anyhow m0 (IsFile source))|].
  intros present. simpl. destruct (negb present); [by apply hoare_raise|].
  eapply (hoare_bind _ _ _ _ (λ _, may_stop (<[vm := false]> m0))); [|intros r; by apply hoare_ret].
  apply hoare_vbox_run. intros w r w' Ha Hw. destruct r as [rc out err| |]; cbn [run_outcome]; [|done..].
  destruct (Z.eqb_spec rc 0) as [->|]; cbn [negb andb]; [|done].
  eapply may_stop_trans; [by apply insert_may_stop|by eapply hv_import].
Qed.

(** Starting leaves the machines that are registered as they are. *)
Lemma start_hoare m0 vm d :
  dom m0 = d → hoare anyhow (may_stop m0) (start_headless vbox vm) (λ _ p, dom p = d).
Proof.
  intros <-. unfold start_headless. eapply hoare_bind; [apply vm_state_hoare|]. intros st.
  destruct (is_running st); [apply hoare_ret; intros p [Hp _]; by apply may_stop_dom|].
  eapply (hoare_bind _ _ _ _ (λ _ p, dom p = dom m0)); [|intros r; by apply hoare_ret].
  apply hoare_vbox_run. intros w r w' Ha [Hw _]. destruct r as [rc out err| |]; cbn [run_outcome]; [|done..].
  destruct (Z.eqb_spec rc 0) as [->|]; cbn [negb andb]; [|done].
  apply hv_start in Ha as [Hs Hm]. rewrite (may_stop_dom _ _ Hm), dom_insert_lookup_L by done.
  by apply may_stop_dom.
Qed.

(** The set of registered machines, instead of a collection. *)
Lemma hoare_dom {A} (m : M A) (D : gset string) (Q : A → park → Prop) :
  (∀ p, dom p = D → hoare anyhow (may_stop p) m Q) → hoare anyhow (λ p, dom p = D) m Q.
Proof. apply hoare_at. Qed.

(** A guest that is provisioned is registered, and no other is. *)
Lemma provision_host_hoare D config host :
  hoare anyhow (λ p, dom p = D) (provision_host vbox config host) (λ _ p, dom p = {[vm_name host]} ∪ D).
Proof.
  assert (∀ {A} (m : M A) D' vs, speaks vs m → bool_decide (Forall (λ v, v ∉ power_verbs) vs) = true →
    hoare anyhow (λ p, dom p = D') m (λ _ p, dom p = D')) as Hquiet.
  { intros A m D' vs Hm Hd%bool_decide_eq_true. by eapply hoare_quiet. }
  unfold provision_host. cbv zeta.
  eapply hoare_bind; [by eapply Hquiet; [apply bridge_speaks|vm_compute]|intros bridge]. cbv beta.
  eapply (hoare_bind _ _ _ _ (λ _ p, dom p = D ∖ {[vm_name host]})).
  { apply hoare_dom. intros p Hp. eapply hoare_conseq; [eapply hoare_weaken; [apply destroy_hoare; lia|done]|done|].
    intros u q Hq. by rewrite (may_stop_dom _ _ Hq), dom_delete_L, Hp. }
  intros ?. eapply (hoare_bind _ _ _ _ (λ _ p, dom p = {[vm_name host]} ∪ D)).
  { apply hoare_dom. intros p Hp. eapply hoare_conseq; [apply import_hoare|done|].
    intros u q Hq. rewrite (may_stop_dom _ _ Hq), dom_insert_L, Hp. apply set_eq. intros n.
    destruct (decide (n = vm_name host)); set_solver. }
  intros ?. eapply hoare_bind; [by eapply Hquiet; [apply configure_speaks|vm_compute]|intros ?]. cbv beta.
  eapply hoare_bind; [|intros ?].
  { destruct (negb _); cbn [when]; [by eapply Hquiet; [apply set_bridge_speaks|vm_compute]|].
    eapply (Hquiet _ (ret tt) _ []); [apply emits_ret|by vm_compute]. }
  cbv beta. eapply hoare_bind; [by eapply Hquiet; [apply deployer_key_speaks|vm_compute]|intros key]. cbv beta.
  eapply hoare_bind; [by eapply Hquiet; [apply build_seed_speaks|vm_compute]|intros ?]. cbv beta.
  eapply hoare_bind; [by eapply Hquiet; [apply attach_speaks|vm_compute]|intros ?]. cbv beta.
  eapply (hoare_bind _ _ _ _ (λ _ p, dom p = {[vm_name host]} ∪ D)).
  { apply hoare_dom. intros p Hp. by apply start_hoare. }
  intros ?. eapply hoare_bind; [by eapply Hquiet; [apply guest_ip_speaks|vm_compute]|intros addr]. cbv beta.
  eapply hoare_bind; [by eapply Hquiet; [apply wait_ssh_speaks|vm_compute]|intros ?]. cbv beta.
  eapply hoare_bind; [by eapply Hquiet; [apply identity_speaks|vm_compute]|intros ?]. cbv beta.
  by apply hoare_ret.
Qed.

Lemma provision_cluster_hoare D config :
  hoare anyhow (λ p, dom p = D) (provision_cluster vbox config)
    (λ _ p, dom p = list_to_set (vm_names config) ∪ D).
Proof.
  unfold provision_cluster, vm_names. generalize (all_hosts config) as hosts. generalize (@nil (string * string)) as found.
  intros found hosts. revert D found. induction hosts as [|h hosts IH]; intros D found; simpl.
  { apply hoare_ret. intros p ->. set_solver. }
  eapply hoare_bind; [apply provision_host_hoare|]. intros addr.
  eapply hoare_conseq; [apply (IH ({[vm_name h]} ∪ D))|done|]. intros r p ->. set_solver.
Qed.
End operations.

(** ** A hypervisor that satisfies the laws *)

(** A name a listing can show. *)
Definition printable_name (n : string) : bool :=
  negb (String.eqb n "") && negb (has_char "034" n) && negb (str_exists is_linebreak n).

Lemma printable_name_vm n : printable_name n = true → printable_vm (n, "0f").
Proof.
  unfold printable_name. rewrite !andb_true_iff, !negb_true_iff. intros [[Hn Hc] Hl].
  apply String.eqb_neq in Hn. by repeat split.
Qed.

(** Machines, the times until which they are locked, and a clock.  A machine
    stops when it is told to; for eight seconds after that it is locked, and it
    is deleted only when it neither runs nor is locked. *)
Record yard : Type := MkYard { y_park : park; y_locks : gmap string Z; y_clock : Z }.

Definition settle_time : Z := seconds 8.
Definition locked_for (w : yard) (vm : string) : Z :=
  match y_locks w !! vm with Some until => Z.max 0 (until - y_clock w) | None => 0 end.

Definition park_answer (args : list string) (w : yard) : proc_resp * yard :=
  let p := y_park w in
  let set p := MkYard p (y_locks w) (y_clock w) in
  match args with
  | verb :: vm :: rest =>
      if String.eqb verb "list" then
        (Completed 0 (unlines (render_vm <$> ((λ m, (m.1, "0f")) <$> map_to_list p))) "", w)
      else if String.eqb verb "showvminfo" then
        (match p !! vm with
         | Some on => Completed 0 (render_state on +:+ unlines
             ["bridgeadapter1=" +:+ dq +:+ "eth0" +:+ dq; "storagecontrollername0=" +:+ dq +:+ "IDE" +:+ dq;
              dq +:+ "IDE-0-0" +:+ dq +:+ "=" +:+ dq +:+ "none" +:+ dq]) ""
         | None => Completed 1 "" "not found"
         end, w)
      else if String.eqb verb "controlvm" then
        (Completed 0 "" "",
         match p !! vm with
         | Some true => MkYard (<[vm := false]> p) (<[vm := (y_clock w + settle_time)%Z]> (y_locks w)) (y_clock w)
         | _ => w
         end)
      else if String.eqb verb "unregistervm" then
        if bool_decide (p !! vm = Some true) || (0 <? locked_for w vm)%Z
        then (Completed 1 "" "the machine is locked", w) else (Completed 0 "" "", set (delete vm p))
      else if String.eqb verb "startvm" then
        match p !! vm with
        | Some _ => (Completed 0 "" "", set (<[vm := true]> p))
        | None => (Completed 1 "" "not found", w)
        end
      else if String.eqb verb "import" then
        let name := List.last rest "" in
        if printable_name name then (Completed 0 "" "", set (<[name := false]> p))
        else (Completed 1 "" "invalid name", w)
      else (Completed 0 "" "", w)
  | _ => (Completed 1 "" "usage", w)
  end.

(** Every other call is answered as at the small site. *)
Definition park_world : handler yard := λ e w,
  match e return resp e * yard with
  | Subprocess (_ :: args) _ => park_answer args w
  | Monotonic => (y_clock w, w)
  | Sleep d => (tt, MkYard (y_park w) (y_locks w) (y_clock w + Z.max 0 d)%Z)
  | e => ((site_world e site).1, w)
  end.

Definition printable (p : park) : Prop := ∀ vm, is_Some (p !! vm) → printable_vm (vm, "0f").
Definition orderly (w : yard) : Prop :=
  printable (y_park w) ∧ ∀ vm until, y_locks w !! vm = Some until → (until ≤ y_clock w + settle_time)%Z.

Definition park_hypervisor : Hypervisor := {|
  hv_state := yard;
  hv_machines := y_park;
  hv_lock := locked_for;
  hv_settle := settle_time;
  hv_answers w ev w' := orderly w ∧ park_world (ev_eff ev) w = (ev_resp ev, w') |}.

Lemma park_listing p :
  printable p → ∀ vm, vm ∈ parse_vms (unlines (render_vm <$> ((λ m, (m.1, "0f")) <$> map_to_list p))) ↔
    is_Some (p !! vm).
Proof.
  intros Hp vm. rewrite list_vms_reads_back.
  - rewrite <- list_fmap_compose, list_elem_of_fmap. split.
    + intros ([n on] & -> & Hin%elem_of_map_to_list). by exists on.
    + intros [on Hon]. exists (vm, on). split; [done|by apply elem_of_map_to_list].
  - apply Forall_fmap, Forall_forall. intros [n on] Hin%elem_of_map_to_list. apply Hp. by exists on.
Qed.

Lemma park_state on : parse_state (render_state on +:+ unlines
  ["bridgeadapter1=" +:+ dq +:+ "eth0" +:+ dq; "storagecontrollername0=" +:+ dq +:+ "IDE" +:+ dq;
   dq +:+ "IDE-0-0" +:+ dq +:+ "=" +:+ dq +:+ "none" +:+ dq]) = RUNNING ↔ on = true.
Proof. by destruct on; vm_compute. Qed.

Lemma may_stop_insert_false (p : park) vm : is_Some (p !! vm) → may_stop p (<[vm := false]> p).
Proof.
  intros [b Hb] n. destruct (decide (n = vm)) as [->|]; [|left; by rewrite lookup_insert_ne].
  rewrite lookup_insert_eq, Hb. destruct b; [by right|by left].
Qed.

Lemma locked_for_bound w vm : orderly w → (locked_for w vm ≤ settle_time)%Z.
Proof.
  intros [_ Hl]. unfold locked_for. assert (0 ≤ settle_time)%Z by done.
  destruct (y_locks w !! vm) as [until|] eqn:He; [specialize (Hl _ _ He); lia|done].
Qed.

Lemma park_laws : HypervisorLaws park_hypervisor sample_vbox.
Proof.
  split; cbn [hv_answers hv_machines hv_state hv_lock hv_settle park_hypervisor].
  - intros w [e r] w' [_ Ha] Hv. cbn [ev_eff ev_resp] in Ha.
    destruct e; try (injection Ha as _ <-; done); cbn [park_world] in Ha.
    destruct argv as [|exe [|cmd [|vm rest]]]; try (injection Ha as _ <-; done).
    assert (cmd ∉ power_verbs) as Hn by (by apply Hv). clear Hv.
    assert (∀ v, v ∈ power_verbs → String.eqb cmd v = false) as Hne.
    { intros v Hin. apply String.eqb_neq. by intros ->. }
    cbn [park_answer] in Ha. cbv zeta in Ha.
    rewrite (Hne "controlvm"), (Hne "unregistervm"), (Hne "startvm"), (Hne "import") in Ha
      by (apply (bool_decide_unpack _); by vm_compute).
    destruct (String.eqb cmd "list"); [by injection Ha as _ <-|].
    destruct (String.eqb cmd "showvminfo"); by injection Ha as _ <-.
  - intros w timeout r w' [[Hp _] Ha]. cbn in Ha. injection Ha as <- _. eexists _, _. split; [done|].
    by apply park_listing.
  - intros w vm timeout r w' [_ Ha]. cbn in Ha. injection Ha as <- _.
    destruct (y_park w !! vm) as [on|].
    + eexists _, _, _. split; [done|]. cbn [Z.eqb]. rewrite park_state. split; [by intros ->|by intros [= ->]].
    + eexists _, _, _. split; [done|]. by split.
  - intros w vm cmd timeout r w' [_ Ha]. cbn in Ha. injection Ha as <- <-.
    split; [by eexists _, _, _|]. destruct (y_park w !! vm) as [[]|] eqn:Hon; cbn [y_park].
    + split; [apply may_stop_insert_false; by eexists|]. intros _. by rewrite lookup_insert_eq.
    + split; [done|]. intros _. by rewrite Hon.
    + split; [done|]. intros _. by rewrite Hon.
  - intros w vm timeout r w' [_ Ha] Hoff. cbn in Ha. rewrite bool_decide_eq_false_2 in Ha by done.
    cbn [orb] in Ha. destruct (Z.ltb_spec 0 (locked_for w vm)); injection Ha as <- <-.
    + split; [by eexists _, _, _|by right].
    + split; [by eexists _, _, _|by left].
  - intros w ev w' vm [Ho _]. by apply locked_for_bound.
  - intros w [e r] w' vm [_ Ha] Hoff Hv. cbn [ev_eff ev_resp] in Ha.
    destruct e; try (injection Ha as _ <-; done); cbn [park_world] in Ha.
    + destruct argv as [|exe [|cmd [|vm' rest]]]; try (injection Ha as _ <-; done).
      assert (cmd ∈ ["list"; "unregistervm"]) as Hin by (by apply Hv).
      rewrite !elem_of_cons, elem_of_nil in Hin. destruct Hin as [->|[->|[]]]; cbn in Ha;
        [by injection Ha as _ <-|]. by destruct (_ || _); injection Ha as _ <-.
    + injection Ha as _ <-. unfold locked_for. cbn [y_locks y_clock]. destruct (y_locks w !! vm); lia.
  - intros w d r w' vm [_ Ha] _. cbn in Ha. injection Ha as _ <-. unfold locked_for. cbn [y_locks y_clock]. destruct (y_locks w !! vm); lia.
  - intros w p vm timeout out err w' [_ Ha]. unfold vbox_call in Ha.
    cbn [park_world park_answer ev_eff ev_resp String.eqb Ascii.eqb Bool.eqb List.last] in Ha.
    destruct (printable_name vm); [by injection Ha as _ _ <-|done].
  - intros w vm timeout out err w' [_ Ha]. cbn in Ha. destruct (y_park w !! vm) eqn:Hon; [|done].
    injection Ha as _ _ <-. split; [by eexists|done].
Qed.

(** The names stay such as can be listed, and no lock is held too long. *)
Lemma orderly_park_world e w : orderly w → orderly (park_world e w).2.
Proof.
  intros [Hp Hl]. assert (0 ≤ settle_time)%Z by done.
  destruct e; try done; cbn [park_world].
  2: { split; [done|]. intros vm until He. cbn [y_clock y_locks snd] in *. specialize (Hl _ _ He). lia. }
  destruct argv as [|exe [|cmd [|vm rest]]]; try done. cbn [park_answer]. cbv zeta.
  assert (∀ n b, is_Some (y_park w !! n) ∨ printable_name n = true → printable (<[n := b]> (y_park w))) as Hins.
  { intros n b Hn n' Hs. destruct (decide (n' = n)) as [->|].
    - destruct Hn as [Hn|Hn]; [by apply Hp|by apply printable_name_vm].
    - rewrite lookup_insert_ne in Hs by done. by apply Hp. }
  assert (∀ n, printable (delete n (y_park w))) as Hdel.
  { intros n n' [b [_ Hb]%lookup_delete_Some]. apply Hp. by exists b. }
  destruct (String.eqb cmd "list"); [done|]. destruct (String.eqb cmd "showvminfo"); [done|].
  destruct (String.eqb cmd "controlvm").
  { destruct (y_park w !! vm) as [[]|] eqn:Hon; [|done..]. split; [apply Hins; left; by eexists|].
    intros n until He. cbn [y_clock y_locks snd] in *. apply lookup_insert_Some in He as [[_ <-]|[_ He]]; [lia|eauto]. }
  destruct (String.eqb cmd "unregistervm"); [destruct (_ || _); [done|split; [apply Hdel|done]]|].
  destruct (String.eqb cmd "startvm").
  { destruct (y_park w !! vm) eqn:Hon; [|done]. split; [apply Hins; left; by eexists|done]. }
  destruct (String.eqb cmd "import"); [|done].
  destruct (printable_name (List.last rest "")) eqn:Hn; [split; [apply Hins; by right|done]|done].
Qed.

Lemma interp_path {A} (p : tree A) w :
  orderly w → along (hv_answers (Hypervisor := park_hypervisor)) w (interp park_world p w).2 (interp park_world p w).1.2.
Proof.
  revert w. induction p as [a|e k IH]; intros w Hw; cbn [interp]; [constructor|].
  pose proof (orderly_park_world e w Hw) as Hw'. destruct (park_world e w) as [r w1] eqn:He.
  specialize (IH r w1 Hw'). destruct (interp park_world (k r) w1) as [[a w2] t]. cbn [fst snd] in *.
  econstructor; [|exact IH]. by split.
Qed.

(** A program run from a collection of machines, with the hypervisor along. *)
Lemma run_in_path {A} (m : M A) w : orderly w →
  ∃ s', runs m [] (trace_in park_world m w) (outcome_in park_world m w) s' ∧
    along (hv_answers (Hypervisor := park_hypervisor)) w (trace_in park_world m w) (run_in park_world m w).1.2.
Proof.
  intros Hw. destruct (run_in_runs park_world m w) as [s' H]. exists s'. split; [exact H|].
  unfold trace_in, run_in. pose proof (interp_path (m []) w Hw) as Hp.
  by destruct (interp park_world (m []) w) as [[[o s1] w1] t].
Qed.

(** ** Properties *)

(** C8: tearing down implements the removal of the cluster.  Against any
    hypervisor that satisfies the laws, from any collection of machines,
    running or not, whether they obey the power button or not,
    [teardown_cluster] ends.  When it returns, it has left exactly the machines
    that are not the cluster's; of those none was started, and any that no
    longer runs stopped by itself.  It raises only for a machine of the cluster
    that is still registered, whose lock the hypervisor can hold for longer
    than the pauses between three deletions; the machines before it are gone
    and those after it untouched.  So it returns whenever locks are held for
    ten seconds at most. *)
Theorem teardown_implements {hv : Hypervisor} vbox {laws : HypervisorLaws hv vbox} config now s t o s' w w' :
  runs (teardown_cluster vbox config) s t o s' → clock_ok now t → hv_path w t w' →
  o ≠ OutOfFuel ∧
  (o = Ok tt → dom (hv_machines w') = dom (hv_machines w) ∖ list_to_set (vm_names config) ∧
     may_stop (without (vm_names config) (hv_machines w)) (hv_machines w')) ∧
  (∀ e, o = Raise e → class_of e = CVirtualBoxError ∧ (seconds 10 < hv_settle)%Z ∧
     ∃ gone vm rest, vm_names config = gone ++ vm :: rest ∧
       may_stop (without gone (hv_machines w)) (hv_machines w') ∧ is_Some (hv_machines w' !! vm)) ∧
  ((hv_settle ≤ seconds 10)%Z → o = Ok tt).
Proof.
  intros H Hc Hp.
  pose proof (teardown_hoare (hv_machines w) config _ _ _ _ _ _ H Hp (reflexivity _)) as Ht.
  assert (o ≠ OutOfFuel) as Ho by (by eapply teardown_terminates).
  split; [done|]. destruct o as [[]|e|]; [| |done].
  - split_and!; [|done..]. intros _. split; [|done]. by rewrite (may_stop_dom _ _ Ht), dom_without.
  - destruct Ht as (gone & vm & rest & Hl & Hg & He & Hs & Hlt).
    assert (seconds 10 < hv_settle)%Z as Hlong by exact Hlt.
    split_and!; [done| |lia]. intros e' [= <-]. split_and!; [done..|]. by exists gone, vm, rest.
Qed.

(** The guests of [sample_cluster], two of which run, beside the template and
    a machine that is none of the cluster's. *)
Definition sample_park : park :=
  list_to_map [("template", false); ("vm-jump", true); ("vm-web1", true); ("vm-web2", false); ("mine", true)].
Definition sample_yard : yard := MkYard sample_park ∅ 0.

Lemma sample_yard_orderly : orderly sample_yard.
Proof.
  split; [|done]. intros vm [b Hb]. apply printable_name_vm. cbn [y_park sample_yard] in Hb.
  assert (vm ∈ ["template"; "vm-jump"; "vm-web1"; "vm-web2"; "mine"]) as Hin.
  { apply elem_of_list_to_map_2 in Hb. by apply (list_elem_of_fmap_2 fst) in Hb. }
  rewrite !elem_of_cons, elem_of_nil in Hin. by destruct Hin as [->|[->|[->|[->|[->|[]]]]]].
Qed.

Lemma teardown_implements_witness :
  let m := teardown_cluster sample_vbox sample_cluster in
  let w' := (run_in park_world m sample_yard).1.2 in
  outcome_in park_world m sample_yard = Ok tt ∧
  dom (y_park w') = dom sample_park ∖ list_to_set (vm_names sample_cluster) ∧
  length (List.filter (λ ev, bool_decide (verb ev = Some "unregistervm")) (trace_in park_world m sample_yard)) = 7.
Proof.
  intros m w'. destruct (run_in_path m sample_yard sample_yard_orderly) as (s' & H & Hp).
  assert (clock_ok 0 (trace_in park_world m sample_yard)) as Hc by clock_tac.
  destruct (teardown_implements sample_vbox (laws := park_laws) _ _ _ _ _ _ _ _ H Hc Hp) as (_ & Hd & _ & Hr).
  assert (outcome_in park_world m sample_yard = Ok tt) as Ho by (by apply Hr; vm_compute).
  split_and!; [exact Ho|exact (proj1 (Hd Ho))|by vm_compute].
Defined.

(** C9: provisioning implements the registration of the cluster, and can be
    repeated.  Against any hypervisor that satisfies the laws, a run of
    [provision_cluster] that returns leaves the machines there were and the
    cluster's, and no others, whichever of them were there before; and tearing
    down afterwards, when it returns, as it does whenever locks are held for
    ten seconds at most, leaves the machines there were but the cluster's. *)
Theorem provision_implements {hv : Hypervisor} vbox {laws : HypervisorLaws hv vbox} config
    s t r s' w w' :
  runs (provision_cluster vbox config) s t (Ok r) s' → hv_path w t w' →
  dom (hv_machines w') = list_to_set (vm_names config) ∪ dom (hv_machines w) ∧
  ∀ now s1 t1 o1 s2 w2, runs (teardown_cluster vbox config) s1 t1 o1 s2 → clock_ok now t1 →
    hv_path w' t1 w2 →
    ((hv_settle ≤ seconds 10)%Z → o1 = Ok tt) ∧
    (o1 = Ok tt → dom (hv_machines w2) = dom (hv_machines w) ∖ list_to_set (vm_names config)).
Proof.
  intros H Hp.
  pose proof (provision_cluster_hoare _ config _ _ _ _ _ _ H Hp eq_refl) as Hd. split; [exact Hd|].
  intros now s1 t1 o1 s2 w2 H1 Hc Hp1.
  pose proof (teardown_hoare (hv_machines w') config _ _ _ _ _ _ H1 Hp1 (reflexivity _)) as Ht.
  assert (o1 ≠ OutOfFuel) as Ho by (by eapply teardown_terminates).
  destruct o1 as [[]|e|]; [| |done].
  - split; [done|]. intros _. rewrite (may_stop_dom _ _ Ht), dom_without, Hd. set_solver.
  - destruct Ht as (gone & vm & rest & _ & _ & _ & _ & Hlt).
    assert (seconds 10 < hv_settle)%Z as Hlong by exact Hlt. split; [lia|done].
Qed.

Lemma provision_implements_witness :
  let m := provision_cluster sample_vbox sample_cluster in
  let w' := (run_in park_world m sample_yard).1.2 in
  outcome_in park_world m sample_yard =
    Ok [("jump", "10.0.0.4"); ("web1", "10.0.0.7"); ("web2", "10.0.0.8")] ∧
  dom (y_park w') = list_to_set (vm_names sample_cluster) ∪ dom sample_park.
Proof.
  intros m w'. destruct (run_in_path m sample_yard sample_yard_orderly) as (s' & H & Hp).
  assert (outcome_in park_world m sample_yard =
    Ok [("jump", "10.0.0.4"); ("web1", "10.0.0.7"); ("web2", "10.0.0.8")]) as Ho by (by vm_compute).
  split; [exact Ho|]. rewrite Ho in H.
  exact (proj1 (provision_implements sample_vbox (laws := park_laws) _ _ _ _ _ _ _ H Hp)).
Defined.
