(* ===== verification/Seeder.v ===== *)
(** * The programs beside the command

    The seeder of the container stack (docker/seeder/seed.py), which writes
    the key and a datastore of three hosts before the service starts, and the
    two scripts that print paths of the configuration
    (scripts/_resolve_inventory_paths.py, scripts/_resolve_template_ova.py). *)

From S2P Require Import Prelude PyStr Exceptions Paths Effects Reasoning Values Bytes Inventory.
From S2P Require Import Config VirtualBox SshClient SshFacts Setup Cli.

#[export] Set Default Goal Selector "!".

Definition _HOSTS : list (string * string * string) :=
  [("apjump", "jump", "172.28.0.10"); ("apnode1", "backend", "172.28.0.11");
   ("apnode2", "backend", "172.28.0.12")].

(** The record of one of [_HOSTS]. *)
Definition seed_record (timestamp : string) (host : string * string * string) : InventoryRecord :=
  MkRecord host.1.1 host.1.2 host.2 "" "Deployed" timestamp "Active" timestamp.
Definition seed_records (timestamp : string) : list InventoryRecord := map (seed_record timestamp) _HOSTS.

(** [os.environ.get(name, default)]. *)
Definition environ_get (environ : list (string * string)) (name default : string) : string :=
  match List.find (λ kv, String.eqb kv.1 name) environ with Some kv => kv.2 | None => default end.

Definition key_name : string := "inventory.key".
Definition store_name : string := "inventory.enc".

Section seeder.
Context {aead : AEAD}.

Definition seeder_main : M unit :=
  environ <- call Environ ;;
  let data_dir := Path (environ_get environ "DATA_DIR" "/data") in
  r <- call (Mkdir data_dir) ;; lift_io r ;;
  key <- load_or_create_key (path_div data_dir key_name) ;;
  timestamp <- call UtcNow ;;
  let records := seed_records timestamp in
  let store := path_div data_dir store_name in
  blob <- encrypt_records records key ;;
  r <- call (WriteBytes store blob) ;; lift_io r ;;
  for_each [path_div data_dir key_name; store] (λ p, try_chmod p 438) ;;
  print ("Seeded " +:+ pretty (length records) +:+ " inventory record(s) to " +:+ str_path store).
End seeder.

(** ** The resolver scripts *)

Section scripts.
Context {parser : TomlParser}.

(** [_CONFIG]: the first argument, or the default. *)
Definition script_config (argv : list string) : path :=
  match argv with _ :: p :: _ => Path p | _ => Path "config/cluster.toml" end.

Definition resolve_inventory_paths (argv : list string) : M unit :=
  config <- load_cluster_config (script_config argv) ;;
  print (str_path (key_file (inventory config))) ;;
  print (str_path (manifest_file (inventory config))).

Definition resolve_template_ova (argv : list string) : M unit :=
  config <- load_cluster_config (script_config argv) ;;
  print (str_path (template_ova (virtualbox config))) ;;
  print (template_image_ref (virtualbox config)).
End scripts.

(** ** What the seeder leaves behind *)

(** The content of the file as the run read or left it. *)
Definition file_content (p : path) (payload : bytes) (t : trace) : Prop :=
  Ev (ReadBytes p) (IoOk payload) ∈ t ∨ Ev (WriteBytes p payload) (IoOk tt) ∈ t.

Lemma file_content_app p payload t1 t2 :
  file_content p payload t1 ∨ file_content p payload t2 → file_content p payload (t1 ++ t2).
Proof. unfold file_content. rewrite !elem_of_app. tauto. Qed.

Lemma load_or_create_reads p s t key s' :
  runs (load_or_create_key p) s t (Ok key) s' → ∃ payload, file_content p payload t ∧ key_reads p payload key.
Proof.
  intros H. unfold load_or_create_key in H.
  apply runs_bind in H as [(present & s1 & t1 & t2 & -> & _ & H)|[(e & [=] & _)|[[=] _]]].
  destruct present.
  - apply load_key_reads in H as (payload & Hin & Hr). exists payload. split; [|done].
    apply file_content_app. by right; left.
  - apply runs_bind in H as [(k & s2 & t3 & t4 & -> & _ & H)|[(e & [=] & _)|[[=] _]]].
    apply runs_bind in H as [([] & s3 & t5 & t6 & -> & Hw & H)|[(e & [=] & _)|[[=] _]]].
    apply runs_ret in H as (-> & [= ->] & ->).
    apply write_key_file_reads in Hw as (_ & payload & Hin & Hr). exists payload. split; [|done].
    rewrite app_nil_r. apply file_content_app. right. apply file_content_app. by right; right.
Qed.

(** The environment the first call of a run saw. *)
Definition environ_of (t : trace) : option (list (string * string)) :=
  match t with Ev Environ r :: _ => Some r | _ => None end.

Section seeded.
Context {aead : AEAD} {laws : AEADLaws aead}.

(** The datastore in [dir] is sealed under the key the key file there gives,
    and holds the three hosts. *)
Definition seeded (dir : path) (t : trace) : Prop :=
  ∃ payload key blob timestamp,
    file_content (path_div dir key_name) payload t ∧
    key_reads (path_div dir key_name) payload key ∧
    Ev (WriteBytes (path_div dir store_name) blob) (IoOk tt) ∈ t ∧
    decrypt_records blob key = inr (seed_records timestamp).

(** C24: the container's datastore opens.  A run of the seeder that returns
    has written, in the directory [DATA_DIR] names, a datastore that decrypts,
    under the key every later reading of the key file there gives, to exactly
    the three hosts of the stack; this holds whether the key was already there
    or was made by this run. *)
Theorem seeded_store_opens s environ t s' :
  runs seeder_main s (Ev Environ environ :: t) (Ok tt) s' → Forall urandom_ok t →
  seeded (Path (environ_get environ "DATA_DIR" "/data")) t.
Proof.
  intros H Hu. unfold seeder_main in H. cbv zeta in H.
  apply runs_bind in H as [(env & s1 & t1 & t2 & Ht & H1 & H)|[(e & [=] & _)|[[=] _]]].
  apply runs_call in H1 as (r & -> & [= <-] & ->). pose proof (f_equal environ_of Ht) as [= ->].
  apply (f_equal tail) in Ht. cbn [tail app] in Ht. subst t. set (dir := Path _) in *. clearbody dir.
  do 2 runs_ok H.
  apply runs_bind in H as [(key & s4 & t5 & t6 & -> & Hk & H)|[(e & [=] & _)|[[=] _]]].
  apply runs_bind in H as [(ts & s5 & t7 & t8 & -> & _ & H)|[(e & [=] & _)|[[=] _]]].
  apply runs_bind in H as [(blob & s6 & t9 & t10 & -> & Hb & H)|[(e & [=] & _)|[[=] _]]].
  apply runs_bind in H as [(r & s7 & t11 & t12 & -> & Hw & H)|[(e & [=] & _)|[[=] _]]].
  apply runs_call in Hw as (r' & -> & [= <-] & ->). destruct r as [[]|exc].
  2: { apply runs_bind in H as [(? & ? & ? & ? & _ & Hx & _)|[(? & [=] & _)|[[=] _]]]. by apply runs_raise in Hx as (_ & [=] & _). }
  apply load_or_create_reads in Hk as (payload & Hf & Hr).
  exists payload, key, blob, ts. split_and!; [|done| |].
  - do 2 (apply file_content_app; right). apply file_content_app. by left.
  - rewrite !elem_of_app. do 5 right. left. left.
  - eapply encrypt_opens; [exact Hb|]. rewrite !Forall_app in Hu. tauto.
Qed.
End seeded.

Definition seeder_world : handler unit := λ e w,
  (match e return resp e with
   | Environ => [("DATA_DIR", "/srv")]
   | e => default_resp e
   end, w).

Definition sample_seeder : M unit := seeder_main (aead := toy_aead).

Lemma seeded_store_opens_witness :
  outcome_in seeder_world sample_seeder tt = Ok tt ∧
  seeded (aead := toy_aead) (Path "/srv") (tail (trace_in seeder_world sample_seeder tt)).
Proof.
  assert (outcome_in seeder_world sample_seeder tt = Ok tt) as Ho by (by vm_compute).
  split; [exact Ho|]. destruct (run_in_runs seeder_world sample_seeder tt) as [s' H]. rewrite Ho in H.
  change (trace_in seeder_world sample_seeder tt) with
    (Ev Environ [("DATA_DIR", "/srv")] :: tail (trace_in seeder_world sample_seeder tt)) in H.
  refine (seeded_store_opens (laws := toy_laws) _ _ _ _ H _).
  vm_compute. repeat constructor.
Defined.
