(* ===== verification/Configured.v ===== *)
(** * What configuring a guest leaves in its run

    The steps that a run which configures a backend or the jump station and
    returns has gone through, as predicates of the run, in their order
    ([in_turn]), over the connection it opened ([session], [over]).  They are
    what [CliGuarantees] states of [cmd_configure]. *)

From S2P Require Import Prelude PyStr Exceptions Paths Effects Reasoning Values Bytes Inventory Config.
From S2P Require Import VirtualBox SshClient SshFacts SshNesting Website Apache InventoryService.
From S2P Require Import InventoryServiceFacts Provision ClusterFacts Cli CliFacts Seeder.

#[export] Set Default Goal Selector "!".

(** ** Steps in their order *)

(** Parts of the run, one after another, that satisfy the predicates. *)
Fixpoint in_turn (ps : list (trace → Prop)) (t : trace) : Prop :=
  match ps with
  | [] => True
  | P :: ps => ∃ t0 t1 t2, t = t0 ++ t1 ++ t2 ∧ P t1 ∧ in_turn ps t2
  end.

Lemma in_turn_after ps t1 t2 : in_turn ps t2 → in_turn ps (t1 ++ t2).
Proof.
  destruct ps as [|P ps]; [done|]. intros (t0 & ta & tb & -> & HP & H).
  exists (t1 ++ t0), ta, tb. by rewrite <- !app_assoc.
Qed.

Lemma in_turn_before ps t1 t2 : in_turn ps t1 → in_turn ps (t1 ++ t2).
Proof.
  revert t1. induction ps as [|P ps IH]; intros t1; [done|]. intros (t0 & ta & tb & -> & HP & H).
  exists t0, ta, (tb ++ t2). rewrite <- !app_assoc. split_and!; [done..|by apply IH].
Qed.

Lemma in_turn_app ps qs t1 t2 : in_turn ps t1 → in_turn qs t2 → in_turn (ps ++ qs) (t1 ++ t2).
Proof.
  revert t1. induction ps as [|P ps IH]; intros t1; [by intros _ ?; apply in_turn_after|].
  intros (t0 & ta & tb & -> & HP & H) Hq. exists t0, ta, (tb ++ t2). rewrite <- !app_assoc.
  split_and!; [done..|by apply IH].
Qed.

(** The runs of a program that return pass through the steps. *)
Definition passes {A} (ps : list (trace → Prop)) (m : M A) : Prop :=
  ∀ s t a s', runs m s t (Ok a) s' → in_turn ps t.

Lemma passes_none {A} (m : M A) : passes [] m.
Proof. done. Qed.
Lemma passes_raise {A} ps e : passes ps (raise (A:=A) e).
Proof. intros s t a s' H. by run_inv1 H. Qed.

Lemma passes_bind {A B} ps qs (m : M A) (f : A → M B) :
  passes ps m → (∀ a, passes qs (f a)) → passes (ps ++ qs) (bind m f).
Proof.
  intros Hm Hf s t b s' [(a & s1 & t1 & t2 & -> & H1 & H2)|[(e & [=] & _)|[[=] _]]]%runs_bind.
  apply in_turn_app; [by eapply Hm|by eapply Hf].
Qed.

Lemma passes_skip {A B} qs (m : M A) (f : A → M B) :
  (∀ a, passes qs (f a)) → passes qs (bind m f).
Proof. apply (passes_bind [] qs), passes_none. Qed.

Lemma passes_last {A B} ps (m : M A) (f : A → M B) : passes ps m → passes ps (bind m f).
Proof. intros Hm. rewrite <- (app_nil_r ps). apply passes_bind; [done|]. intros a. apply passes_none. Qed.

(** A step that is one call. *)
Definition step (G : event → Prop) : trace → Prop := Exists G.

Lemma passes_step {A} G (m : M A) : ensures G m (λ _, true) → passes [step G] m.
Proof.
  intros Hm s t a s' H. exists [], t, []. rewrite app_nil_r. split_and!; [done|by eapply Hm|done].
Qed.

Lemma passes_for_each {A} (l : list A) f G :
  (∀ x, ensures (G x) (f x) (λ _, true)) → passes (map (λ x, step (G x)) l) (for_each l f).
Proof.
  intros Hf. induction l as [|x l IH]; simpl; [apply passes_none|].
  apply (passes_bind [_]); [by apply passes_step|intros _; exact IH].
Qed.

Lemma passes_rewrap {A} ps (m : M A) c f : passes ps m → passes ps (rewrap m c f).
Proof.
  intros Hm s t a s' H. unfold rewrap in H.
  apply runs_catch in H as [(e & m' & s1 & t1 & t2 & -> & _ & He & H)|[H _]]; [|by eapply Hm].
  destruct (isinstance e c); [|done]. injection He as <-. run_inv1 H.
Qed.

Section commands.
Context (h : RemoteHost).

Lemma passes_sudo cmd timeout : passes [step (privileged_ok cmd)] (sudo h cmd true timeout).
Proof.
  apply passes_step. intros s t r s' H _. eapply sudo_ensures; [exact H|]. by rewrite orb_true_r.
Qed.

Lemma passes_all cmds :
  passes (map (λ c, step (privileged_ok c)) cmds) (for_each cmds (λ c, sudo h c true None ;; ret tt)).
Proof.
  apply passes_for_each. intros c. apply ensures_bind_l. intros s t r s' H _.
  eapply sudo_ensures; [exact H|]. by rewrite orb_true_r.
Qed.

Lemma passes_put payload remote mode : passes [installed payload remote mode] (put_bytes h payload remote mode).
Proof.
  intros s t [] s' H. exists [], t, []. rewrite app_nil_r.
  split_and!; [done|by eapply put_bytes_installs|done].
Qed.
End commands.

(** ** Over one connection *)

Definition over (k : Z) (ev : event) : Prop := ∀ c cmd stdin tm, ev_eff ev = SshExec c cmd stdin tm → c = k.

(** Every command runs over the connection of session [i]. *)
Definition speaks {A} (i : nat) (m : M A) : Prop :=
  ∀ k s t o s', s_client (session_of s i) = Some k → runs m s t o s' → Forall (over k) t.

Section speaks.
Context (i : nat).

Lemma speaks_bind {A B} (m : M A) (f : A → M B) :
  host_op i m → speaks i m → (∀ a, speaks i (f a)) → speaks i (bind m f).
Proof.
  intros Hop Hm Hf k s t o s' Hk [(a & s1 & t1 & t2 & -> & H1 & H2)|[(e & -> & H)|[-> H]]]%runs_bind;
    [|by eapply Hm..].
  apply Forall_app. split; [by eapply Hm|]. eapply Hf; [|exact H2].
  destruct (Hop _ _ _ _ H1) as (_ & _ & ->). exact Hk.
Qed.

Lemma speaks_catch {A} (m : M A) hd :
  host_op i m → speaks i m → (∀ e m', hd e = Some m' → speaks i m') → speaks i (catch m hd).
Proof.
  intros Hop Hm Hh k s t o s' Hk [(e & m' & s1 & t1 & t2 & -> & H1 & He & H2)|[H _]]%runs_catch;
    [|by eapply Hm].
  apply Forall_app. split; [by eapply Hm|]. eapply (Hh _ _ He); [|exact H2].
  destruct (Hop _ _ _ _ H1) as (_ & _ & ->). exact Hk.
Qed.

Lemma speaks_quiet {A} (m : M A) : emits no_exec (λ _, True) m → speaks i m.
Proof.
  intros Hm k s t o s' _ H. destruct (Hm _ _ _ _ H) as [Ht _]. eapply Forall_impl; [exact Ht|].
  intros ev Hev c cmd stdin tm He. unfold no_exec in Hev. by rewrite He in Hev.
Qed.

Lemma speaks_ret {A} (a : A) : speaks i (ret a).
Proof. apply speaks_quiet, emits_ret. Qed.
Lemma speaks_raise {A} e : speaks i (raise (A:=A) e).
Proof. by apply speaks_quiet, emits_raise. Qed.

Lemma speaks_for_each {A} (l : list A) f :
  (∀ x, host_op i (f x)) → (∀ x, speaks i (f x)) → speaks i (for_each l f).
Proof.
  intros Hop Hf. induction l as [|x l IH]; simpl; [apply speaks_ret|]. apply speaks_bind; [done..|].
  by intros _.
Qed.
End speaks.

Lemma host_run_speaks h cmd check timeout : speaks (sid h) (host_run h cmd check timeout).
Proof.
  intros k s t o s' Hk H. revert t o s' H. apply wp_host_run; [|constructor].
  intros c r Hc. constructor; [|constructor]. intros c' cmd' stdin tm [= -> _ _ _]. congruence.
Qed.

(** The second try of [sudo] uses the same client. *)
Lemma sudo_speaks h cmd check timeout : speaks (sid h) (sudo h cmd check timeout).
Proof.
  unfold sudo. apply speaks_bind; [apply host_run_op|apply host_run_speaks|intros p].
  destruct (cmd_ok p); [apply speaks_ret|].
  apply speaks_bind.
  { unfold sudo_password. host_op_auto; try apply host_op_ret; apply host_op_raise. }
  { apply speaks_quiet. unfold sudo_password. quiet_auto. }
  intros pw k s t o s' Hk H. revert t o s' H. apply wp_bind, wp_host_client; [|constructor].
  intros c Hc. cbn [bind_post]. apply wp_bind. refine (wp_call _ _ _ _). intros r. cbn [bind_post].
  assert (over k (Ev (SshExec c (sudo_S cmd) (Some (pw +:+ nl)) (effective_timeout h timeout)) r)) as Hev.
  { intros c' cmd' i tm [= -> _ _ _]. congruence. }
  destruct r as [st out err|exc]; cbv zeta; [destruct (check && _)|]; apply wp_ret || apply wp_raise;
    simpl; by repeat constructor.
Qed.

Lemma sftp_speaks h : speaks (sid h) (sftp h).
Proof. apply speaks_quiet, sftp_quiet. Qed.

Create HintDb speaks.
#[export] Hint Resolve speaks_ret speaks_raise host_run_speaks sudo_speaks sftp_speaks : speaks.

Ltac speaks_step :=
  lazymatch goal with
  | |- speaks _ (bind _ _) => apply speaks_bind; [by host_op_auto| |intros ?]
  | |- speaks _ (rewrap _ _ _) => apply speaks_catch; [by host_op_auto| |handler_cases]
  | |- speaks _ (catch _ _) => apply speaks_catch; [by host_op_auto| |handler_cases]
  | |- speaks _ (for_each _ _) => apply speaks_for_each; intros ?; [by host_op_auto|]
  | |- speaks _ (call _) => apply speaks_quiet; quiet_auto
  | |- speaks _ (lift_io _) => apply speaks_quiet; by apply emits_lift_io
  | |- speaks _ (lift_res _) => apply speaks_quiet; by apply emits_lift_res
  | |- speaks _ (when _ _) => unfold when
  | |- speaks _ (match ?x with _ => _ end) => destruct x eqn:?
  | |- speaks _ _ => eauto with speaks
  end.

Lemma put_bytes_speaks h payload remote mode : speaks (sid h) (put_bytes h payload remote mode).
Proof. unfold put_bytes. cbv zeta. by repeat speaks_step. Qed.
Lemma get_bytes_speaks h remote : speaks (sid h) (get_bytes h remote).
Proof. unfold get_bytes. by repeat speaks_step. Qed.
#[export] Hint Resolve put_bytes_speaks get_bytes_speaks : speaks.

Lemma publish_speaks h site n : speaks (sid h) (publish_site h site n).
Proof. unfold publish_site, fetch_site_to_guest, stamp_backend_identity. cbv zeta. by repeat speaks_step. Qed.
Lemma backend_speaks h b root : speaks (sid h) (configure_backend h b root).
Proof.
  unfold configure_backend, install_apache, enable_modules, _ensure_listen_port, restart_apache.
  by repeat speaks_step.
Qed.

Section service_speaks.
Context {tmp : TempDir} {aead : AEAD} (h : RemoteHost) (config : ClusterConfig).

Lemma install_go_speaks build : speaks (sid h) (install_go h build).
Proof.
  unfold install_go. pose proof (upload_op h).
  assert (∀ a b, speaks (sid h) (upload h a b)) by (intros; apply speaks_quiet, upload_quiet).
  assert (speaks (sid h) (_fetch_go_archive_to_host build)) by apply speaks_quiet, fetch_quiet.
  cbv zeta. by repeat speaks_step.
Qed.

Lemma source_hash_speaks d : speaks (sid h) (source_hash d).
Proof. apply speaks_quiet, source_hash_quiet. Qed.

Lemma build_service_speaks d dir : speaks (sid h) (build_service h d dir).
Proof.
  unfold build_service, InventoryService.is_file, read_bytes. pose proof source_hash_speaks.
  assert (∀ names, speaks (sid h) (missing_files d names)) by (intros; by apply speaks_quiet, missing_files_quiet).
  cbv zeta. by repeat speaks_step.
Qed.

Lemma load_key_speaks p : speaks (sid h) (load_or_create_key p).
Proof.
  apply speaks_quiet. unfold load_or_create_key, load_key, write_key_file, generate_key. by quiet_auto.
Qed.

Lemma deploy_service_speaks d : speaks (sid h) (deploy_service h config d).
Proof.
  pose proof load_key_speaks. pose proof build_service_speaks. pose proof install_go_speaks.
  pose proof source_hash_speaks. pose proof (ensure_service_binary_op h config d).
  unfold deploy_service, ensure_service_binary, installed_source_hash, sudo_all. cbv zeta.
  by repeat speaks_step.
Qed.
End service_speaks.

(** ** The steps of Apache *)

Definition apt_install : string := "DEBIAN_FRONTEND=noninteractive apt-get install -y -qq apache2".
Definition apache_present (ev : event) : Prop :=
  plain_ok "command -v apache2" ev ∨ privileged_ok apt_install ev.
Definition listen_command (port : Z) : string :=
  "sh -c 'echo " +:+ quoted ("Listen " +:+ str_of_Z port) +:+ " >> " +:+ _PORTS_CONF +:+ "'".

(** The port is among the directives the file was read with, or was added. *)
Definition listens (port : Z) (ev : event) : Prop :=
  (∃ ch b, ev = Ev (SftpRead ch _PORTS_CONF) (IoOk b) ∧
     str_of_Z port ∈ listen_directives (utf8_decode_replace b)) ∨
  privileged_ok (listen_command port) ev.

Definition module_steps (modules : list string) : list (trace → Prop) :=
  map (λ m, step (privileged_ok ("a2enmod -q " +:+ m))) modules.
Definition restart_steps : list (trace → Prop) :=
  [step (privileged_ok configtest); step (privileged_ok restart_command); step reported_active].

(** Apache serves the site on the port. *)
Definition apache_steps (modules : list string) (port : Z) (vhost : string) : list (trace → Prop) :=
  [step apache_present] ++ module_steps modules ++ [step (listens port)] ++
  [installed (utf8_encode vhost) _SITE_CONF mode_644] ++ restart_steps.

(** A step whose absence the result tells. *)
Lemma passes_test {A B} G qs (m : M A) (f : A → M B) p :
  ensures G m p → (∀ a, p a = true → passes qs (f a)) →
  (∀ a, p a = false → passes (step G :: qs) (f a)) → passes (step G :: qs) (bind m f).
Proof.
  intros Hm Ht Hf s t b s' [(a & s1 & t1 & t2 & -> & H1 & H2)|[(e & [=] & _)|[[=] _]]]%runs_bind.
  destruct (p a) eqn:Hp.
  - exists [], t1, t2. split_and!; [done|by eapply Hm|by eapply Ht].
  - apply in_turn_after. by eapply Hf.
Qed.

Lemma read_listens h port :
  ensures (listens port)
    (catch (b <- get_bytes h _PORTS_CONF ;; ret (utf8_decode_replace b))
       (λ e, if isinstance e CVmDeployError then Some (ret "") else None))
    (λ current, existsb (String.eqb (str_of_Z port)) (listen_directives current)).
Proof.
  intros s t current s' H Hp.
  apply runs_catch in H as [(e & m' & s1 & t1 & t2 & -> & _ & He & H)|[H _]].
  { destruct (isinstance _ _); [|done]. injection He as <-. by run_inv1 H. }
  apply runs_bind in H as [(b & s1 & t1 & t2 & -> & H & Hr)|[(e & [=] & _)|[[=] _]]].
  apply runs_ret in Hr as (-> & [= ->] & ->). unfold get_bytes in H.
  apply runs_bind in H as [(ch & s2 & t3 & t4 & -> & _ & H)|[(e & [=] & _)|[[=] _]]].
  apply runs_bind in H as [(r & s3 & t5 & t6 & -> & H & Hr)|[(e & [=] & _)|[[=] _]]].
  apply runs_call in H as (r' & -> & [= <-] & ->). destruct r as [x|exc]; [|run_inv1 Hr].
  apply runs_ret in Hr as (-> & [= ->] & ->).
  apply Exists_exists. eexists. split; [rewrite !elem_of_app; left; right; left; left|].
  left. exists ch, x. split; [done|].
  apply existsb_exists in Hp as (d & Hd & Heq). apply String.eqb_eq in Heq as ->. by apply list_elem_of_In.
Qed.

Section apache.
Context (h : RemoteHost).

Lemma passes_install : passes [step apache_present] (install_apache h).
Proof.
  apply (passes_test _ [] _ _ cmd_ok).
  - eapply ensures_weaken; [|intros ev Hev; left; exact Hev].
    intros s t r s' H Hr. eapply host_run_ensures; [exact H|]. by rewrite Hr.
  - intros r _. apply passes_none.
  - intros r ->. apply passes_skip. intros _. apply passes_last.
    apply passes_step. intros s t r' s' H _. eapply Exists_impl.
    + eapply sudo_ensures; [exact H|by rewrite orb_true_r].
    + intros ev Hev. by right.
Qed.

Lemma passes_modules ms : passes (module_steps ms) (enable_modules h ms).
Proof.
  apply passes_for_each. intros m. apply ensures_bind_l. intros s t r s' H _.
  eapply sudo_ensures; [exact H|]. by rewrite orb_true_r.
Qed.

Lemma passes_listen port : passes [step (listens port)] (_ensure_listen_port h port).
Proof.
  apply (passes_test _ [] _ _ (λ current, existsb (String.eqb (str_of_Z port)) (listen_directives current))).
  - apply read_listens.
  - intros current _. apply passes_none.
  - intros current Hc. cbv beta in Hc. rewrite Hc. apply passes_last, passes_step. intros s t r s' H _. eapply Exists_impl.
    + eapply sudo_ensures; [exact H|by rewrite orb_true_r].
    + intros ev Hev. by right.
Qed.

Lemma passes_restart : passes restart_steps (restart_apache h).
Proof.
  unfold restart_apache.
  apply (passes_test _ _ _ _ cmd_ok); [intros s t r s' H Hr; eapply sudo_ensures; [exact H|by rewrite Hr]| |].
  2: { intros r ->. apply passes_raise. }
  intros r ->. cbn [negb]. apply (passes_bind [_]); [apply passes_sudo|intros _].
  apply passes_skip. intros _.
  apply (passes_test _ _ _ _ (λ r, String.eqb (py_strip (stdout r)) "active")).
  - intros s t r' s' H Hr%String.eqb_eq. destruct (is_active_seen _ _ _ _ _ H Hr) as (ev & Hin & Hev).
    apply Exists_exists. eauto.
  - intros r' Hr. cbv beta in Hr. rewrite Hr. apply passes_none.
  - intros r' Hr. cbv beta in Hr. rewrite Hr. apply passes_skip. intros ?. apply passes_raise.
Qed.

Lemma passes_backend b root :
  passes (apache_steps _BACKEND_MODULES (http_port b) (render_backend_vhost b root)) (configure_backend h b root).
Proof.
  unfold configure_backend, apache_steps.
  apply passes_bind; [apply passes_install|intros _]. apply passes_bind; [apply passes_modules|intros _].
  apply passes_bind; [apply passes_listen|intros _]. apply passes_bind; [apply passes_put|intros _].
  apply passes_restart.
Qed.

Lemma passes_balancer config members s t s' :
  runs (configure_balancer h config members) s t (Ok tt) s' →
  ∃ vhost, render_balancer_vhost config members = inr vhost ∧
    in_turn (apache_steps _BALANCER_MODULES (http_port (jump config)) vhost) t.
Proof.
  destruct (render_balancer_vhost config members) as [e|vhost] eqn:Hv; intros H.
  - unfold configure_balancer in H. do 3 runs_ok H. rewrite Hv in H. cbn [lift_res] in H.
    apply runs_bind in H as [(v & ? & ? & ? & _ & H & _)|[(? & [=] & _)|[[=] _]]]. by run_inv1 H.
  - exists vhost. split; [done|]. revert s t s' H.
    cut (passes (apache_steps _BALANCER_MODULES (http_port (jump config)) vhost)
      (configure_balancer h config members)); [intros Hp s t s' H; by eapply Hp|].
    unfold configure_balancer, apache_steps.
    apply passes_bind; [apply passes_install|intros _]. apply passes_bind; [apply passes_modules|intros _].
    apply passes_bind; [apply passes_listen|intros _]. rewrite Hv. cbn [lift_res].
    intros s t a s' H. apply runs_bind in H as [(v & s1 & t1 & t2 & -> & H1 & H)|[(? & [=] & _)|[[=] _]]].
    apply runs_ret in H1 as (-> & [= ->] & ->). change ([] ++ t2) with t2. revert s t2 a s' H.
    apply passes_bind; [apply passes_put|intros _]. apply passes_restart.
Qed.
End apache.

(** ** A backend *)

Definition fetch_command (website : WebsiteConfig) : string :=
  "curl -fsSL --http1.1 --retry 5 --retry-delay 3 --retry-all-errors "
  +:+ "--connect-timeout 30 " +:+ archive_url website +:+ " | tar -xz -C " +:+ _STAGING_DIR.
Definition stamp_command (root hn : string) : string := "sh -c " +:+ _shell_quote (stamp_script root hn).

(** The site was fetched, its only directory put in place of the document
    root, and its pages stamped. *)
Definition site_steps (website : WebsiteConfig) (hn site_root : string) : list (trace → Prop) :=
  [step (plain_ok (fetch_command website)); step (plain_ok ("test -f " +:+ site_root +:+ "/index.html"))] ++
  map (λ c, step (privileged_ok c)) (publish_commands site_root (document_root website)) ++
  [step (privileged_ok (stamp_command (document_root website) hn))].

(** One connection to the address, as the configured account with its key;
    [tb] is the run between its opening and its end. *)
Definition session (cfg : SSHConfig) (addr : string) (k : Z) (tb t : trace) : Prop :=
  ∃ tm tc, t = [Ev (IsFile (key_path cfg)) true;
                Ev (SshConnect addr (user cfg) (key_path cfg) tm) (Connected k)] ++ tb ++ tc ∧
    opened tc = [] ∧ closed tc = [k].

(** The run in which a backend was configured: one connection to its address,
    over which its virtual host was put in place and served, and then the
    site. *)
Definition backend_configured (config : ClusterConfig) (addrs : addresses) (b : HostConfig) (t : trace) : Prop :=
  ∃ addr k tb site_root, dict_get (hostname b) addrs = Some addr ∧
    session (ssh config) addr k tb t ∧ Forall (over k) tb ∧
    in_turn (apache_steps _BACKEND_MODULES (http_port b)
               (render_backend_vhost b (document_root (website config))) ++
             site_steps (website config) (hostname b) site_root) tb.

Lemma passes_fetch h website s t site_root s' :
  runs (fetch_site_to_guest h website) s t (Ok site_root) s' →
  in_turn [step (plain_ok (fetch_command website));
           step (plain_ok ("test -f " +:+ site_root +:+ "/index.html"))] t.
Proof.
  intros H. unfold fetch_site_to_guest in H. runs_ok H. apply in_turn_after.
  apply runs_bind in H as [(r & s1 & t1 & t2 & -> & H1 & H)|[(? & [=] & _)|[[=] _]]].
  apply (in_turn_app [_]).
  - revert H1. apply (passes_rewrap [step (plain_ok (fetch_command website))]). apply passes_step.
    intros s2 t3 r' s3 H3 _. eapply host_run_ensures; [exact H3|by rewrite orb_true_r].
  - clear H1. runs_ok H. apply in_turn_after. destruct (cmd_lines _) as [|root [|? ?]]; [by run_inv1 H| |by run_inv1 H].
    apply runs_bind in H as [(i & s5 & t5 & t6 & -> & H5 & H)|[(? & [=] & _)|[[=] _]]].
    destruct (cmd_ok i) eqn:Hi; [|by run_inv1 H]. apply runs_ret in H as (-> & [= ->] & ->).
    rewrite app_nil_r. exists [], t5, []. rewrite app_nil_r. split_and!; [done| |done].
    eapply host_run_ensures; [exact H5|by rewrite Hi].
Qed.

Lemma passes_publish h website hn s t s' :
  runs (publish_site h website hn) s t (Ok tt) s' → ∃ site_root, in_turn (site_steps website hn site_root) t.
Proof.
  intros H. unfold publish_site in H.
  apply runs_bind in H as [(root & s1 & t1 & t2 & -> & H1 & H)|[(? & [=] & _)|[[=] _]]].
  exists root. apply in_turn_app; [by eapply passes_fetch|]. revert s1 t2 s' H H1.
  cut (passes (map (λ c, step (privileged_ok c)) (publish_commands root (document_root website)) ++
       [step (privileged_ok (stamp_command (document_root website) hn))])
    (rewrap (for_each (publish_commands root (document_root website)) (λ c, sudo h c true None ;; ret tt))
       CRemoteCommandError (λ exc, WebsiteFetchError
         ("Could not install site content into " +:+ document_root website +:+ " on " +:+ address h +:+ ": "
          +:+ str_exn exc)) ;;
     stamp_backend_identity h (document_root website) hn ;;
     host_run h ("rm -rf " +:+ _STAGING_DIR) false None ;; ret tt)).
  { intros Hp s1 t2 s' H _. by eapply Hp. }
  apply passes_bind; [by apply passes_rewrap, passes_all|intros _]. apply passes_last.
  unfold stamp_backend_identity. apply passes_last. apply passes_rewrap, passes_sudo.
Qed.

Lemma backend_runs config addrs b s t s' :
  runs (configure_one_backend config addrs b) s t (Ok tt) s' → backend_configured config addrs b t.
Proof.
  intros H. unfold configure_one_backend, getitem in H.
  destruct (dict_get (hostname b) addrs) as [addr|] eqn:Ha; [|do 1 runs_ok H; match goal with
    Hr : runs (raise _) _ _ _ _ |- _ => by run_inv1 Hr end].
  apply runs_bind in H as [(a & s1 & t1 & t2 & -> & H1 & H)|[(? & [=] & _)|[[=] _]]].
  apply runs_ret in H1 as (-> & [= ->] & ->). change ([] ++ t2) with t2.
  apply with_host_spec in H as [(e & [=] & _)|(k & s2 & tb & s3 & tc & -> & H & _ & _ & Ho & Hc & _ & Hk)];
    [| |done].
  2: { intros h. pose proof configure_backend_op. pose proof publish_op. by host_op_auto. }
  assert (speaks (length s) (configure_backend (MkRemoteHost addr (ssh config) (length s)) b (document_root (website config)) ;;
    publish_site (MkRemoteHost addr (ssh config) (length s)) (website config) (hostname b))) as Hsp.
  { apply speaks_bind; [apply (configure_backend_op (MkRemoteHost _ _ _))|apply (backend_speaks (MkRemoteHost _ _ _))|].
    intros _. apply (publish_speaks (MkRemoteHost _ _ _)). }
  pose proof (Hsp k _ _ _ _ Hk H) as Hover.
  apply runs_bind in H as [([] & s4 & ta & tp & -> & H1 & H)|[(? & [=] & _)|[[=] _]]].
  apply passes_publish in H as [site_root Hsite]. exists addr, k, (ta ++ tp), site_root.
  split_and!; [done| |exact Hover|].
  - by eexists _, tc.
  - apply in_turn_app; [by eapply passes_backend|exact Hsite].
Qed.

(** The backends one after another. *)
Lemma backends_run config addrs bs s t s' :
  runs (for_each bs (configure_one_backend config addrs)) s t (Ok tt) s' →
  ∃ ts, t = concat ts ∧ Forall2 (backend_configured config addrs) bs ts.
Proof.
  revert s t. induction bs as [|b bs IH]; intros s t H; simpl in H.
  - apply runs_ret in H as (-> & _). by exists [].
  - apply runs_bind in H as [([] & s1 & t1 & t2 & -> & H1 & H)|[(? & [=] & _)|[[=] _]]].
    destruct (IH _ _ H) as (ts & -> & Hts). exists (t1 :: ts). split; [done|].
    constructor; [by eapply backend_runs|done].
Qed.

(** ** The jump station *)

(** The key file gave this key. *)
Definition key_given (p : path) (key : bytes) (t : trace) : Prop :=
  ∃ payload, file_content p payload t ∧ key_reads p payload key.

Section jump.
Context {tmp : TempDir} {aead : AEAD} {laws : AEADLaws aead} (config : ClusterConfig).
Let inv := inventory config.
Let dir := remote_dir inv.
Let key_path := dir +:+ "/" +:+ path_name (key_file inv).
Let store_path := dir +:+ "/" +:+ datastore_name inv.

(** The binary was found current, or was rebuilt. *)
Definition binary_current (source_dir : path) (t : trace) : Prop :=
  ∃ t1 t2 stale, t = t1 ++ t2 ∧ examined dir source_dir t1 stale ∧
    if stale : bool then rebuilt dir source_dir t2 else t2 = [].

Definition root_steps (cmds : list string) : list (trace → Prop) :=
  map (λ c, step (privileged_ok c)) cmds.

(** The service has its directory, a current binary, its key and its unit, and
    was seen running. *)
Definition service_steps (source_dir : path) (key : bytes) : list (trace → Prop) :=
  root_steps (group_commands dir) ++
  [binary_current source_dir; key_given (key_file inv) key; installed (_encode_key key) key_path mode_640] ++
  root_steps ["chgrp vmdeploy-inventory " +:+ key_path; "chmod 0640 " +:+ key_path] ++
  [installed (utf8_encode (render_unit config)) _SERVICE_UNIT mode_644] ++
  root_steps ["systemctl daemon-reload"; "systemctl enable " +:+ SERVICE_NAME +:+ ".service";
              "systemctl restart " +:+ SERVICE_NAME +:+ ".service"] ++
  [step (said service_active (λ out, String.eqb (py_strip out) "active"))].

(** The datastore in its place opens, under the key the key file gave, to these
    records, and so does the manifest. *)
Definition store_steps (records : list InventoryRecord) (key blob : bytes) : list (trace → Prop) :=
  [key_given (key_file inv) key; installed blob store_path mode_660] ++
  root_steps ["chgrp vmdeploy-inventory " +:+ store_path; "chmod 0660 " +:+ store_path] ++
  [manifest_written config records].

(** Each host is on record with the address it was found at. *)
Definition on_record (addrs : addresses) (records : list InventoryRecord) : Prop :=
  ∀ h, h ∈ all_hosts config →
    ∃ r, record_of (hostname h) records = Some r ∧ r_ipv4 r = address_of addrs (hostname h).

Definition jump_configured (addrs : addresses) (source_dir : path) (t : trace) : Prop :=
  ∃ addr k ta te ts vhost key, dict_get (hostname (jump config)) addrs = Some addr ∧
    session (ssh config) addr k (ta ++ te ++ ts) t ∧ Forall (over k) ta ∧ Forall (over k) ts ∧
    render_balancer_vhost config addrs = inr vhost ∧
    in_turn (apache_steps _BALANCER_MODULES (http_port (jump config)) vhost ++ service_steps source_dir key) ta ∧
    (Forall urandom_ok ts → ∃ records key' blob, on_record addrs records ∧
       in_turn (store_steps records key' blob) ts ∧ decrypt_records blob key' = inr records).

Lemma passes_load p s t key s' :
  runs (load_or_create_key p) s t (Ok key) s' → in_turn [key_given p key] t.
Proof.
  intros (payload & H1 & H2)%load_or_create_reads. exists [], t, []. rewrite app_nil_r.
  split_and!; [done|by exists payload|done].
Qed.

Section service.
Context (h : RemoteHost) (d : path).

Lemma passes_root cmds : passes (root_steps cmds) (sudo_all h cmds).
Proof. apply passes_all. Qed.

Lemma service_runs s t s' :
  runs (deploy_service h config d) s t (Ok tt) s' → ∃ key, in_turn (service_steps d key) t.
Proof.
  intros H. unfold deploy_service in H. cbv zeta in H. fold inv dir key_path in H.
  apply runs_bind in H as [([] & s1 & t1 & t2 & -> & H1 & H)|[(? & [=] & _)|[[=] _]]].
  apply runs_bind in H as [(stale & s2 & t3 & t4 & -> & H3 & H)|[(? & [=] & _)|[[=] _]]].
  apply runs_bind in H as [(key & s3 & t5 & t6 & -> & H5 & H)|[(? & [=] & _)|[[=] _]]].
  exists key. unfold service_steps. apply in_turn_app; [by eapply passes_root|].
  apply (in_turn_app [_]).
  { apply (ensure_current h dir) in H3 as (ta & tb & -> & Hex & Hb); [|done].
    exists [], (ta ++ tb), []. rewrite app_nil_r. split_and!; [done|by exists ta, tb, stale|done]. }
  apply (in_turn_app [_]); [by eapply passes_load|].
  clear H1 H3 H5. revert H. generalize t6, s'. revert s3.
  cut (passes ([installed (_encode_key key) key_path mode_640] ++
    root_steps ["chgrp vmdeploy-inventory " +:+ key_path; "chmod 0640 " +:+ key_path] ++
    [installed (utf8_encode (render_unit config)) _SERVICE_UNIT mode_644] ++
    root_steps ["systemctl daemon-reload"; "systemctl enable " +:+ SERVICE_NAME +:+ ".service";
              "systemctl restart " +:+ SERVICE_NAME +:+ ".service"] ++
    [step (said service_active (λ out, String.eqb (py_strip out) "active"))])
   (put_bytes h (_encode_key key) key_path mode_640 ;;
    sudo_all h ["chgrp vmdeploy-inventory " +:+ key_path; "chmod 0640 " +:+ key_path] ;;
    put_bytes h (utf8_encode (render_unit config)) _SERVICE_UNIT mode_644 ;;
    sudo_all h ["systemctl daemon-reload"; "systemctl enable " +:+ SERVICE_NAME +:+ ".service";
                "systemctl restart " +:+ SERVICE_NAME +:+ ".service"] ;;
    active <- host_run h service_active false None ;;
    if negb (String.eqb (py_strip (stdout active)) "active") then
      journal <- sudo h ("journalctl -u " +:+ SERVICE_NAME +:+ ".service --no-pager -n 40") false None ;;
      raise (VmDeployError
        ("Inventory service failed to start on " +:+ address h +:+ ": "
         +:+ str_or (py_strip (stdout active)) "unknown" +:+ nl +:+ py_strip (stdout journal)))
    else ret tt)); [by intros Hp s3 t6' s'' H; eapply Hp|].
  apply passes_bind; [apply passes_put|intros _]. apply passes_bind; [apply passes_root|intros _].
  apply passes_bind; [apply passes_put|intros _]. apply passes_bind; [apply passes_root|intros _].
  apply (passes_test _ _ _ _ (λ r, String.eqb (py_strip (stdout r)) "active")).
  - intros s0 t0 r s0' H0 Hr. eapply host_run_said; [exact H0|exact Hr].
  - intros r Hr. cbv beta in Hr. rewrite Hr. apply passes_none.
  - intros r Hr. cbv beta in Hr. rewrite Hr. apply passes_skip. intros ?. apply passes_raise.
Qed.

Lemma store_runs records s t s' :
  runs (seed_inventory h config records) s t (Ok tt) s' → Forall urandom_ok t →
  ∃ key blob, in_turn (store_steps records key blob) t ∧ decrypt_records blob key = inr records.
Proof.
  intros H Hu. unfold seed_inventory in H. cbv zeta in H. fold inv dir store_path in H.
  apply runs_bind in H as [(key & s1 & t1 & t2 & -> & H1 & H)|[(? & [=] & _)|[[=] _]]].
  apply runs_bind in H as [(blob & s2 & t3 & t4 & -> & H3 & H)|[(? & [=] & _)|[[=] _]]].
  apply runs_bind in H as [([] & s3 & t5 & t6 & -> & H5 & H)|[(? & [=] & _)|[[=] _]]].
  apply runs_bind in H as [([] & s4 & t7 & t8 & -> & H7 & H)|[(? & [=] & _)|[[=] _]]].
  rewrite !Forall_app in Hu. destruct Hu as (_ & Hu3 & _ & _ & Hu8).
  exists key, blob. split; [|by eapply encrypt_opens].
  apply (in_turn_app [_]); [by eapply passes_load|]. apply in_turn_after.
  apply (in_turn_app [_]); [by eapply passes_put|].
  apply in_turn_app.
  - revert H7. apply passes_rewrap. unfold root_steps. cbn [map].
    apply (passes_bind [_]); [apply passes_sudo|intros _]. apply passes_last, passes_sudo.
  - exists [], t8, []. rewrite app_nil_r. split_and!; [done|by eapply write_local_manifest_written|done].
Qed.
End service.

(** ** The records *)

Lemma fold_on_record addrs ipv6 timestamp hosts records :
  (∀ n r, record_of n records = Some r → r_ipv4 r = address_of addrs n) →
  let result := fold_left (λ records h, upsert records (host_record addrs ipv6 timestamp h)) hosts records in
  (∀ n r, record_of n result = Some r → r_ipv4 r = address_of addrs n) ∧
  ∀ n, (∃ h, h ∈ hosts ∧ hostname h = n) ∨ is_Some (record_of n records) → is_Some (record_of n result).
Proof.
  revert records. induction hosts as [|x hosts IH]; intros records Hr; cbn [fold_left].
  { split; [exact Hr|]. intros n [(h & Hh & _)|Hs]; [by apply elem_of_nil in Hh|exact Hs]. }
  destruct (IH (upsert records (host_record addrs ipv6 timestamp x))) as [H1 H2].
  { intros n r. rewrite upsert_lookup. cbn [r_hostname host_record].
    destruct (String.eqb_spec (hostname x) n) as [<-|]; [|apply Hr]. by intros [= <-]. }
  split; [exact H1|]. intros n Hn. apply H2. rewrite upsert_lookup. cbn [r_hostname host_record].
  destruct (String.eqb_spec (hostname x) n) as [He|Hne]; [right; by eexists|].
  destruct Hn as [(h & Hh & <-)|Hs]; [|by right]. left. exists h. split; [|done].
  by apply elem_of_cons in Hh as [->|Hh].
Qed.

Lemma build_on_record addrs ipv6 s t records s' :
  runs (build_records config addrs ipv6) s t (Ok records) s' → on_record addrs records.
Proof.
  intros H. unfold build_records in H.
  apply runs_bind in H as [(ts & s1 & t1 & t2 & -> & _ & H)|[(? & [=] & _)|[[=] _]]].
  apply runs_ret in H as (_ & [= ->] & _).
  destruct (fold_on_record addrs (default [] ipv6) ts (all_hosts config) []) as [H1 H2]; [done|].
  intros h Hh. destruct (H2 (hostname h)) as [r Hr]; [left; by exists h|]. exists r. split; [exact Hr|by apply H1].
Qed.

Lemma seed_speaks h records : speaks (sid h) (seed_inventory h config records).
Proof.
  pose proof (load_key_speaks h).
  assert (∀ rs k, speaks (sid h) (encrypt_records rs k)) as He.
  { intros rs k. apply speaks_quiet. unfold encrypt_records. by quiet_auto. }
  assert (∀ rs, speaks (sid h) (write_local_manifest config rs)) as Hm.
  { intros rs. apply speaks_quiet. unfold write_local_manifest, load_or_create_key, load_key, write_key_file,
      generate_key, encrypt_records. by quiet_auto. }
  unfold seed_inventory. cbv zeta. by repeat speaks_step.
Qed.

Lemma balancer_speaks h addrs : speaks (sid h) (configure_balancer h config addrs).
Proof.
  unfold configure_balancer, install_apache, enable_modules, _ensure_listen_port, restart_apache.
  by repeat speaks_step.
Qed.

Lemma jump_runs addrs d addr s t s' :
  dict_get (hostname (jump config)) addrs = Some addr →
  runs (with_host addr (ssh config) (configure_jump config addrs d)) s t (Ok tt) s' → jump_configured addrs d t.
Proof.
  intros Ha H.
  apply with_host_nested_spec in H as [[(e & [=]) _]|(s1 & tb & s2 & H & _ & Hlen & _ & _ & _ & k & tc & -> & Ho & Hc & Hk)];
    [|apply configure_jump_keeps|done].
  set (h := MkRemoteHost addr (ssh config) (length s)) in *. cbv zeta in *. unfold configure_jump in H.
  assert (sid h < length s1) as Hlt by (rewrite Hlen; simpl; lia).
  apply runs_bind in H as [([] & s3 & t1 & t2 & -> & H1 & H)|[(? & [=] & _)|[[=] _]]].
  destruct (configure_balancer_op h config addrs _ _ _ _ H1) as (_ & Hl3 & Hc3).
  assert (s_client (session_of s3 (sid h)) = Some k) as Hk3 by (rewrite Hc3; exact Hk).
  apply runs_bind in H as [([] & s4 & t3 & t4 & -> & H3 & H)|[(? & [=] & _)|[[=] _]]].
  destruct (deploy_service_op h config d _ _ _ _ H3) as (_ & Hl4 & Hc4).
  apply runs_bind in H as [(ipv6 & s5 & t5 & t6 & -> & H5 & H)|[(? & [=] & _)|[[=] _]]].
  destruct (enrich_keeps config (sid h) addrs _ _ _ _ _ _ H5) as (_ & Hc5 & _); [done|by rewrite Hl4, Hl3|].
  apply runs_bind in H as [(records & s6 & t7 & t8 & -> & H7 & H)|[(? & [=] & _)|[[=] _]]].
  destruct (build_records_op (sid h) config addrs (Some ipv6) _ _ _ _ H7) as (_ & _ & Hc6).
  assert (s_client (session_of s6 (sid h)) = Some k) as Hk6 by (rewrite Hc6, Hc5, Hc4; exact Hk3).
  pose proof (balancer_speaks h addrs k _ _ _ _ Hk H1) as Hs1.
  pose proof (deploy_service_speaks h config d k _ _ _ _ Hk3 H3) as Hs3.
  pose proof (seed_speaks h records k _ _ _ _ Hk6 H) as Hs8.
  apply passes_balancer in H1 as (vhost & Hv & Hbal). apply service_runs in H3 as [key Hserv].
  exists addr, k, (t1 ++ t3), (t5 ++ t7), t8, vhost, key. split_and!; [exact Ha| | |exact Hs8|exact Hv| |].
  - eexists _, tc. split_and!; [|exact Ho|exact Hc]. by rewrite <- !app_assoc.
  - apply Forall_app. by split.
  - by apply in_turn_app.
  - intros Hu. destruct (store_runs h records _ _ _ H Hu) as (key' & blob & Hst & Hd).
    exists records, key', blob. split_and!; [by eapply build_on_record|exact Hst|exact Hd].
Qed.
End jump.
