(* ===== verification/CliGuarantees.v ===== *)
(** * What each command guarantees

    [main]: its exit codes and what it can change.  [deploy]: the verdict of
    the preflight and the order of the steps.  [configure]: no session before
    all addresses, and every guest configured on return.  [teardown]: the confirmation, and the manifest last. *)

From S2P Require Import Prelude PyStr Exceptions Paths Effects Reasoning Values Bytes Seed.
From S2P Require Import Inventory Config VirtualBox VirtualBoxFacts SshClient SshFacts SshNesting.
From S2P Require Import Website Apache InventoryService InventoryServiceFacts Setup SetupFacts.
From S2P Require Import Provision ProvisionFacts ClusterFacts Float64 Preflight PreflightFacts Cli CliFacts.
From S2P Require Import ArgParse CliParser CliParserFacts Configured.

#[export] Set Default Goal Selector "!".

(** ** Exit codes *)

Ltac returns_auto :=
  repeat lazymatch goal with
  | |- returns (bind _ _) _ => apply returns_bind_any; intros ?
  | |- returns (raise _) _ => apply returns_raise
  | |- returns (ret _) _ => apply returns_ret
  | |- returns (match ?x with _ => _ end) _ => destruct x
  end.

Section codes.
Context {tmp : TempDir} {parser : TomlParser} {aead : AEAD}.
Context (config : ClusterConfig) (args : Namespace).

Lemma step_returns step : step ∈ deploy_steps → returns (step config args) (λ c, c = EXIT_OK).
Proof.
  unfold deploy_steps. rewrite !elem_of_cons, elem_of_nil. intros [->|[->|[->|[]]]].
  - unfold cmd_template. by returns_auto.
  - unfold cmd_provision. by returns_auto.
  - unfold cmd_configure. cbv zeta. by returns_auto.
Qed.

(** The steps run one after another, as none of them reports a failure by its
    status. *)
Lemma run_steps_cons step steps s t o s' :
  step ∈ deploy_steps →
  runs (run_steps config args (step :: steps)) s t o s' →
  runs (step config args ;; run_steps config args steps) s t o s'.
Proof.
  intros Hin H. cbn [run_steps] in H. apply runs_bind. apply runs_bind in H as [H|H]; [left|by right].
  destruct H as (c & s1 & t1 & t2 & -> & H1 & H). exists c, s1, t1, t2. split_and!; [done..|].
  by rewrite (step_returns _ Hin _ _ _ _ H1) in H.
Qed.

Lemma handler_returns c : returns (handler_of c config args) (λ z, z = EXIT_OK ∨ z = EXIT_FAILURE).
Proof.
  destruct c as [u k b|u k b|b| | | |b1 b2| |yes]; cbn [handler_of].
  - unfold cmd_setup. returns_auto; auto.
  - unfold cmd_restore_bootstrap. returns_auto; auto.
  - unfold cmd_template. returns_auto; auto.
  - unfold cmd_provision. returns_auto; auto.
  - unfold cmd_configure. cbv zeta. returns_auto; auto.
  - unfold cmd_preflight. returns_auto; case_bool_decide; auto.
  - unfold cmd_deploy. apply returns_bind_any. intros [|]; [apply returns_ret; auto|].
    intros s t z s' H. left. unfold deploy_steps in H.
    do 3 (apply run_steps_cons in H; [|unfold deploy_steps; rewrite !elem_of_cons; tauto]; runs_ok H).
    by apply runs_ret in H as (_ & [= ->] & _).
  - unfold cmd_status. returns_auto. match goal with |- context [if ?b then _ else _] => destruct b end; auto.
  - unfold cmd_teardown. cbv zeta. returns_auto; auto.
Qed.
End codes.

(** ** The entry point *)

Lemma reads_only_may x vms ev : reads_only ev → may x vms ev.
Proof. intros H. apply may_quiet; unfold reads_only, changes, exports in *; by destruct (ev_eff ev). Qed.

Lemma load_settled (parser : TomlParser) p : settled (load_cluster_config p).
Proof.
  intros s t o s' H _. destruct (load_cluster_config_reads parser p _ _ _ _ H) as [Ht _].
  assert (Forall no_connection t) as Hn.
  { eapply Forall_impl; [exact Ht|]. intros [[] r] He; by try destruct He. }
  by destruct (no_connection_opened _ Hn) as [-> ->].
Qed.

Section entry.
Context {tmp : TempDir} {parser : TomlParser} {aead : AEAD} (args : Namespace).

Lemma main_terminates : terminates (dispatch args).
Proof.
  unfold dispatch, guard_main. apply terminates_catch.
  - apply terminates_bind; [apply load_cluster_config_terminates|intros config; apply handler_terminates].
  - handler_cases; apply terminates_ret.
Qed.

Lemma main_settled : settled (dispatch args).
Proof.
  unfold dispatch, guard_main. apply settled_catch.
  - apply settled_bind; [apply load_settled|intros config; apply handler_settled].
  - handler_cases; apply settled_ret.
Qed.

(** The exit code an outcome of the configuration and the handler becomes. *)
Definition exit_of (o : outcome Z) : outcome Z :=
  match o with
  | Raise e => if isinstance e CVmDeployError then Ok EXIT_FAILURE
               else if isinstance e CKeyboardInterrupt then Ok EXIT_INTERRUPTED else Raise e
  | o => o
  end.

(** How a run of [main] decomposes: the configuration is read, and, if it
    loads, the handler runs; what it raises becomes an exit code. *)
Lemma main_spec s t o s' :
  runs (dispatch args) s t o s' →
  ∃ oc s1 t1 t2, t = t1 ++ t2 ∧ runs (load_cluster_config (config_file args)) s t1 oc s1 ∧
    match oc with
    | Ok config => ∃ o1, runs (handler_of (command args) config args) s1 t2 o1 s' ∧ o = exit_of o1
    | Raise e => t2 = [] ∧ o = exit_of (Raise e)
    | OutOfFuel => t2 = [] ∧ o = OutOfFuel
    end.
Proof.
  assert (∀ s t o s', runs (config <- load_cluster_config (config_file args) ;;
      handler_of (command args) config args) s t o s' →
    ∃ oc s1 t1 t2, t = t1 ++ t2 ∧ runs (load_cluster_config (config_file args)) s t1 oc s1 ∧
      match oc with
      | Ok config => runs (handler_of (command args) config args) s1 t2 o s'
      | Raise e => t2 = [] ∧ s' = s1 ∧ o = Raise e
      | OutOfFuel => t2 = [] ∧ o = OutOfFuel
      end) as Hbody.
  { clear. intros s t o s' H.
    apply runs_bind in H as [(c & s1 & t1 & t2 & -> & H1 & H)|[(e & -> & H)|[-> H]]].
    - by exists (Ok c), s1, t1, t2.
    - exists (Raise e), s', t, []. by rewrite app_nil_r.
    - exists OutOfFuel, s', t, []. by rewrite app_nil_r. }
  intros H. unfold dispatch, guard_main in H.
  apply runs_catch in H as [(e & m' & s1 & t1 & t2 & -> & H1 & He & H2)|[H Ho]].
  - assert (exit_of (Raise e) = o ∧ t2 = [] ∧ s' = s1) as (Hx & -> & ->).
    { unfold exit_of. destruct (isinstance e CVmDeployError); [|destruct (isinstance e CKeyboardInterrupt); [|done]];
        injection He as <-; by apply runs_ret in H2 as (-> & -> & ->). }
    rewrite app_nil_r. destruct (Hbody _ _ _ _ H1) as (oc & s2 & ta & tb & -> & Hl & Hc).
    exists oc, s2, ta, tb. split_and!; [done..|]. destruct oc as [config|e'|].
    + exists (Raise e). by rewrite Hx.
    + by destruct Hc as (-> & -> & [= ->]).
    + by destruct Hc as [_ [=]].
  - destruct (Hbody _ _ _ _ H) as (oc & s2 & ta & tb & -> & Hl & Hc). exists oc, s2, ta, tb.
    assert (exit_of o = o) as Hx.
    { unfold exit_of. destruct o as [c|e|]; [done| |done].
      by destruct (isinstance e CVmDeployError), (isinstance e CKeyboardInterrupt). }
    split_and!; [done..|]. destruct oc as [config|e'|]; [by exists o| |done].
    destruct Hc as (-> & -> & ->). done.
Qed.
End entry.

(** Loading begins with the file of the configuration. *)
Lemma load_reads_first (parser : TomlParser) p s t o s' :
  runs (load_cluster_config p) s t o s' → ∃ r t', t = Ev (ReadBytes p) r :: t'.
Proof.
  assert (∀ s t o s', runs (_load_toml p) s t o s' → ∃ r t', t = Ev (ReadBytes p) r :: t') as Hl.
  { clear. intros s t o s' H. unfold _load_toml in H.
    apply runs_bind in H as [(r & s2 & t3 & t4 & -> & H & _)|[(e & -> & H)|[-> H]]]; [|by run_inv1 H..].
    apply runs_call in H as (r' & -> & _ & _). by eexists _, _. }
  intros H. unfold load_cluster_config in H.
  apply runs_bind in H as [(d & s1 & t1 & t2 & -> & H & _)|[(e & -> & H)|[-> H]]];
    apply Hl in H as (r & t' & ->); by eexists _, _.
Qed.

(** A parsed command is contained. *)
Lemma dispatch_contained {tmp : TempDir} {parser : TomlParser} {aead : AEAD} args now s t o s' :
  runs (dispatch args) s t o s' → clock_ok now t →
  o ≠ OutOfFuel ∧ opened t ≡ₚ closed t ∧
  (∀ c, o = Ok c → c ∈ [EXIT_OK; EXIT_FAILURE; EXIT_INTERRUPTED]) ∧
  (∀ e, o = Raise e → isinstance e CVmDeployError = false) ∧
  ∃ oc s1 t1 t2, t = t1 ++ t2 ∧ runs (load_cluster_config (config_file args)) s t1 oc s1 ∧
    Forall reads_only t1 ∧ (∃ r t3, t1 = Ev (ReadBytes (config_file args)) r :: t3) ∧
    match oc with
    | Ok config => valid_config config ∧
        Forall (may (exports_image (command args)) (machines_of config (command args))) t2 ∧
        ∃ o1, runs (handler_of (command args) config args) s1 t2 o1 s' ∧ o = exit_of o1
    | Raise e => t2 = [] ∧ o = exit_of (Raise e)
    | OutOfFuel => False
    end.
Proof.
  intros H Hc. pose proof (main_terminates args _ _ _ _ _ H Hc) as Ho.
  split; [done|]. split; [by eapply main_settled|].
  destruct (main_spec args _ _ _ _ H) as (oc & s1 & t1 & t2 & -> & Hl & Hrun).
  assert (∃ o1, o = exit_of o1 ∧ ∀ c, o1 = Ok c → c = EXIT_OK ∨ c = EXIT_FAILURE) as (o1 & -> & Hcode).
  { destruct oc as [config|e|].
    - destruct Hrun as (o1 & Hr & ->). exists o1. split; [done|]. intros c ->. by apply handler_returns in Hr.
    - destruct Hrun as [_ ->]. by exists (Raise e).
    - destruct Hrun as [_ ->]. by exists OutOfFuel. }
  split_and!.
  - intros c Hx. destruct o1 as [c1|e|]; cbn [exit_of] in Hx; [|destruct (isinstance e CVmDeployError);
      [|destruct (isinstance e CKeyboardInterrupt); [|done]]; injection Hx as <-; set_solver|done].
    injection Hx as <-. destruct (Hcode _ eq_refl); set_solver.
  - intros e Hx. destruct o1 as [c1|e1|]; cbn [exit_of] in Hx; [done| |done].
    destruct (isinstance e1 CVmDeployError) eqn:H1; [done|].
    destruct (isinstance e1 CKeyboardInterrupt); [done|]. by injection Hx as ->.
  - exists oc, s1, t1, t2. split_and!; [done..|by eapply load_cluster_config_reads|by eapply load_reads_first|].
    destruct oc as [config|e|]; [|done|by destruct Hrun as [_ Hx]].
    split; [by eapply load_cluster_config_returns|]. destruct Hrun as (o2 & Hr & Hx). split; [|by exists o2].
    by eapply handler_confined.
Qed.

(** C1: a command is contained.  A run of [main] on an argument vector that
    is no command prints the help or the usage and leaves with status 0 or 2;
    it does nothing else.  Otherwise logging is configured, and then the run
    ends; it closes every connection it opens; the exit code is 0, 1 or 130,
    and no error of the package escapes.  It first loads the configuration,
    from the file the vector names and, as long as it loads, by looking at
    files and the environment only.  If that fails, nothing else is done; if
    it succeeds, the configuration is valid, the rest of the run is the
    handler of the subcommand with that configuration, whose result or error
    decides the exit code, the only machines changed are those that this
    configuration gives the subcommand, and an appliance is exported only by
    [template] and [deploy]. *)
Theorem main_is_contained {tmp : TempDir} {parser : TomlParser} {aead : AEAD} argv now s t o s' :
  runs (main argv) s t o s' → clock_ok now t →
  match read_command_line argv with
  | None => ∃ st ev, o = Raise (SystemExit st) ∧ (st = 0%Z ∨ st = 2%Z) ∧ t = [ev] ∧ usage_event st ev
  | Some (verbose, args) => ∃ t', t = logging_events verbose ++ t' ∧
      o ≠ OutOfFuel ∧ opened t' ≡ₚ closed t' ∧
      (∀ c, o = Ok c → c ∈ [EXIT_OK; EXIT_FAILURE; EXIT_INTERRUPTED]) ∧
      (∀ e, o = Raise e → isinstance e CVmDeployError = false) ∧
      ∃ oc s1 t1 t2, t' = t1 ++ t2 ∧ runs (load_cluster_config (config_file args)) s t1 oc s1 ∧
        Forall reads_only t1 ∧ (∃ r t3, t1 = Ev (ReadBytes (config_file args)) r :: t3) ∧
        match oc with
        | Ok config => valid_config config ∧
            Forall (may (exports_image (command args)) (machines_of config (command args))) t2 ∧
            ∃ o1, runs (handler_of (command args) config args) s1 t2 o1 s' ∧ o = exit_of o1
        | Raise e => t2 = [] ∧ o = exit_of (Raise e)
        | OutOfFuel => False
        end
  end.
Proof.
  intros H Hc. apply main_runs in H. destruct (read_command_line argv) as [[verbose args]|]; [|done].
  destruct H as (t' & -> & H). exists t'. split; [done|]. eapply dispatch_contained; [exact H|].
  exact Hc.
Qed.

(** ** Teardown *)

Section teardown.
Context {aead : AEAD} (config : ClusterConfig) (args : Namespace).

Lemma emits_print I X line : I (Ev (PrintLine line) tt) → emits I X (print line).
Proof. intros HI. refine (emits_call _ _ (PrintLine line) _). by intros []. Qed.

(** A listing of the machines without this one. *)
Definition seen_gone (vm : string) (ev : event) : Prop := ∃ vbox, name_free vbox vm ev.

(** A file of the operator's machine is written. *)
Definition writes_file (ev : event) : Prop :=
  match ev_eff ev with WriteBytes _ _ => True | _ => False end.

Definition is_print (ev : event) : Prop :=
  match ev_eff ev with PrintLine _ => True | _ => False end.

Definition no_inventory_error (e : exn) : Prop := isinstance e CInventoryError = false.

Lemma vm_error_no_inventory e : vm_error e → no_inventory_error e.
Proof. intros [He|He]; unfold no_inventory_error, isinstance; by rewrite He. Qed.

Lemma destroys_emit vbox : emits (λ ev, ¬ writes_file ev) no_inventory_error (teardown_cluster vbox config).
Proof.
  apply emits_for_each. intros h Hh. eapply emits_weaken.
  - apply (destroy_emits vbox (vm_name h) [vm_name h]). apply list_elem_of_here.
  - intros ev [_ Hev]. revert Hev. unfold writes_file. destruct (ev_eff ev); by auto.
  - apply vm_error_no_inventory.
Qed.

Lemma new_vbox_emits exe : emits (λ ev, ¬ writes_file ev) no_inventory_error (new_VBoxManage exe).
Proof.
  unfold new_VBoxManage. apply emits_bind; [refine (emits_call _ _ _ _); intros r; by intros []|intros b].
  destruct b; [apply emits_ret|by apply emits_raise].
Qed.

Lemma teardown_seen_gone vbox h :
  h ∈ all_hosts config → ensures (seen_gone (vm_name h)) (teardown_cluster vbox config) (λ _, true).
Proof.
  unfold teardown_cluster. generalize (all_hosts config) as hosts.
  induction hosts as [|h' hosts IH]; intros Hh; [by apply elem_of_nil in Hh|]. simpl.
  apply elem_of_cons in Hh as [->|Hh]; [|apply ensures_bind_r; intros _; by apply IH].
  apply ensures_bind_l. eapply ensures_weaken; [apply destroy_frees|]. intros ev Hev. by exists vbox.
Qed.

(** The manifest is written only once the guests are gone. *)
Lemma cmd_teardown_guarded yes h :
  h ∈ all_hosts config → guarded (seen_gone (vm_name h)) writes_file (cmd_teardown yes config args).
Proof.
  intros Hh. unfold cmd_teardown. cbv zeta. destruct (negb yes).
  { apply guarded_never. repeat (apply emits_bind; [apply emits_print; by intros []|intros _]). apply emits_ret. }
  apply guarded_bind; [apply guarded_never; eapply emits_weaken; [apply new_vbox_emits|done..]|intros vbox].
  apply (guarded_bind_ensures _ _ _ _ (λ _, true)); [|by apply teardown_seen_gone|done].
  apply guarded_never. by eapply emits_weaken; [apply destroys_emit|..].
Qed.

Lemma cmd_teardown_seen_gone h : h ∈ all_hosts config →
  ensures (seen_gone (vm_name h)) (cmd_teardown true config args) (λ _, true).
Proof.
  intros Hh. unfold cmd_teardown. cbv zeta. apply ensures_bind_r. intros vbox.
  by apply ensures_bind_l, teardown_seen_gone.
Qed.

Lemma cmd_teardown_errors yes : emits (λ _, True) no_inventory_error (cmd_teardown yes config args).
Proof.
  unfold cmd_teardown. cbv zeta. destruct (negb yes).
  { repeat (apply emits_bind; [by apply emits_print|intros _]). apply emits_ret. }
  apply emits_bind; [by eapply emits_weaken; [apply new_vbox_emits|..]|intros vbox].
  apply emits_bind; [by eapply emits_weaken; [apply destroys_emit|..]|intros _].
  apply emits_bind; [|intros _; apply emits_ret]. apply (emits_catch _ _ (λ _, True)).
  - by intros s t o s' _; split; [apply Forall_true|].
  - intros e _. unfold no_inventory_error. by destruct (isinstance e CInventoryError); [apply emits_ret|].
Qed.
End teardown.

(** C4: teardown asks first and spares the template.  Without the
    confirmation, [teardown] prints and returns 1, and does nothing else.
    With it, no machine but the configuration's guests is changed, so the
    template is left alone; no file is written, in particular the manifest is
    not changed, before every guest was missing from a listing; a run that
    returns returns 0 and has seen every guest gone, also when the manifest
    could not be updated, for no [InventoryError] leaves the command. *)
Theorem teardown_needs_confirmation {aead : AEAD} yes config args now s t o s' :
  runs (cmd_teardown yes config args) s t o s' → clock_ok now t → valid_config config →
  o ≠ OutOfFuel ∧
  (yes = false → o = Ok EXIT_FAILURE ∧ Forall is_print t) ∧
  (yes = true → ∀ c, o = Ok c → c = EXIT_OK ∧
     ∀ h, h ∈ all_hosts config → Exists (seen_gone (vm_name h)) t) ∧
  Forall (λ ev, ∀ vm, changes ev = Some vm → vm ∈ vm_names config) t ∧
  Forall (λ ev, changes ev ≠ Some (template_vm (virtualbox config))) t ∧
  (∀ h, h ∈ all_hosts config → preceded (seen_gone (vm_name h)) writes_file t) ∧
  (∀ e, o = Raise e → isinstance e CInventoryError = false).
Proof.
  intros H Hc Hv. destruct (cmd_teardown_confined config args yes _ _ _ _ H) as [Hconf _]. split_and!.
  - by eapply cmd_teardown_terminates.
  - intros ->. unfold cmd_teardown, print in H. cbv zeta in H. cbn [negb] in H.
    revert H. match goal with |- runs ?m _ _ _ _ → _ =>
      cut (wp m s (λ t o _, o = Ok EXIT_FAILURE ∧ Forall is_print t)); [intros Hwp H; exact (Hwp _ _ _ H)|] end.
    repeat (wp_step; cbn [bind_post]). split; [done|]. by repeat constructor.
  - intros -> c ->. split; [|intros h Hh; by eapply (cmd_teardown_seen_gone config args h Hh)].
    unfold cmd_teardown in H. cbv zeta in H. do 3 runs_ok H. by apply runs_ret in H as (_ & [= ->] & _).
  - eapply Forall_impl; [exact Hconf|]. intros ev [Hev _] vm Hch. specialize (Hev _ Hch). destruct yes; [done|].
    by apply elem_of_nil in Hev.
  - eapply Forall_impl; [exact Hconf|]. intros ev [Hev _] Hch. specialize (Hev _ Hch). destruct yes.
    + by apply (vc_template config Hv).
    + by apply elem_of_nil in Hev.
  - intros h Hh. by eapply (cmd_teardown_guarded config args yes h Hh).
  - by destruct (cmd_teardown_errors config args yes _ _ _ _ H).
Qed.

(** ** Configure *)

Section configure.
Context {tmp : TempDir} {aead : AEAD} (config : ClusterConfig) (args : Namespace).

(** A session is asked for. *)
Definition connects (ev : event) : Prop :=
  match ev_eff ev with SshConnect _ _ _ _ => True | _ => False end.

(** The machine of a host with this name was seen running. *)
Definition named_running (hn : string) (ev : event) : Prop :=
  ∃ vbox h, h ∈ all_hosts config ∧ hostname h = hn ∧ state_answer vbox (vm_name h) RUNNING ev.

Lemma collect_unconnected vbox hosts found :
  emits (λ ev, ¬ connects ev) (λ _, True) (collect_addresses vbox hosts found).
Proof.
  assert (∀ ev, looks_only vbox ev → ¬ connects ev) as Hlook.
  { intros ev [_ Hev]. revert Hev. unfold connects. destruct (ev_eff ev); by auto. }
  revert found. induction hosts as [|h hosts IH]; intros found; simpl; [apply emits_ret|].
  apply emits_bind.
  { unfold vm_state. apply emits_bind; [by apply emits_vbox_run; [intros r []|]|intros ?; apply emits_ret]. }
  intros st. destruct (negb _); [apply IH|]. apply emits_bind; [|intros r; apply IH].
  unfold guest_address. apply emits_catch_same; [|handler_cases; intros _; apply emits_ret].
  apply emits_bind; [|intros ?; apply emits_ret].
  by eapply emits_weaken; [apply wait_for_guest_ip_looks|..].
Qed.

(** With no address missing, every host has one, and its machine was seen running. *)
Lemma nothing_missing addrs h : missing_addresses config addrs = [] → h ∈ all_hosts config →
  ∃ a, dict_get (hostname h) addrs = Some a.
Proof.
  intros Hm Hh. destruct (dict_get (hostname h) addrs) as [a|] eqn:Ha; [by exists a|].
  assert (hostname h ∈ missing_addresses config addrs) as Hin; [|by rewrite Hm in Hin; apply elem_of_nil in Hin].
  unfold missing_addresses. apply list_elem_of_In, List.filter_In. split.
  - apply list_elem_of_In. by apply list_elem_of_fmap_2.
  - unfold dict_in. by rewrite Ha.
Qed.

Lemma addresses_seen vbox h : h ∈ all_hosts config →
  ensures (named_running (hostname h)) (cluster_addresses vbox config)
    (λ addrs, bool_decide (missing_addresses config addrs = [])).
Proof.
  intros Hh s t addrs s' H Hm%bool_decide_eq_true. destruct (nothing_missing addrs h Hm Hh) as [a Ha].
  destruct (collect_reports _ _ _ _ _ _ _ H _ _ Ha) as [[=]|(h' & Hin & Hn & _ & Hs)].
  eapply Exists_impl; [exact Hs|]. intros ev Hev. by exists vbox, h'.
Qed.

Lemma cmd_configure_guarded h :
  h ∈ all_hosts config → guarded (named_running (hostname h)) connects (cmd_configure config args).
Proof.
  intros Hh. unfold cmd_configure. cbv zeta.
  apply guarded_bind; [|intros vbox].
  { apply guarded_never. unfold new_VBoxManage. apply emits_bind.
    - refine (emits_call _ _ _ _). intros r. by intros [].
    - intros b. destruct b; [apply emits_ret|by apply emits_raise]. }
  apply (guarded_bind_ensures _ _ _ _ _ (guarded_never _ _ _ (collect_unconnected vbox _ _))
    (addresses_seen vbox h Hh)).
  intros addrs Hm%bool_decide_eq_false. rewrite bool_decide_eq_true_2 by done. apply guarded_raise.
Qed.

(** The last thing waited for is the endpoints. *)
Lemma cmd_configure_served s t c s' :
  runs (cmd_configure config args) s t (Ok c) s' →
  c = EXIT_OK ∧ ∃ addr, Forall (λ ep, Exists (served ep.1) t) (endpoints config addr).
Proof.
  intros H. unfold cmd_configure in H. cbv zeta in H. do 2 runs_ok H.
  destruct (bool_decide _); [run_inv1 H|]. runs_ok H.
  apply runs_bind in H as [(addr & s4 & t4 & t5 & -> & _ & H)|[(e & [=] & _)|[[=] _]]].
  runs_ok H. apply runs_bind in H as [([] & s5 & t6 & t7 & -> & Hr & H)|[(e & [=] & _)|[[=] _]]].
  runs_ok H. apply runs_ret in H as (-> & [= ->] & ->). split; [done|]. exists addr.
  eapply Forall_impl; [by eapply ready_served|]. intros ep Hex. rewrite !Exists_app. tauto.
Qed.

(** Every host has an address, at which its machine was seen running. *)
Definition all_found (addrs : addresses) (t : trace) : Prop :=
  ∀ h, h ∈ all_hosts config → Exists (named_running (hostname h)) t ∧
    ∃ a, dict_get (hostname h) addrs = Some a ∧ dotted_quad a.

Lemma addresses_found vbox s t addrs s' :
  runs (cluster_addresses vbox config) s t (Ok addrs) s' → missing_addresses config addrs = [] →
  all_found addrs t.
Proof.
  intros H Hm h Hh. split; [eapply (addresses_seen vbox h Hh); [exact H|by apply bool_decide_eq_true]|].
  destruct (nothing_missing addrs h Hm Hh) as [a Ha]. exists a. split; [exact Ha|].
  by destruct (collect_reports _ _ _ _ _ _ _ H _ _ Ha) as [[=]|(h' & _ & _ & Hq & _)].
Qed.

(** The parts of a run that returned. *)
Lemma cmd_configure_completes {laws : AEADLaws aead} s t c s' :
  runs (cmd_configure config args) s t (Ok c) s' →
  c = EXIT_OK ∧ ∃ addrs t0 ts tj t1, t = t0 ++ concat ts ++ tj ++ t1 ∧ all_found addrs t0 ∧
    Forall2 (backend_configured config addrs) (backends config) ts ∧
    jump_configured config addrs (goservice_dir args) tj ∧
    ∃ addr, dict_get (hostname (jump config)) addrs = Some addr ∧
      Forall (λ ep, Exists (served ep.1) t1) (endpoints config addr).
Proof.
  intros H. unfold cmd_configure in H. cbv zeta in H.
  apply runs_bind in H as [(vbox & s1 & ta & t2 & -> & _ & H)|[(? & [=] & _)|[[=] _]]].
  apply runs_bind in H as [(addrs & s2 & tb & t4 & -> & Haddrs & H)|[(? & [=] & _)|[[=] _]]].
  destruct (bool_decide _) eqn:Hm; [by run_inv1 H|]. apply bool_decide_eq_false, dec_stable in Hm.
  apply runs_bind in H as [([] & s3 & t5 & t6 & -> & Hbs & H)|[(? & [=] & _)|[[=] _]]].
  apply backends_run in Hbs as (ts & -> & Hbs).
  apply runs_bind in H as [(addr & s4 & t7 & t8 & -> & Hget & H)|[(? & [=] & _)|[[=] _]]].
  unfold getitem in Hget. destruct (dict_get _ addrs) as [a|] eqn:Ha; [|by run_inv1 Hget].
  apply runs_ret in Hget as (-> & [= ->] & ->).
  apply runs_bind in H as [([] & s5 & tj & t9 & -> & Hj & H)|[(? & [=] & _)|[[=] _]]].
  apply runs_bind in H as [([] & s6 & t10 & t11 & -> & Hr & H)|[(? & [=] & _)|[[=] _]]].
  runs_ok H. apply runs_ret in H as (-> & [= ->] & ->). split; [done|].
  eexists addrs, (ta ++ tb), ts, tj, _. split_and!; [by rewrite <- !app_assoc| |exact Hbs|by eapply jump_runs|].
  - intros h Hh. destruct (addresses_found _ _ _ _ _ Haddrs Hm h Hh) as [H1 H2]. split; [|exact H2].
    apply Exists_app. by right.
  - exists a. split; [done|]. eapply Forall_impl; [by eapply ready_served|]. intros ep Hex.
    rewrite Exists_app. by left.
Qed.
End configure.

(** C3: [configure] works on no guest before it knows where all of them are,
    and it succeeds only when all of them are configured.  In every run no
    session is opened on any guest before, for every host of the configuration,
    the machine of a host with its name was seen running; no machine is
    changed; every connection is closed, although the configuration of the jump
    station opens sessions inside its own; and the run ends.  A run that
    returns returns 0 and has found an address for every host, and then, one
    after another, configured each backend and the jump station, each over one
    connection to the address found for it: Apache was present, its virtual
    host was put in place and accepted, and the restarted server was seen
    active; on a backend the site was fetched, put in place and stamped; on the
    jump station, whose pool has the addresses found, the service has a current
    binary, its key and its unit, was seen active, and its datastore opens (if
    random bytes come in the number asked for) to a record of each host with
    its address; at last the endpoints at the address
    of the jump station answered.  (A run that raises may have configured some
    of the guests.) *)
Theorem configure_needs_every_address {tmp : TempDir} {aead : AEAD} {laws : AEADLaws aead} config args now s t o s' :
  runs (cmd_configure config args) s t o s' → clock_ok now t →
  o ≠ OutOfFuel ∧ opened t ≡ₚ closed t ∧ Forall (may false []) t ∧
  (∀ h, h ∈ all_hosts config → preceded (named_running config (hostname h)) connects t) ∧
  (∀ c, o = Ok c → c = EXIT_OK ∧
     ∃ addrs t0 ts tj t1, t = t0 ++ concat ts ++ tj ++ t1 ∧ all_found config addrs t0 ∧
       Forall2 (backend_configured config addrs) (backends config) ts ∧
       jump_configured config addrs (goservice_dir args) tj ∧
       ∃ addr, dict_get (hostname (jump config)) addrs = Some addr ∧
         Forall (λ ep, Exists (served ep.1) t1) (endpoints config addr)).
Proof.
  intros H Hc. pose proof (cmd_configure_terminates config args _ _ _ _ _ H Hc) as Ho.
  split_and!; [done|by eapply cmd_configure_settled| | |].
  - by destruct (cmd_configure_confined config args _ _ _ _ H).
  - intros h Hh. by eapply (cmd_configure_guarded config args h Hh).
  - intros c ->. by eapply cmd_configure_completes.
Qed.

(** ** Deploy *)

Section deploy.
Context {tmp : TempDir} {aead : AEAD} (config : ClusterConfig) (args : Namespace).

Lemma cmd_template_exports :
  ensures (λ ev, exports ev = true) (cmd_template config args) (λ _, true).
Proof.
  unfold cmd_template. apply ensures_bind_r. intros vbox. apply ensures_bind_l.
  destruct (export_only args).
  - unfold export_golden_template. cbv zeta. do 2 (apply ensures_bind_r; intros _).
    apply export_appliance_exports.
  - intros s t [] s' H _. by eapply build_returns_taken.
Qed.

Lemma cmd_template_guarded G :
  export_only args = false → G ∈ image_checks → guarded G (λ ev, exports ev = true) (cmd_template config args).
Proof.
  intros He HG. unfold cmd_template. rewrite He.
  apply guarded_bind; [apply (unexported _ []), new_VBoxManage_confined|intros vbox].
  apply guarded_bind; [by apply build_guarded|intros _; apply guarded_ret].
Qed.

(** Every step but the first leaves the appliance alone. *)
Lemma deploy_guarded G :
  export_only args = false → G ∈ image_checks → guarded G (λ ev, exports ev = true) (cmd_deploy config args).
Proof.
  intros He HG. unfold cmd_deploy, deploy_steps, run_steps.
  apply guarded_bind; [eapply unexported, refuses_confined|intros [|]; [apply guarded_ret|]].
  apply guarded_bind; [by apply cmd_template_guarded|intros c1]. destruct (negb _); [apply guarded_ret|].
  apply guarded_bind; [eapply unexported, cmd_provision_confined|intros c2].
  destruct (negb _); [apply guarded_ret|].
  apply guarded_bind; [eapply unexported, cmd_configure_confined|intros c3].
  destruct (negb _); apply guarded_ret.
Qed.

(** No guest is touched before an appliance was exported. *)
Lemma deploy_exports_first vm : valid_config config → vm ∈ vm_names config →
  guarded (λ ev, exports ev = true) (λ ev, changes ev = Some vm) (cmd_deploy config args).
Proof.
  intros Hv Hvm.
  assert (∀ x vms (m : M Z), vm ∉ vms → confined x vms m →
    guarded (λ ev, exports ev = true) (λ ev, changes ev = Some vm) m) as Hother.
  { intros x vms m Hn Hm. apply guarded_never. eapply emits_weaken; [exact Hm| |done].
    intros ev [Ht _] Hch. by apply Hn, Ht. }
  unfold cmd_deploy, deploy_steps, run_steps. apply guarded_bind; [|intros [|]; [apply guarded_ret|]].
  - apply guarded_never. eapply emits_weaken; [apply refuses_confined| |done].
    intros ev [Ht _] Hch. by apply Ht, elem_of_nil in Hch.
  - apply (guarded_bind_ensures _ _ _ _ (λ _, true)); [|apply cmd_template_exports|done].
    eapply Hother; [|apply cmd_template_confined]. intros ->%list_elem_of_singleton.
    by apply (vc_template config Hv).
Qed.

Lemma deploy_served s t s' :
  runs (cmd_deploy config args) s t (Ok EXIT_OK) s' →
  ∃ addr, Forall (λ ep, Exists (served ep.1) t) (endpoints config addr).
Proof.
  intros H. unfold cmd_deploy in H.
  apply runs_bind in H as [(b & s1 & t1 & t2 & -> & _ & H)|[(e & [=] & _)|[[=] _]]].
  destruct b; [by apply runs_ret in H as (_ & [=] & _)|]. unfold deploy_steps in H.
  do 2 (apply run_steps_cons in H; [|unfold deploy_steps; rewrite !elem_of_cons; tauto]; runs_ok H).
  apply run_steps_cons in H; [|unfold deploy_steps; rewrite !elem_of_cons; tauto].
  apply runs_bind in H as [(c & s5 & t5 & t6 & -> & Hs & H)|[(e & [=] & _)|[[=] _]]].
  apply cmd_configure_served in Hs as [_ [addr Hs]]. exists addr.
  eapply Forall_impl; [exact Hs|]. intros ep Hex. rewrite !Exists_app. tauto.
Qed.

(** Once the checks are passed, no step reports a failure by its status. *)
Lemma run_steps_ok s t c s' :
  runs (run_steps config args deploy_steps) s t (Ok c) s' → c = EXIT_OK.
Proof.
  intros H. unfold deploy_steps in H.
  do 3 (apply run_steps_cons in H; [|unfold deploy_steps; rewrite !elem_of_cons; tauto]; runs_ok H).
  by apply runs_ret in H as (_ & [= ->] & _).
Qed.

Lemma print_report_prints results s :
  wp (print_report results) s (λ t o _, o = Ok tt ∧ Forall is_print t).
Proof.
  unfold print_report, print. repeat (wp_step; cbn [bind_post]).
  split; [by destruct r0|by repeat constructor].
Qed.

(** The verdict of the preflight decides. *)
Lemma deploy_preflight s t o s' :
  skip_preflight args = false → runs (cmd_deploy config args) s t o s' →
  ∃ s1 t1 t2 o1, t = t1 ++ t2 ∧ runs (run_preflight config) s t1 o1 s1 ∧
    match o1 with
    | Ok results =>
        if bool_decide (worst_status results = FAIL) then o = Ok EXIT_FAILURE ∧ Forall is_print t2
        else o ≠ Ok EXIT_FAILURE
    | Raise e => t2 = [] ∧ o = Raise e
    | OutOfFuel => o = OutOfFuel
    end.
Proof.
  intros Hsk H. unfold cmd_deploy, preflight_refuses in H. rewrite Hsk in H. cbn [negb] in H.
  assert (∀ s t o s', runs (results <- run_preflight config ;; print_report results ;;
      ret (bool_decide (worst_status results = FAIL))) s t o s' →
    ∃ s1 t1 t2 o1, t = t1 ++ t2 ∧ runs (run_preflight config) s t1 o1 s1 ∧ Forall is_print t2 ∧
      match o1 with
      | Ok results => o = Ok (bool_decide (worst_status results = FAIL))
      | Raise e => t2 = [] ∧ o = Raise e
      | OutOfFuel => o = OutOfFuel
      end) as Hpre.
  { clear. intros s t o s' H.
    apply runs_bind in H as [(rs & s1 & t1 & t2 & -> & H1 & H)|[(e & -> & H)|[-> H]]].
    - exists s1, t1, t2, (Ok rs). split; [done|]. split; [done|].
      apply runs_bind in H as [(u & s2 & t3 & t4 & -> & H2 & H)|[(e & -> & H)|[-> H]]];
        [|destruct (print_report_prints _ _ _ _ _ H) as [[=] _]..].
      destruct (print_report_prints _ _ _ _ _ H2) as [_ Hp].
      apply runs_ret in H as (-> & -> & ->). by rewrite app_nil_r.
    - exists s', t, [], (Raise e). by rewrite app_nil_r.
    - exists s', t, [], OutOfFuel. by rewrite app_nil_r. }
  apply runs_bind in H as [(b & s1 & t1 & t2 & -> & H1 & H)|[(e & -> & H)|[-> H]]].
  - destruct (Hpre _ _ _ _ H1) as (s2 & t3 & t4 & o1 & -> & Hrun & Hp & Ho1).
    exists s2, t3, (t4 ++ t2), o1. rewrite app_assoc. split; [done|]. split; [done|].
    destruct o1 as [rs|e|]; [|by destruct Ho1|done]. injection Ho1 as ->.
    destruct (bool_decide _).
    + apply runs_ret in H as (-> & -> & ->). by rewrite app_nil_r.
    + intros ->. by apply run_steps_ok in H.
  - destruct (Hpre _ _ _ _ H) as (s2 & t3 & t4 & o1 & -> & Hrun & Hp & Ho1).
    exists s2, t3, t4, o1. split; [done|]. split; [done|]. destruct o1 as [rs|e'|]; [done| |done].
    by destruct Ho1 as [-> [= ->]].
  - destruct (Hpre _ _ _ _ H) as (s2 & t3 & t4 & o1 & -> & Hrun & Hp & Ho1).
    exists s2, t3, t4, o1. split; [done|]. split; [done|]. destruct o1 as [rs|e'|]; [done| |done].
    by destruct Ho1.
Qed.
End deploy.

(** ** The command line at a small site *)

(** The document of [sample_cluster]. *)
Definition cluster_document : dict :=
  let host port n := [("vm_name", VStr ("vm-" +:+ n)); ("hostname", VStr n); ("http_port", VInt port)] in
  [("ssh", VDict [("user", VStr "deploy"); ("key_path", VStr "/root/.ssh/id");
     ("connect_timeout_seconds", VInt 10); ("command_timeout_seconds", VInt 120)]);
   ("virtualbox", VDict [("vboxmanage", VStr "/usr/bin/VBoxManage"); ("template_vm", VStr "template");
     ("template_ova", VStr "/tmp/t.ova"); ("memory_mb", VInt 1024); ("cpus", VInt 1);
     ("boot_timeout_seconds", VInt 300)]);
   ("jump", VDict (host 80%Z "jump"));
   ("backend", VList [VDict (host 8080%Z "web1"); VDict (host 8080%Z "web2")]);
   ("inventory", VDict [("service_port", VInt 9090); ("remote_dir", VStr "/opt/inventory");
     ("key_file", VStr "/root/keys/inventory.key"); ("datastore_name", VStr "inventory.enc");
     ("manifest_file", VStr "/root/state/manifest.enc")]);
   ("website", VDict [("source_url", VStr "https://example.org");
     ("archive_url", VStr "https://example.org/site.tar.gz"); ("document_root", VStr "/var/www/site")]);
   ("build", VDict [("go_version", VStr "1.22.5");
     ("go_sha256", VStr "904b924d435eaea086515bc63235b192ea441bd8c9b198c507e85009e6e4c7f0")])].

Definition cluster_parser : TomlParser := λ _, inr cluster_document.

Definition sample_args (c : subcommand) : Namespace :=
  MkNamespace (Path "config/cluster.toml") (Path "goservice") c.

Definition sample_main (argv : list string) : M Z :=
  main (tmp := sample_tmp) (parser := cluster_parser) (aead := toy_aead) argv.

Example cluster_loads :
  outcome_in site_world (load_cluster_config (toml := cluster_parser) (Path "config/cluster.toml")) site =
  Ok sample_cluster.
Proof. by vm_compute. Qed.

Lemma main_is_contained_witness :
  let m := sample_main ["-v"; "teardown"; "--yes"] in
  machines (run_in site_world m full_site).1.2 = [("template", false)] ∧
  outcome_in site_world m full_site = Ok EXIT_OK ∧
  ∃ config s1 t1 t2 o1 s', trace_in site_world m full_site = logging_events true ++ t1 ++ t2 ∧
    valid_config config ∧ exit_of o1 = Ok EXIT_OK ∧
    Forall (may false (vm_names config)) t2 ∧
    runs (cmd_teardown (aead := toy_aead) true config (sample_args (CmdTeardown true))) s1 t2 o1 s'.
Proof.
  intros m. assert (outcome_in site_world m full_site = Ok EXIT_OK) as Ho by (by vm_compute).
  assert (clock_ok 0 (trace_in site_world m full_site)) as Hc by clock_tac.
  destruct (run_in_runs site_world m full_site) as [s' H]. split; [by vm_compute|]. split; [exact Ho|].
  pose proof (main_is_contained _ _ _ _ _ _ H Hc) as Hm.
  assert (read_command_line ["-v"; "teardown"; "--yes"] = Some (true, sample_args (CmdTeardown true)))
    as Hr by (by vm_compute).
  rewrite Hr in Hm. destruct Hm as (t' & Ht & Hf & _ & _ & _ & oc & s1 & t1 & t2 & Ht' & Hl & _ & _ & Hd).
  rewrite Ho in Hd. destruct oc as [config|e|]; [| |by destruct Hd].
  - destruct Hd as (Hv & Hmay & o1 & Hrun & Hx). exists config, s1, t1, t2, o1, s'.
    split; [by rewrite Ht, Ht'|]. split; [exact Hv|]. split; [by symmetry|]. split; [exact Hmay|exact Hrun].
  - exfalso. destruct Hd as [_ Hd]. cbn [exit_of] in Hd.
    destruct (isinstance e CVmDeployError); [discriminate Hd|].
    destruct (isinstance e CKeyboardInterrupt); discriminate Hd.
Defined.

(** The same site before any manifest was written. *)
Definition fresh_world : handler vm_host := λ e w,
  match e return resp e * vm_host with
  | IsFile p => (negb (String.eqb (path_suffix p) ".enc"), w)
  | e => site_world e w
  end.

Lemma teardown_needs_confirmation_witness :
  let m := cmd_teardown (aead := toy_aead) true sample_cluster (sample_args (CmdTeardown true)) in
  outcome_in fresh_world m full_site = Ok EXIT_OK ∧
  Exists (seen_gone "vm-web1") (trace_in fresh_world m full_site) ∧
  existsb (λ ev, match ev_eff ev with WriteBytes _ _ => true | _ => false end)
    (trace_in fresh_world m full_site) = true ∧
  preceded (seen_gone "vm-web1") writes_file (trace_in fresh_world m full_site).
Proof.
  intros m. assert (outcome_in fresh_world m full_site = Ok EXIT_OK) as Ho by (by vm_compute).
  assert (clock_ok 0 (trace_in fresh_world m full_site)) as Hc by clock_tac.
  destruct (run_in_runs fresh_world m full_site) as [s' H].
  destruct (teardown_needs_confirmation _ _ _ _ _ _ _ _ H Hc sample_cluster_valid)
    as (_ & _ & Hok & _ & _ & Hp & _).
  assert (sample_guest ∈ all_hosts sample_cluster) as Hg by (apply list_elem_of_further, list_elem_of_here).
  split; [exact Ho|]. split; [exact (proj2 (Hok eq_refl _ Ho) _ Hg)|].
  split; [by vm_compute|exact (Hp _ Hg)].
Defined.

(** The cluster is up. *)
Definition running_site : vm_host :=
  MkVmHost [("template", false); ("vm-jump", true); ("vm-web1", true); ("vm-web2", true)] 0 true.

Lemma configure_needs_every_address_witness :
  let m := cmd_configure (tmp := sample_tmp) (aead := toy_aead) sample_cluster (sample_args CmdConfigure) in
  outcome_in site_world m running_site = Ok EXIT_OK ∧
  preceded (named_running sample_cluster "web1") connects (trace_in site_world m running_site) ∧
  ∃ addrs t0 ts tj t1, trace_in site_world m running_site = t0 ++ concat ts ++ tj ++ t1 ∧
    all_found sample_cluster addrs t0 ∧ length ts = 2 ∧
    Forall2 (backend_configured sample_cluster addrs) (backends sample_cluster) ts ∧
    jump_configured (aead := toy_aead) sample_cluster addrs
      (goservice_dir (sample_args CmdConfigure)) tj.
Proof.
  intros m. assert (outcome_in site_world m running_site = Ok EXIT_OK) as Ho by (by vm_compute).
  assert (clock_ok 0 (trace_in site_world m running_site)) as Hc by clock_tac.
  destruct (run_in_runs site_world m running_site) as [s' H].
  destruct (configure_needs_every_address (laws := toy_laws) _ _ _ _ _ _ _ H Hc) as (_ & _ & _ & Hp & Hok).
  assert (sample_guest ∈ all_hosts sample_cluster) as Hg by (apply list_elem_of_further, list_elem_of_here).
  split; [exact Ho|]. split; [exact (Hp _ Hg)|].
  destruct (Hok _ Ho) as (_ & addrs & t0 & ts & tj & t1 & Ht & Hf & Hbs & Hj & _).
  exists addrs, t0, ts, tj, t1. split; [exact Ht|]. split; [exact Hf|].
  split; [by rewrite <- (Forall2_length _ _ _ Hbs)|]. split; [exact Hbs|exact Hj].
Defined.

