(* ===== verification/GoText.v ===== *)
(** * Texts of the Go service

    What goservice/ uses of Go's standard library: strings are sequences of
    bytes, here Rocq strings whose characters are those bytes; [unicode/utf8],
    [strings.TrimSpace], [encoding/base64] and [encoding/json], the last as an
    instance of JsonSyntax.v.  A Python text is held by Go as its UTF-8
    encoding ([go_of]). *)

From S2P Require Import Prelude PyStr Effects Values Bytes Json Inventory.

#[export] Set Default Goal Selector "!".

(** The bytes of a file as a Go string, and back. *)
Abbreviation string_of_bytes := latin1_text.
Abbreviation bytes_of_string := latin1.

(** A Python text, as Go holds it. *)
Definition go_of (s : string) : string := string_of_bytes (utf8_encode s).

(** ** UTF-8 *)

Definition in_bytes (lo hi n : N) : bool := (lo <=? n)%N && (n <=? hi)%N.

(** The first byte of a character: how many bytes it has, and what its second
    byte may be. *)
Definition rune_class (n : N) : option (nat * N * N) :=
  if in_bytes 194 223 n then Some (2%nat, 128, 191)%N
  else if (n =? 224)%N then Some (3%nat, 160, 191)%N
  else if (n =? 237)%N then Some (3%nat, 128, 159)%N
  else if in_bytes 225 239 n then Some (3%nat, 128, 191)%N
  else if (n =? 240)%N then Some (4%nat, 144, 191)%N
  else if in_bytes 241 243 n then Some (4%nat, 128, 191)%N
  else if (n =? 244)%N then Some (4%nat, 128, 143)%N
  else None.

Fixpoint continued (n : nat) (s : string) : bool :=
  match n, s with
  | O, _ => true
  | S n, String c s => in_bytes 128 191 (N_of_ascii c) && continued n s
  | S _, "" => false
  end.

(** The size [utf8.DecodeRune] gives at the head of a non-empty string. *)
Definition rune_size (s : string) : nat :=
  match s with
  | String c r =>
      match rune_class (N_of_ascii c), r with
      | Some (size, lo, hi), String d r =>
          if in_bytes lo hi (N_of_ascii d) && continued (size - 2) r then size else 1
      | _, _ => 1
      end
  | "" => 0
  end.

(** [utf8.AppendRune]. *)
Definition replacement : string := String "239" (String "191" (String "189" "")).
Definition is_surrogate (n : N) : bool := in_bytes 55296 57343 n.
Definition encode_rune (n : N) : string :=
  let b m := String (ascii_of_N m) "" in
  if (n <? 128)%N then b n
  else if (n <? 2048)%N then b (192 + n / 64)%N +:+ b (128 + n mod 64)%N
  else if is_surrogate n || (1114111 <? n)%N then replacement
  else if (n <? 65536)%N then
    b (224 + n / 4096)%N +:+ b (128 + n / 64 mod 64)%N +:+ b (128 + n mod 64)%N
  else b (240 + n / 262144)%N +:+ b (128 + n / 4096 mod 64)%N
       +:+ b (128 + n / 64 mod 64)%N +:+ b (128 + n mod 64)%N.

(** ** [strings.TrimSpace] *)

(** The encodings of [unicode.IsSpace]: those of ASCII, then the others. *)
Definition space_encodings : list string :=
  (λ n, String (ascii_of_N n) "") <$> [9; 10; 11; 12; 13; 32]%N.
Definition wide_spaces : list string :=
  encode_rune <$> [133; 160; 5760; 8192; 8193; 8194; 8195; 8196; 8197; 8198; 8199; 8200; 8201; 8202;
                   8232; 8233; 8239; 8287; 12288]%N.

(** The rest after a space at the head. *)
Definition skip_space (spaces : list string) (s : string) : option string :=
  head (omap (λ sp, after sp s) spaces).

Fixpoint trim_left (fuel : nat) (spaces : list string) (s : string) : string :=
  match fuel with
  | O => s
  | S fuel => match skip_space spaces s with Some r => trim_left fuel spaces r | None => s end
  end.

Definition str_rev (s : string) : string :=
  String.string_of_list_ascii (rev (String.list_ascii_of_string s)).

Definition trim_space (s : string) : string :=
  let spaces := space_encodings ++ wide_spaces in
  let s := trim_left (String.length s) spaces s in
  str_rev (trim_left (String.length s) (str_rev <$> spaces) (str_rev s)).

(** ** [base64.StdEncoding] *)

Definition is_newline (c : ascii) : bool := Ascii.eqb c "010" || Ascii.eqb c "013".

Fixpoint drop_newlines (s : string) : string :=
  match s with
  | "" => ""
  | String c s => if is_newline c then drop_newlines s else String c (drop_newlines s)
  end.

(** Groups of four; only the last may be padded, and the bits padding leaves
    over are not looked at. *)
Fixpoint decode_quanta (s : string) : option bytes :=
  match s with
  | "" => Some []
  | String a (String b (String c (String d r))) =>
      x ← b64_value a; y ← b64_value b;
      let first := N_byte (x * 4 + y / 16) in
      if Ascii.eqb c "=" then
        if Ascii.eqb d "=" && String.eqb r "" then Some [first] else None
      else
        z ← b64_value c;
        let second := N_byte (y mod 16 * 16 + z / 4) in
        if Ascii.eqb d "=" then if String.eqb r "" then Some [first; second] else None
        else
          w ← b64_value d; rest ← decode_quanta r;
          Some (first :: second :: N_byte (z mod 4 * 64 + w) :: rest)
  | _ => None
  end.

(** [DecodeString]. *)
Definition std_decode (s : string) : option bytes := decode_quanta (drop_newlines s).

(** ** Reading JSON *)

Definition append_fst (w : string) (p : string * string) : string * string := (w +:+ p.1, p.2).

(** The rest of a string after its opening quote, unquoted; [k] bytes of a
    well-formed character are still to come. *)
Fixpoint go_scan (k : nat) (s : string) : option (string * string) :=
  match s with
  | "" => None
  | String c s1 =>
      match k with
      | S k => cons_fst c <$> go_scan k s1
      | O =>
          if Ascii.eqb c "034" then Some ("", s1)
          else if Ascii.eqb c "\" then
            match s1 with
            | String e s2 =>
                if Ascii.eqb e "u" then
                  match s2 with
                  | String h1 (String h2 (String h3 (String h4 s3))) =>
                      match hex4 h1 h2 h3 h4 with
                      | None => None
                      | Some n =>
                          if is_surrogate n then
                            match s3 with
                            | String b (String v (String g1 (String g2 (String g3 (String g4 s4))))) =>
                                match hex4 g1 g2 g3 g4 with
                                | Some m =>
                                    if Ascii.eqb b "\" && Ascii.eqb v "u" && (n <? 56320)%N
                                       && in_bytes 56320 57343 m
                                    then append_fst (encode_rune (65536 + (n - 55296) * 1024 + (m - 56320)))
                                           <$> go_scan 0 s4
                                    else append_fst replacement <$> go_scan 0 s3
                                | None => append_fst replacement <$> go_scan 0 s3
                                end
                            | _ => append_fst replacement <$> go_scan 0 s3
                            end
                          else append_fst (encode_rune n) <$> go_scan 0 s3
                      end
                  | _ => None
                  end
                else
                  match simple_escape e with
                  | Some c' => cons_fst c' <$> go_scan 0 s2
                  | None => None
                  end
            | "" => None
            end
          else if (N_of_ascii c <? 32)%N then None
          else if (N_of_ascii c <? 128)%N then cons_fst c <$> go_scan 0 s1
          else match rune_size s with
               | S (S k) => cons_fst c <$> go_scan (S k) s1
               | _ => append_fst replacement <$> go_scan 0 s1
               end
      end
  end.

Definition go_atom (s : string) : option (value * string) :=
  match after "null" s with Some r => Some (VNull, r) | None =>
  match after "true" s with Some r => Some (VBool true, r) | None =>
  match after "false" s with Some r => Some (VBool false, r) | None => parse_number s end end end.

(** The members of an object are kept as they come, repeated or not. *)
Definition go_member (k : string) (v : value) (d : dict) : dict := d ++ [(k, v)].

Fixpoint nesting (v : value) : N :=
  match v with
  | VList l => 1 + foldr N.max 0 (map nesting l)
  | VDict d => 1 + foldr N.max 0 (map (λ kv, nesting kv.2) d)
  | _ => 0
  end%N.

Definition max_nesting : N := 10000.

(** The value of a whole text, and the first one of a stream. *)
Definition go_value (s : string) : option value :=
  match loads (go_scan 0) go_atom go_member s with
  | Some v => if (nesting v <=? max_nesting)%N then Some v else None
  | None => None
  end.

Definition go_first_value (s : string) : option value :=
  match parse_value (go_scan 0) go_atom go_member (S (2 * String.length s)) (skip_ws s) with
  | Some (v, _) => if (nesting v <=? max_nesting)%N then Some v else None
  | None => None
  end.

(** ** Writing JSON *)

(** A character of one byte. *)
Definition go_escape (c : ascii) : string :=
  if Ascii.eqb c "<" || Ascii.eqb c ">" || Ascii.eqb c "&" then "\u00" +:+ hex_byte c
  else if Ascii.eqb c "127" then String c "" else json_escape c.

(** U+2028 and U+2029, which are escaped. *)
Definition separator (s : string) : option string :=
  match after (encode_rune 8232) s, after (encode_rune 8233) s with
  | Some _, _ => Some "\u2028"
  | _, Some _ => Some "\u2029"
  | None, None => None
  end.

(** A string without its quotes; [k] bytes of a well-formed character are
    still to be copied or, when it was written as an escape, dropped. *)
Fixpoint go_chars (copy : bool) (k : nat) (s : string) : string :=
  match s with
  | "" => ""
  | String c s1 =>
      match k with
      | S k => if copy then String c (go_chars copy k s1) else go_chars copy k s1
      | O =>
          if (N_of_ascii c <? 128)%N then go_escape c +:+ go_chars true 0 s1
          else match rune_size s, separator s with
               | S (S k), None => String c (go_chars true (S k) s1)
               | _, Some e => e +:+ go_chars false 2 s1
               | _, None => "\ufffd" +:+ go_chars true 0 s1
               end
      end
  end.

(** [json.MarshalIndent(v, "", "  ")], and [json.Encoder], which writes no
    space and ends the line. *)
Definition marshal_indent (v : value) : string := write_value (go_chars true 0) 0 v.

Definition go_string (s : string) : string := write_string (go_chars true 0) s.

Fixpoint compact (v : value) : string :=
  match v with
  | VStr s => go_string s
  | VInt z => str_of_Z z
  | VBool b => if b then "true" else "false"
  | VFloat r => r
  | VDatetime r => r
  | VNull => "null"
  | VList l => "[" +:+ py_join "," (map compact l) +:+ "]"
  | VDict d => "{" +:+ py_join "," (map (λ kv, go_string kv.1 +:+ ":" +:+ compact kv.2) d) +:+ "}"
  end.
Definition encode_json (v : value) : string := compact v +:+ nl.
