(* ===== verification/GoTextFacts.v ===== *)
(** * Facts about the texts of the Go service

    Both sides write the same base64 and can read each other's JSON: what
    [json.dumps] wrote is read by Go as the same strings, and what
    [json.MarshalIndent] wrote for them by Python. *)

From Stdlib Require Import Wf_nat.
From S2P Require Import Prelude PyStr Effects Values Bytes Json Inventory GoText.

#[export] Set Default Goal Selector "!".

(** ** Python texts as Go strings *)

Lemma latin1_text_app a b : latin1_text (a ++ b) = latin1_text a +:+ latin1_text b.
Proof. induction a as [|x a IH]; [done|]. cbn [app latin1_text]. by rewrite IH, str_app_cons. Qed.

Lemma utf8_encode_app a b : utf8_encode (a +:+ b) = utf8_encode a ++ utf8_encode b.
Proof.
  induction a as [|c a IH]; [done|]. rewrite str_app_cons. cbn [utf8_encode]. by rewrite IH, app_assoc.
Qed.

Lemma go_of_app a b : go_of (a +:+ b) = go_of a +:+ go_of b.
Proof. unfold go_of. by rewrite utf8_encode_app, latin1_text_app. Qed.

Lemma go_of_cons c s : go_of (String c s) = go_of (String c "") +:+ go_of s.
Proof. by rewrite <- go_of_app. Qed.

Lemma latin1_latin1_text b : latin1 (latin1_text b) = b.
Proof. induction b as [|x b IH]; [done|]. cbn [latin1 latin1_text]. rewrite IH. f_equal. by destruct x. Qed.

Lemma go_of_bytes s : bytes_of_string (go_of s) = utf8_encode s.
Proof. apply latin1_latin1_text. Qed.

Lemma go_of_inj a b : go_of a = go_of b → a = b.
Proof.
  intros H%(f_equal bytes_of_string). rewrite !go_of_bytes in H.
  apply (f_equal utf8_decode) in H. rewrite !utf8_decode_encode in H. by injection H.
Qed.

(** A text of ASCII characters is the same on both sides. *)
Lemma go_of_ascii s : str_forall is_ascii s = true → go_of s = s.
Proof.
  induction s as [|c s IH]; [done|]. cbn [str_forall]. intros [Hc Hs]%andb_prop.
  rewrite go_of_cons, IH by done. by destruct c as [[] [] [] [] [] [] [] []].
Qed.

(** ** base64 *)

Lemma b64_no_newline s : str_forall b64_alphabet s = true → drop_newlines s = s.
Proof.
  induction s as [|c s IH]; [done|]. cbn [str_forall drop_newlines]. intros [Hc Hs]%andb_prop.
  rewrite IH by done. unfold is_newline.
  destruct (Ascii.eqb_spec c "010"); [by subst|]. by destruct (Ascii.eqb_spec c "013"); [subst|].
Qed.

Lemma b64_value_char n : (n < 64)%N → b64_value (b64_char n) = Some n ∧ Ascii.eqb (b64_char n) "=" = false.
Proof. apply b64_char_ok. Qed.

Ltac Zify.zify_post_hook ::= Z.div_mod_to_equations.

Lemma decode_quanta_encode b : decode_quanta (b64encode b) = Some b.
Proof.
  induction b as [b IH] using (induction_ltof1 _ (@length _)); unfold ltof in IH.
  destruct b as [|x [|y [|z b]]]; [done|..]; cbn [b64encode]; cbv zeta;
    pose proof (byte_N_lt x); try pose proof (byte_N_lt y); try pose proof (byte_N_lt z);
    cbn [decode_quanta];
    repeat match goal with |- context [b64_value (b64_char ?n)] =>
      let H := fresh in
      assert (n < 64)%N as H by lia; destruct (b64_value_char n H) as [-> ?]; clear H end;
    cbn [mbind option_bind];
    repeat match goal with H : Ascii.eqb (b64_char _) "=" = false |- _ => rewrite H; clear H end.
  - cbn -[N.mul N.add N.div N.modulo N_byte]. rewrite <- (N_byte_N x) at 3. repeat f_equal. lia.
  - cbn -[N.mul N.add N.div N.modulo N_byte].
    rewrite <- (N_byte_N x) at 5. rewrite <- (N_byte_N y) at 5. repeat f_equal; lia.
  - rewrite IH by (simpl; lia). cbn -[N.mul N.add N.div N.modulo N_byte].
    rewrite <- (N_byte_N x) at 7. rewrite <- (N_byte_N y) at 7.
    rewrite <- (N_byte_N z) at 7. repeat f_equal; lia.
Qed.

Ltac Zify.zify_post_hook ::= idtac.

Lemma std_decode_encode b : std_decode (b64encode b) = Some b.
Proof.
  unfold std_decode. rewrite b64_no_newline; [apply decode_quanta_encode|apply b64encode_alphabet].
Qed.

(** ** Trimming *)

(** Spaces none of whose first characters is of the alphabet. *)
Definition outside (spaces : list string) : bool :=
  forallb (λ sp, match sp with String c _ => negb (b64_alphabet c) | "" => false end) spaces.

Lemma trim_left_b64 fuel spaces s :
  outside spaces = true → str_forall b64_alphabet s = true → trim_left fuel spaces s = s.
Proof.
  intros Ho Hs. destruct fuel as [|fuel]; [done|]. cbn [trim_left].
  assert (skip_space spaces s = None) as ->; [|done]. unfold skip_space.
  induction spaces as [|sp spaces IH]; [done|]. cbn [outside forallb] in Ho.
  apply andb_prop in Ho as [Hsp Ho]. cbn [omap list_omap].
  assert (after sp s = None) as ->; [|by apply IH].
  destruct sp as [|c sp]; [done|]. destruct s as [|d s]; [done|]. cbn [str_forall] in Hs.
  apply andb_prop in Hs as [Hd _]. cbn [after]. destruct (Ascii.eqb_spec c d); [|done].
  subst. by rewrite Hd in Hsp.
Qed.

Lemma str_forall_list p s : str_forall p s = forallb p (String.list_ascii_of_string s).
Proof. induction s as [|c s IH]; [done|]. cbn. by rewrite IH. Qed.

Lemma str_rev_involutive s : str_rev (str_rev s) = s.
Proof.
  unfold str_rev. rewrite String.list_ascii_of_string_of_list_ascii, rev_involutive.
  apply String.string_of_list_ascii_of_string.
Qed.

Lemma str_forall_rev p s : str_forall p (str_rev s) = str_forall p s.
Proof.
  rewrite !str_forall_list. unfold str_rev. rewrite String.list_ascii_of_string_of_list_ascii.
  apply eq_true_iff_eq. rewrite !forallb_forall. by setoid_rewrite <- in_rev.
Qed.

Lemma trim_space_b64 s : str_forall b64_alphabet s = true → trim_space s = s.
Proof.
  intros Hs. unfold trim_space. rewrite (trim_left_b64 _ (space_encodings ++ wide_spaces)); [|by vm_compute|done].
  rewrite trim_left_b64; [|by vm_compute|by rewrite str_forall_rev].
  apply str_rev_involutive.
Qed.

(** ** Go reads what Python wrote *)

Lemma go_scan_escape c r :
  go_scan 0 (json_escape c +:+ r) = append_fst (go_of (String c "")) <$> go_scan 0 r.
Proof. destruct c as [[] [] [] [] [] [] [] []]; reflexivity. Qed.

Lemma go_scan_chars w r : go_scan 0 (json_chars w +:+ dq +:+ r) = Some (go_of w, r).
Proof.
  induction w as [|c w IH]; [done|]. cbn [json_chars].
  by rewrite str_app_assoc, go_scan_escape, IH, (go_of_cons c w).
Qed.

Lemma go_atom_words r : go_atom ("null" +:+ r) = Some (VNull, r) ∧
  go_atom ("true" +:+ r) = Some (VBool true, r) ∧ go_atom ("false" +:+ r) = Some (VBool false, r).
Proof. done. Qed.

Lemma go_value_written v :
  plain v = true → (nesting (convert go_of v) <= max_nesting)%N →
  go_value (write_value json_chars 0 v) = Some (convert go_of v).
Proof.
  intros Hp Hn. unfold go_value.
  rewrite (loads_write json_chars (go_scan 0) go_atom go_member go_of); [|..|done].
  - by apply N.leb_le in Hn as ->.
  - apply go_scan_chars.
  - apply go_atom_words.
  - done.
  - apply go_of_inj.
Qed.

(** ** Python reads what Go wrote *)

(** What Go writes for a character, as the text Python decodes. *)
Definition go_text_escape (c : ascii) : string := if is_ascii c then go_escape c else String c "".
Fixpoint go_text_chars (s : string) : string :=
  match s with "" => "" | String c s => go_text_escape c +:+ go_text_chars s end.

Lemma go_chars_char c s :
  go_chars true 0 (go_of (String c "") +:+ s) = go_of (go_text_escape c) +:+ go_chars true 0 s.
Proof. destruct c as [[] [] [] [] [] [] [] []]; reflexivity. Qed.

Lemma go_chars_of w : go_chars true 0 (go_of w) = go_of (go_text_chars w).
Proof.
  induction w as [|c w IH]; [done|]. rewrite (go_of_cons c w), go_chars_char, IH. cbn [go_text_chars].
  by rewrite go_of_app.
Qed.

Lemma scan_go_escape c r : scan_string (go_text_escape c +:+ r) = cons_fst c <$> scan_string r.
Proof. by destruct c as [[] [] [] [] [] [] [] []]. Qed.

Lemma scan_go_chars w r : scan_string (go_text_chars w +:+ dq +:+ r) = Some (w, r).
Proof.
  induction w as [|c w IH]; [done|]. cbn [go_text_chars].
  by rewrite str_app_assoc, scan_go_escape, IH.
Qed.

Lemma go_of_join sep l : go_of (py_join sep l) = py_join (go_of sep) (go_of <$> l).
Proof.
  induction l as [|s l IH]; [done|]. destruct l as [|s' l]; [done|].
  change (py_join sep (s :: s' :: l)) with (s +:+ sep +:+ py_join sep (s' :: l)).
  by rewrite !go_of_app, IH.
Qed.

Lemma newline_ascii level : str_forall is_ascii (newline level) = true.
Proof.
  unfold newline. cbn [str_forall]. generalize (2 * level). intros n. simpl.
  induction n as [|n IH]; [done|]. exact IH.
Qed.

Lemma go_string_of w : write_string (go_chars true 0) (go_of w) = go_of (write_string go_text_chars w).
Proof. unfold write_string. by rewrite go_chars_of, !go_of_app. Qed.

(** Go's document is the encoding of a text. *)
Lemma marshal_of level v :
  plain v = true →
  write_value (go_chars true 0) level (convert go_of v) = go_of (write_value go_text_chars level v).
Proof.
  revert level. induction v as [s|z|b|fl|dt| |l IH|d IH] using value_nested_ind; intros level Hp; try done.
  - cbn [convert write_value]. apply go_string_of.
  - by destruct b.
  - destruct l as [|v l]; [done|]. simpl in Hp.
    change (plain v && forallb plain l) with (forallb plain (v :: l)) in Hp.
    assert (map (write_value (go_chars true 0) (S level)) (map (convert go_of) (v :: l)) =
      go_of <$> map (write_value go_text_chars (S level)) (v :: l)) as Hm.
    { induction IH as [|x k Hx Hk IHk]; [done|]. simpl in Hp. apply andb_prop in Hp as [Hpx Hpk].
      cbn [map fmap list_fmap]. rewrite Hx by done. f_equal. by apply IHk. }
    pose proof (newline_ascii level). pose proof (newline_ascii (S level)).
    cbn [convert map write_value] in *. rewrite !go_of_app, go_of_join, Hm.
    by rewrite !go_of_app, !(go_of_ascii (newline _)).
  - destruct d as [|kv d]; [done|]. cbn [plain] in Hp. apply andb_prop in Hp as [_ Hp].
    assert (map (λ kv, write_string (go_chars true 0) kv.1 +:+ ": " +:+ write_value (go_chars true 0) (S level) kv.2)
        (map (λ kv, (go_of kv.1, convert go_of kv.2)) (kv :: d)) =
      go_of <$> map (λ kv, write_string go_text_chars kv.1 +:+ ": " +:+ write_value go_text_chars (S level) kv.2)
        (kv :: d)) as Hm.
    { induction IH as [|x k Hx Hk IHk]; [done|]. simpl in Hp. apply andb_prop in Hp as [Hpx Hpk].
      cbn [map fmap list_fmap fst snd]. rewrite Hx, go_string_of, !go_of_app by done. f_equal. by apply IHk. }
    pose proof (newline_ascii level). pose proof (newline_ascii (S level)).
    cbn [convert map write_value] in *. rewrite !go_of_app, go_of_join, Hm.
    by rewrite !go_of_app, !(go_of_ascii (newline _)).
Qed.

Lemma python_reads_marshal v rest :
  plain v = true → str_forall is_ascii rest = true → skip_ws rest = "" →
  utf8_decode (bytes_of_string (marshal_indent (convert go_of v) +:+ rest)) ≫= json_loads = Some v.
Proof.
  intros Hp Ha Hr. unfold marshal_indent. rewrite marshal_of by done.
  rewrite <- (go_of_ascii rest Ha), <- go_of_app, go_of_bytes, utf8_decode_encode.
  cbn [mbind option_bind]. unfold json_loads.
  rewrite (loads_write_space go_text_chars scan_string parse_atom dict_set id); [by rewrite convert_id|..|done|done].
  - apply scan_go_chars.
  - apply parse_words.
  - intros k w d. apply dict_set_new.
  - done.
Qed.

(** ** Go reads what Go wrote *)

Lemma write_value_convert chars f level v :
  write_value chars level (convert f v) = write_value (λ w, chars (f w)) level v.
Proof.
  revert level. induction v as [s|z|b|fl|dt| |l IH|d IH] using value_nested_ind; intros level; try done.
  - destruct l as [|v l]; [done|].
    assert (map (write_value chars (S level)) (map (convert f) (v :: l)) =
      map (write_value (λ w, chars (f w)) (S level)) (v :: l)) as Hm.
    { induction IH as [|x k Hx Hk IHk]; [done|]. cbn [map]. by rewrite Hx, IHk. }
    cbn [convert map write_value] in *. by rewrite Hm.
  - destruct d as [|kv d]; [done|].
    assert (map (λ kv, write_string chars kv.1 +:+ ": " +:+ write_value chars (S level) kv.2)
        (map (λ kv, (f kv.1, convert f kv.2)) (kv :: d)) =
      map (λ kv, write_string (λ w, chars (f w)) kv.1 +:+ ": "
        +:+ write_value (λ w, chars (f w)) (S level) kv.2) (kv :: d)) as Hm.
    { induction IH as [|x k Hx Hk IHk]; [done|]. cbn [map fst snd]. by rewrite Hx, IHk. }
    cbn [convert map write_value] in *. by rewrite Hm.
Qed.

Lemma go_scan_go_escape c r :
  go_scan 0 (go_of (go_text_escape c) +:+ r) = append_fst (go_of (String c "")) <$> go_scan 0 r.
Proof.
  destruct c as [[] [] [] [] [] [] [] []]; try reflexivity;
    lazymatch goal with |- _ = append_fst ?w <$> _ =>
      lazymatch eval vm_compute in w with String ?a (String ?b _) =>
        transitivity (cons_fst a <$> (cons_fst b <$> go_scan 0 r));
          [reflexivity|by destruct (go_scan 0 r)]
      end
    end.
Qed.

Lemma go_scan_go_chars w r : go_scan 0 (go_chars true 0 (go_of w) +:+ dq +:+ r) = Some (go_of w, r).
Proof.
  rewrite go_chars_of. induction w as [|c w IH]; [done|]. cbn [go_text_chars].
  by rewrite go_of_app, str_app_assoc, go_scan_go_escape, IH, (go_of_cons c w).
Qed.

Lemma go_reads_marshal v :
  plain v = true → (nesting (convert go_of v) <= max_nesting)%N →
  go_value (marshal_indent (convert go_of v)) = Some (convert go_of v).
Proof.
  intros Hp Hn. unfold go_value, marshal_indent. rewrite write_value_convert.
  rewrite (loads_write (λ w, go_chars true 0 (go_of w)) (go_scan 0) go_atom go_member go_of); [|..|done].
  - by apply N.leb_le in Hn as ->.
  - apply go_scan_go_chars.
  - apply go_atom_words.
  - done.
  - apply go_of_inj.
Qed.

(** ** The client writes ASCII *)

Lemma json_chars_ascii w : str_forall is_ascii (json_chars w) = true.
Proof.
  induction w as [|c w IH]; [done|]. cbn [json_chars]. rewrite str_forall_app, IH, andb_true_r.
  destruct c as [[] [] [] [] [] [] [] []]; reflexivity.
Qed.

Lemma json_string_ascii w : str_forall is_ascii (write_string json_chars w) = true.
Proof. unfold write_string. by rewrite !str_forall_app, json_chars_ascii. Qed.

Lemma join_ascii sep l :
  str_forall is_ascii sep = true → Forall (λ s, str_forall is_ascii s = true) l →
  str_forall is_ascii (py_join sep l) = true.
Proof.
  intros Hs Hl. induction Hl as [|s l Hx Hl IH]; [done|]. destruct l as [|s' l]; [done|].
  change (py_join sep (s :: s' :: l)) with (s +:+ sep +:+ py_join sep (s' :: l)).
  by rewrite !str_forall_app, Hx, Hs, IH.
Qed.

Lemma json_ascii level v : plain v = true → str_forall is_ascii (write_value json_chars level v) = true.
Proof.
  revert level. induction v as [s|z|b|fl|dt| |l IH|d IH] using value_nested_ind; intros level Hp; try done.
  - apply json_string_ascii.
  - by destruct b.
  - destruct l as [|v l]; [done|]. cbn [write_value].
    rewrite !str_forall_app, !newline_ascii. cbn [str_forall andb].
    rewrite join_ascii; [done|by rewrite str_forall_app, newline_ascii|].
    apply Forall_map, Forall_forall. intros x Hx. rewrite Forall_forall in IH. apply IH; [done|].
    cbn [plain] in Hp. rewrite forallb_forall in Hp. by apply Hp, list_elem_of_In.
  - destruct d as [|kv d]; [done|]. cbn [write_value].
    rewrite !str_forall_app, !newline_ascii. cbn [str_forall andb].
    rewrite join_ascii; [done|by rewrite str_forall_app, newline_ascii|].
    apply Forall_map, Forall_forall. intros x Hx. rewrite Forall_forall in IH.
    rewrite !str_forall_app, json_string_ascii, IH; [done|done|].
    cbn [plain] in Hp. apply andb_prop in Hp as [_ Hp]. rewrite forallb_forall in Hp.
    by apply Hp, list_elem_of_In.
Qed.
