(* ===== verification/GoService.v ===== *)
(** * The inventory service (goservice/)

    The crypto layer (crypto.go), the file-backed registry (inventory.go) and
    the HTTP handlers (main.go).  A Go function that returns a value and an
    error is a program with a result in [go_res]; [defer] is [finally].  The
    texts of the standard library's errors are abbreviated, and [%q] writes a
    string as JSON does.  The page template is a parameter, and what is logged
    is left out. *)

From S2P Require Import Prelude PyStr Exceptions Paths Effects Values Bytes Json Inventory GoText.

#[export] Set Default Goal Selector "!".

(** ** Errors *)

(** [ErrDecryptionFailed], or any other error, with the text. *)
Inductive go_error : Type := DecryptionFailed (text : string) | GoError (text : string).
Abbreviation go_res A := (go_error + A)%type.

Definition error_text (e : go_error) : string :=
  match e with DecryptionFailed t => t | GoError t => t end.

(** [x, err := m; if err != nil { return err }]. *)
Definition go_bind {A B} (m : M (go_res A)) (f : A → M (go_res B)) : M (go_res B) :=
  r <- m ;; match r with inl e => ret (inl e) | inr x => f x end.
Notation "x <-! c1 ;; c2" := (go_bind c1 (λ x, c2))
  (at level 100, c1 at next level, right associativity) : prog_scope.

(** ** crypto.go *)

Definition base64_text : string := "illegal base64 data".
Definition json_text : string := "invalid JSON".

Definition LoadKey (path : string) : M (go_res bytes) :=
  raw <- call (GoReadFile path) ;;
  match raw with
  | NotExist => ret (inl (GoError ("cannot read inventory key at " +:+ path +:+ ": no such file")))
  | ReadFailed err => ret (inl (GoError ("cannot read inventory key at " +:+ path +:+ ": " +:+ err)))
  | Contents raw =>
      match std_decode (trim_space (string_of_bytes raw)) with
      | None => ret (inl (GoError
          ("inventory key at " +:+ path +:+ " is not valid base64: " +:+ base64_text)))
      | Some key =>
          if length key =? KEY_BYTES then ret (inr key)
          else ret (inl (GoError ("inventory key at " +:+ path +:+ " decodes to "
                 +:+ pretty (length key) +:+ " bytes, expected " +:+ pretty KEY_BYTES)))
      end
  end.

Section service.
Context {aead : AEAD}.

(** [newGCM] fails for a key of another length only. *)
Definition check_key (key : bytes) : go_res unit :=
  if length key =? KEY_BYTES then inr tt
  else inl (GoError ("AES-256 key must be " +:+ pretty KEY_BYTES +:+ " bytes, got " +:+ pretty (length key))).

Definition Encrypt (plaintext key : bytes) : M (go_res bytes) :=
  _ <-! ret (check_key key) ;;
  nonce <- call (GoRand NONCE_BYTES) ;;
  match nonce with
  | IoErr err => ret (inl (GoError ("cannot generate GCM nonce: " +:+ err)))
  | IoOk nonce =>
      let sealed := nonce ++ aead_seal key nonce plaintext in
      ret (inr (bytes_of_string (b64encode sealed)))
  end.

Definition Decrypt (blob key : bytes) : go_res bytes :=
  match check_key key with
  | inl e => inl e
  | inr _ =>
      match std_decode (trim_space (string_of_bytes blob)) with
      | None => inl (GoError ("inventory payload is not valid base64: " +:+ base64_text))
      | Some raw =>
          if length raw <? NONCE_BYTES + TAG_BYTES then
            inl (GoError ("inventory payload is " +:+ pretty (length raw)
              +:+ " bytes, too short to contain a " +:+ pretty NONCE_BYTES +:+ "-byte nonce and "
              +:+ pretty TAG_BYTES +:+ "-byte tag"))
          else
            match aead_open key (take NONCE_BYTES raw) (drop NONCE_BYTES raw) with
            | None => inl (DecryptionFailed
                ("inventory payload failed AES-256-GCM authentication: "
                 +:+ "the key is wrong or the ciphertext was altered"))
            | Some plaintext => inr plaintext
            end
      end
  end.

(** ** Records *)

Record GoRecord : Type := MkGoRecord {
  Hostname : string;
  Role : string;
  IPv4 : string;
  IPv6 : string;
  Status : string;
  StatusTimestamp : string;
  State : string;
  StateTimestamp : string }.

Definition zero_record : GoRecord := MkGoRecord "" "" "" "" "" "" "" "".

(** A slice, [None] for [nil]. *)
Abbreviation slice := (option (list GoRecord)).

(** The names of the JSON fields, in the order of the struct. *)
Definition record_value (r : GoRecord) : value := VDict
  [("hostname", VStr (Hostname r)); ("role", VStr (Role r)); ("ipv4", VStr (IPv4 r));
   ("ipv6", VStr (IPv6 r)); ("status", VStr (Status r));
   ("status_timestamp", VStr (StatusTimestamp r)); ("state", VStr (State r));
   ("state_timestamp", VStr (StateTimestamp r))].

Definition slice_value (records : slice) : value :=
  match records with None => VNull | Some l => VList (map record_value l) end.

Definition upper_az (c : ascii) : ascii :=
  if is_lower_az c then ascii_of_N (N_of_ascii c - 32) else c.

(** A key without regard to case: the letters of ASCII, and the two other
    characters that fold to one. *)
Fixpoint fold_name (s : string) : string :=
  match s with
  | "" => ""
  | String "197" (String "191" s) => String "S" (fold_name s)
  | String "226" (String "132" (String "170" s)) => String "K" (fold_name s)
  | String c s => String (upper_az c) (fold_name s)
  end.

(** The assignment to the field of a key. *)
Definition set_field (key s : string) (r : GoRecord) : option GoRecord :=
  let '(MkGoRecord h ro i4 i6 st stt sa sat) := r in
  let k := fold_name key in
  if String.eqb k "HOSTNAME" then Some (MkGoRecord s ro i4 i6 st stt sa sat)
  else if String.eqb k "ROLE" then Some (MkGoRecord h s i4 i6 st stt sa sat)
  else if String.eqb k "IPV4" then Some (MkGoRecord h ro s i6 st stt sa sat)
  else if String.eqb k "IPV6" then Some (MkGoRecord h ro i4 s st stt sa sat)
  else if String.eqb k "STATUS" then Some (MkGoRecord h ro i4 i6 s stt sa sat)
  else if String.eqb k "STATUS_TIMESTAMP" then Some (MkGoRecord h ro i4 i6 st s sa sat)
  else if String.eqb k "STATE" then Some (MkGoRecord h ro i4 i6 st stt s sat)
  else if String.eqb k "STATE_TIMESTAMP" then Some (MkGoRecord h ro i4 i6 st stt sa s)
  else None.

(** One member of an object: a string is assigned, [null] assigns nothing,
    and any other value is an error; a key that names no field is one if
    [strict] ([DisallowUnknownFields]). *)
Definition decode_member (strict : bool) (kv : string * value) (r : GoRecord) : option GoRecord :=
  match set_field kv.1 "" r with
  | None => if strict then None else Some r
  | Some _ =>
      match kv.2 with
      | VStr s => set_field kv.1 s r
      | VNull => Some r
      | _ => None
      end
  end.

Fixpoint decode_members (strict : bool) (d : dict) (r : GoRecord) : option GoRecord :=
  match d with
  | [] => Some r
  | kv :: d => r ← decode_member strict kv r; decode_members strict d r
  end.

(** The decoding of a value into a record: [None] is an error. *)
Definition decode_record (strict : bool) (v : value) : option GoRecord :=
  match v with
  | VNull => Some zero_record
  | VDict d => decode_members strict d zero_record
  | _ => None
  end.

(** [json.Unmarshal(plaintext, &records)]. *)
Definition decode_slice (v : value) : option slice :=
  match v with
  | VNull => Some None
  | VList l => Some <$> mapM (decode_record false) l
  | _ => None
  end.

Definition unmarshal_records (plaintext : bytes) : option slice :=
  go_value (string_of_bytes plaintext) ≫= decode_slice.

Definition Validate (r : GoRecord) : go_res unit :=
  if String.eqb (Hostname r) "" then inl (GoError "record requires a non-empty hostname")
  else if negb (String.eqb (Role r) "jump" || String.eqb (Role r) "backend") then
    inl (GoError ("record role must be 'jump' or 'backend', got " +:+ go_string (Role r)))
  else inr tt.

(** ** inventory.go *)

Record Store : Type := MkStore { path : string; key : bytes }.

(** [store.mutex.Lock(); defer store.mutex.Unlock()], and the same to read. *)
Definition locked {A} (acquire release : lock_op) (m : M A) : M A :=
  call (GoLock acquire) ;; finally m (call (GoLock release)).

Definition load_locked (store : Store) : M (go_res slice) :=
  blob <- call (GoReadFile (path store)) ;;
  match blob with
  | NotExist => ret (inr (Some []))
  | ReadFailed err => ret (inl (GoError ("cannot read datastore " +:+ path store +:+ ": " +:+ err)))
  | Contents [] => ret (inr (Some []))
  | Contents blob =>
      plaintext <-! ret (Decrypt blob (key store)) ;;
      match unmarshal_records plaintext with
      | None => ret (inl (GoError ("decrypted inventory is not a valid JSON array: " +:+ json_text)))
      | Some records => ret (inr records)
      end
  end.

Definition Load (store : Store) : M (go_res slice) := locked RLock RUnlock (load_locked store).

(** [filepath.Clean]: the parts of a path, the last one first. *)
Fixpoint clean_parts (rooted : bool) (parts : list string) (out : list string) : list string :=
  match parts with
  | [] => out
  | p :: parts =>
      if String.eqb p "" || String.eqb p "." then clean_parts rooted parts out
      else if String.eqb p ".." then
        match out with
        | [] => clean_parts rooted parts (if rooted then [] else [".."])
        | last :: out' =>
            clean_parts rooted parts (if String.eqb last ".." then ".." :: out else out')
        end
      else clean_parts rooted parts (p :: out)
  end.

Definition filepath_clean (p : string) : string :=
  let rooted := if p is String "/" _ then true else false in
  let joined := py_join "/" (rev (clean_parts rooted (py_split_char "/" p) [])) in
  if rooted then "/" +:+ joined else if String.eqb joined "" then "." else joined.

(** [filepath.Dir], where paths have slashes. *)
Definition filepath_dir (p : string) : string :=
  filepath_clean (match py_rpartition "/" p with Some (d, _) => d +:+ "/" | None => "" end).

(** One operation on the temporary file: when it fails, the clean-up, and the
    error. *)
Definition temp_step (op : file_op) (cleanup : list file_op) (text : string) (next : M (go_res unit)) :
    M (go_res unit) :=
  r <- call (GoFile op) ;;
  match r with
  | IoErr err =>
      for_each cleanup (λ op, call (GoFile op) ;; ret tt) ;;
      ret (inl (GoError (text +:+ ": " +:+ err)))
  | IoOk _ => next
  end.

Definition save_locked (store : Store) (records : slice) : M (go_res unit) :=
  let plaintext := marshal_indent (slice_value (Some (default [] records))) in
  sealed <-! Encrypt (bytes_of_string plaintext) (key store) ;;
  let directory := filepath_dir (path store) in
  temp <- call (GoCreateTemp directory ".inventory-*.tmp") ;;
  match temp with
  | IoErr err => ret (inl (GoError
      ("cannot create temporary datastore in " +:+ directory +:+ ": " +:+ err)))
  | IoOk name =>
      temp_step (FileWrite name sealed) [FileClose name; FileRemove name]
        "cannot write temporary datastore"
      (temp_step (FileSync name) [FileClose name; FileRemove name] "cannot flush temporary datastore"
      (temp_step (FileClose name) [FileRemove name] "cannot close temporary datastore"
      (temp_step (FileChmod name 432) [FileRemove name] "cannot restrict datastore permissions"
      (temp_step (FileRename name (path store)) [FileRemove name]
         ("cannot replace datastore " +:+ path store) (ret (inr tt))))))
  end.

Definition Save (store : Store) (records : slice) : M (go_res unit) :=
  locked Lock Unlock (save_locked store records).

(** The loop of [Upsert]: the records, and whether one was replaced. *)
Fixpoint replace_first (records : list GoRecord) (candidate : GoRecord) : list GoRecord * bool :=
  match records with
  | [] => ([], false)
  | r :: rs =>
      if String.eqb (Hostname r) (Hostname candidate) then (candidate :: rs, true)
      else let '(rs, replaced) := replace_first rs candidate in (r :: rs, replaced)
  end.

Definition upserted (records : slice) (candidate : GoRecord) : slice :=
  let '(rs, replaced) := replace_first (default [] records) candidate in
  if replaced then Some rs else Some (rs ++ [candidate]).

(** [Upsert], once it has the lock. *)
Definition upsert_locked (store : Store) (candidate : GoRecord) : M (go_res slice) :=
  records <-! load_locked store ;;
  let records := upserted records candidate in
  _ <-! save_locked store records ;;
  ret (inr records).

Definition Upsert (store : Store) (candidate : GoRecord) : M (go_res slice) :=
  locked Lock Unlock (upsert_locked store candidate).

Definition RawCiphertext (store : Store) : M (go_res bytes) :=
  locked RLock RUnlock (
    blob <- call (GoReadFile (path store)) ;;
    match blob with
    | NotExist => ret (inr [])
    | ReadFailed err => ret (inl (GoError ("cannot read datastore " +:+ path store +:+ ": " +:+ err)))
    | Contents blob => ret (inr blob)
    end).

(** [utcTimestamp]. *)
Definition utcTimestamp : M string := call UtcNow.

(** ** main.go *)

Record Request : Type := MkRequest { Method : string; URLPath : string; Body : string }.
Record Response : Type := MkResponse {
  status_code : Z;
  header : list (string * string);
  written : string }.

Definition maxRequestBytes : N := 1048576.

(** [http.MaxBytesReader]: at most so many bytes of the body are read. *)
Fixpoint read_at_most (n : N) (s : string) : string :=
  match s with
  | "" => ""
  | String c s => if (n =? 0)%N then "" else String c (read_at_most (n - 1) s)
  end.

Definition json_type : string * string := ("Content-Type", "application/json; charset=utf-8").

Definition writeJSON (status : Z) (payload : value) : Response :=
  MkResponse status [json_type] (encode_json payload).

Definition methodNotAllowed (allowed : list string) : Response :=
  MkResponse 405 (((λ m, ("Allow", m)) <$> allowed) ++ [json_type])
    (encode_json (VDict [("error", VStr "method not allowed")])).

(** [srv.fail]. *)
Definition fail (err : go_error) : Response :=
  match err with
  | DecryptionFailed _ => writeJSON 500 (VDict
      [("error", VStr "inventory decryption failed");
       ("hint", VStr "the service key does not match the datastore, or the datastore was altered")])
  | GoError text => writeJSON 500 (VDict [("error", VStr text)])
  end.

(** A handler's [if err != nil { srv.fail(writer, err); return }]. *)
Definition or_fail {A} (m : M (go_res A)) (f : A → M Response) : M Response :=
  r <- m ;; match r with inl err => ret (fail err) | inr x => f x end.

Definition handleRoot (request : Request) : M Response :=
  if negb (String.eqb (URLPath request) "/") then
    ret (MkResponse 404 [("Content-Type", "text/plain; charset=utf-8"); ("X-Content-Type-Options", "nosniff")]
      ("404 page not found" +:+ nl))
  else
    let html := [("Content-Type", "text/html; charset=utf-8")] in
    let body := "<a href=" +:+ dq +:+ "/clusterview" +:+ dq +:+ ">Found</a>." +:+ nl +:+ nl in
    ret (MkResponse 302
      (("Location", "/clusterview") ::
       if existsb (String.eqb (Method request)) ["GET"; "HEAD"] then html else [])
      (if String.eqb (Method request) "GET" then body else "")).

Definition handleHealth (request : Request) : M Response :=
  if negb (String.eqb (Method request) "GET") then ret (methodNotAllowed ["GET"])
  else ret (MkResponse 200 [("Content-Type", "text/plain; charset=utf-8")] ("ok" +:+ nl)).

(** [candidate], when the request has a record. *)
Definition decode_candidate (body : string) : option GoRecord :=
  go_first_value (read_at_most maxRequestBytes body) ≫= decode_record true.

(** A timestamp the request left out. *)
Definition or_now (timestamp : string) : M string :=
  if String.eqb timestamp "" then utcTimestamp else ret timestamp.

Definition with_timestamps (r : GoRecord) (status state : string) : GoRecord :=
  MkGoRecord (Hostname r) (Role r) (IPv4 r) (IPv6 r) (Status r) status (State r) state.

Definition post_inventory (store : Store) (request : Request) : M Response :=
  match decode_candidate (Body request) with
  | None => ret (writeJSON 400 (VDict
      [("error", VStr ("request body is not a valid inventory record: " +:+ json_text))]))
  | Some candidate =>
      match Validate candidate with
      | inl err => ret (writeJSON 400 (VDict [("error", VStr (error_text err))]))
      | inr _ =>
          status <- or_now (StatusTimestamp candidate) ;;
          state <- or_now (StateTimestamp candidate) ;;
          or_fail (Upsert store (with_timestamps candidate status state)) (λ records,
            ret (writeJSON 200 (slice_value records)))
      end
  end.

Definition handleInventory (store : Store) (request : Request) : M Response :=
  if String.eqb (Method request) "GET" then
    or_fail (Load store) (λ records, ret (writeJSON 200 (slice_value records)))
  else if String.eqb (Method request) "POST" then post_inventory store request
  else ret (methodNotAllowed ["GET"; "POST"]).

Definition handleRaw (store : Store) (request : Request) : M Response :=
  if negb (String.eqb (Method request) "GET") then ret (methodNotAllowed ["GET"])
  else or_fail (RawCiphertext store) (λ blob, ret (MkResponse 200
    [("Content-Type", "text/plain; charset=utf-8"); ("X-Content-Encoding", "aes-256-gcm+base64")]
    (string_of_bytes blob))).

(** The execution of the page template on the records and the time. *)
Context (execute_template : slice → string → go_error + string).

Definition handleClusterView (store : Store) (request : Request) : M Response :=
  if negb (String.eqb (Method request) "GET") then ret (methodNotAllowed ["GET"])
  else or_fail (Load store) (λ records,
    rendered <- utcTimestamp ;;
    match execute_template records rendered with
    | inl err => ret (fail (GoError ("cannot render cluster view: " +:+ error_text err)))
    | inr page => ret (MkResponse 200 [("Content-Type", "text/html; charset=utf-8")] page)
    end).

(** The handlers of [mux], for a path without empty or dot segments. *)
Definition serve (store : Store) (request : Request) : M Response :=
  let p := URLPath request in
  if String.eqb p "/healthz" then handleHealth request
  else if String.eqb p "/clusterview" then handleClusterView store request
  else if String.eqb p "/api/inventory" then handleInventory store request
  else if String.eqb p "/api/inventory/raw" then handleRaw store request
  else handleRoot request.
End service.
