(* ===== verification/GoManifest.v ===== *)
(** * The commands of the inventory service (goservice/manifest.go, main.go)

    The [manifest] utility and the start of the server, with what they use of
    the packages [flag] and [text/tabwriter].  What is printed in several
    pieces is one call, and what is logged is left out. *)

From S2P Require Import Prelude PyStr Exceptions Paths Effects Values Bytes Json Inventory GoText GoService.

#[export] Set Default Goal Selector "!".

(** ** Flags *)

(** A flag with a text as its value. *)
Record go_flag : Type := MkFlag { f_name : string; f_default : string; f_usage : string }.

Inductive flag_error : Type := ErrHelp | FlagError (text : string).
Definition flag_error_text (e : flag_error) : string :=
  match e with ErrHelp => "flag: help requested" | FlagError text => text end.

(** Before the first equals sign, and after it. *)
Fixpoint cut_equals (s : string) : string * option string :=
  match s with
  | "" => ("", None)
  | String c s =>
      if Ascii.eqb c "=" then ("", Some s) else let '(a, v) := cut_equals s in (String c a, v)
  end.

(** A flag argument: its name and, after an equals sign, its value; [None] is
    an argument that is no flag. *)
Definition read_flag (s : string) : option (flag_error + string * option string) :=
  match s with
  | String "-" (String c t) =>
      if String.eqb s "--" then None
      else
        match (if Ascii.eqb c "-" then t else String c t) with
        | String c' t' =>
            if Ascii.eqb c' "-" || Ascii.eqb c' "=" then Some (inl (FlagError ("bad flag syntax: " +:+ s)))
            else let '(a, v) := cut_equals t' in Some (inr (String c' a, v))
        | "" => None
        end
  | _ => None
  end.

(** [FlagSet.Parse]: the values set, the last one first. *)
Fixpoint parse_flags (flags : list go_flag) (args : list string) (values : list (string * string)) :
    flag_error + list (string * string) :=
  match args with
  | [] => inr values
  | s :: rest =>
      match read_flag s with
      | None => inr values
      | Some (inl e) => inl e
      | Some (inr (name, value)) =>
          if negb (existsb (λ f, String.eqb (f_name f) name) flags) then
            if String.eqb name "help" || String.eqb name "h" then inl ErrHelp
            else inl (FlagError ("flag provided but not defined: -" +:+ name))
          else
            match value, rest with
            | Some v, _ => parse_flags flags rest ((name, v) :: values)
            | None, v :: rest => parse_flags flags rest ((name, v) :: values)
            | None, [] => inl (FlagError ("flag needs an argument: -" +:+ name))
            end
      end
  end.

Definition flag_value (values : list (string * string)) (f : go_flag) : string :=
  match find (λ nv, String.eqb nv.1 (f_name f)) values with Some nv => nv.2 | None => f_default f end.

(** [PrintDefaults]; [flags] in the order of their names. *)
Definition tab : string := String "009" "".
Definition flag_default (f : go_flag) : string :=
  if String.eqb (f_default f) "" then "" else " (default " +:+ go_string (f_default f) +:+ ")".
Definition usage (name : string) (flags : list go_flag) : string :=
  "Usage of " +:+ name +:+ ":" +:+ nl +:+
  String.concat "" ((λ f, "  -" +:+ f_name f +:+ " string" +:+ nl +:+ "    " +:+ tab +:+ f_usage f
    +:+ flag_default f +:+ nl) <$> flags).

(** [Parse] with what it prints. *)
Definition parse_or_usage (name : string) (flags : list go_flag) (args : list string) :
    M (flag_error + list (string * string)) :=
  match parse_flags flags args [] with
  | inr values => ret (inr values)
  | inl e =>
      match e with FlagError text => call (GoStderr (text +:+ nl)) | ErrHelp => ret tt end ;;
      call (GoStderr (usage name flags)) ;;
      ret (inl e)
  end.

(** ** text/tabwriter *)

(** The cells of a line; a vertical tab ends one too. *)
Fixpoint vertical_tabs (s : string) : string :=
  match s with
  | "" => ""
  | String c s => String (if Ascii.eqb c "011" then "009" else c)%char (vertical_tabs s)
  end.
Definition table_cells (line : string) : list string := py_split_char "009" (vertical_tabs line).

(** [utf8.RuneCount]. *)
Fixpoint rune_count_from (k : nat) (s : string) : nat :=
  match s with
  | "" => 0
  | String _ t => match k with O => S (rune_count_from (rune_size s - 1) t) | S k => rune_count_from k t end
  end.
Definition rune_count : string → nat := rune_count_from 0.

Definition padding : nat := 2.

Definition pad (width : nat) (cell : string) : string := cell +:+ spaces (width - rune_count cell).

Fixpoint write_cells (widths : list nat) (cells : list string) : string :=
  match widths, cells with
  | w :: widths, c :: cells => pad w c +:+ write_cells widths cells
  | [], cells => String.concat "" cells
  | _, [] => ""
  end.

Definition column_width (column : nat) (lines : list (list string)) : nat :=
  foldr Nat.max 0 ((λ cells, rune_count (nth column cells "") + padding) <$> lines).

(** The runs of lines with a cell in a column, and of those without: the
    last cell of a line is in none. *)
Fixpoint blocks (column : nat) (lines : list (list string)) : list (bool * list (list string)) :=
  match lines with
  | [] => []
  | l :: lines =>
      let b := column <? length l - 1 in
      match blocks column lines with
      | (b', ls) :: rest => if Bool.eqb b b' then (b, l :: ls) :: rest else (b, [l]) :: (b', ls) :: rest
      | [] => [(b, [l])]
      end
  end.

(** [format], by columns; the fuel is the number of them. *)
Fixpoint format (fuel : nat) (widths : list nat) (lines : list (list string)) : list string :=
  match fuel with
  | O => write_cells widths <$> lines
  | S fuel => concat ((λ b : bool * list (list string),
      if b.1 then format fuel (widths ++ [column_width (length widths) b.2]) b.2
      else write_cells widths <$> b.2) <$> blocks (length widths) lines)
  end.

Definition format_chunk (s : string) : string :=
  let lines := table_cells <$> py_split_char "010" s in
  py_join nl (format (foldr Nat.max 0 (length <$> lines)) [] lines).

(** What a writer with these settings makes of a text, once flushed; a form
    feed ends a line, and the columns. *)
Definition tabwriter (s : string) : string := py_join nl (format_chunk <$> py_split_char "012" s).

(** ** manifest.go *)

Definition manifestUsage : string :=
  "usage:" +:+ nl
  +:+ "  inventory manifest show         -key KEY -file MANIFEST [-format table|json]" +:+ nl
  +:+ "  inventory manifest mark-removed -key KEY -file MANIFEST".

Definition key_flag : go_flag := MkFlag "key" "" "path to the base64 AES-256 key".
Definition file_flag : go_flag := MkFlag "file" "" "path to the encrypted manifest file".
Definition format_flag : go_flag := MkFlag "format" "table" "output format: table or json".

Definition manifestFlags (action : string) (arguments : list string) :
    M (flag_error + string * string * string) :=
  parsed <- parse_or_usage ("manifest " +:+ action) [file_flag; format_flag; key_flag] arguments ;;
  match parsed with
  | inl e => ret (inl e)
  | inr values =>
      let keyPath := flag_value values key_flag in
      let filePath := flag_value values file_flag in
      if String.eqb keyPath "" || String.eqb filePath "" then
        ret (inl (FlagError "both -key and -file are required"))
      else ret (inr (keyPath, filePath, flag_value values format_flag))
  end.

Definition orDash (value : string) : string := if String.eqb value "" then "-" else value.

Definition table_row (cells : list string) : string := py_join tab cells +:+ nl.

Definition table_header : list string := ["HOSTNAME"; "ROLE"; "IPV4"; "STATUS"; "STATE"; "UPDATED"].
Definition record_cells (r : GoRecord) : list string :=
  orDash <$> [Hostname r; Role r; IPv4 r; Status r; State r; StateTimestamp r].

(** Text to the standard output; [what] names it if that fails. *)
Definition print_or_fail (text what : string) : M Z :=
  r <- call (GoStdout text) ;;
  match r with
  | IoOk _ => ret 0%Z
  | IoErr err => call (GoStderr ("manifest show: cannot " +:+ what +:+ ": " +:+ err +:+ nl)) ;; ret 1%Z
  end.

Definition printManifestJSON (records : option (list GoRecord)) : M Z :=
  print_or_fail (marshal_indent (slice_value records) +:+ nl) "encode JSON".

Definition printManifestTable (records : option (list GoRecord)) : M Z :=
  match default [] records with
  | [] => call (GoStdout ("manifest is empty" +:+ nl)) ;; ret 0%Z
  | rs => print_or_fail
      (tabwriter (String.concat "" (table_row <$> table_header :: (record_cells <$> rs)))) "write table"
  end.

Definition removed (timestamp : string) (r : GoRecord) : GoRecord :=
  MkGoRecord (Hostname r) (Role r) (IPv4 r) (IPv6 r) "Removed" timestamp "Inactive" timestamp.

(** A failure of an action. *)
Definition fail_action (action : string) (err : go_error) : M Z :=
  call (GoStderr ("manifest " +:+ action +:+ ": " +:+ error_text err +:+ nl)) ;; ret 1%Z.

(** The flags of an action: without them, two. *)
Definition with_flags (action : string) (arguments : list string)
    (f : string → string → string → M Z) : M Z :=
  flags <- manifestFlags action arguments ;;
  match flags with
  | inl e => call (GoStderr (flag_error_text e +:+ nl)) ;; ret 2%Z
  | inr (keyPath, filePath, format) => f keyPath filePath format
  end.

Section commands.
Context {aead : AEAD}.

Definition loadManifestRecords (keyPath filePath : string) : M (go_res (option (list GoRecord))) :=
  key <-! LoadKey keyPath ;;
  Load (MkStore filePath key).

Definition manifestShow (arguments : list string) : M Z :=
  with_flags "show" arguments (λ keyPath filePath format,
    r <- loadManifestRecords keyPath filePath ;;
    match r with
    | inl err => fail_action "show" err
    | inr records =>
        if String.eqb format "json" then printManifestJSON records
        else if String.eqb format "table" then printManifestTable records
        else
          call (GoStderr ("unknown -format " +:+ go_string format +:+ " (want table or json)" +:+ nl)) ;;
          ret 2%Z
    end).

(** The records are rewritten in place. *)
Definition mark_records (store : Store) : M (go_res (option (list GoRecord))) :=
  records <-! Load store ;;
  timestamp <- utcTimestamp ;;
  let records := option_map (map (removed timestamp)) records in
  _ <-! Save store records ;;
  ret (inr records).

Definition manifestMarkRemoved (arguments : list string) : M Z :=
  with_flags "mark-removed" arguments (λ keyPath filePath _,
    r <- (key <-! LoadKey keyPath ;; mark_records (MkStore filePath key)) ;;
    match r with
    | inl err => fail_action "mark-removed" err
    | inr records =>
        call (GoStdout ("Marked " +:+ pretty (length (default [] records))
          +:+ " host(s) Removed/Inactive in " +:+ filePath +:+ nl)) ;;
        ret 0%Z
    end).

Definition manifestCommand (arguments : list string) : M Z :=
  match arguments with
  | [] => call (GoStderr (manifestUsage +:+ nl)) ;; ret 2%Z
  | action :: arguments =>
      if String.eqb action "show" then manifestShow arguments
      else if String.eqb action "mark-removed" then manifestMarkRemoved arguments
      else
        call (GoStderr ("unknown manifest action " +:+ go_string action +:+ nl +:+ manifestUsage +:+ nl)) ;;
        ret 2%Z
  end.

(** ** main.go *)

Definition addr_flag : go_flag := MkFlag "addr" ":5090" "listen address".
Definition service_key_flag : go_flag :=
  MkFlag "key" "/opt/inventory/inventory.key" "path to base64 AES-256 key".
Definition store_flag : go_flag :=
  MkFlag "store" "/opt/inventory/inventory.enc" "path to encrypted datastore".

(** The start of the server up to its datastore and address, or the code it
    exits with.  The embedded template is taken to be well formed. *)
Definition start_service (program : string) (arguments : list string) : M (Z + Store * string) :=
  parsed <- parse_or_usage program [addr_flag; service_key_flag; store_flag] arguments ;;
  match parsed with
  | inl ErrHelp => ret (inl 0%Z)
  | inl (FlagError _) => ret (inl 2%Z)
  | inr values =>
      key <- LoadKey (flag_value values service_key_flag) ;;
      match key with
      | inl _ => ret (inl 1%Z)
      | inr key =>
          let storePath := flag_value values store_flag in
          r <- call (GoMkdirAll (filepath_dir storePath) 488) ;;
          match r with
          | IoErr _ => ret (inl 1%Z)
          | IoOk _ => ret (inr (MkStore storePath key, flag_value values addr_flag))
          end
      end
  end.

(** [main]: the utility, or the server until it fails or is told to stop. *)
Definition main (program : string) (arguments : list string) : M Z :=
  match arguments with
  | "manifest" :: arguments => manifestCommand arguments
  | _ =>
      r <- start_service program arguments ;;
      match r with
      | inl code => ret code
      | inr (store, addr) =>
          r <- call (GoServe addr) ;;
          match r with
          | Some _ => ret 1%Z
          | None => call (GoShutdown 10) ;; ret 0%Z
          end
      end
  end.
End commands.
