(* ===== verification/GoFacts.v ===== *)
(** * The registry crosses the languages

    Each side reads what the other wrote, and what it wrote itself. *)

From S2P Require Import Prelude PyStr Exceptions Paths Effects Reasoning Worlds Values Bytes Json.
From S2P Require Import Inventory GoText GoTextFacts GoService.

#[export] Set Default Goal Selector "!".

(** ** Records *)

(** A record of the client, as the service holds it. *)
Definition go_record (r : InventoryRecord) : GoRecord :=
  MkGoRecord (go_of (r_hostname r)) (go_of (r_role r)) (go_of (r_ipv4 r)) (go_of (r_ipv6 r))
    (go_of (r_status r)) (go_of (r_status_timestamp r)) (go_of (r_state r)) (go_of (r_state_timestamp r)).

(** The client's value of a list of records. *)
Definition records_value (rs : list InventoryRecord) : value := VList (map (λ r, VDict (to_dict r)) rs).

Lemma slice_value_of rs : slice_value (Some (go_record <$> rs)) = convert go_of (records_value rs).
Proof.
  cbn [slice_value records_value convert]. f_equal. induction rs as [|r rs IH]; [done|].
  cbn [fmap list_fmap map]. by rewrite <- IH.
Qed.

Lemma sorted_records rs :
  sort_value (records_value rs) = VList (map (λ r, sort_value (VDict (to_dict r))) rs).
Proof. unfold records_value. cbn [sort_value]. by rewrite map_map. Qed.

Lemma go_nesting (g : InventoryRecord → value) rs :
  (∀ r, nesting (convert go_of (g r)) <= 1)%N →
  (nesting (convert go_of (VList (map g rs))) <= max_nesting)%N.
Proof.
  intros Hg. cbn [convert nesting].
  assert (foldr N.max 0 (map nesting (map (convert go_of) (map g rs))) <= 1)%N; [|unfold max_nesting; lia].
  induction rs as [|r rs IH]; [done|]. cbn [map foldr]. by apply N.max_lub.
Qed.

Lemma decode_converted (g : InventoryRecord → value) rs :
  (∀ r, decode_record false (convert go_of (g r)) = Some (go_record r)) →
  decode_slice (convert go_of (VList (map g rs))) = Some (Some (go_record <$> rs)).
Proof.
  intros Hg. cbn [convert decode_slice].
  assert (mapM (decode_record false) (map (convert go_of) (map g rs)) = Some (go_record <$> rs)) as ->; [|done].
  induction rs as [|r rs IH]; [done|]. cbn [map mapM]. rewrite Hg. cbn [mbind option_bind]. by rewrite IH.
Qed.

(** The service decodes what the client wrote, and what it wrote itself. *)
Lemma unmarshal_python rs : unmarshal_records (plaintext_of rs) = Some (Some (go_record <$> rs)).
Proof.
  unfold unmarshal_records, plaintext_of, json_dumps. change (string_of_bytes (utf8_encode ?s)) with (go_of s).
  fold (records_value rs). rewrite go_of_ascii by (apply json_ascii, plain_sort, records_plain).
  rewrite go_value_written; [|apply plain_sort, records_plain|].
  - rewrite sorted_records. apply decode_converted. by intros [].
  - rewrite sorted_records. apply go_nesting. by intros [].
Qed.

Definition service_plaintext (rs : list InventoryRecord) : bytes :=
  bytes_of_string (marshal_indent (slice_value (Some (go_record <$> rs)))).

Lemma unmarshal_service rs : unmarshal_records (service_plaintext rs) = Some (Some (go_record <$> rs)).
Proof.
  unfold unmarshal_records, service_plaintext. rewrite latin1_text_latin1, slice_value_of.
  rewrite go_reads_marshal; [|apply records_plain|].
  - apply decode_converted. by intros [].
  - apply go_nesting. by intros [].
Qed.

(** The client decodes it too, also with a line end behind it. *)
Lemma decode_marshal rs rest :
  str_forall is_ascii rest = true → skip_ws rest = "" →
  decode_plaintext (bytes_of_string (marshal_indent (slice_value (Some (go_record <$> rs))) +:+ rest)) = inr rs.
Proof.
  intros Ha Hr. unfold decode_plaintext. rewrite slice_value_of, python_reads_marshal by first [apply records_plain|done].
  unfold records_value. generalize 0 at 1. induction rs as [|r rs IH]; intros i; [done|].
  cbn [map parse_records].
  assert (from_dict (to_dict r) = inr r) as -> by (by destruct r).
  cbn [mbind res_bind]. by rewrite IH.
Qed.

Lemma decode_service rs : decode_plaintext (service_plaintext rs) = inr rs.
Proof. unfold service_plaintext. rewrite <- (str_app_nil_r (marshal_indent _)). by apply decode_marshal. Qed.

(** ** The wire format *)

(** What [GoRand] gives. *)
Definition rand_ok (ev : event) : Prop :=
  match ev with Ev (GoRand n) (IoOk b) => length (b : bytes) = n | _ => True end.

Section wire.
Context {aead : AEAD} {laws : AEADLaws aead}.

(** What is sealed and encoded on either side is opened by the service, and
    by the client. *)
Lemma Decrypt_sealed nonce k plaintext :
  length k = KEY_BYTES → length nonce = NONCE_BYTES →
  Decrypt (bytes_of_string (b64encode (nonce ++ aead_seal k nonce plaintext))) k = inr plaintext.
Proof.
  intros Hk Hn. unfold Decrypt, check_key. rewrite Hk, Nat.eqb_refl.
  rewrite latin1_text_latin1, trim_space_b64, std_decode_encode by apply b64encode_alphabet.
  rewrite length_app, Hn, aead_seal_length.
  destruct (Nat.ltb_spec (NONCE_BYTES + (length plaintext + TAG_BYTES)) (NONCE_BYTES + TAG_BYTES))
    as [?|_]; [lia|].
  rewrite take_app_length', drop_app_length' by done.
  by rewrite (proj2 (aead_open_seal k nonce plaintext _) eq_refl).
Qed.

Lemma decrypt_sealed nonce k plaintext :
  length k = KEY_BYTES → length nonce = NONCE_BYTES →
  decrypt_records (bytes_of_string (b64encode (nonce ++ aead_seal k nonce plaintext))) k =
  decode_plaintext plaintext.
Proof.
  intros Hk Hn. unfold decrypt_records. rewrite Hk, Nat.eqb_refl. cbn [negb].
  rewrite latin1_text_latin1, b64decode_encode, length_app, Hn, aead_seal_length.
  destruct (Nat.ltb_spec (NONCE_BYTES + (length plaintext + TAG_BYTES)) (NONCE_BYTES + TAG_BYTES))
    as [?|_]; [lia|].
  rewrite take_app_length', drop_app_length' by done.
  by rewrite (proj2 (aead_open_seal k nonce plaintext _) eq_refl).
Qed.

(** A payload that is the registry [rs] for both sides. *)
Definition payload (k blob : bytes) (rs : list InventoryRecord) : Prop :=
  decrypt_records blob k = inr rs ∧
  ∃ plaintext, Decrypt blob k = inr plaintext ∧
    unmarshal_records plaintext = Some (Some (go_record <$> rs)).

(** The format: a nonce, and what it seals. *)
Definition sealed_as (k plaintext blob : bytes) : Prop :=
  length k = KEY_BYTES ∧ ∃ nonce, length nonce = NONCE_BYTES ∧
    blob = bytes_of_string (b64encode (nonce ++ aead_seal k nonce plaintext)).

Lemma payload_sealed k plaintext blob rs :
  sealed_as k plaintext blob → decode_plaintext plaintext = inr rs →
  unmarshal_records plaintext = Some (Some (go_record <$> rs)) → payload k blob rs.
Proof.
  intros (Hk & nonce & Hn & ->) Hc Hs. split; [by rewrite decrypt_sealed|].
  exists plaintext. split; [by apply Decrypt_sealed|done].
Qed.

Lemma payload_service k blob rs : sealed_as k (service_plaintext rs) blob → payload k blob rs.
Proof. intros H. eapply payload_sealed; [done|apply decode_service|apply unmarshal_service]. Qed.

Lemma Encrypt_runs plaintext k s t r s' :
  runs (Encrypt plaintext k) s t (Ok r) s' → Forall rand_ok t →
  match r with inr blob => sealed_as k plaintext blob | inl _ => True end.
Proof.
  unfold Encrypt, go_bind, check_key. intros H Ht.
  apply runs_bind in H as [(r1 & s1 & t1 & t2 & -> & H1 & H2)|[(e & [=] & _)|[[=] _]]].
  apply runs_ret in H1 as (-> & Hr & ->). injection Hr as ->.
  destruct (Nat.eqb_spec (length k) KEY_BYTES) as [Hk|Hk]; [|by apply runs_ret in H2 as (_ & [= ->] & _)].
  apply runs_bind in H2 as [(n & s2 & t3 & t4 & -> & H3 & H4)|[(e & [=] & _)|[[=] _]]].
  apply runs_call in H3 as (n' & -> & [= <-] & ->).
  destruct n as [nonce|err]; apply runs_ret in H4 as (-> & [= ->] & ->); [|done].
  apply Forall_cons in Ht as [Hn _]. split; [done|]. by exists nonce.
Qed.

Lemma encrypt_records_runs rs k s t blob s' :
  runs (encrypt_records rs k) s t (Ok blob) s' → Forall urandom_ok t → sealed_as k (plaintext_of rs) blob.
Proof.
  intros H Ht. unfold encrypt_records in H.
  destruct (Nat.eqb_spec (length k) KEY_BYTES) as [Hk|Hk]; cbn [negb] in H; [|run_inv1 H].
  apply runs_bind in H as [(nonce & s1 & t1 & t2 & -> & H1 & H2)|[(e & [=] & _)|[[=] _]]].
  apply runs_call in H1 as (n & -> & [= <-] & ->). apply runs_ret in H2 as (-> & [= ->] & ->).
  apply Forall_app in Ht as [[Hn _]%Forall_cons _]. split; [done|]. by exists nonce.
Qed.

(** C15: the registry crosses the languages.  What the client encrypts and
    what the service encrypts is, to the client and to the service alike, the
    registry that was encrypted: the same records in the same order, whatever
    texts they hold, quotes, control characters, markup and letters beyond
    ASCII, although each side escapes them in its own way and orders the
    fields in its own way. *)
Theorem registry_crosses_languages rs k s t blob s' :
  runs (encrypt_records rs k) s t (Ok blob) s' ∧ Forall urandom_ok t ∨
  runs (Encrypt (service_plaintext rs) k) s t (Ok (inr blob)) s' ∧ Forall rand_ok t →
  payload k blob rs.
Proof.
  intros [[H Ht]|[H Ht]].
  - apply encrypt_records_runs in H; [|done].
    by eapply payload_sealed; [|apply decode_plaintext_of|apply unmarshal_python].
  - by apply payload_service, (Encrypt_runs _ _ _ _ _ _ H).
Qed.
End wire.

Definition sample_sealed : bytes :=
  match outcome_in (λ e w, (default_resp e, w)) (Encrypt (aead := toy_aead)
    (service_plaintext [sample_record]) sample_key) tt with Ok (inr b) => b | _ => [] end.

Lemma registry_crosses_languages_witness :
  payload (aead := toy_aead) sample_key sample_sealed [sample_record] ∧
  payload (aead := toy_aead) sample_key sample_blob [sample_record].
Proof.
  split.
  - destruct (run_in_runs (λ e (w : unit), (default_resp e, w))
      (Encrypt (aead := toy_aead) (service_plaintext [sample_record]) sample_key) tt) as [s' H].
    refine (registry_crosses_languages (laws := toy_laws) _ _ [] _ _ s' _).
    right. split; [exact H|]. vm_compute. by repeat constructor.
  - destruct (run_in_runs (λ e (w : unit), (default_resp e, w))
      (encrypt_records (aead := toy_aead) [sample_record] sample_key) tt) as [s' H].
    refine (registry_crosses_languages (laws := toy_laws) _ _ [] _ _ s' _).
    left. split; [exact H|]. vm_compute. by repeat constructor.
Defined.
