(* ===== verification/GoDisk.v ===== *)
(** * The datastore on a disk

    What the service relies on a file system for ([Disk], [DiskLaws]), and
    that against any such file system the datastore is replaced as a whole or
    not at all.  The service is the only writer during the run. *)

From stdpp Require Import gmap.
From S2P Require Import Prelude PyStr Exceptions Paths Effects Reasoning Worlds Values Bytes Json.
From S2P Require Import Inventory GoText GoTextFacts GoService GoFacts.

#[export] Set Default Goal Selector "!".

(** ** The interface *)

(** Calls that change no file. *)
Definition no_file (ev : event) : Prop :=
  match ev_eff ev with GoCreateTemp _ _ | GoFile _ => False | _ => True end.

Class Disk : Type := {
  d_state : Type;
  d_file : d_state → string → option bytes;
  d_answers : d_state → event → d_state → Prop }.

Class DiskLaws (d : Disk) : Prop := {
  d_rest w ev w' p : d_answers w ev w' → no_file ev → d_file w' p = d_file w p;
  d_read w p r w' : d_answers w (Ev (GoReadFile p) r) w' →
    match r with Contents b => d_file w p = Some b | NotExist => d_file w p = None | ReadFailed _ => True end;
  d_rand w ev w' : d_answers w ev w' → rand_ok ev;
  (** A temporary file is a new one, and empty. *)
  d_create w dir name w' :
    d_answers w (Ev (GoCreateTemp dir ".inventory-*.tmp") (IoOk name)) w' →
    py_endswith name ".tmp" = true ∧ d_file w name = None ∧ d_file w' name = Some [] ∧
    ∀ p, p ≠ name → d_file w' p = d_file w p;
  d_create_fails w dir pattern err w' p :
    d_answers w (Ev (GoCreateTemp dir pattern) (IoErr err)) w' → d_file w' p = d_file w p;
  (** A write extends its file, if all of it succeeds; a renaming succeeds as
      a whole or not at all. *)
  d_write w name b r w' : d_answers w (Ev (GoFile (FileWrite name b)) r) w' →
    (∀ p, p ≠ name → d_file w' p = d_file w p) ∧
    (r = IoOk tt → ∀ old, d_file w name = Some old → d_file w' name = Some (old ++ b));
  d_rename w from to w' : d_answers w (Ev (GoFile (FileRename from to)) (IoOk tt)) w' →
    d_file w' to = d_file w from ∧ ∀ p, p ≠ from → p ≠ to → d_file w' p = d_file w p;
  d_rename_fails w from to err w' p :
    d_answers w (Ev (GoFile (FileRename from to)) (IoErr err)) w' → d_file w' p = d_file w p;
  d_remove w name r w' p :
    d_answers w (Ev (GoFile (FileRemove name)) r) w' → p ≠ name → d_file w' p = d_file w p;
  d_handle w op name r w' p :
    op = FileSync name ∨ op = FileClose name ∨ (∃ mode, op = FileChmod name mode) →
    d_answers w (Ev (GoFile op) r) w' → d_file w' p = d_file w p }.

Section disk.
Context {aead : AEAD} {laws : AEADLaws aead} {d : Disk} {dlaws : DiskLaws d}.

#[local] Abbreviation keeps := (kept d_answers).

(** ** Rules *)

Lemma kept_go_bind {A B} S P (K : A → d_state → Prop) (F : d_state → Prop)
    (m : M (go_res A)) (f : A → M (go_res B)) (Q : go_res B → d_state → Prop) :
  keeps S P m (λ r w, match r with inl _ => F w | inr x => K x w end) →
  (∀ e w, F w → S w ∧ Q (inl e) w) → (∀ x, keeps S (K x) (f x) Q) → keeps S P (go_bind m f) Q.
Proof.
  intros Hm HF Hf. eapply kept_bind; [exact Hm|]. intros [e|x]; [|apply Hf].
  apply kept_ret. intros w Hw. by apply HF.
Qed.

(** The contents of one file do not change. *)
Definition stable (p : string) (P : d_state → Prop) : Prop :=
  ∀ w w', d_file w' p = d_file w p → P w → P w'.

Lemma kept_rest {S P : d_state → Prop} p e :
  stable p P → (∀ r, no_file (Ev e r)) → (∀ w, P w → S w) → keeps S P (call e) (λ _, P).
Proof.
  intros HP He HS. apply kept_call; [exact HS|]. intros w r w' Ha Hw.
  assert (P w') as HP'; [|auto]. apply (HP w w'); [|done]. apply (d_rest _ _ _ _ Ha), He.
Qed.

Lemma kept_released {A} p r (m : M A) S P (Q : A → d_state → Prop) :
  stable p S → (∀ x, stable p (Q x)) → (∀ x w, Q x w → S w) →
  keeps S P m Q → keeps S P (finally m (call (GoLock r))) Q.
Proof.
  intros HS HQ HQS Hm. apply kept_finally; [exact Hm|by refine (kept_rest p (GoLock r) _ _ _)|]. intros x.
  refine (kept_rest p (GoLock r) (HQ x) _ (HQS x)). done.
Qed.

Lemma kept_locked {A} p a r (m : M A) S P (Q : A → d_state → Prop) :
  stable p P → (∀ w, P w → S w) → keeps S P (finally m (call (GoLock r))) Q →
  keeps S P (locked a r m) Q.
Proof. intros HP HPS Hm. unfold locked. eapply kept_bind; [by apply (kept_rest p)|]. by intros u. Qed.

(** ** The registry of a datastore *)

(** The file holds the registry [rs]; a missing or empty one holds none. *)
Definition holds (k : bytes) (file : option bytes) (rs : list InventoryRecord) : Prop :=
  match file with None | Some [] => rs = [] | Some blob => payload k blob rs end.

Lemma payload_nonempty k rs : ¬ payload k [] rs.
Proof. intros (_ & p & Hp & _). unfold Decrypt, check_key in Hp. by destruct (_ =? _). Qed.

Lemma holds_payload k blob rs : payload k blob rs → holds k (Some blob) rs.
Proof. destruct blob; [by intros ?%payload_nonempty|done]. Qed.

(** What is made of the bytes that were read. *)
Definition read_result (store : Store) (r : read_resp) : go_res (option (list GoRecord)) :=
  match r with
  | NotExist | Contents [] => inr (Some [])
  | ReadFailed err => inl (GoError ("cannot read datastore " +:+ path store +:+ ": " +:+ err))
  | Contents blob =>
      match Decrypt blob (key store) with
      | inl e => inl e
      | inr plaintext => match unmarshal_records plaintext with
          | None => inl (GoError ("decrypted inventory is not a valid JSON array: " +:+ json_text))
          | Some records => inr records
          end
      end
  end.

Lemma runs_load_locked store s t o s' :
  runs (load_locked store) s t o s' →
  ∃ r, t = [Ev (GoReadFile (path store)) r] ∧ o = Ok (read_result store r) ∧ s' = s.
Proof.
  unfold load_locked. intros H.
  apply runs_bind in H as [(r & s1 & t1 & t2 & -> & H1 & H2)|[(e & _ & H)|[_ H]]];
    [|by apply runs_call in H as (? & _ & [=] & _)..].
  apply runs_call in H1 as (r' & -> & [= <-] & ->). exists r.
  assert (∀ x, runs (ret x) s t2 o s' →
    [Ev (GoReadFile (path store)) r] ++ t2 = [Ev (GoReadFile (path store)) r] ∧ o = Ok x ∧ s' = s) as Hret.
  { by intros x (-> & -> & ->)%runs_ret. }
  apply Hret. destruct r as [[|x blob]| |err]; [exact H2| |exact H2|exact H2].
  change (runs (match Decrypt (x :: blob) (key store) with
    | inl e => ret (inl e)
    | inr plaintext => match unmarshal_records plaintext with
        | None => ret (inl (GoError ("decrypted inventory is not a valid JSON array: " +:+ json_text)))
        | Some records => ret (inr records)
        end
    end) s t2 o s') in H2.
  unfold read_result. destruct (Decrypt _ _) as [e|p]; [exact H2|].
  by destruct (unmarshal_records p).
Qed.

Lemma read_result_holds store r records rs :
  match r with
  | Contents b => holds (key store) (Some b) rs
  | NotExist => holds (key store) None rs
  | ReadFailed _ => True
  end → read_result store r = inr records → records = Some (go_record <$> rs).
Proof.
  destruct r as [[|x blob]| |err]; cbn [holds read_result]; [by intros -> [= <-]| |by intros -> [= <-]|done].
  intros (_ & p & -> & ->). by intros [= <-].
Qed.

Lemma upserted_go rs c : upserted (Some (go_record <$> rs)) (go_record c) = Some (go_record <$> upsert rs c).
Proof.
  unfold upserted. cbn [default].
  assert (∀ b, replace_first (go_record <$> rs) (go_record c) = b →
    (if b.2 then b.1 else b.1 ++ [go_record c]) = go_record <$> upsert rs c) as H.
  { induction rs as [|r rs IH]; intros b <-; [done|]. cbn [fmap list_fmap replace_first upsert].
    change (Hostname (go_record ?r)) with (go_of (r_hostname r)).
    destruct (String.eqb_spec (r_hostname r) (r_hostname c)) as [->|Hne]; [by rewrite String.eqb_refl|].
    destruct (String.eqb_spec (go_of (r_hostname r)) (go_of (r_hostname c))) as [?%go_of_inj|_]; [done|].
    specialize (IH _ eq_refl). destruct (replace_first _ _) as [l []]; cbn [fst snd fmap list_fmap] in *; by rewrite <- IH. }
  specialize (H _ eq_refl). destruct (replace_first _ _) as [l []]; cbn [fst snd] in *; by rewrite <- H.
Qed.

(** ** One replacement *)

Section save.
Context (store : Store) (old : option bytes) (new : bytes → Prop).
Hypothesis not_temporary : py_endswith (path store) ".tmp" = false.

Definition unchanged (w : d_state) : Prop := d_file w (path store) = old.
Definition replaced (w : d_state) : Prop := ∃ blob, new blob ∧ d_file w (path store) = Some blob.
Definition old_or_new (w : d_state) : Prop := unchanged w ∨ replaced w.
Definition saved {A} (r : go_res A) (w : d_state) : Prop :=
  match r with inl _ => unchanged w | inr _ => replaced w end.

(** The temporary file has the contents [b]. *)
Definition temporary (name : string) (b : bytes) (w : d_state) : Prop :=
  unchanged w ∧ name ≠ path store ∧ d_file w name = Some b.

Lemma stable_unchanged : stable (path store) unchanged.
Proof. intros w w' H Hw. unfold unchanged in *. by rewrite H. Qed.

Lemma stable_replaced : stable (path store) replaced.
Proof. intros w w' H (b & Hb & Hw). exists b. by rewrite H. Qed.

Lemma stable_either : stable (path store) old_or_new.
Proof. intros w w' H [Hw|Hw]; [left; by eapply stable_unchanged|right; by eapply stable_replaced]. Qed.

Lemma stable_saved {A} (r : go_res A) : stable (path store) (saved r).
Proof. destruct r; [apply stable_unchanged|apply stable_replaced]. Qed.

Lemma saved_either {A} (r : go_res A) w : saved r w → old_or_new w.
Proof. destruct r; [by left|by right]. Qed.

(** The clean-up after a failed step. *)
Lemma kept_cleanup name ops :
  name ≠ path store → Forall (λ op, op = FileClose name ∨ op = FileRemove name) ops →
  keeps old_or_new unchanged (for_each ops (λ op, call (GoFile op) ;; ret tt)) (λ _, unchanged).
Proof.
  intros Hn Hops. apply (kept_emits d_answers old_or_new unchanged
    (λ ev, ev_eff ev = GoFile (FileClose name) ∨ ev_eff ev = GoFile (FileRemove name))); [|..|by left].
  - apply emits_for_each. intros op Hop. rewrite Forall_forall in Hops.
    apply emits_bind; [|intros; apply emits_ret]. apply emits_call. intros r. cbn [ev_eff].
    destruct (Hops op Hop) as [-> | ->]; auto.
  - intros w [e r] w' He Ha. cbn [ev_eff] in He. apply stable_unchanged.
    destruct He as [-> | ->]; [eapply d_handle; [by right; left|done]|by eapply d_remove].
Qed.

(** A step that fails leaves the datastore as it was. *)
Lemma kept_temp_step name b op cleanup text next R :
  Forall (λ op, op = FileClose name ∨ op = FileRemove name) cleanup →
  (∀ w r w', d_answers w (Ev (GoFile op) r) w' → temporary name b w →
     match r with IoOk _ => R w' | IoErr _ => unchanged w' end) →
  (∀ w, R w → old_or_new w) → keeps old_or_new R next saved →
  keeps old_or_new (temporary name b) (temp_step op cleanup text next) saved.
Proof.
  intros Hc Hop HR Hn. unfold temp_step.
  eapply (kept_bind d_answers _ _ (λ (r : io unit) w,
    name ≠ path store ∧ match r with IoOk _ => R w | IoErr _ => unchanged w end)).
  - refine (kept_call d_answers _ _ (GoFile op) _ _ _); [intros w Hw; left; apply Hw|]. intros w r w' Ha Hw.
    pose proof (Hop w r w' Ha Hw) as H. split; [|split; [apply Hw|done]].
    destruct r; [by apply HR|by left].
  - intros [u|err].
    + eapply kept_conseq; [exact Hn|done|by intros w [_ ?]|done].
    + intros s t o s' w H [Hne Hw]. revert H Hw. generalize o. clear o. intros o H Hw.
      refine (kept_bind d_answers old_or_new unchanged (λ _, unchanged) _ _ _ _ _ s t o s' w H Hw);
        [by apply (kept_cleanup name)|].
      intros _. apply kept_ret. intros w1 Hw1. split; [by left|done].
Qed.

(** The steps on the temporary file, once it has been created. *)
Lemma kept_replace name sealed :
  new sealed →
  keeps old_or_new (temporary name [])
    (temp_step (FileWrite name sealed) [FileClose name; FileRemove name]
        "cannot write temporary datastore"
      (temp_step (FileSync name) [FileClose name; FileRemove name] "cannot flush temporary datastore"
      (temp_step (FileClose name) [FileRemove name] "cannot close temporary datastore"
      (temp_step (FileChmod name 432) [FileRemove name] "cannot restrict datastore permissions"
      (temp_step (FileRename name (path store)) [FileRemove name]
         ("cannot replace datastore " +:+ path store) (ret (inr tt))))))) saved.
Proof.
  intros Hnew.
  assert (∀ w, temporary name sealed w → old_or_new w) as Hstay by (intros w Hw; left; apply Hw).
  assert (∀ op w r w', op = FileSync name ∨ op = FileClose name ∨ (∃ mode, op = FileChmod name mode) →
    d_answers w (Ev (GoFile op) r) w' → temporary name sealed w →
    match r with IoOk _ => temporary name sealed w' | IoErr _ => unchanged w' end) as Hsame.
  { intros op w r w' Hop Ha (Hw & Hne & Hb). pose proof (d_handle w op name r w') as Hh.
    unfold temporary, unchanged in *. rewrite !Hh by done. by destruct r. }
  apply (kept_temp_step name [] _ _ _ _ (temporary name sealed)); [by repeat constructor; auto|..|done|].
  { intros w r w' Ha (Hw & Hne & Hb). apply d_write in Ha as [Ho Hc].
    assert (unchanged w') as Hu by (unfold unchanged in *; by rewrite Ho).
    destruct r as [[]|]; [|done]. split_and!; [done..|]. apply (Hc eq_refl [] Hb). }
  do 3 (eapply (kept_temp_step name sealed _ _ _ _ (temporary name sealed));
    [by repeat constructor; auto|by intros w r w'; apply Hsame; eauto|done|]).
  apply (kept_temp_step name sealed _ _ _ _ replaced); [by repeat constructor; auto|..|by right|].
  - intros w r w' Ha (Hw & Hne & Hb). destruct r as [[]|err].
    + apply d_rename in Ha as [Hto _]. exists sealed. by rewrite Hto.
    + eapply stable_unchanged; [by eapply d_rename_fails|done].
  - apply kept_ret. intros w Hw. split; [by right|done].
Qed.

Lemma kept_Encrypt plaintext k :
  keeps old_or_new unchanged (Encrypt plaintext k) (λ r w, match r with
    | inl _ => unchanged w
    | inr blob => unchanged w ∧ sealed_as k plaintext blob
    end).
Proof.
  intros s t o s' w H Hw.
  assert (emits (λ ev, no_file ev) (λ _, True) (Encrypt plaintext k)) as Hem.
  { unfold Encrypt, go_bind, check_key. destruct (_ =? _); emits_auto; by destruct a; emits_auto. }
  destruct (kept_emits d_answers old_or_new unchanged no_file _ Hem) with s t o s' w as [HS HQ]; try done.
  { intros w1 ev w2 Hev Ha. apply stable_unchanged. by eapply d_rest. }
  { by left. }
  split; [exact HS|]. intros r w' -> Hp. pose proof (HQ r w' eq_refl Hp) as Hu.
  assert (Forall rand_ok t) as Hr.
  { clear -Hp dlaws. induction Hp; constructor; [by eapply d_rand|done]. }
  apply Encrypt_runs in H; [|done]. destruct r; [done|by split].
Qed.

Lemma kept_save_locked records :
  (∀ blob, sealed_as (key store) (bytes_of_string (marshal_indent (slice_value (Some (default [] records))))) blob
     → new blob) →
  keeps old_or_new unchanged (save_locked store records) saved.
Proof.
  intros Hnew. unfold save_locked.
  eapply (kept_go_bind _ _ (λ blob w, unchanged w ∧ new blob) unchanged).
  - eapply kept_conseq; [apply kept_Encrypt|done..|]. intros [e|blob] w; [done|]. intros [Hw Hb]. auto.
  - intros e w Hw. split; [by left|done].
  - intros sealed. eapply (kept_bind d_answers _ _ (λ r w,
      new sealed ∧ match r with IoOk name => temporary name [] w | IoErr _ => unchanged w end)).
    + refine (kept_call d_answers _ _ (GoCreateTemp _ _) _ _ _); [intros w [Hw _]; by left|]. intros w [name|err] w' Ha [Hw Hs].
      * apply d_create in Ha as (He & Hno & Hnew' & Hrest).
        assert (name ≠ path store) as Hne by (intros ->; congruence).
        assert (unchanged w') as Hu by (unfold unchanged; by rewrite Hrest).
        split; [by left|by split_and!].
      * assert (unchanged w') as Hu by (eapply stable_unchanged; [by eapply d_create_fails|done]).
        split; [by left|done].
    + intros [name|err] s t o s' w H [Hs Hw].
      * exact (kept_replace name sealed Hs s t o s' w H Hw).
      * refine (kept_ret d_answers old_or_new unchanged _ saved _ s t o s' w H Hw).
        intros w1 Hw1. split; [by left|done].
Qed.

(** What is read, for the registry the datastore holds. *)
Lemma kept_load_locked :
  keeps old_or_new unchanged (load_locked store) (λ r w, match r with
    | inl _ => unchanged w
    | inr records => unchanged w ∧
        ∀ rs, holds (key store) old rs → records = Some (go_record <$> rs)
    end).
Proof.
  intros s t o s' w (r & -> & -> & ->)%runs_load_locked Hw.
  assert (∀ w', along d_answers w [Ev (GoReadFile (path store)) r] w' → unchanged w') as Hu.
  { intros w' Ha%along_one. eapply stable_unchanged; [by eapply d_rest|done]. }
  split.
  - intros [|ev [|ev' t1]] t2 w1 Ht Hp; simplify_eq/=; left; [by apply along_nil_inv in Hp as ->|by apply Hu].
  - intros a w' [= <-] Hp. pose proof (Hu w' Hp) as Hw'. apply along_one, d_read in Hp.
    unfold unchanged in Hw. rewrite Hw in Hp.
    destruct (read_result store r) as [e|records] eqn:Hr; [done|]. split; [done|]. intros rs Hrs.
    apply (read_result_holds store r); [|done]. destruct r; [by rewrite <- Hp|by rewrite <- Hp|done].
Qed.

(** A registration, once it has the lock and until it has released it. *)
Lemma kept_upsert_locked rs c :
  holds (key store) old rs → (∀ blob, payload (key store) blob (upsert rs c) → new blob) →
  keeps old_or_new unchanged (finally (upsert_locked store (go_record c)) (call (GoLock Unlock)))
    (λ r w, saved r w ∧ ∀ records, r = inr records → records = Some (go_record <$> upsert rs c)).
Proof.
  intros Hold Hnew. apply (kept_released (path store)).
  - apply stable_either.
  - intros r w w' H [Hs Hr]. split; [by eapply stable_saved|done].
  - intros r w [Hs _]. by eapply saved_either.
  - unfold upsert_locked.
    eapply kept_go_bind; [apply kept_load_locked|by intros e w Hw; split; [left|split]|].
    intros records s t o s' w H [Hw Hr]. rewrite (Hr rs Hold), upserted_go in H. revert s t o s' w H Hw.
    eapply (kept_go_bind _ _ (λ _ : unit, replaced) unchanged).
    + eapply kept_conseq; [apply (kept_save_locked (Some (go_record <$> upsert rs c)))|done|done|by intros []].
      intros blob Hb. by apply Hnew, payload_service.
    + intros e w Hw. split; [by left|done].
    + intros u. apply kept_ret. intros w Hw. split; [by right|]. split; [done|]. by intros records' [= <-].
Qed.

Lemma kept_Upsert rs c :
  holds (key store) old rs → (∀ blob, payload (key store) blob (upsert rs c) → new blob) →
  keeps old_or_new unchanged (Upsert store (go_record c))
    (λ r w, saved r w ∧ ∀ records, r = inr records → records = Some (go_record <$> upsert rs c)).
Proof.
  intros Hold Hnew. apply (kept_locked (path store)); [apply stable_unchanged|by left|].
  by apply kept_upsert_locked.
Qed.

(** A reading, the same way. *)
Lemma kept_load_released rs :
  holds (key store) old rs →
  keeps old_or_new unchanged (finally (load_locked store) (call (GoLock RUnlock)))
    (λ r w, unchanged w ∧ ∀ records, r = inr records → records = Some (go_record <$> rs)).
Proof.
  intros Hold. apply (kept_released (path store)).
  - apply stable_either.
  - intros r w w' H [Hs Hr]. split; [by eapply stable_unchanged|done].
  - intros r w [Hs _]. by left.
  - eapply kept_conseq; [apply kept_load_locked|done..|]. intros [e|records] w; [done|].
    intros [Hw Hr]. split; [done|]. intros records' [= <-]. auto.
Qed.
End save.
End disk.

(** C14: a registration replaces the datastore as a whole or not at all.
    Against any file system that satisfies the laws, when the datastore holds
    the registry [rs], for the client and the service alike, then at every
    point of a run of [Upsert], also of one that is broken off there, its file
    is the one it was or holds the client's [upsert rs c]; the run that
    succeeds returns those records and leaves them there; and the one that
    fails, at whichever step, leaves the file as it was. *)
Theorem registration_is_atomic {aead : AEAD} {laws : AEADLaws aead} {d : Disk} {dlaws : DiskLaws d}
    store rs c s t o s' w :
  runs (Upsert store (go_record c)) s t o s' →
  py_endswith (path store) ".tmp" = false →
  holds (key store) (d_file w (path store)) rs →
  (∀ t1 t2 w1, t = t1 ++ t2 → along d_answers w t1 w1 →
     d_file w1 (path store) = d_file w (path store) ∨
     holds (key store) (d_file w1 (path store)) (upsert rs c)) ∧
  (∀ r w', o = Ok r → along d_answers w t w' →
     match r with
     | inl _ => d_file w' (path store) = d_file w (path store)
     | inr records => records = Some (go_record <$> upsert rs c) ∧
         holds (key store) (d_file w' (path store)) (upsert rs c)
     end).
Proof.
  intros H Htmp Hold.
  assert (∀ w1, replaced store (λ blob, payload (key store) blob (upsert rs c)) w1 →
    holds (key store) (d_file w1 (path store)) (upsert rs c)) as Hnew.
  { intros w1 (blob & Hb & ->). by apply holds_payload. }
  destruct (kept_Upsert store _ (λ blob, payload (key store) blob (upsert rs c)) Htmp rs c Hold (λ _ H, H)
    s t o s' w H eq_refl) as [HS HQ].
  split.
  - intros t1 t2 w1 Ht Hp. destruct (HS t1 t2 w1 Ht Hp); [by left|right; auto].
  - intros r w' Ho Hp. destruct (HQ r w' Ho Hp) as [Hs Hr]. destruct r; [exact Hs|]. split; auto.
Qed.

(** ** A file system *)

(** Files by name; there is one name for a temporary file. *)
Definition temp_name (dir : string) : string := dir +:+ "/.inventory-0.tmp".

Definition file_world : handler (gmap string bytes) := λ e w,
  match e with
  | GoReadFile p => (match w !! p with Some b => Contents b | None => NotExist end, w)
  | GoCreateTemp dir _ =>
      match w !! temp_name dir with
      | None => (IoOk (temp_name dir), <[temp_name dir := []]> w)
      | Some _ => (IoErr "file exists", w)
      end
  | GoFile (FileWrite name b) => (IoOk tt, alter (λ old, old ++ b) name w)
  | GoFile (FileRename from to) =>
      match w !! from with
      | Some b => (IoOk tt, <[to := b]> (delete from w))
      | None => (IoErr "no such file", w)
      end
  | GoFile (FileRemove name) => (IoOk tt, delete name w)
  | e => (default_resp e, w)
  end.

Definition file_disk : Disk := {|
  d_state := gmap string bytes; d_file := λ w p, w !! p; d_answers := handled file_world |}.

Lemma endswith_app a s : py_endswith (a +:+ s) s = true.
Proof.
  induction a as [|c a IH]; [destruct s as [|c s]; [done|]; simpl; by rewrite Ascii.eqb_refl, String.eqb_refl|].
  rewrite str_app_cons. cbn [py_endswith]. by rewrite IH, orb_true_r.
Qed.

Lemma file_disk_laws : DiskLaws file_disk.
Proof.
  split; cbn [d_state d_file d_answers file_disk]; unfold handled; cbn [ev_eff ev_resp].
  - intros w [e r] w' p H Hn. destruct e; try done; by injection H as _ <-.
  - intros w p r w' H. injection H as <- <-. by destruct (w !! p).
  - intros w [e r] w' H. destruct e; try exact I.
    injection H as <- <-. apply (length_replicate n Byte.x00).
  - intros w dir name w' H. cbn [file_world] in H. destruct (w !! temp_name dir) eqn:He; [done|].
    injection H as <- <-. split_and!; [|done|apply lookup_insert_eq|by intros; apply lookup_insert_ne].
    unfold temp_name. change "/.inventory-0.tmp" with ("/.inventory-0" +:+ ".tmp").
    rewrite <- str_app_assoc. apply endswith_app.
  - intros w dir pattern err w' p H. cbn [file_world] in H.
    by destruct (w !! temp_name dir); simplify_eq.
  - intros w name b r w' H. injection H as <- <-. split; [by intros; apply lookup_alter_ne|].
    intros _ old Ho. by rewrite lookup_alter_eq, Ho.
  - intros w from to w' H. cbn [file_world] in H. destruct (w !! from) as [b|] eqn:He; [|done].
    injection H as <-. split; [by rewrite lookup_insert_eq|].
    intros p Hf Ht. by rewrite lookup_insert_ne, lookup_delete_ne.
  - intros w from to err w' p H. cbn [file_world] in H. by destruct (w !! from); simplify_eq.
  - intros w name r w' p H Hp. injection H as _ <-. by apply lookup_delete_ne.
  - intros w op name r w' p Hop H. destruct Hop as [-> |[-> |[mode ->]]]; by injection H as _ <-.
Qed.

Definition sample_store : Store := MkStore "/opt/inventory/inventory.enc" sample_key.
Definition sample_files : gmap string bytes := {["/opt/inventory/inventory.enc" := sample_blob]}.
Definition sample_new : InventoryRecord :=
  MkRecord "web-2" "backend" "10.0.0.6" "" "Deployed" "2024-01-02T00:00:00Z" "Active" "2024-01-02T00:00:00Z".
Definition sample_upsert : M (go_res (option (list GoRecord))) :=
  Upsert (aead := toy_aead) sample_store (go_record sample_new).

(** The datastore the client wrote, after the registration of another host. *)
Lemma registration_is_atomic_witness :
  outcome_in file_world sample_upsert sample_files =
    Ok (inr (Some (go_record <$> [sample_record; sample_new]))) ∧
  holds (aead := toy_aead) sample_key
    ((run_in file_world sample_upsert sample_files).1.2 !! "/opt/inventory/inventory.enc")
    [sample_record; sample_new].
Proof.
  assert (outcome_in file_world sample_upsert sample_files =
    Ok (inr (Some (go_record <$> [sample_record; sample_new])))) as Ho by (by vm_compute).
  split; [exact Ho|].
  destruct (run_in_along file_world sample_upsert sample_files) as (s' & H & Hp). rewrite Ho in H.
  assert (payload (aead := toy_aead) sample_key sample_blob [sample_record]) as Hold.
  { split; [by vm_compute|]. exists (plaintext_of [sample_record]). split; by vm_compute. }
  refine (proj2 (proj2 (registration_is_atomic (laws := toy_laws) (d := file_disk) (dlaws := file_disk_laws)
    sample_store [sample_record] sample_new [] _ _ s' sample_files H _ _) _ _ eq_refl Hp)).
  - by vm_compute.
  - cbn [d_file file_disk path key sample_store]. unfold sample_files. rewrite lookup_singleton_eq.
    by apply holds_payload.
Defined.
