(* ===== verification/GoRequests.v ===== *)
(** * The requests of the inventory service

    Every request is answered, with the status it asks for or with an error if
    the operation failed; the lock is taken once or not at all, the datastore
    is touched under it alone, and only a well-formed registration writes. *)

From S2P Require Import Prelude PyStr Exceptions Paths Effects Reasoning Worlds Values Bytes Json.
From S2P Require Import Inventory GoText GoService GoFacts GoDisk.

#[export] Set Default Goal Selector "!".

(** ** The lock *)

(** What the goroutine that serves the request holds. *)
Inductive holding : Type := Free | Reading | Writing.

(** A call that keeps the discipline: the lock is not taken twice, what is
    released is held, a file is read under either lock, and written under the
    lock of the writer. *)
Definition lock_step (h : holding) (e : eff) : option holding :=
  match e with
  | GoLock RLock => match h with Free => Some Reading | _ => None end
  | GoLock RUnlock => match h with Reading => Some Free | _ => None end
  | GoLock Lock => match h with Free => Some Writing | _ => None end
  | GoLock Unlock => match h with Writing => Some Free | _ => None end
  | GoReadFile _ => match h with Free => None | _ => Some h end
  | GoCreateTemp _ _ | GoFile _ => match h with Writing => Some h | _ => None end
  | _ => Some h
  end.

Fixpoint disciplined (h : holding) (t : trace) : option holding :=
  match t with
  | [] => Some h
  | ev :: t => h ← lock_step h (ev_eff ev); disciplined h t
  end.

Lemma disciplined_app h t1 t2 h1 :
  disciplined h t1 = Some h1 → disciplined h (t1 ++ t2) = disciplined h1 t2.
Proof.
  revert h. induction t1 as [|ev t1 IH]; intros h H; simpl in *; [by injection H as ->|].
  destruct (lock_step h (ev_eff ev)) as [h2|]; [|done]. exact (IH h2 H).
Qed.

(** Every run of [m] from [h] returns, keeps the discipline and ends in [h']. *)
Definition keeps_lock {A} (h : holding) (m : M A) (h' : holding) : Prop :=
  ∀ s t o s', runs m s t o s' → (∃ a, o = Ok a) ∧ disciplined h t = Some h'.

Section rules.
Context {A B : Type}.

Lemma keeps_lock_ret h (a : A) : keeps_lock h (ret a) h.
Proof. intros s t o s' (-> & -> & ->)%runs_ret. eauto. Qed.

Lemma keeps_lock_call h e h' : lock_step h e = Some h' → keeps_lock h (call e) h'.
Proof. intros H s t o s' (r & -> & -> & ->)%runs_call. simpl. rewrite H. eauto. Qed.

Lemma keeps_lock_bind h h1 h' (m : M A) (f : A → M B) :
  keeps_lock h m h1 → (∀ a, keeps_lock h1 (f a) h') → keeps_lock h (bind m f) h'.
Proof.
  intros Hm Hf s t o s' [(a & s1 & t1 & t2 & -> & H1 & H2)|[(e & -> & H)|[-> H]]]%runs_bind;
    [|by destruct (Hm _ _ _ _ H) as [[? [=]] _]..].
  destruct (Hm _ _ _ _ H1) as [_ Hd]. destruct (Hf _ _ _ _ _ H2) as [Ho Hd2].
  by rewrite (disciplined_app _ _ _ _ Hd).
Qed.

Lemma keeps_lock_finally h h1 h' (m : M A) fin :
  keeps_lock h m h1 → keeps_lock h1 fin h' → keeps_lock h (finally m fin) h'.
Proof.
  intros Hm Hf s t o s' [[-> H]|(o1 & s1 & t1 & t2 & o2 & -> & H1 & _ & H2 & ->)]%runs_finally;
    [by destruct (Hm _ _ _ _ H) as [[? [=]] _]|].
  destruct (Hm _ _ _ _ H1) as [[a ->] Hd]. destruct (Hf _ _ _ _ H2) as [[u ->] Hd2].
  rewrite (disciplined_app _ _ _ _ Hd). eauto.
Qed.
End rules.

Lemma keeps_lock_for_each {A} h (l : list A) (f : A → M unit) :
  (∀ x, keeps_lock h (f x) h) → keeps_lock h (for_each l f) h.
Proof.
  intros Hf. induction l as [|x l IH]; [apply keeps_lock_ret|]. by eapply keeps_lock_bind.
Qed.

Lemma keeps_lock_locked {A} a r h (m : M A) :
  lock_step Free (GoLock a) = Some h → lock_step h (GoLock r) = Some Free →
  keeps_lock h m h → keeps_lock Free (locked a r m) Free.
Proof.
  intros Ha Hr Hm. refine (keeps_lock_bind Free h Free _ _ (keeps_lock_call Free (GoLock a) h Ha) _). intros u.
  exact (keeps_lock_finally h h Free _ _ Hm (keeps_lock_call h (GoLock r) Free Hr)).
Qed.

Lemma keeps_lock_go_bind {A B} h (m : M (go_res A)) (f : A → M (go_res B)) :
  keeps_lock h m h → (∀ a, keeps_lock h (f a) h) → keeps_lock h (go_bind m f) h.
Proof. intros Hm Hf. eapply keeps_lock_bind; [exact Hm|]. intros [e|a]; [apply keeps_lock_ret|apply Hf]. Qed.

Ltac lock_rule :=
  lazymatch goal with
  | |- keeps_lock _ (ret _) _ => apply keeps_lock_ret
  | |- keeps_lock ?h (call ?e) _ => exact (keeps_lock_call h e h eq_refl)
  | |- keeps_lock ?h (bind (call ?e) _) _ =>
      refine (keeps_lock_bind h h h (call e) _ (keeps_lock_call h e h eq_refl) _); intros ?
  | |- keeps_lock ?h (bind _ _) _ => apply (keeps_lock_bind h h); [|intros ?]
  | |- keeps_lock _ (go_bind _ _) _ => apply keeps_lock_go_bind; [|intros ?]
  | |- keeps_lock _ (for_each _ _) _ => apply keeps_lock_for_each; intros ?
  | |- keeps_lock _ (locked _ _ _) _ => eapply keeps_lock_locked; [reflexivity..|]
  | |- keeps_lock _ (if ?b then _ else _) _ => destruct b
  | |- keeps_lock _ (match ?x with _ => _ end) _ => destruct x
  end.
Ltac lock_tac := repeat lock_rule.

Section requests.
Context {aead : AEAD} (execute_template : option (list GoRecord) → string → go_error + string) (store : Store).

Lemma load_locked_lock h : h ≠ Free → keeps_lock h (load_locked store) h.
Proof. intros Hh. unfold load_locked. destruct h; [done|lock_tac..]. Qed.

Lemma save_locked_lock records : keeps_lock Writing (save_locked store records) Writing.
Proof. unfold save_locked, Encrypt, temp_step. lock_tac. Qed.

Lemma Load_lock : keeps_lock Free (Load store) Free.
Proof. unfold Load. lock_rule. by apply load_locked_lock. Qed.

Lemma Upsert_lock c : keeps_lock Free (Upsert store c) Free.
Proof.
  unfold Upsert, upsert_locked. lock_rule. repeat lock_rule; by first [apply load_locked_lock|apply save_locked_lock].
Qed.

Lemma serve_lock request : keeps_lock Free (serve execute_template store request) Free.
Proof.
  unfold serve, handleHealth, handleClusterView, handleInventory, handleRaw, handleRoot, post_inventory,
    or_fail, or_now, utcTimestamp, RawCiphertext.
  cbv zeta. repeat first [apply Load_lock|apply Upsert_lock|lock_rule].
Qed.

(** ** Refused requests *)

Definition refused (r : Response) : Prop := status_code r ∈ [302; 400; 404; 405]%Z.

(** A refusal is given before any call. *)
Definition refuses_first (m : M Response) : Prop :=
  ∀ s t r s', runs m s t (Ok r) s' → refused r → t = [].

Lemma refuses_first_ret r : refuses_first (ret r).
Proof. by intros s t r' s' (-> & _)%runs_ret _. Qed.

Lemma refuses_first_accepted m : returns m (λ r, ¬ refused r) → refuses_first m.
Proof. intros H s t r s' Hr Href. by destruct (H _ _ _ _ Hr). Qed.

Lemma not_refused z h w : (z = 200 ∨ z = 500)%Z → ¬ refused (MkResponse z h w).
Proof. unfold refused. cbn [status_code]. rewrite !not_elem_of_cons. intros [-> | ->]; split_and!; try done; apply not_elem_of_nil. Qed.

Lemma fail_accepted e : ¬ refused (fail e).
Proof. destruct e; apply not_refused; by right. Qed.

Lemma or_fail_accepted {A} (m : M (go_res A)) f :
  (∀ a, returns (f a) (λ r, ¬ refused r)) → returns (or_fail m f) (λ r, ¬ refused r).
Proof.
  intros Hf. eapply returns_bind; [apply returns_true|]. intros [e|a] _; [|apply Hf].
  apply returns_ret, fail_accepted.
Qed.

Lemma serve_refuses request : refuses_first (serve execute_template store request).
Proof.
  assert (∀ z h w, (z = 200 ∨ z = 500)%Z → returns (ret (MkResponse z h w)) (λ r, ¬ refused r)) as Hok.
  { intros z h w Hz. by apply returns_ret, not_refused. }
  unfold serve, handleHealth, handleClusterView, handleInventory, handleRaw, handleRoot, post_inventory.
  cbv zeta. repeat case_match; try apply refuses_first_ret; apply refuses_first_accepted.
  - apply or_fail_accepted. intros records. eapply returns_bind; [apply returns_true|]. intros rendered _.
    destruct (execute_template records rendered); [apply returns_ret, fail_accepted|apply Hok; by left].
  - apply or_fail_accepted. intros records. apply Hok. by left.
  - eapply returns_bind; [apply returns_true|]. intros status _.
    eapply returns_bind; [apply returns_true|]. intros state _.
    apply or_fail_accepted. intros records. apply Hok. by left.
  - apply or_fail_accepted. intros blob. apply Hok. by left.
Qed.

(** ** Requests that write *)

Definition writes (ev : event) : Prop :=
  match ev_eff ev with GoCreateTemp _ _ | GoFile _ => True | _ => False end.

(** A registration: the body is one record, of a known role, with a name. *)
Definition registers (request : Request) : Prop :=
  URLPath request = "/api/inventory" ∧ Method request = "POST" ∧
  ∃ candidate, decode_candidate (Body request) = Some candidate ∧ Validate candidate = inr tt.

Lemma registers_dec request : registers request ∨ ¬ registers request.
Proof.
  unfold registers. destruct (decode_candidate (Body request)) as [c|]; [|right; by intros (_ & _ & c & [=] & _)].
  destruct (Validate c) as [e|[]] eqn:Hv; [right; intros (_ & _ & c' & [= <-] & Hv'); congruence|].
  destruct (String.eqb_spec (URLPath request) "/api/inventory"); [|right; by intros (? & _)].
  destruct (String.eqb_spec (Method request) "POST"); [left; eauto|right; by intros (_ & ? & _)].
Qed.

#[local] Abbreviation quiet := (emits (λ ev, ¬ writes ev) (λ _, True)).

Lemma quiet_call {A} e (f : resp e → M A) :
  (∀ r, ¬ writes (Ev e r)) → (∀ r, quiet (f r)) → quiet (r <- call e ;; f r).
Proof. intros He Hf. apply emits_bind; [by apply emits_call|exact Hf]. Qed.

Lemma quiet_locked {A} a r (m : M A) : quiet m → quiet (locked a r m).
Proof.
  intros Hm. refine (quiet_call (GoLock a) _ (λ _ H, H) _). intros u.
  apply emits_finally; [exact Hm|]. exact (emits_call (λ ev, ¬ writes ev) (λ _, True) (GoLock r) (λ _ H, H)).
Qed.

Lemma quiet_or_fail {A} (m : M (go_res A)) f :
  quiet m → (∀ a, quiet (f a)) → quiet (or_fail m f).
Proof. intros Hm Hf. apply emits_bind; [exact Hm|]. intros [e|a]; [apply emits_ret|apply Hf]. Qed.

Lemma quiet_read {A} p (f : read_resp → M A) : (∀ r, quiet (f r)) → quiet (r <- call (GoReadFile p) ;; f r).
Proof. exact (quiet_call (GoReadFile p) f (λ _ H, H)). Qed.

Lemma quiet_Load : quiet (Load store).
Proof.
  apply quiet_locked, quiet_read. intros [[|x b]| |err]; try apply emits_ret.
  unfold go_bind. apply emits_bind; [apply emits_ret|]. intros [e|p]; [apply emits_ret|].
  destruct (unmarshal_records p); apply emits_ret.
Qed.

Lemma serve_quiet request : ¬ registers request → quiet (serve execute_template store request).
Proof.
  intros Hn. unfold serve, handleHealth, handleClusterView, handleInventory, handleRaw, handleRoot. cbv zeta.
  destruct (String.eqb_spec (URLPath request) "/healthz"); [case_match; apply emits_ret|].
  destruct (String.eqb_spec (URLPath request) "/clusterview").
  { case_match; [apply emits_ret|]. apply quiet_or_fail; [apply quiet_Load|]. intros records.
    refine (quiet_call UtcNow _ (λ _ H, H) _). intros rendered. destruct (execute_template records rendered); apply emits_ret. }
  destruct (String.eqb_spec (URLPath request) "/api/inventory") as [Hp|].
  - destruct (String.eqb_spec (Method request) "GET").
    { apply quiet_or_fail; [apply quiet_Load|]. intros records. apply emits_ret. }
    destruct (String.eqb_spec (Method request) "POST") as [Hm|]; [|apply emits_ret].
    unfold post_inventory. destruct (decode_candidate (Body request)) as [c|] eqn:Hc; [|apply emits_ret].
    destruct (Validate c) as [e|[]] eqn:Hv; [apply emits_ret|]. destruct Hn. split; [done|]. split; [done|]. by exists c.
  - destruct (String.eqb_spec (URLPath request) "/api/inventory/raw"); [|repeat case_match; apply emits_ret].
    case_match; [apply emits_ret|]. apply quiet_or_fail; [|intros blob; apply emits_ret].
    apply quiet_locked, quiet_read. intros []; apply emits_ret.
Qed.

(** ** What a request is answered with *)

(** The calls of the lock, in order. *)
Definition lock_calls (t : trace) : list lock_op :=
  omap (λ ev, match ev_eff ev with GoLock l => Some l | _ => None end) t.

(** The payload of the datastore opens under the key and holds records. *)
Definition opens (blob : bytes) : bool :=
  match Decrypt blob (key store) with
  | inr plaintext => if unmarshal_records plaintext is Some _ then true else false
  | inl _ => false
  end.

(** A call of the datastore that failed: one with an error of the system, or,
    unless the payload is served as it is, one that read a payload that does
    not open. *)
Definition failed (raw : bool) (ev : event) : Prop :=
  match ev with
  | Ev (GoReadFile _) r =>
      match r : read_resp with
      | ReadFailed _ => True
      | NotExist | Contents [] => False
      | Contents blob => raw = false ∧ opens blob = false
      end
  | Ev (GoCreateTemp _ _) r => if (r : io string) is IoErr _ then True else False
  | Ev (GoFile _) r => if (r : io unit) is IoErr _ then True else False
  | Ev (GoRand _) r => if (r : io bytes) is IoErr _ then True else False
  | _ => False
  end.

(** An operation on the datastore reports an error exactly if a call of it
    failed, or the key is none. *)
Definition faithful (raw : bool) {A} (m : M (go_res A)) : Prop :=
  ∀ s t r s', runs m s t (Ok r) s' →
    (∀ a, r = inr a → Forall (λ ev, ¬ failed raw ev) t) ∧
    (∀ e, r = inl e → Exists (failed raw) t ∨ length (key store) ≠ KEY_BYTES).

Section faithful.
Context (raw : bool).

Lemma faithful_ret {A} (a : A) : faithful raw (ret (inr a)).
Proof. intros s t r s' (-> & [= ->] & ->)%runs_ret. by split. Qed.

Lemma faithful_go_bind {A B} (m : M (go_res A)) (f : A → M (go_res B)) :
  faithful raw m → (∀ a, faithful raw (f a)) → faithful raw (go_bind m f).
Proof.
  intros Hm Hf s t r s' [(x & s1 & t1 & t2 & -> & H1 & H)|[(e & [=] & _)|[[=] _]]]%runs_bind.
  destruct (Hm _ _ _ _ H1) as [Hok Herr]. destruct x as [e|a].
  - apply runs_ret in H as (-> & [= ->] & ->). rewrite app_nil_r. split; [done|]. intros e' _. by eapply Herr.
  - destruct (Hf a _ _ _ _ H) as [Hok2 Herr2]. split.
    + intros b Hb. apply Forall_app. split; [by eapply Hok|by eapply Hok2].
    + intros e He. rewrite Exists_app. destruct (Herr2 e He); auto.
Qed.

(** A call whose failure is an error of the operation. *)
Lemma faithful_call {A} e (f : resp e → M (go_res A)) :
  (∀ r, (¬ failed raw (Ev e r) ∧ faithful raw (f r)) ∨
        (failed raw (Ev e r) ∧ returns (f r) (λ x, ∃ err, x = inl err))) →
  faithful raw (bind (call e) f).
Proof.
  intros Hr s t r s' [(x & s1 & t1 & t2 & -> & H1 & H)|[(e' & [=] & _)|[[=] _]]]%runs_bind.
  apply runs_call in H1 as (x' & -> & [= <-] & ->). destruct (Hr x) as [[Hn Hf]|[Hb Hf]].
  - destruct (Hf _ _ _ _ H) as [Hok Herr]. split.
    + intros a Ha. constructor; [done|by eapply Hok].
    + intros err He. destruct (Herr err He); [left|by right]. by apply Exists_cons_tl.
  - apply Hf in H as [err ->]. split; [done|]. intros _ _. left. by constructor.
Qed.

Lemma faithful_locked {A} a r (m : M (go_res A)) : faithful raw m → faithful raw (locked a r m).
Proof.
  intros Hm. refine (faithful_call (GoLock a) _ _). intros u. left. split; [by intros []|].
  intros s t x s' [[[=] _]|(o1 & s1 & t1 & t2 & o2 & -> & H1 & _ & H2 & Hx)]%runs_finally.
  apply (runs_call (GoLock r)) in H2 as (y & -> & -> & ->). subst o1. destruct (Hm _ _ _ _ H1) as [Hok Herr]. split.
  - intros b Hb. apply Forall_app. split; [by eapply Hok|]. repeat constructor. by intros [].
  - intros e He. rewrite Exists_app. destruct (Herr e He); auto.
Qed.
End faithful.

(** A result that is known. *)
Lemma returns_go_ret {A B} (x : go_res A) (f : A → M (go_res B)) Q :
  match x with inl e => Q (inl e) | inr a => returns (f a) Q end → returns (go_bind (ret x) f) Q.
Proof.
  intros H. unfold go_bind. eapply (returns_bind _ _ (λ y, y = x)); [by apply returns_ret|].
  intros y ->. destruct x; [by apply returns_ret|done].
Qed.

Lemma faithful_go_ret raw {A B} (a : A) (f : A → M (go_res B)) :
  faithful raw (f a) → faithful raw (go_bind (ret (inr a)) f).
Proof.
  intros Hf s t r s' [(x & s1 & t1 & t2 & -> & H1 & H)|[(e & [=] & _)|[[=] _]]]%runs_bind.
  apply runs_ret in H1 as (-> & [= ->] & ->). by apply (Hf _ _ _ _ H).
Qed.

Lemma load_locked_faithful : faithful false (load_locked store).
Proof.
  unfold load_locked. apply (faithful_call false (GoReadFile (path store))). intros r.
  destruct r as [[|x b]| |err].
  - left. split; [by intros []|apply faithful_ret].
  - unfold failed, opens. destruct (Decrypt (x :: b) (key store)) as [e|plaintext].
    { right. split; [done|]. apply returns_go_ret. by exists e. }
    destruct (unmarshal_records plaintext) as [records|] eqn:Hu.
    + left. split; [by intros []|]. apply faithful_go_ret. rewrite Hu. apply faithful_ret.
    + right. split; [done|]. apply returns_go_ret. rewrite Hu. apply returns_ret. by eexists.
  - left. split; [by intros []|apply faithful_ret].
  - right. split; [done|]. apply returns_ret. by eexists.
Qed.

Lemma temp_step_faithful op cleanup text next :
  faithful false next → faithful false (temp_step op cleanup text next).
Proof.
  intros Hn. unfold temp_step. apply (faithful_call false (GoFile op)). intros [u|err].
  - left. split; [by intros []|done].
  - right. split; [done|]. apply returns_bind_any. intros ?. apply returns_ret. by eexists.
Qed.

Lemma Encrypt_faithful plaintext : faithful false (Encrypt plaintext (key store)).
Proof.
  unfold Encrypt. apply faithful_go_bind.
  - intros s t r s' (-> & [= ->] & ->)%runs_ret. unfold check_key.
    destruct (Nat.eqb_spec (length (key store)) KEY_BYTES); (split; [done|]); [done|by right].
  - intros _. apply (faithful_call false (GoRand NONCE_BYTES)). intros [nonce|err].
    + left. split; [by intros []|apply faithful_ret].
    + right. split; [done|]. apply returns_ret. by eexists.
Qed.

Lemma save_locked_faithful records : faithful false (save_locked store records).
Proof.
  unfold save_locked. cbv zeta. apply faithful_go_bind; [apply Encrypt_faithful|]. intros sealed.
  apply (faithful_call false (GoCreateTemp _ _)). intros [name|err].
  - left. split; [by intros []|]. do 5 apply temp_step_faithful. apply faithful_ret.
  - right. split; [done|]. apply returns_ret. by eexists.
Qed.

Lemma Load_faithful : faithful false (Load store).
Proof. apply faithful_locked, load_locked_faithful. Qed.

Lemma Upsert_faithful c : faithful false (Upsert store c).
Proof.
  apply faithful_locked. unfold upsert_locked. cbv zeta.
  apply faithful_go_bind; [apply load_locked_faithful|]. intros records.
  apply faithful_go_bind; [apply save_locked_faithful|]. intros u. apply faithful_ret.
Qed.

Lemma RawCiphertext_faithful : faithful true (RawCiphertext store).
Proof.
  apply faithful_locked. apply (faithful_call true (GoReadFile (path store))). intros r.
  destruct r as [[|x b]| |err].
  - left. split; [by intros []|apply faithful_ret].
  - left. split; [by intros []|apply faithful_ret].
  - left. split; [by intros []|apply faithful_ret].
  - right. split; [done|]. apply returns_ret. by eexists.
Qed.

(** One acquisition for each operation. *)
Definition lock_free (ev : event) : Prop := match ev_eff ev with GoLock _ => False | _ => True end.

Lemma lock_calls_free t : Forall lock_free t → lock_calls t = [].
Proof.
  unfold lock_calls. induction 1 as [|[e r] t He _ IH]; [done|]. simpl. destruct e; try exact IH. done.
Qed.

Lemma lock_calls_app t1 t2 : lock_calls (t1 ++ t2) = lock_calls t1 ++ lock_calls t2.
Proof. apply omap_app. Qed.

Definition locks (l : list lock_op) {A} (m : M A) : Prop :=
  ∀ s t a s', runs m s t (Ok a) s' → lock_calls t = l.

Lemma locks_locked {A} a r (m : M A) :
  emits lock_free (λ _, True) m → locks [a; r] (locked a r m).
Proof.
  intros Hm s t x s' [(u & s1 & t1 & t2 & -> & H1 & H)|[(e & [=] & _)|[[=] _]]]%runs_bind.
  apply (runs_call (GoLock a)) in H1 as (y & -> & _ & ->).
  apply runs_finally in H as [[[=] _]|(o1 & s2 & t3 & t4 & o2 & -> & H3 & _ & H4 & _)].
  apply (runs_call (GoLock r)) in H4 as (z & -> & _ & ->).
  rewrite !lock_calls_app, (lock_calls_free t3) by by destruct (Hm _ _ _ _ H3). done.
Qed.

Ltac free_tac :=
  repeat lazymatch goal with
  | |- emits _ _ (ret _) => apply emits_ret
  | |- emits _ _ (call ?e) => refine (emits_call _ _ e _); intros ?; exact I
  | |- emits _ _ (go_bind _ _) => apply emits_bind; [|intros [?|?]; [apply emits_ret|]]
  | |- emits _ _ (for_each _ _) => apply emits_for_each; intros ? _
  | |- emits _ _ (match ?x with _ => _ end) => destruct x
  | |- _ => emits_step
  end.

Lemma load_locked_free : emits lock_free (λ _, True) (load_locked store).
Proof. unfold load_locked. by free_tac. Qed.
Lemma save_locked_free records : emits lock_free (λ _, True) (save_locked store records).
Proof. unfold save_locked, Encrypt, temp_step. cbv zeta. by free_tac. Qed.

Lemma Load_locks : locks [RLock; RUnlock] (Load store).
Proof. apply locks_locked, load_locked_free. Qed.
Lemma Upsert_locks c : locks [Lock; Unlock] (Upsert store c).
Proof.
  apply locks_locked. unfold upsert_locked. cbv zeta.
  apply emits_bind; [apply load_locked_free|]. intros [e|records]; [apply emits_ret|].
  apply emits_bind; [apply save_locked_free|]. intros [e|u]; apply emits_ret.
Qed.
Lemma RawCiphertext_locks : locks [RLock; RUnlock] (RawCiphertext store).
Proof. apply locks_locked. by free_tac. Qed.

(** The status of a request whose operation does not fail, and the calls of
    the lock. *)
Definition reads_lock : list lock_op := [RLock; RUnlock].
Definition writes_lock : list lock_op := [Lock; Unlock].

Definition valid_body (request : Request) : bool :=
  match decode_candidate (Body request) with
  | Some candidate => if Validate candidate is inr _ then true else false
  | None => false
  end.

Definition nominal (request : Request) : Z * list lock_op :=
  let p := URLPath request in
  let get := String.eqb (Method request) "GET" in
  let read := if get then (200, reads_lock)%Z else (405, [])%Z in
  if String.eqb p "/healthz" then (if get then 200 else 405, [])%Z
  else if String.eqb p "/clusterview" || String.eqb p "/api/inventory/raw" then read
  else if String.eqb p "/api/inventory" then
    if String.eqb (Method request) "POST" then
      if valid_body request then (200, writes_lock)%Z else (400, [])%Z
    else read
  else if String.eqb p "/" then (302, [])%Z else (404, [])%Z.

Definition raw_request (request : Request) : bool := String.eqb (URLPath request) "/api/inventory/raw".

(** A body that tells the error. *)
Definition tells_error (response : Response) : Prop :=
  ∃ headers text more, response =
    MkResponse (status_code response) headers (encode_json (VDict (("error", VStr text) :: more))).

(** Why an answer is an error although no call failed. *)
Definition other_cause (request : Request) : Prop :=
  length (key store) ≠ KEY_BYTES ∨
  URLPath request = "/clusterview" ∧ ∃ records rendered e, execute_template records rendered = inl e.

Definition answers (raw : bool) (bad : Prop) (z : Z) (l : list lock_op) (m : M Response) : Prop :=
  ∀ s t r s', runs m s t (Ok r) s' →
    lock_calls t = l ∧
    (status_code r = z ∧ Forall (λ ev, ¬ failed raw ev) t ∨
     status_code r = 500%Z ∧ (Exists (failed raw) t ∨ bad)) ∧
    (status_code r ∈ [400; 405; 500]%Z → tells_error r).

Lemma answers_ret raw bad r z :
  status_code r = z → (z ∈ [400; 405; 500]%Z → tells_error r) → answers raw bad z [] (ret r).
Proof.
  intros <- He s t r' s' (-> & [= ->] & ->)%runs_ret. split; [done|]. split; [left; by split|done].
Qed.

Lemma answers_or_fail {A} raw (bad : Prop) l (m : M (go_res A)) f :
  faithful raw m → locks l m → (length (key store) ≠ KEY_BYTES → bad) →
  (∀ a, answers raw bad 200 [] (f a)) → answers raw bad 200 l (or_fail m f).
Proof.
  intros Hm Hl Hbad Hf s t r s' [(x & s1 & t1 & t2 & -> & H1 & H)|[(e & [=] & _)|[[=] _]]]%runs_bind.
  destruct (Hm _ _ _ _ H1) as [Hok Herr]. rewrite lock_calls_app, (Hl _ _ _ _ H1). destruct x as [e|a].
  - apply runs_ret in H as (-> & [= ->] & ->). rewrite !app_nil_r. split; [done|]. split.
    + right. split; [by destruct e|]. destruct (Herr e eq_refl); auto.
    + intros _. unfold tells_error. by destruct e; eexists _, _, _.
  - destruct (Hf a _ _ _ _ H) as (-> & Hz & Ht). rewrite app_nil_r. split; [done|]. split; [|done].
    destruct Hz as [[Hz Hs]|[Hz Hs]]; [left|right]; (split; [done|]).
    + apply Forall_app. split; [by eapply Hok|done].
    + rewrite Exists_app. tauto.
Qed.

(** A timestamp is no call of the datastore. *)
Lemma answers_now {A} raw bad z l (m : M A) f :
  emits (λ ev, lock_free ev ∧ ¬ failed raw ev) (λ _, True) m → (∀ a, answers raw bad z l (f a)) →
  answers raw bad z l (bind m f).
Proof.
  intros Hm Hf s t r s' [(x & s1 & t1 & t2 & -> & H1 & H)|[(e & [=] & _)|[[=] _]]]%runs_bind.
  destruct (Hm _ _ _ _ H1) as [Ht _]. destruct (Hf x _ _ _ _ H) as (Hl & Hz & He).
  rewrite lock_calls_app, Hl, lock_calls_free by by eapply Forall_impl; [exact Ht|intros ? []].
  split; [done|]. split; [|done]. destruct Hz as [[Hz Hs]|[Hz Hs]]; [left|right]; (split; [done|]).
  - apply Forall_app. split; [|done]. eapply Forall_impl; [exact Ht|by intros ? []].
  - rewrite Exists_app. tauto.
Qed.

Lemma or_now_quiet raw timestamp :
  emits (λ ev, lock_free ev ∧ ¬ failed raw ev) (λ _, True) (or_now timestamp).
Proof.
  unfold or_now, utcTimestamp. destruct (String.eqb timestamp ""); [|apply emits_ret].
  refine (emits_call _ _ UtcNow _). intros ?. by split; [|intros []].
Qed.

Lemma answers_serve request :
  answers (raw_request request) (other_cause request) (nominal request).1 (nominal request).2
    (serve execute_template store request).
Proof.
  unfold serve, raw_request, nominal. cbv zeta.
  assert (length (key store) ≠ KEY_BYTES → other_cause request) as Hkey by (by left).
  assert (∀ z, (z = 200 ∨ z = 302 ∨ z = 404)%Z → z ∉ [400; 405; 500]%Z) as Hok.
  { intros z Hz. rewrite !elem_of_cons, elem_of_nil. lia. }
  assert (∀ raw allowed, answers raw (other_cause request) 405 [] (ret (methodNotAllowed allowed))) as Hnot.
  { intros raw allowed. apply answers_ret; [done|]. intros _. by eexists _, _, _. }
  assert (∀ raw z headers body, (z = 200 ∨ z = 302 ∨ z = 404)%Z →
    answers raw (other_cause request) z [] (ret (MkResponse z headers body))) as Hret.
  { intros raw z headers body Hz. apply answers_ret; [done|]. intros He. by destruct (Hok z Hz). }
  destruct (String.eqb_spec (URLPath request) "/healthz") as [_|_].
  { unfold handleHealth. destruct (String.eqb (Method request) "GET"); cbn [negb fst snd]; [apply Hret; lia|apply Hnot]. }
  destruct (String.eqb_spec (URLPath request) "/clusterview") as [Hp|_]; cbn [orb].
  { unfold handleClusterView.
    destruct (String.eqb (Method request) "GET"); cbn [negb fst snd]; [|apply Hnot].
    assert (String.eqb (URLPath request) "/api/inventory/raw" = false) as -> by by rewrite Hp.
    apply answers_or_fail; [apply Load_faithful|apply Load_locks|done|]. intros records.
    apply answers_now; [refine (emits_call _ _ UtcNow _); intros ?; by split; [|intros []]|].
    intros rendered. destruct (execute_template records rendered) as [e|page] eqn:Ht; [|apply Hret; lia].
    intros s t r s' (-> & [= ->] & ->)%runs_ret. split; [done|]. split; [|intros _; by eexists _, _, _].
    right. split; [done|]. right. right. split; [done|]. by exists records, rendered, e. }
  destruct (String.eqb_spec (URLPath request) "/api/inventory") as [Hp|_].
  { assert (String.eqb (URLPath request) "/api/inventory/raw" = false) as -> by by rewrite Hp.
    unfold handleInventory. cbn [orb].
    destruct (String.eqb_spec (Method request) "GET") as [Hg|_]; cbn [fst snd].
    { rewrite Hg. cbn [String.eqb Ascii.eqb Bool.eqb fst snd].
      apply answers_or_fail; [apply Load_faithful|apply Load_locks|done|]. intros records. apply Hret. lia. }
    destruct (String.eqb (Method request) "POST"); cbn [fst snd]; [|apply Hnot].
    unfold post_inventory, valid_body. destruct (decode_candidate (Body request)) as [c|];
      [|apply answers_ret; [done|intros _; by eexists _, _, _]].
    destruct (Validate c) as [e|u]; [apply answers_ret; [done|intros _; by eexists _, _, _]|].
    cbn [fst snd]. apply answers_now; [by apply or_now_quiet|intros status].
    apply answers_now; [by apply or_now_quiet|intros state].
    apply answers_or_fail; [apply Upsert_faithful|apply Upsert_locks|done|]. intros records. apply Hret. lia. }
  destruct (String.eqb_spec (URLPath request) "/api/inventory/raw") as [_|_]; cbn [orb].
  { unfold handleRaw. destruct (String.eqb (Method request) "GET"); cbn [negb fst snd]; [|apply Hnot].
    apply answers_or_fail; [apply RawCiphertext_faithful|apply RawCiphertext_locks|done|]. intros blob. apply Hret. lia. }
  unfold handleRoot. destruct (String.eqb (URLPath request) "/"); cbn [negb fst snd]; apply Hret; lia.
Qed.

(** C16: the service answers every request and serializes the access to its
    datastore.  Whatever the request and whatever the file system does, every
    run of the handler returns a response.  The lock is taken once, to read or
    to write as the request asks, or not at all; the datastore is read or
    written only while it is held, written only by its writer, and it is
    released at the end.  The status is the one the method, the path and the
    body ask for unless the operation failed, and it is 500 if it did: if a
    call of the datastore reported an error, if the payload that was read does
    not open, or, although no call failed, if the key is none or the page could
    not be made; and a body tells the error.  Only a POST of a record with a
    name and a known role writes a file, and a request that is refused or
    redirected is answered before any call at all. *)
Theorem requests_are_served request s t o s' :
  runs (serve execute_template store request) s t o s' →
  ∃ response, o = Ok response ∧
    lock_calls t = (nominal request).2 ∧ disciplined Free t = Some Free ∧
    (status_code response = (nominal request).1 ∧ Forall (λ ev, ¬ failed (raw_request request) ev) t ∨
     status_code response = 500%Z ∧ (Exists (failed (raw_request request)) t ∨ other_cause request)) ∧
    (status_code response ∈ [400; 405; 500]%Z → tells_error response) ∧
    (Exists writes t → registers request) ∧ (refused response → t = []).
Proof.
  intros H. destruct (serve_lock request _ _ _ _ H) as [[response ->] Hd].
  destruct (answers_serve request _ _ _ _ H) as (Hl & Hz & He).
  exists response. split_and!; [done|exact Hl|exact Hd|exact Hz|exact He| |by apply (serve_refuses request _ _ _ _ H)].
  intros Hw. destruct (registers_dec request) as [Hr|Hr]; [exact Hr|].
  destruct (serve_quiet request Hr _ _ _ _ H) as [Ht _].
  apply Exists_exists in Hw as (ev & Hin & Hev). rewrite Forall_forall in Ht. by destruct (Ht ev Hin).
Qed.
End requests.

(** A page without a template, and two requests. *)
Definition sample_page (records : option (list GoRecord)) (rendered : string) : go_error + string :=
  inr ("<p>" +:+ rendered +:+ "</p>").
Definition sample_post : Request :=
  MkRequest "POST" "/api/inventory" (encode_json (record_value (go_record sample_new))).
Definition sample_bad : Request :=
  MkRequest "POST" "/api/inventory" ("{" +:+ dq +:+ "hostname" +:+ dq +:+ ": 1}").
Definition sample_serve (request : Request) : M Response :=
  serve (aead := toy_aead) sample_page sample_store request.

Lemma writes_at i t : (if t !! i is Some ev then writes ev else False) → Exists writes t.
Proof. destruct (t !! i) as [ev|] eqn:Hi; [|done]. intros Hw. apply Exists_exists. eauto using list_elem_of_lookup_2. Qed.

Lemma status_in o (r : Response) z :
  o = Ok r → (if o is Ok r then status_code r =? z else false)%Z = true → status_code r = z.
Proof. intros ->. apply Z.eqb_eq. Qed.

(** A datastore with a payload that does not open. *)
Definition broken_world : handler unit := λ e w,
  (match e return resp e with
   | GoReadFile _ => Contents (bytes_of_string "no payload")
   | e => default_resp e
   end, w).

Lemma requests_are_served_witness :
  (∃ response, outcome_in file_world (sample_serve sample_post) sample_files = Ok response ∧
     status_code response = 200%Z) ∧
  lock_calls (trace_in file_world (sample_serve sample_post) sample_files) = [Lock; Unlock] ∧
  registers sample_post ∧
  trace_in file_world (sample_serve sample_bad) sample_files = [] ∧
  (∃ response, outcome_in broken_world (sample_serve sample_post) tt = Ok response ∧ tells_error response).
Proof.
  destruct (run_in_runs file_world (sample_serve sample_post) sample_files) as [s' H].
  destruct (run_in_runs file_world (sample_serve sample_bad) sample_files) as [s2 H2].
  destruct (run_in_runs broken_world (sample_serve sample_post) tt) as [s3 H3].
  destruct (requests_are_served (aead := toy_aead) _ _ _ _ _ _ _ H) as (r & Hr & Hl & _ & _ & _ & Hw & _).
  destruct (requests_are_served (aead := toy_aead) _ _ _ _ _ _ _ H2) as (r2 & Hr2 & _ & _ & _ & _ & _ & He).
  destruct (requests_are_served (aead := toy_aead) _ _ _ _ _ _ _ H3) as (r3 & Hr3 & _ & _ & _ & Ht & _).
  assert ((nominal sample_post).2 = [Lock; Unlock]) as Hn by (by vm_compute). rewrite Hn in Hl.
  split_and!; [|exact Hl|apply Hw|apply He|].
  - exists r. split; [exact Hr|]. apply (status_in _ _ 200 Hr). by vm_compute.
  - apply (writes_at 5). by vm_compute.
  - unfold refused. rewrite (status_in _ _ 400 Hr2) by (by vm_compute).
    apply list_elem_of_further, list_elem_of_here.
  - exists r3. split; [exact Hr3|]. apply Ht. rewrite (status_in _ _ 500 Hr3) by (by vm_compute).
    do 2 apply list_elem_of_further. apply list_elem_of_here.
Defined.
