(* ===== verification/GoConcurrent.v ===== *)
(** * Requests at the same time

    A pool of goroutines, each registering a host or listing the registry,
    shares the lock and the disk: a step is one call of one of them
    ([pool_step]).  Whatever the schedule, the registry is that of the
    registrations in the order of some log, each success is in the log once,
    and a listing is the registry after some part of it. *)

From stdpp Require Import relations.
From S2P Require Import Prelude PyStr Exceptions Paths Effects Reasoning Worlds Values Bytes Json.
From S2P Require Import Inventory GoText GoService GoFacts GoDisk GoRequests.

#[export] Set Default Goal Selector "!".

(** ** Steps of a tree *)

Section trees.
Context {A : Type}.
Implicit Types p q : tree A.

Inductive tree_step : tree A → event → tree A → Prop :=
  | tree_step_vis e k r : tree_step (Vis e k) (Ev e r) (k r).

Lemma tree_step_inv p ev q :
  tree_step p ev q →
  match p with Done _ => False | Vis e k => ∃ r, ev = Ev e r ∧ q = k r end.
Proof. destruct 1. eauto. Qed.

Definition is_done p : bool := match p with Done _ => true | Vis _ _ => false end.

Inductive reaches p : trace → tree A → Prop :=
  | reaches_nil : reaches p [] p
  | reaches_snoc t q ev q' : reaches p t q → tree_step q ev q' → reaches p (t ++ [ev]) q'.

Lemma reaches_exec p t q t2 a : reaches p t q → exec q t2 a → exec p (t ++ t2) a.
Proof.
  intros H. revert t2. induction H as [|t q ev q' H IH Hs]; intros t2 Hq; [done|].
  rewrite <- app_assoc. apply IH. destruct Hs as [e k r]. by constructor.
Qed.

(** Every tree can be run to an end. *)
Lemma tree_ends p : ∃ t a, exec p t a.
Proof.
  induction p as [a|e k IH]; [eauto using exec_done|].
  destruct (IH (default_resp e)) as (t & a & H). eauto using exec_vis.
Qed.
End trees.

(** ** The requests *)

Inductive operation : Type := Registration (c : InventoryRecord) | Listing.

#[export] Instance holding_dec : EqDecision holding.
Proof. solve_decision. Defined.

Definition acquires (o : operation) : lock_op := match o with Registration _ => Lock | Listing => RLock end.
Definition releases (o : operation) : lock_op := match o with Registration _ => Unlock | Listing => RUnlock end.
Definition held (o : operation) : holding := match o with Registration _ => Writing | Listing => Reading end.

(** What an operation makes of the registry. *)
Definition after (o : operation) (rs : list InventoryRecord) : list InventoryRecord :=
  match o with Registration c => upsert rs c | Listing => rs end.

Definition registry (ops : list operation) (rs : list InventoryRecord) (log : list nat) :
    list InventoryRecord :=
  fold_left (λ rs i, match ops !! i with Some o => after o rs | None => rs end) log rs.

Lemma registry_snoc ops rs log i o :
  ops !! i = Some o → registry ops rs (log ++ [i]) = after o (registry ops rs log).
Proof. intros Ho. unfold registry. rewrite fold_left_app. simpl. by rewrite Ho. Qed.

Abbreviation answer := (go_res (option (list GoRecord))).
Abbreviation goroutine := (holding * tree (outcome answer * store))%type.

Section pool.
Context {aead : AEAD} {d : Disk} (db : Store).

Definition code (o : operation) : M answer :=
  match o with Registration c => Upsert db (go_record c) | Listing => Load db end.

Definition started (ops : list operation) : list goroutine := (λ o, (Free, code o [])) <$> ops.

(** What a call makes of the locks its goroutine holds. *)
Definition hold_step (h : holding) (e : eff) : option holding :=
  match e with GoLock op => lock_step h (GoLock op) | _ => Some h end.

(** The lock of the writer excludes every other, those of readers only that.
    (A reader that Go makes wait for a waiting writer may go first here.) *)
Definition admitted (pool : list goroutine) (i : nat) (e : eff) : Prop :=
  match e with
  | GoLock Lock => ∀ j g, j ≠ i → pool !! j = Some g → g.1 = Free
  | GoLock RLock => ∀ j g, j ≠ i → pool !! j = Some g → g.1 ≠ Writing
  | _ => True
  end.

Inductive pool_step : list goroutine * d_state → list goroutine * d_state → Prop :=
  | pool_step_call pool w i h p ev p' h' w' :
      pool !! i = Some (h, p) → tree_step p ev p' → hold_step h (ev_eff ev) = Some h' →
      admitted pool i (ev_eff ev) → d_answers w ev w' →
      pool_step (pool, w) (<[i := (h', p')]> pool, w').

(** The answer to the request [i], in a log of the registrations. *)
Definition answer_ok (ops : list operation) (rs : list InventoryRecord) (log : list nat) (i : nat)
    (o : operation) (r : answer) : Prop :=
  match o, r with
  | Registration _, inr records => ∃ n, log !! n = Some i ∧
      records = Some (go_record <$> registry ops rs (take (S n) log))
  | Listing, inr records => (i ∉ log) ∧
      (∃ n, n ≤ length log ∧ records = Some (go_record <$> registry ops rs (take n log)))
  | _, inl _ => i ∉ log
  end.
End pool.

(** ** The disk of one goroutine among others *)

Section disk.
Context {aead : AEAD} {laws : AEADLaws aead} {d : Disk} {dlaws : DiskLaws d}.

Definition same_files (w w' : d_state) : Prop := ∀ p, d_file w' p = d_file w p.

(** The others may call before each of its calls, and change no file. *)
Definition shared : Disk := {|
  d_state := d_state; d_file := d_file;
  d_answers := λ w ev w', ∃ w0, same_files w w0 ∧ d_answers w0 ev w' |}.

#[local] Instance shared_laws : DiskLaws shared.
Proof.
  split; cbn [d_state d_file d_answers shared].
  - intros w ev w' p (w0 & Hs & H) He. rewrite <- Hs. by eapply d_rest.
  - intros w p r w' (w0 & Hs & H). apply d_read in H. by rewrite <- Hs.
  - intros w ev w' (w0 & Hs & H). by eapply d_rand.
  - intros w dir name w' (w0 & Hs & H). apply d_create in H as (He & Hn & Hf & Hr).
    split_and!; [done|by rewrite <- Hs|done|]. intros p Hp. rewrite <- Hs. auto.
  - intros w dir pattern err w' p (w0 & Hs & H). rewrite <- Hs. by eapply d_create_fails.
  - intros w name b r w' (w0 & Hs & H). apply d_write in H as [Ho Hw]. split.
    + intros p Hp. rewrite <- Hs. auto.
    + intros Hr old. rewrite <- Hs. auto.
  - intros w from to w' (w0 & Hs & H). apply d_rename in H as [Ht Ho]. split; [by rewrite <- Hs|].
    intros p Hf Hp. rewrite <- Hs. auto.
  - intros w from to err w' p (w0 & Hs & H). rewrite <- Hs. by eapply d_rename_fails.
  - intros w name r w' p (w0 & Hs & H) Hp. rewrite <- Hs. by eapply d_remove.
  - intros w op name r w' p Hop (w0 & Hs & H). rewrite <- Hs. by eapply d_handle.
Qed.

Context (db : Store) (ops : list operation) (rs0 : list InventoryRecord).
Hypothesis not_temporary : py_endswith (path db) ".tmp" = false.

#[local] Abbreviation shared_answers := (d_answers (Disk := shared)).
#[local] Abbreviation state := (d_state (Disk := d)).
#[local] Abbreviation file := (λ w : state, d_file w (path db)).
#[local] Abbreviation reg := (registry ops rs0).

Lemma same_files_trans w1 w2 w3 : same_files w1 w2 → same_files w2 w3 → same_files w1 w3.
Proof. intros H1 H2 p. by rewrite H2. Qed.

(** ** One critical section *)

Definition inner (o : operation) : M answer :=
  match o with Registration c => upsert_locked db (go_record c) | Listing => load_locked db end.
Definition body (o : operation) : M answer := finally (inner o) (call (GoLock (releases o))).

Definition not_lock (ev : event) : Prop := match ev_eff ev with GoLock _ => False | _ => True end.

Lemma inner_no_lock o : emits not_lock (λ _, True) (inner o).
Proof.
  assert (emits not_lock (λ _, True) (load_locked db)) as Hl.
  { intros s t o' s' (r & -> & -> & ->)%runs_load_locked. split; [by constructor|done]. }
  destruct o as [c|]; [|exact Hl]. cbn [inner]. unfold upsert_locked, save_locked, temp_step, Encrypt, go_bind.
  emits_auto; done.
Qed.

Lemma inner_quiet : emits no_file (λ _, True) (inner Listing).
Proof. intros s t o' s' (r & -> & -> & ->)%runs_load_locked. split; [by constructor|done]. Qed.

Lemma inner_returns o : keeps_lock (held o) (inner o) (held o).
Proof.
  destruct o; [|by apply load_locked_lock]. cbn [held inner]. unfold upsert_locked.
  repeat lock_rule; by first [apply load_locked_lock|apply save_locked_lock].
Qed.

(** A critical section is a part without the lock, then its release. *)
Lemma body_runs o s t r s' :
  exec (body o s) t (r, s') →
  (∃ a, r = Ok a) ∧ ∃ t1, t = t1 ++ [Ev (GoLock (releases o)) tt] ∧ Forall not_lock t1 ∧
    (o = Listing → Forall no_file t1).
Proof.
  intros [[-> H]|(o1 & s1 & t1 & t2 & o2 & -> & H1 & _ & H2 & ->)]%runs_finally.
  { by destruct (inner_returns o _ _ _ _ H) as [[? [=]] _]. }
  apply (runs_call (GoLock (releases o))) in H2 as ([] & -> & -> & ->).
  split; [by apply (inner_returns o _ _ _ _ H1)|]. exists t1. split_and!; [done|by apply (inner_no_lock o _ _ _ _ H1)|].
  intros ->. by apply (inner_quiet _ _ _ _ H1).
Qed.

Lemma body_next o s t p ev q :
  reaches (body o s) t p → Forall not_lock t → tree_step p ev q →
  not_lock ev ∧ (o = Listing → no_file ev) ∨
  ev = Ev (GoLock (releases o)) tt ∧ ∃ a s', q = Done (Ok a, s').
Proof.
  intros Hr Ht Hs. destruct (tree_ends q) as (t2 & [r s'] & Hq).
  pose proof (reaches_exec _ _ _ _ _ (reaches_snoc _ _ _ _ _ Hr Hs) Hq) as H.
  apply body_runs in H as ([a ->] & t1 & Heq & Hl & Hn).
  destruct t2 as [|x t2 _] using rev_ind.
  - rewrite app_nil_r in Heq. apply app_inj_tail in Heq as [-> ->]. right. split; [done|].
    apply exec_inv in Hq. destruct q as [b|e k]; [destruct Hq as [_ <-]; eauto|].
    by destruct Hq as (? & ? & [=] & _).
  - rewrite app_assoc in Heq. apply app_inj_tail in Heq as [<- ->]. left.
    rewrite !Forall_app, Forall_singleton in Hl. split; [apply Hl|]. intros Ho. specialize (Hn Ho).
    rewrite !Forall_app, Forall_singleton in Hn. apply Hn.
Qed.

Lemma body_not_done o s t x : reaches (body o s) t (Done x) → ¬ Forall not_lock t.
Proof.
  intros Hr Ht. destruct x as [r s']. pose proof (reaches_exec _ _ _ _ _ Hr (exec_done _)) as H.
  rewrite app_nil_r in H. apply body_runs in H as (_ & t1 & -> & _).
  by apply Forall_app in Ht as [_ [[] _]%Forall_cons].
Qed.

(** What it makes of the datastore, whatever calls the others make. *)
Lemma body_kept o rs old :
  holds (key db) old rs →
  kept shared_answers
    (λ w : state, holds (key db) (file w) rs ∨ holds (key db) (file w) (after o rs))
    (λ w : state, file w = old) (body o)
    (λ r w, match r with
      | inl _ => holds (key db) (file w) rs
      | inr records => holds (key db) (file w) (after o rs) ∧ records = Some (go_record <$> after o rs)
      end).
Proof.
  intros Hold. destruct o as [c|].
  - eapply kept_conseq; [apply (kept_upsert_locked (d := shared) db old
      (λ blob, payload (key db) blob (upsert rs c)) not_temporary rs c Hold (λ _ H, H))|..|done|].
    + intros w [Hw|(blob & Hb & Hw)]; [left; by rewrite Hw|right]. cbn [d_file shared] in Hw. rewrite Hw.
      by apply holds_payload.
    + intros [e|records] w [Hs Hr]; [by rewrite Hs|]. destruct Hs as (blob & Hb & Hw).
      split; [|by apply Hr]. cbn [d_file shared] in Hw. rewrite Hw. by apply holds_payload.
  - eapply kept_conseq; [apply (kept_load_released (d := shared) db old (λ _, False) rs Hold)|..|done|].
    + intros w [Hw|(blob & [] & _)]. left. by rewrite Hw.
    + intros [e|records] w [Hs Hr]; [by rewrite Hs|]. split; [by rewrite Hs|by apply Hr].
Qed.

(** ** The invariant *)

(** In a critical section since a state that held the registry of the log. *)
Definition inside (log : list nat) (o : operation) (p : tree (outcome answer * store)) (w : state) : Prop :=
  ∃ w1 w2 t, holds (key db) (file w1) (reg log) ∧ reaches (body o []) t p ∧ Forall not_lock t ∧
    along shared_answers w1 t w2 ∧ same_files w2 w.

Inductive thread_ok (log : list nat) (w : state) (i : nat) (o : operation) : goroutine → Prop :=
  | thread_before : i ∉ log → thread_ok log w i o (Free, code db o [])
  | thread_inside p : i ∉ log → inside log o p w → thread_ok log w i o (held o, p)
  | thread_after r s' : answer_ok ops rs0 log i o r → thread_ok log w i o (Free, Done (Ok r, s')).

Record pool_ok (pool : list goroutine) (w : state) (log : list nat) : Prop := {
  pool_log : NoDup log;
  pool_threads i g : pool !! i = Some g → ∃ o, ops !! i = Some o ∧ thread_ok log w i o g;
  pool_file : (∀ i g, pool !! i = Some g → g.1 ≠ Writing) → holds (key db) (file w) (reg log);
  pool_excludes i j g g' : pool !! i = Some g → pool !! j = Some g' → i ≠ j →
    g.1 = Writing → g'.1 = Free }.

Lemma held_not_free o : held o ≠ Free.
Proof. by destruct o. Qed.

Lemma inside_same log o p w w' : inside log o p w → same_files w w' → inside log o p w'.
Proof.
  intros (w1 & w2 & t & ? & ? & ? & ? & ?) Hs. exists w1, w2, t. split_and!; try done.
  by eapply same_files_trans.
Qed.

Lemma thread_same log w w' i o g : thread_ok log w i o g → same_files w w' → thread_ok log w' i o g.
Proof. intros [] Hs; constructor; try done. by eapply inside_same. Qed.

(** What one that is outside knows stays true in a longer log. *)
Lemma answer_ok_snoc log i j o r :
  answer_ok ops rs0 log i o r → i ≠ j → answer_ok ops rs0 (log ++ [j]) i o r.
Proof.
  intros H Hne. assert (i ∉ log → i ∉ log ++ [j]) as Hnot.
  { rewrite elem_of_app, list_elem_of_singleton. by intros ? [?|?]. }
  destruct o as [c|], r as [e|records]; cbn [answer_ok] in *; [auto| |auto|].
  - destruct H as (n & Hn & ->). exists n. split; [by apply lookup_app_l_Some|].
    apply lookup_lt_Some in Hn. by rewrite take_app_le by lia.
  - destruct H as (Hi & n & Hn & ->). split; [auto|]. exists n. split; [rewrite length_app; lia|].
    by rewrite take_app_le.
Qed.

Lemma thread_snoc log w w' i j o g :
  thread_ok log w i o g → g.1 = Free → i ≠ j → thread_ok (log ++ [j]) w' i o g.
Proof.
  intros [Hi|p _ _|r s' Hr] Hg Hne; cbn [fst] in Hg.
  - apply thread_before. rewrite elem_of_app, list_elem_of_singleton. by intros [?|?].
  - by apply held_not_free in Hg.
  - by apply thread_after, answer_ok_snoc.
Qed.

Lemma tree_along_snoc w1 t w2 w ev w' :
  along shared_answers w1 t w2 → same_files w2 w → d_answers w ev w' →
  along shared_answers w1 (t ++ [ev]) w'.
Proof. intros Ht Hs Ha. apply along_app. exists w2. split; [done|]. apply along_one. by exists w. Qed.

(** At every point of a critical section the file is whole. *)
Lemma inside_file log o p w :
  inside log o p w → holds (key db) (file w) (reg log) ∨ holds (key db) (file w) (after o (reg log)).
Proof.
  intros (w1 & w2 & t & Hw1 & Hr & _ & Ha & Hs). destruct (tree_ends p) as (t2 & [r s'] & Hp).
  pose proof (reaches_exec _ _ _ _ _ Hr Hp) as H.
  destruct (body_kept o (reg log) _ Hw1 _ _ _ _ _ H eq_refl) as [HS _].
  specialize (HS t t2 w2 eq_refl Ha). cbn [d_file shared] in HS. by rewrite Hs.
Qed.

(** One call inside. *)
Lemma inside_step log o p w ev q w' :
  inside log o p w → tree_step p ev q → d_answers w ev w' →
  not_lock ev ∧ (o = Listing → no_file ev) ∧ inside log o q w' ∨
  ev = Ev (GoLock (releases o)) tt ∧ ∃ r s', q = Done (Ok r, s') ∧ match r with
    | inl _ => holds (key db) (file w') (reg log)
    | inr records => holds (key db) (file w') (after o (reg log)) ∧
        records = Some (go_record <$> after o (reg log))
    end.
Proof.
  intros (w1 & w2 & t & Hw1 & Hr & Ht & Ha & Hs) Hq Hw.
  pose proof (reaches_snoc _ _ _ _ _ Hr Hq) as Hr'.
  pose proof (tree_along_snoc _ _ _ _ _ _ Ha Hs Hw) as Ha'.
  destruct (body_next o [] t p ev q Hr Ht Hq) as [[Hl Hn]|(-> & r & s' & ->)].
  - left. split_and!; [done..|]. exists w1, w', (t ++ [ev]). split_and!; try done.
    apply Forall_app. by split; [|constructor].
  - right. split; [done|]. exists r, s'. split; [done|].
    pose proof (reaches_exec _ _ _ _ _ Hr' (exec_done _)) as H. rewrite app_nil_r in H.
    destruct (body_kept o (reg log) _ Hw1 _ _ _ _ _ H eq_refl) as [_ HQ].
    specialize (HQ r w' eq_refl Ha'). by destruct r.
Qed.

(** A step of one goroutine, and what it leaves of the others. *)
Lemma pool_update pool w log i g o g' w' log' :
  pool_ok pool w log → pool !! i = Some g → ops !! i = Some o → NoDup log' →
  thread_ok log' w' i o g' →
  (∀ j gj oj, j ≠ i → pool !! j = Some gj → thread_ok log w j oj gj → thread_ok log' w' j oj gj) →
  ((∀ j gj, j ≠ i → pool !! j = Some gj → gj.1 ≠ Writing) → g'.1 ≠ Writing →
     holds (key db) (file w') (reg log')) →
  (∀ j gj, j ≠ i → pool !! j = Some gj →
     (g'.1 = Writing → gj.1 = Free) ∧ (gj.1 = Writing → g'.1 = Free)) →
  pool_ok (<[i:=g']> pool) w' log'.
Proof.
  intros HI Hg Ho Hnd Hok Hothers Hfile Hexcl. pose proof (lookup_lt_Some _ _ _ Hg) as Hlt. split; [done|..].
  - intros j gj [(<- & <- & _)|(Hne & Hj)]%list_lookup_insert_Some; [eauto|].
    destruct (pool_threads _ _ _ HI j gj Hj) as (oj & Hoj & Hthr). exists oj. split; [done|]. by eapply Hothers.
  - intros HW. apply Hfile.
    + intros j gj Hne Hj. apply (HW j). by rewrite list_lookup_insert_ne.
    + apply (HW i). by apply list_lookup_insert_eq.
  - intros j k gj gk [(<- & <- & _)|(Hne & Hj)]%list_lookup_insert_Some
      [(<- & <- & _)|(Hne' & Hk)]%list_lookup_insert_Some Hjk Hwr; [done|..].
    + by eapply Hexcl.
    + by eapply Hexcl.
    + exact (pool_excludes _ _ _ HI j k gj gk Hj Hk Hjk Hwr).
Qed.

Lemma pool_ok_start w : holds (key db) (file w) rs0 → pool_ok (started db ops) w [].
Proof.
  intros Hw. assert (∀ i g, started db ops !! i = Some g → ∃ o, ops !! i = Some o ∧ g = (Free, code db o [])) as Hst.
  { intros i g H. apply list_lookup_fmap_Some in H as (o & -> & Ho). eauto. }
  split; [constructor|..|done|].
  - intros i g (o & Ho & ->)%Hst. exists o. split; [done|]. apply thread_before, not_elem_of_nil.
  - by intros i j g g' (o & _ & ->)%Hst (o' & _ & ->)%Hst.
Qed.

(** A goroutine takes its lock. *)
Lemma pool_enter pool w log i o ev q h' w' :
  pool_ok pool w log → pool !! i = Some (Free, code db o []) → ops !! i = Some o → i ∉ log →
  tree_step (code db o []) ev q → hold_step Free (ev_eff ev) = Some h' →
  admitted pool i (ev_eff ev) → d_answers w ev w' →
  pool_ok (<[i := (h', q)]> pool) w' log.
Proof.
  intros HI Hg Ho Hi Hq Hh Had Hw.
  assert (ev_eff ev = GoLock (acquires o) ∧ q = body o []) as [He ->].
  { apply tree_step_inv in Hq. destruct o; destruct Hq as (r & -> & ->); done. }
  assert (h' = held o) as -> by (rewrite He in Hh; destruct o; by injection Hh as <-).
  assert (same_files w w') as Hs by (intros p; eapply d_rest; [done|unfold no_file; by rewrite He]).
  assert (∀ j gj, j ≠ i → pool !! j = Some gj → gj.1 ≠ Writing ∧ (held o = Writing → gj.1 = Free)) as Hall.
  { intros j gj Hne Hj. rewrite He in Had. destruct o; [by rewrite (Had j gj Hne Hj)|].
    split; [by eapply Had|done]. }
  assert (holds (key db) (file w) (reg log)) as Hf.
  { apply (pool_file _ _ _ HI). intros j gj Hj. destruct (decide (j = i)) as [->|Hne]; [by simplify_eq|].
    by eapply Hall. }
  eapply pool_update; [done..| | | | |].
  - by eapply pool_log.
  - apply thread_inside; [done|]. exists w', w', []. rewrite Hs.
    split_and!; [done|constructor|done|constructor|by intros p].
  - intros j gj oj _ _ Hj. by eapply thread_same.
  - intros _ _. by rewrite Hs.
  - intros j gj Hne Hj. destruct (Hall j gj Hne Hj) as [Hnw Hfr]. by split.
Qed.

(** A goroutine inside makes a call: it stays, or it leaves. *)
Lemma pool_inside pool w log i o p ev q h' w' :
  pool_ok pool w log → pool !! i = Some (held o, p) → ops !! i = Some o → i ∉ log →
  inside log o p w → tree_step p ev q → hold_step (held o) (ev_eff ev) = Some h' → d_answers w ev w' →
  ∃ log', pool_ok (<[i := (h', q)]> pool) w' log'.
Proof.
  intros HI Hg Ho Hi Hin Hq Hh Hw.
  assert (∀ j gj, j ≠ i → pool !! j = Some gj →
    (held o = Writing → gj.1 = Free) ∧ (gj.1 = Writing → held o = Free)) as Hex.
  { intros j gj Hne Hj. split; intros HW; [exact (pool_excludes _ _ _ HI i j _ gj Hg Hj (not_eq_sym Hne) HW)|].
    exact (pool_excludes _ _ _ HI j i gj _ Hj Hg Hne HW). }
  assert (∀ j gj, j ≠ i → pool !! j = Some gj → gj.1 ≠ Writing) as Hnw.
  { intros j gj Hne Hj HW. by apply (held_not_free o), (Hex j gj). }
  destruct (inside_step _ _ _ _ _ _ _ Hin Hq Hw) as [(Hl & Hn & Hin')|(-> & r & s' & -> & Hr)].
  - exists log. assert (h' = held o) as ->.
    { destruct ev as [e r]. unfold not_lock in Hl. cbn [ev_eff] in *. destruct e; try done; by injection Hh. }
    eapply pool_update; [done..|by eapply pool_log|by apply thread_inside| | |by apply Hex].
    + intros j gj oj Hne Hj Hth. destruct o as [c|].
      * pose proof (proj1 (Hex j gj Hne Hj) eq_refl) as Hfr.
        destruct Hth as [Hj'|p' _ _|r s' Hr]; [by constructor|by apply held_not_free in Hfr|by constructor].
      * eapply thread_same; [done|]. intros p'. eapply d_rest; [done|by apply Hn].
    + intros _ Hnw'. destruct o as [c|]; [done|].
      assert (file w' = file w) as -> by (eapply d_rest; [done|by apply Hn]).
      apply (pool_file _ _ _ HI). intros j gj Hj. destruct (decide (j = i)) as [->|Hne]; [by simplify_eq|eauto].
  - assert (h' = Free) as -> by (destruct o; by injection Hh).
    assert (same_files w w') as Hs by (intros p'; by eapply d_rest).
    destruct o as [c|]; [destruct r as [e|records]|].
    + exists log. eapply pool_update; [done..|by eapply pool_log|by apply thread_after| | |done].
      * intros j gj oj _ _ Hj. by eapply thread_same.
      * done.
    + exists (log ++ [i]). pose proof (registry_snoc ops rs0 log i _ Ho) as Hreg.
      destruct Hr as [Hf ->]. eapply pool_update; [done..| | | | |done].
      * apply NoDup_app. split_and!; [by eapply pool_log| |apply NoDup_singleton].
        intros j Hj ->%list_elem_of_singleton. done.
      * apply thread_after. exists (length log). split; [by apply list_lookup_middle|].
        rewrite take_ge by (rewrite length_app; simpl; lia). by rewrite Hreg.
      * intros j gj oj Hne Hj Hth. eapply thread_snoc; [done|by apply (Hex j)|done].
      * intros _ _. by rewrite Hreg.
    + exists log. eapply pool_update; [done..|by eapply pool_log| | | |done].
      * apply thread_after. destruct r as [e|records]; [done|]. split; [done|].
        exists (length log). split; [done|]. rewrite take_ge by done. apply Hr.
      * intros j gj oj _ _ Hj. by eapply thread_same.
      * intros _ _. destruct r; [done|apply Hr].
Qed.

Lemma pool_steps c c' log :
  pool_ok c.1 c.2 log → pool_step c c' → ∃ log', pool_ok c'.1 c'.2 log'.
Proof.
  intros HI Hs. revert HI. destruct Hs as [pool w i h p ev q h' w' Hg Hq Hh Had Hw]. cbn [fst snd]. intros HI.
  destruct (pool_threads _ _ _ HI i _ Hg) as (o & Ho & Hth).
  inversion Hth as [Hi|p' Hi Hin|r s' Hr]; subst.
  - exists log. by eapply pool_enter.
  - by eapply pool_inside.
  - by apply tree_step_inv in Hq.
Qed.

Lemma pool_reached w c :
  holds (key db) (file w) rs0 → rtc pool_step (started db ops, w) c → ∃ log, pool_ok c.1 c.2 log.
Proof.
  intros Hw H. assert (∃ log, pool_ok (started db ops, w).1 (started db ops, w).2 log) as Hp.
  { exists []. by apply pool_ok_start. }
  revert Hp. induction H as [c|c1 c2 c3 Hs H IH]; [done|]. intros [log Hp]. apply IH. by eapply pool_steps.
Qed.

(** ** What the invariant says *)

Lemma answered pool w log i h r s' :
  pool_ok pool w log → pool !! i = Some (h, Done (Ok r, s')) →
  ∃ o, ops !! i = Some o ∧ answer_ok ops rs0 log i o r.
Proof.
  intros HI Hg. destruct (pool_threads _ _ _ HI i _ Hg) as (o & Ho & Hth). exists o. split; [done|].
  inversion Hth as [Hi Hc|p' Hi Hin|r' s1 Hr]; subst; [by destruct o| |done].
  destruct Hin as (w1 & w2 & t & _ & Hr & Ht & _). by apply body_not_done in Hr.
Qed.

(** The registry of the file at any moment. *)
Lemma pool_registry pool w log :
  pool_ok pool w log →
  ∃ log', NoDup log' ∧ holds (key db) (file w) (reg log') ∧
    ∀ i h r s', pool !! i = Some (h, Done (Ok r, s')) →
      ∃ o, ops !! i = Some o ∧ answer_ok ops rs0 log' i o r.
Proof.
  intros HI.
  destruct (decide (Exists (λ g : goroutine, g.1 = Writing) pool)) as [Hw|Hw].
  - apply Exists_exists in Hw as ([h p] & [i Hi]%list_elem_of_lookup & Hwr). cbn [fst] in Hwr. subst h.
    destruct (pool_threads _ _ _ HI i _ Hi) as (o & Ho & Hth).
    inversion Hth as [|p' Hni Hin Hh|]; subst. pose proof (pool_log _ _ _ HI) as Hnd.
    destruct (inside_file _ _ _ _ Hin) as [Hf|Hf].
    + exists log. split_and!; [done..|]. intros. by eapply answered.
    + exists (log ++ [i]). rewrite (registry_snoc _ _ _ _ _ Ho). split_and!; [|done|].
      * apply NoDup_app. split_and!; [done| |apply NoDup_singleton]. by intros j Hj ->%list_elem_of_singleton.
      * intros j h r s' Hj. destruct (answered _ _ _ _ _ _ _ HI Hj) as (oj & Hoj & Hr). exists oj. split; [done|].
        apply answer_ok_snoc; [done|]. intros ->. rewrite Hi in Hj. simplify_eq.
        destruct Hin as (w1 & w2 & t & _ & Hreach & Ht & _). by apply body_not_done in Hreach.
  - exists log. split_and!; [by eapply pool_log| |intros; by eapply answered].
    apply (pool_file _ _ _ HI). intros i g Hi Hwr. apply Hw, Exists_exists. exists g. split; [|done].
    by eapply list_elem_of_lookup_2.
Qed.

(** A goroutine that waits waits for one that can go on. *)
Lemma pool_progress pool w log :
  (∀ (w : state) e, ∃ r w', d_answers w (Ev e r) w') → pool_ok pool w log →
  (∀ i g, pool !! i = Some g → ∃ r s', g = (Free, Done (Ok r, s'))) ∨ ∃ c, pool_step (pool, w) c.
Proof.
  intros Hans HI.
  destruct (decide (Exists (λ g : goroutine, g.1 ≠ Free) pool)) as [Hx|Hx].
  - right. apply Exists_exists in Hx as ([h p] & [i Hi]%list_elem_of_lookup & Hfr). cbn [fst] in Hfr.
    destruct (pool_threads _ _ _ HI i _ Hi) as (o & Ho & Hth).
    inversion Hth as [|p' Hni Hin Hh|]; subst; [done| |done].
    destruct Hin as (w1 & w2 & t & _ & Hr & Ht & _).
    destruct p as [x|e k]; [by apply body_not_done in Hr|]. destruct (Hans w e) as (r & w' & Hw).
    pose proof (tree_step_vis e k r) as Hs.
    destruct (body_next o [] t _ _ _ Hr Ht Hs) as [[Hl _]|[Hev _]].
    + exists (<[i := (held o, k r)]> pool, w'). eapply pool_step_call; [done..| | |done];
        unfold not_lock in Hl; cbn [ev_eff] in *; by destruct e.
    + exists (<[i := (Free, k r)]> pool, w'). apply (f_equal ev_eff) in Hev. cbn [ev_eff] in Hev. subst e.
      eapply pool_step_call; [done..| | |done]; by destruct o.
  - assert (∀ i g, pool !! i = Some g → g.1 = Free) as Hfree.
    { intros i g Hi. destruct (decide (g.1 = Free)) as [|Hne]; [done|]. destruct Hx. apply Exists_exists.
      exists g. split; [by eapply list_elem_of_lookup_2|done]. }
    destruct (decide (Exists (λ g : goroutine, is_done g.2 = false) pool)) as [Hp|Hp].
    + right. apply Exists_exists in Hp as ([h p] & [i Hi]%list_elem_of_lookup & Hd). cbn [snd] in Hd.
      destruct (pool_threads _ _ _ HI i _ Hi) as (o & Ho & Hth).
      inversion Hth as [Hni|p' Hni Hin Hh|]; subst; [|by apply Hfree, held_not_free in Hi|done].
      destruct (Hans w (GoLock (acquires o))) as (r & w' & Hw).
      exists (<[i := (held o, body o [])]> pool, w').
      apply (pool_step_call pool w i Free (code db o []) (Ev (GoLock (acquires o)) r)); [done| |by destruct o| |done].
      * destruct o as [c|]; [exact (tree_step_vis (GoLock Lock) (λ _, body (Registration c) []) r)|].
        exact (tree_step_vis (GoLock RLock) (λ _, body Listing []) r).
      * destruct o; intros j g Hne Hj; by rewrite (Hfree j g Hj).
    + left. intros i g Hi. destruct (pool_threads _ _ _ HI i _ Hi) as (o & Ho & Hth).
      inversion Hth as [Hni|p' Hni Hin Hh|r s' Hr]; subst; [|by apply Hfree, held_not_free in Hi|eauto].
      destruct Hp. apply Exists_exists. eexists. split; [by eapply list_elem_of_lookup_2|]. by destruct o.
Qed.
End disk.

(** C13: requests served at the same time are served as if in turn.  For any
    number of registrations and listings, any schedule of their calls the lock
    admits and any file system that satisfies the laws, at every moment there
    is an order of registrations, each in it once, such that the datastore is
    whole and holds the registry after them in that order; a registration that
    has succeeded is in the order and was answered with the registry up to
    itself, one that has failed is not in it, and a listing was answered with
    the registry after some of them.  No request is lost and none overwrites
    another.  And as long as calls are answered there is no deadlock: either
    every request has been answered and the lock is free, or one can go on. *)
Theorem requests_are_serializable {aead : AEAD} {laws : AEADLaws aead} {d : Disk} {dlaws : DiskLaws d}
    db ops rs w c :
  py_endswith (path db) ".tmp" = false →
  holds (key db) (d_file w (path db)) rs →
  rtc pool_step (started db ops, w) c →
  (∃ log, NoDup log ∧ holds (key db) (d_file c.2 (path db)) (registry ops rs log) ∧
     ∀ i h r s', c.1 !! i = Some (h, Done (Ok r, s')) →
       ∃ o, ops !! i = Some o ∧ answer_ok ops rs log i o r) ∧
  ((∀ w e, ∃ r w', d_answers w (Ev e r) w') →
     (∀ i g, c.1 !! i = Some g → ∃ r s', g = (Free, Done (Ok r, s'))) ∨ ∃ c', pool_step c c').
Proof.
  intros Htmp Hw H. apply (pool_reached db ops rs Htmp w c Hw) in H as [log HI]. destruct c as [pool w'].
  split; [by eapply pool_registry|]. intros Hans. by eapply pool_progress.
Qed.

(** ** A schedule *)

Definition admits (pool : list goroutine) (i : nat) (e : eff) : bool :=
  let others f := forallb (λ jg : nat * goroutine, (jg.1 =? i) || f jg.2.1) (zip (seq 0 (length pool)) pool) in
  match e with
  | GoLock Lock => others (λ h, bool_decide (h = Free))
  | GoLock RLock => others (λ h, bool_decide (h ≠ Writing))
  | _ => true
  end.

(** The goroutine [i] makes its next call. *)
Definition run_call {W} (h : handler W) (i : nat) (c : list goroutine * W) : option (list goroutine * W) :=
  match c.1 !! i with
  | Some (held, Vis e k) =>
      match hold_step held e with
      | Some held' =>
          if admits c.1 i e then
            let '(r, w) := h e c.2 in Some (<[i := (held', k r)]> c.1, w)
          else None
      | None => None
      end
  | _ => None
  end.

Fixpoint run_schedule {W} (h : handler W) (l : list nat) (c : list goroutine * W) :
    option (list goroutine * W) :=
  match l with
  | [] => Some c
  | i :: l => c ← run_call h i c; run_schedule h l c
  end.

Lemma admits_spec pool i e : admits pool i e = true → admitted pool i e.
Proof.
  assert (∀ f : holding → bool,
    forallb (λ jg : nat * goroutine, (jg.1 =? i) || f jg.2.1) (zip (seq 0 (length pool)) pool) = true →
    ∀ j g, j ≠ i → pool !! j = Some g → f g.1 = true) as Hf.
  { intros f Hall j g Hne Hj. rewrite forallb_forall in Hall.
    assert (zip (seq 0 (length pool)) pool !! j = Some (j, g)) as Hz.
    { apply lookup_zip_Some. split; [|done]. apply lookup_seq. split; [done|]. by eapply lookup_lt_Some. }
    specialize (Hall (j, g) (proj1 (list_elem_of_In _ _) (list_elem_of_lookup_2 _ _ _ Hz))). cbn [fst snd] in Hall.
    by destruct (Nat.eqb_spec j i). }
  destruct e; try done; match goal with op : lock_op |- _ => destruct op end; try done;
    intros Ha j g Hne Hj; by apply (Hf _ Ha j g Hne), bool_decide_eq_true in Hj.
Qed.

Lemma run_call_step i c c' : run_call file_world i c = Some c' → pool_step (d := file_disk) c c'.
Proof.
  unfold run_call. destruct c as [pool w]. cbn [fst snd]. intros H.
  destruct (pool !! i) as [[held [|e k]]|] eqn:Hi; try done.
  destruct (hold_step held e) as [held'|] eqn:Hh; [|done]. destruct (admits pool i e) eqn:Ha; [|done].
  destruct (file_world e w) as [r w'] eqn:Hr. injection H as <-.
  exact (pool_step_call (d := file_disk) pool w i held (Vis e k) (Ev e r) (k r) held' w' Hi (tree_step_vis e k r)
    Hh (admits_spec _ _ _ Ha) Hr).
Qed.

Lemma run_schedule_steps l c c' :
  run_schedule file_world l c = Some c' → rtc (pool_step (d := file_disk)) c c'.
Proof.
  revert c. induction l as [|i l IH]; intros c H; simpl in H; [injection H as <-; constructor|].
  destruct (run_call file_world i c) as [c1|] eqn:Hc; [|done].
  eapply rtc_l; [by eapply run_call_step|by apply IH].
Qed.

(** Two registrations, the second of which gets the lock first, after two
    listings that overlap. *)
Definition sample_operations : list operation :=
  [Registration sample_new; Registration sample_record; Listing; Listing].
Definition sample_schedule : list nat := [2; 3; 3; 2; 3; 2] ++ replicate 10 1 ++ replicate 10 0.
Definition sample_pool : list goroutine * gmap string bytes :=
  let c := (started (aead := toy_aead) sample_store sample_operations, ∅) in
  default c (run_schedule file_world sample_schedule c).

Lemma requests_are_serializable_witness :
  forallb (λ g : goroutine, is_done g.2) sample_pool.1 = true ∧
  option_map (λ b, decrypt_records (aead := toy_aead) b sample_key)
    (sample_pool.2 !! "/opt/inventory/inventory.enc") = Some (inr [sample_record; sample_new]) ∧
  ∃ log, NoDup log ∧ holds (aead := toy_aead) sample_key (sample_pool.2 !! "/opt/inventory/inventory.enc")
    (registry sample_operations [] log).
Proof.
  split; [by vm_compute|]. split; [by vm_compute|].
  assert (rtc (pool_step (d := file_disk)) (started (aead := toy_aead) sample_store sample_operations, ∅)
    sample_pool) as H.
  { unfold sample_pool. destruct (run_schedule _ _ _) as [c|] eqn:Hc; [|constructor].
    exact (run_schedule_steps _ _ _ Hc). }
  revert H. generalize sample_pool. intros c H.
  destruct (requests_are_serializable (laws := toy_laws) (d := file_disk) (dlaws := file_disk_laws)
    sample_store sample_operations [] ∅ c) as [(log & Hn & Hh & _) _]; [by vm_compute|done|exact H|].
  by exists log.
Defined.
