(* ===== verification/GoManifestFacts.v ===== *)
(** * Facts about the commands of the inventory service

    [manifest show] prints the registry and changes nothing; [manifest
    mark-removed] makes the client's transition as a whole or not at all. *)

From S2P Require Import Prelude PyStr Exceptions Paths Effects Reasoning Worlds Values Bytes Json.
From S2P Require Import Inventory Config InventoryService InventoryServiceFacts GoText GoTextFacts GoService GoManifest GoFacts GoDisk GoRequests.

#[export] Set Default Goal Selector "!".

(** ** Tables *)

(** A text that is one cell. *)
Definition ends_cell (c : ascii) : bool := existsb (Ascii.eqb c) ["009"; "010"; "011"; "012"]%char.
Definition one_cell (s : string) : bool := negb (str_exists ends_cell s).

Lemma one_cell_char c s : one_cell s = true → ends_cell c = true → has_char c s = false.
Proof.
  unfold one_cell, has_char. intros Hs Hc. induction s as [|a s IH]; [done|]. simpl in *.
  apply negb_true_iff, orb_false_iff in Hs as [Ha Hs]. rewrite IH by (by rewrite Hs).
  destruct (Ascii.eqb_spec c a) as [->|]; [congruence|done].
Qed.

Lemma vertical_tabs_none s : has_char "011" s = false → vertical_tabs s = s.
Proof.
  unfold has_char. induction s as [|c s IH]; [done|]. cbn [str_exists vertical_tabs].
  rewrite Ascii.eqb_sym. intros [-> Hs]%orb_false_iff. by rewrite IH.
Qed.

Lemma cells_of_row cells :
  cells ≠ [] → Forall (λ c, one_cell c = true) cells → table_cells (py_join tab cells) = cells.
Proof.
  intros Hne Hc. unfold table_cells. rewrite vertical_tabs_none.
  - apply split_join; [done|]. eapply Forall_impl; [exact Hc|]. intros s Hs. by apply one_cell_char.
  - apply has_char_join; [done|]. eapply Forall_impl; [exact Hc|]. intros s Hs. by apply one_cell_char.
Qed.

(** Lines with their ends, as lines with ends between them. *)
Lemma join_lines l : String.concat "" ((λ s, s +:+ nl) <$> l) = py_join nl (l ++ [""]).
Proof.
  induction l as [|s l IH]; [done|]. cbn [app fmap list_fmap]. rewrite (py_join_cons nl) by (by destruct l).
  rewrite <- IH. destruct l as [|s' l];
    [cbn [fmap list_fmap String.concat]; by rewrite str_app_nil_r|]. cbn [fmap list_fmap String.concat].
  by rewrite str_app_assoc.
Qed.

Lemma blocks_same column b lines :
  lines ≠ [] → Forall (λ l : list string, (column <? length l - 1) = b) lines → blocks column lines = [(b, lines)].
Proof.
  intros Hne H. induction H as [|l lines Hl H IH]; [done|]. cbn [blocks]. rewrite Hl.
  destruct lines as [|l' lines]; [done|]. rewrite IH by done. by destruct b.
Qed.

Lemma blocks_last column lines l :
  lines ≠ [] → Forall (λ l : list string, (column <? length l - 1) = true) lines → (column <? length l - 1) = false →
  blocks column (lines ++ [l]) = [(true, lines); (false, [l])].
Proof.
  intros Hne H Hl. induction H as [|l1 lines Hl1 H IH]; [done|]. cbn [blocks app]. rewrite Hl1.
  destruct lines as [|l' lines]; [cbn [app blocks]; by rewrite Hl|]. by rewrite IH.
Qed.

Lemma format_S fuel widths lines :
  format (S fuel) widths lines = concat ((λ b : bool * list (list string),
    if b.1 then format fuel (widths ++ [column_width (length widths) b.2]) b.2
    else write_cells widths <$> b.2) <$> blocks (length widths) lines).
Proof. done. Qed.

(** Rows of the same length are written with the widths of their columns. *)
Lemma format_rows k fuel widths rows :
  rows ≠ [] → k ≤ fuel → Forall (λ r : list string, length r = length widths + S k) rows →
  format fuel widths rows =
  write_cells (widths ++ ((λ j, column_width j rows) <$> seq (length widths) k)) <$> rows.
Proof.
  intros Hne. revert fuel widths. induction k as [|k IH]; intros fuel widths Hf Hl.
  - rewrite app_nil_r. destruct fuel as [|fuel]; [done|]. cbn [format].
    rewrite (blocks_same _ false); [cbn; by rewrite app_nil_r|done|].
    eapply Forall_impl; [exact Hl|]. intros r Hr. cbn beta in *. apply Nat.ltb_ge. lia.
  - destruct fuel as [|fuel]; [lia|]. cbn [format].
    rewrite (blocks_same _ true); [|done|eapply Forall_impl; [exact Hl|]; intros r Hr; cbn beta in *; apply Nat.ltb_lt; lia].
    cbn [fmap list_fmap concat fst snd]. rewrite app_nil_r, IH; [|lia|].
    + f_equal. rewrite length_app, <- app_assoc. cbn [length app seq fmap list_fmap]. by rewrite Nat.add_1_r.
    + eapply Forall_impl; [exact Hl|]. intros r Hr. cbn beta in *. rewrite length_app. simpl. lia.
Qed.

Definition columns (k : nat) (rows : list (list string)) : list nat := (λ j, column_width j rows) <$> seq 0 k.

Lemma tabwriter_rows k rows :
  rows ≠ [] → Forall (λ r : list string, length r = S (S k)) rows →
  Forall (Forall (λ c, one_cell c = true)) rows →
  tabwriter (String.concat "" (table_row <$> rows)) =
  String.concat "" ((λ r, write_cells (columns (S k) rows) r +:+ nl) <$> rows).
Proof.
  intros Hne Hl Hc.
  assert (String.concat "" (table_row <$> rows) = py_join nl ((py_join tab <$> rows) ++ [""])) as ->.
  { rewrite <- join_lines, <- list_fmap_compose. done. }
  assert (∀ c, ends_cell c = true → has_char c tab = false →
    Forall (λ s, has_char c s = false) ((py_join tab <$> rows) ++ [""])) as Hchar.
  { intros c Hec Htab. apply Forall_app. split; [|by repeat constructor]. apply Forall_fmap.
    eapply Forall_impl; [exact Hc|]. intros r Hr. apply has_char_join; [done|].
    eapply Forall_impl; [exact Hr|]. intros s Hs. by apply one_cell_char. }
  unfold tabwriter. rewrite split_char_one by (apply has_char_join; [done|by apply Hchar]).
  cbn [fmap list_fmap py_join]. unfold format_chunk.
  rewrite split_join; [|by destruct rows|by apply Hchar].
  rewrite fmap_app, <- list_fmap_compose. cbn [fmap list_fmap].
  assert (table_cells ∘ py_join tab <$> rows = rows) as ->.
  { clear Hchar. induction rows as [|r rows IH]; [done|]. apply Forall_cons in Hl as [Hr Hl].
    apply Forall_cons in Hc as [Hcr Hc]. cbn [fmap list_fmap compose].
    rewrite cells_of_row by (by destruct r). f_equal. destruct rows; [done|]. by apply IH. }
  change (table_cells "") with [""].
  assert (foldr Nat.max 0 (length <$> rows ++ [[""]]) = S (S k)) as ->.
  { clear Hchar Hc. induction rows as [|r rows IH]; [done|]. apply Forall_cons in Hl as [Hr Hl].
    cbn [fmap list_fmap app foldr]. destruct rows as [|r' rows]; [simpl; lia|]. rewrite IH by done. lia. }
  rewrite format_S, blocks_last; [|done|eapply Forall_impl; [exact Hl|]; by intros r ->|done].
  cbn [fmap list_fmap concat fst snd app length]. rewrite (format_rows k); [|done|lia|done].
  change (write_cells [] [""]) with "". rewrite <- join_lines, <- list_fmap_compose. done.
Qed.

(** ** Flags *)

(** The arguments give a key file, a manifest and a format. *)
Definition flags_given (arguments : list string) (keyPath filePath format : string) : Prop :=
  ∃ values, parse_flags [file_flag; format_flag; key_flag] arguments [] = inr values ∧
    flag_value values key_flag = keyPath ∧ flag_value values file_flag = filePath ∧
    flag_value values format_flag = format ∧ keyPath ≠ "" ∧ filePath ≠ "".

Lemma with_flags_given action arguments keyPath filePath format f :
  flags_given arguments keyPath filePath format →
  ∀ s, with_flags action arguments f s = f keyPath filePath format s.
Proof.
  intros (values & Hv & <- & <- & <- & Hk & Hf) s.
  unfold with_flags, manifestFlags, parse_or_usage. rewrite Hv. cbn [bind ret tbind].
  apply String.eqb_neq in Hk as ->. by apply String.eqb_neq in Hf as ->.
Qed.

(** ** The transition of the client *)

Abbreviation client_removed := InventoryService.removed.

Lemma go_removed ts rs :
  str_forall is_ascii ts = true →
  map (removed ts) (go_record <$> rs) = go_record <$> (client_removed ts <$> rs).
Proof.
  intros Hts. induction rs as [|r rs IH]; [done|]. cbn [fmap list_fmap map]. rewrite <- IH. f_equal.
  unfold removed, go_record. cbn -[go_of]. by rewrite (go_of_ascii ts).
Qed.

(** What teardown makes of a manifest with every host of the configuration. *)
Lemma mark_removed_map ts rs hosts :
  NoDup (r_hostname <$> rs) → (∀ h, h ∈ hosts → hostname h ∈ r_hostname <$> rs) →
  mark_removed ts rs hosts = client_removed ts <$> rs.
Proof.
  intros Hn Hall. unfold mark_removed, flip_records. rewrite add_missing_spec.
  assert (List.filter (λ h, negb (bool_decide (hostname h ∈ r_hostname <$> rs))) hosts = []) as ->.
  { induction hosts as [|h hosts IH]; [done|]. cbn [List.filter].
    rewrite bool_decide_eq_true_2 by (apply Hall, list_elem_of_here). cbn [negb]. apply IH.
    intros h' Hh. by apply Hall, list_elem_of_further. }
  apply (fold_upsert_map (client_removed ts) rs []). exact Hn.
Qed.

(** ** Marking the hosts of a manifest *)

Section commands.
Context {aead : AEAD} {laws : AEADLaws aead} {d : Disk} {dlaws : DiskLaws d}.

#[local] Abbreviation keeps := (kept d_answers).

(** The file holds the key, in base64 and perhaps with white space around it. *)
Definition key_file (file : option bytes) (k : bytes) : Prop :=
  ∃ b, file = Some b ∧ std_decode (trim_space (string_of_bytes b)) = Some k.

(** The file holds the registry with every host removed, as of some time. *)
Definition marked (k : bytes) (rs : list InventoryRecord) (file : option bytes) : Prop :=
  ∃ ts, holds k file (client_removed ts <$> rs).

(** Timestamps are ASCII. *)
Definition ascii_clock : Prop :=
  ∀ w ts w', d_answers w (Ev UtcNow ts) w' → str_forall is_ascii ts = true.

Section store.
Context (store : Store) (old : option bytes) (new : bytes → Prop).
Hypothesis not_temporary : py_endswith (path store) ".tmp" = false.

#[local] Abbreviation unchanged := (unchanged store old).
#[local] Abbreviation old_or_new := (old_or_new store old new).
#[local] Abbreviation saved := (saved store old new).

Lemma kept_Load rs :
  holds (key store) old rs →
  keeps old_or_new unchanged (Load store)
    (λ r w, unchanged w ∧ ∀ records, r = inr records → records = Some (go_record <$> rs)).
Proof.
  intros Hold. apply (kept_locked (path store)); [apply stable_unchanged|by left|].
  by apply (kept_load_released store old new rs).
Qed.

Lemma kept_Save rs :
  (∀ blob, payload (key store) blob rs → new blob) →
  keeps old_or_new unchanged (Save store (Some (go_record <$> rs))) saved.
Proof.
  intros Hnew. apply (kept_locked (path store)); [apply stable_unchanged|by left|].
  apply (kept_released (path store)).
  - apply stable_either.
  - apply stable_saved.
  - apply saved_either.
  - apply (kept_save_locked store old new not_temporary). intros blob Hb. by apply Hnew, payload_service.
Qed.

Lemma kept_mark_records rs :
  ascii_clock → holds (key store) old rs →
  (∀ ts blob, payload (key store) blob (client_removed ts <$> rs) → new blob) →
  keeps old_or_new unchanged (mark_records store) saved.
Proof.
  intros Hclock Hold Hnew. unfold mark_records.
  eapply (kept_go_bind _ _ (λ records w, unchanged w ∧ records = Some (go_record <$> rs)) unchanged).
  - eapply kept_conseq; [by apply (kept_Load rs)|done..|]. intros [e|records] w [Hw Hr]; auto.
  - intros e w Hw. split; [by left|done].
  - intros records s t o s' w H [Hw ->]. revert H Hw. unfold utcTimestamp.
    refine (kept_bind d_answers old_or_new unchanged (λ ts w, unchanged w ∧ str_forall is_ascii ts = true)
      (call UtcNow) _ saved _ _ s t o s' w).
    + refine (kept_call d_answers _ _ UtcNow _ _ _); [by left|]. intros w1 ts w2 Ha Hw1.
      assert (unchanged w2) as Hu by (eapply stable_unchanged; [by eapply d_rest|done]).
      split; [by left|]. split; [done|by eapply Hclock].
    + clear s t o s' w. intros ts s t o s' w H [Hw Hts]. cbv zeta in H. cbn [option_map] in H.
      rewrite go_removed in H by done. revert s t o s' w H Hw.
      eapply (kept_go_bind _ _ (λ _ : unit, replaced store new) unchanged).
      * eapply kept_conseq; [apply (kept_Save (client_removed ts <$> rs))|done|done|by intros []].
        intros blob. apply Hnew.
      * intros e w Hw. split; [by left|done].
      * intros u. apply kept_ret. intros w Hw. split; [by right|done].
Qed.

(** The key that is loaded is the one in the file. *)
Lemma kept_LoadKey keyPath k :
  keeps old_or_new (λ w, unchanged w ∧ key_file (d_file w keyPath) k) (LoadKey keyPath)
    (λ r w, unchanged w ∧ ∀ k', r = inr k' → k' = k).
Proof.
  unfold LoadKey. eapply (kept_bind d_answers _ _ (λ (r : read_resp) w, unchanged w ∧
    ∀ b, r = Contents b → std_decode (trim_space (string_of_bytes b)) = Some k)).
  - refine (kept_call d_answers _ _ (GoReadFile _) _ _ _); [by intros w [Hw _]; left|].
    intros w r w' Ha [Hw (b & Hb & Hk)].
    assert (unchanged w') as Hu by (eapply stable_unchanged; [by eapply d_rest|done]).
    apply d_read in Ha. split; [by left|]. split; [done|]. intros b' ->. congruence.
  - intros [b| |err] s t o s' w H [Hw Hb].
    + rewrite (Hb b eq_refl) in H. revert s t o s' w H Hw. destruct (length k =? KEY_BYTES); apply kept_ret;
        intros w Hw; (split; [by left|]); (split; [done|]); by intros k' [= <-].
    + revert s t o s' w H Hw. apply kept_ret. intros w Hw. split; [by left|]. by split.
    + revert s t o s' w H Hw. apply kept_ret. intros w Hw. split; [by left|]. by split.
Qed.
End store.

(** One action of the utility: the key, and what is done with it. *)
Lemma kept_with_key {A} keyPath filePath k old new (f : Store → M (go_res A)) (Q : go_res A → d_state → Prop) :
  let store := MkStore filePath k in
  (∀ e w, unchanged store old w → Q (inl e) w) →
  keeps (old_or_new store old new) (unchanged store old) (f store) Q →
  keeps (old_or_new store old new) (λ w, unchanged store old w ∧ key_file (d_file w keyPath) k)
    (key <-! LoadKey keyPath ;; f (MkStore filePath key)) Q.
Proof.
  intros store HQ Hf.
  eapply (kept_go_bind _ _ (λ k' w, unchanged store old w ∧ k' = k) (unchanged store old)).
  - eapply kept_conseq; [apply (kept_LoadKey store old new keyPath k)|done..|].
    intros [e|k'] w [Hw Hk]; [done|]. by split; [|apply Hk].
  - intros e w Hw. split; [by left|by apply HQ].
  - intros k' s t o s' w H [Hw ->]. revert s t o s' w H Hw. exact Hf.
Qed.

(** What [mark-removed] does, once its flags are read. *)
Lemma kept_mark_removed keyPath filePath k rs old :
  ascii_clock → py_endswith filePath ".tmp" = false → holds k old rs →
  let store := MkStore filePath k in
  let new := λ blob, ∃ ts, payload k blob (client_removed ts <$> rs) in
  keeps (old_or_new store old new) (λ w, unchanged store old w ∧ key_file (d_file w keyPath) k)
    (r <- (key <-! LoadKey keyPath ;; mark_records (MkStore filePath key)) ;;
     match r with
     | inl err => fail_action "mark-removed" err
     | inr records =>
         call (GoStdout ("Marked " +:+ pretty (length (default [] records))
           +:+ " host(s) Removed/Inactive in " +:+ filePath +:+ nl)) ;;
         ret 0%Z
     end)
    (λ code w, code = 0%Z ∧ replaced store new w ∨ code = 1%Z ∧ unchanged store old w).
Proof.
  intros Hclock Htmp Hold store new.
  eapply (kept_bind d_answers _ _ (λ r w, saved store old new r w)).
  - apply kept_with_key; [done|]. apply (kept_mark_records store old new Htmp rs); [done..|].
    intros ts blob Hb. by exists ts.
  - intros [e|records]; (eapply kept_bind; [apply (kept_rest filePath); [|done|]|]).
    + apply (stable_unchanged store old).
    + intros w Hw. by left.
    + intros u. apply kept_ret. intros w Hw. split; [by left|by right].
    + apply (stable_replaced store new).
    + intros w Hw. by right.
    + intros u. apply kept_ret. intros w Hw. split; [by right|by left].
Qed.
End commands.

(** C17: [manifest mark-removed] makes the transition of the client's teardown,
    as a whole or not at all.  Against any file system that satisfies the
    laws, when the file given holds the key and the manifest holds the
    registry [rs], then at every point of a run, also of one that is broken
    off there, the manifest is the one it was or holds every record of [rs]
    flipped to Removed and Inactive as of one time, with the roles, addresses
    and order it had; the exit code is 0 and the manifest is flipped, or it is
    1 and the manifest is the one it was.  For distinct host names and a
    configuration whose hosts are all in the manifest, that is what the
    teardown command writes. *)
Theorem manifest_mark_removed {aead : AEAD} {laws : AEADLaws aead} {d : Disk} {dlaws : DiskLaws d}
    arguments keyPath filePath format k rs s t o s' w :
  runs (manifestMarkRemoved arguments) s t o s' →
  flags_given arguments keyPath filePath format → py_endswith filePath ".tmp" = false → ascii_clock →
  key_file (d_file w keyPath) k → holds k (d_file w filePath) rs →
  (∀ t1 t2 w1, t = t1 ++ t2 → along d_answers w t1 w1 →
     d_file w1 filePath = d_file w filePath ∨ marked k rs (d_file w1 filePath)) ∧
  (∀ code w', o = Ok code → along d_answers w t w' →
     code = 0%Z ∧ marked k rs (d_file w' filePath) ∨
     code = 1%Z ∧ d_file w' filePath = d_file w filePath) ∧
  (∀ ts hosts, NoDup (r_hostname <$> rs) → (∀ h, h ∈ hosts → hostname h ∈ r_hostname <$> rs) →
     mark_removed ts rs hosts = client_removed ts <$> rs).
Proof.
  intros H Hflags Htmp Hclock Hk Hold. unfold runs, manifestMarkRemoved in H.
  rewrite (with_flags_given _ _ _ _ _ _ Hflags) in H.
  assert (∀ w1, replaced (MkStore filePath k) (λ blob, ∃ ts, payload k blob (client_removed ts <$> rs)) w1 →
    marked k rs (d_file w1 filePath)) as Hnew.
  { intros w1 (blob & (ts & Hb) & Hw1). cbn [path] in Hw1. rewrite Hw1. exists ts. by apply holds_payload. }
  destruct (kept_mark_removed keyPath filePath k rs _ Hclock Htmp Hold s t o s' w H (conj eq_refl Hk)) as [HS HQ].
  split_and!.
  - intros t1 t2 w1 Ht Hp. destruct (HS t1 t2 w1 Ht Hp); [by left|right; auto].
  - intros code w' Ho Hp. destruct (HQ code w' Ho Hp) as [[-> Hw]|[-> Hw]]; [left; auto|by right].
  - intros. by apply mark_removed_map.
Qed.

(** A manifest with its key. *)
Definition manifest_files : gmap string bytes :=
  <["/root/inventory.key" := bytes_of_string (b64encode sample_key +:+ nl)]> sample_files.
Definition manifest_arguments : list string :=
  ["-key"; "/root/inventory.key"; "--file=/opt/inventory/inventory.enc"].

Lemma sample_flags :
  flags_given manifest_arguments "/root/inventory.key" "/opt/inventory/inventory.enc" "table".
Proof. eexists. split; [reflexivity|]. by split_and!. Qed.

Lemma manifest_key_file : key_file (manifest_files !! "/root/inventory.key") sample_key.
Proof. exists (bytes_of_string (b64encode sample_key +:+ nl)). by vm_compute. Qed.

Lemma manifest_holds :
  holds (aead := toy_aead) sample_key (manifest_files !! "/opt/inventory/inventory.enc") [sample_record].
Proof.
  assert (manifest_files !! "/opt/inventory/inventory.enc" = Some sample_blob) as -> by (by vm_compute).
  apply holds_payload. split; [by vm_compute|]. exists (plaintext_of [sample_record]). split; by vm_compute.
Qed.

Definition sample_mark : M Z := manifestMarkRemoved (aead := toy_aead) manifest_arguments.

Lemma manifest_mark_removed_witness :
  outcome_in file_world sample_mark manifest_files = Ok 0%Z ∧
  marked (aead := toy_aead) sample_key [sample_record]
    ((run_in file_world sample_mark manifest_files).1.2 !! "/opt/inventory/inventory.enc").
Proof.
  assert (outcome_in file_world sample_mark manifest_files = Ok 0%Z) as Ho by (by vm_compute).
  split; [exact Ho|].
  destruct (run_in_along file_world sample_mark manifest_files) as (s' & H & Hp). rewrite Ho in H.
  assert (ascii_clock (d := file_disk)) as Hclock by (intros w ts w' Ha; by injection Ha as <- _).
  destruct (manifest_mark_removed (laws := toy_laws) (d := file_disk) (dlaws := file_disk_laws)
    manifest_arguments "/root/inventory.key" "/opt/inventory/inventory.enc" "table" sample_key [sample_record]
    [] _ _ s' manifest_files H sample_flags eq_refl Hclock manifest_key_file
    manifest_holds) as (_ & HQ & _).
  by destruct (HQ _ _ eq_refl Hp) as [[_ Hm]|[[=] _]].
Defined.

(** ** Showing a manifest *)

(** What is written to the standard output. *)
Definition stdout (t : trace) : list string :=
  omap (λ ev, match ev_eff ev with GoStdout text => Some text | _ => None end) t.

Lemma stdout_app t1 t2 : stdout (t1 ++ t2) = stdout t1 ++ stdout t2.
Proof. apply omap_app. Qed.

(** Calls that read. *)
Definition reads (ev : event) : Prop :=
  match ev_eff ev with GoReadFile _ | GoLock _ => True | _ => False end.

Section show.
Context {aead : AEAD}.

Lemma LoadKey_reads p : emits reads (λ _, True) (LoadKey p).
Proof.
  unfold LoadKey. refine (emits_bind _ _ (call (GoReadFile p)) _ _ _).
  - exact (emits_call reads (λ _, True) (GoReadFile p) (λ _, I)).
  - intros [b| |err]; repeat case_match; apply emits_ret.
Qed.

Lemma Load_reads store : emits reads (λ _, True) (Load store).
Proof.
  unfold Load, locked. refine (emits_bind _ _ (call (GoLock RLock)) _ _ _).
  - exact (emits_call reads (λ _, True) (GoLock RLock) (λ _, I)).
  - intros u. apply emits_finally; [|exact (emits_call reads (λ _, True) (GoLock RUnlock) (λ _, I))].
    intros s t o s' (r & -> & -> & ->)%runs_load_locked. by split; [repeat constructor|].
Qed.

Lemma loadManifestRecords_reads keyPath filePath :
  emits reads (λ _, True) (loadManifestRecords keyPath filePath).
Proof.
  apply emits_bind; [apply LoadKey_reads|]. intros [e|k]; [apply emits_ret|apply Load_reads].
Qed.

Lemma reads_silent t : Forall reads t → stdout t = [].
Proof.
  intros H. induction H as [|[e r] t He H IH]; [done|]. unfold stdout in *. cbn [omap list_omap ev_eff].
  unfold reads in He. cbn [ev_eff] in He. by destruct e.
Qed.

(** Showing opens no file for writing, whatever its arguments. *)
Lemma manifestShow_quiet arguments : emits (λ ev, ¬ writes ev) (λ _, True) (manifestShow arguments).
Proof.
  assert (∀ e, (∀ r, ¬ writes (Ev e r)) → emits (λ ev, ¬ writes ev) (λ _, True) (call e)) as Hcall.
  { intros e He. by apply emits_call. }
  unfold manifestShow, with_flags, manifestFlags, parse_or_usage, fail_action, printManifestJSON,
    printManifestTable, print_or_fail.
  repeat match goal with
  | |- emits _ _ (loadManifestRecords _ _) =>
      apply (emits_weaken _ _ reads (λ _, True)); [apply loadManifestRecords_reads| |done];
      intros [e r] He Hw; by destruct e
  | |- emits _ _ (call ?e) => refine (Hcall e _); intros ? []
  | |- emits _ _ (ret _) => apply emits_ret
  | |- emits _ _ (bind _ _) => apply emits_bind; [|intros ?]
  | |- emits _ _ (if ?b then _ else _) => destruct b
  | |- emits _ _ (match ?x with _ => _ end) => destruct x
  | |- emits _ _ (let x := _ in _) => cbv zeta
  end.
Qed.

Context {laws : AEADLaws aead} {d : Disk} {dlaws : DiskLaws d}.

Lemma loadManifestRecords_loads keyPath filePath k rs s t r s' w w' :
  runs (loadManifestRecords keyPath filePath) s t (Ok (inr r)) s' →
  key_file (d_file w keyPath) k → holds k (d_file w filePath) rs → along d_answers w t w' →
  r = Some (go_record <$> rs).
Proof.
  intros H Hk Hold Hp.
  assert (kept d_answers (old_or_new (MkStore filePath k) (d_file w filePath) (λ _, False))
    (λ w1, unchanged (MkStore filePath k) (d_file w filePath) w1 ∧ key_file (d_file w1 keyPath) k)
    (loadManifestRecords keyPath filePath)
    (λ r _, ∀ records, r = inr records → records = Some (go_record <$> rs))) as Hkept.
  { apply (kept_with_key keyPath filePath k _ (λ _, False) Load); [done|].
    eapply kept_conseq; [by apply (kept_Load (MkStore filePath k) (d_file w filePath) (λ _, False) rs)|done..|].
    by intros r' w1 [_ Hr]. }
  exact (proj2 (Hkept s t _ s' w H (conj eq_refl Hk)) _ _ eq_refl Hp r eq_refl).
Qed.
End show.

Lemma printed text what s t s' :
  runs (print_or_fail text what) s t (Ok 0%Z) s' → stdout t = [text].
Proof.
  intros H. apply runs_bind in H as [(r & s1 & t1 & t2 & -> & H1 & H2)|[(e & [=] & _)|[[=] _]]].
  apply (runs_call (GoStdout text)) in H1 as (r' & -> & [= <-] & ->).
  destruct r as [u|err]; [by apply runs_ret in H2 as (-> & _)|].
  apply runs_bind in H2 as [(u & s2 & t3 & t4 & -> & _ & H2)|[(e & [=] & _)|[[=] _]]]. run_inv1 H2.
Qed.

(** The rows of the table. *)
Definition table_rows (rs : list InventoryRecord) : list (list string) :=
  table_header :: (record_cells <$> (go_record <$> rs)).

(** C18: [manifest show] prints the registry and changes nothing.  No run of
    it writes a file, whatever its arguments.  When the file given holds the
    key and the manifest the registry [rs], a run that exits with 0 has
    printed one text: for the format json, one that the client reads back as
    [rs]; for the format table, a line that says so if [rs] is empty, and
    otherwise, for fields without tabs and line ends, one line per record
    below the header, each cell padded to the width of its column, which is
    the widest cell there and two spaces.  With another format it does not
    exit with 0. *)
Theorem manifest_show_prints {aead : AEAD} {laws : AEADLaws aead} {d : Disk} {dlaws : DiskLaws d}
    arguments s t o s' :
  runs (manifestShow arguments) s t o s' →
  Forall (λ ev, ¬ writes ev) t ∧
  ∀ keyPath filePath format k rs w w',
    flags_given arguments keyPath filePath format →
    key_file (d_file w keyPath) k → holds k (d_file w filePath) rs →
    along d_answers w t w' → o = Ok 0%Z →
    ∃ text, stdout t = [text] ∧
      (format = "json" ∧ decode_plaintext (bytes_of_string text) = inr rs ∨
       format = "table" ∧ rs = [] ∧ text = "manifest is empty" +:+ nl ∨
       format = "table" ∧ rs ≠ [] ∧
         (Forall (Forall (λ c, one_cell c = true)) (table_rows rs) →
          text = String.concat "" ((λ r, write_cells (columns 5 (table_rows rs)) r +:+ nl) <$> table_rows rs))).
Proof.
  intros H. split; [by apply (manifestShow_quiet arguments _ _ _ _ H)|].
  intros keyPath filePath format k rs w w' Hflags Hk Hold Hp ->.
  unfold runs, manifestShow in H. rewrite (with_flags_given _ _ _ _ _ _ Hflags) in H.
  apply runs_bind in H as [(r & s1 & t1 & t2 & -> & H1 & H2)|[(e & [=] & _)|[[=] _]]].
  apply along_app in Hp as (w1 & Hp1 & _).
  assert (stdout (t1 ++ t2) = stdout t2) as ->.
  { rewrite stdout_app, (reads_silent t1); [done|]. by apply (loadManifestRecords_reads _ _ _ _ _ _ H1). }
  destruct r as [err|records].
  { apply runs_bind in H2 as [(u & s2 & t3 & t4 & -> & _ & H2)|[(e & [=] & _)|[[=] _]]]. by run_inv1 H2. }
  rewrite (loadManifestRecords_loads _ _ _ _ _ _ _ _ _ _ H1 Hk Hold Hp1) in H2.
  destruct (String.eqb_spec format "json") as [->|_].
  { apply printed in H2 as ->. eexists. split; [done|]. left. split; [done|]. by apply decode_marshal. }
  destruct (String.eqb_spec format "table") as [->|_].
  - unfold printManifestTable in H2. cbn [default] in H2. destruct rs as [|r rs].
    + apply runs_bind in H2 as [(u & s2 & t3 & t4 & -> & H3 & H2)|[(e & [=] & _)|[[=] _]]].
      apply (runs_call (GoStdout _)) in H3 as (r & -> & _ & _). apply runs_ret in H2 as (-> & _).
      eexists. split; [done|]. right. by left.
    + apply printed in H2 as ->. eexists. split; [done|]. right. right. split; [done|]. split; [done|].
      intros Hc. apply (tabwriter_rows 4); [done| |done].
      unfold table_rows. constructor; [done|]. by apply Forall_fmap, Forall_fmap, Forall_true.
  - apply runs_bind in H2 as [(u & s2 & t3 & t4 & -> & _ & H2)|[(e & [=] & _)|[[=] _]]]. run_inv1 H2.
Qed.

Definition sample_show (format : string) : M Z :=
  manifestShow (aead := toy_aead) ("--format" :: format :: manifest_arguments).

Lemma show_flags format :
  flags_given ("--format" :: format :: manifest_arguments) "/root/inventory.key"
    "/opt/inventory/inventory.enc" format.
Proof. eexists. split; [reflexivity|]. by split_and!. Qed.

Lemma manifest_show_prints_witness :
  (∃ text, stdout (trace_in file_world (sample_show "json") manifest_files) = [text] ∧
     decode_plaintext (bytes_of_string text) = inr [sample_record]) ∧
  ∃ text, stdout (trace_in file_world (sample_show "table") manifest_files) = [text] ∧
    (Forall (Forall (λ c, one_cell c = true)) (table_rows [sample_record]) →
     text = String.concat "" ((λ r, write_cells (columns 5 (table_rows [sample_record])) r +:+ nl) <$>
       table_rows [sample_record])).
Proof.
  destruct (run_in_along file_world (sample_show "json") manifest_files) as (s1 & H1 & Hp1).
  destruct (run_in_along file_world (sample_show "table") manifest_files) as (s2 & H2 & Hp2).
  destruct (manifest_show_prints (laws := toy_laws) (d := file_disk) (dlaws := file_disk_laws) _ _ _ _ _ H1)
    as [_ Q1].
  destruct (manifest_show_prints (laws := toy_laws) (d := file_disk) (dlaws := file_disk_laws) _ _ _ _ _ H2)
    as [_ Q2].
  destruct (Q1 _ _ "json" sample_key [sample_record] manifest_files _ (show_flags "json") manifest_key_file
    manifest_holds Hp1) as (text & Ht & [[_ Hd]|[([=] & _)|([=] & _)]]); [by vm_compute|].
  destruct (Q2 _ _ "table" sample_key [sample_record] manifest_files _ (show_flags "table") manifest_key_file
    manifest_holds Hp2) as (text2 & Ht2 & [[[=] _]|[(_ & [=] & _)|(_ & _ & Hd2)]]); [by vm_compute|].
  split; [exact (ex_intro _ text (conj Ht Hd))|exact (ex_intro _ text2 (conj Ht2 Hd2))].
Defined.

(** The server only starts with a key of the right length, on the store and
    the address of its flags. *)
Lemma start_service_key program arguments s t store addr s' :
  runs (start_service program arguments) s t (Ok (inr (store, addr))) s' → length (key store) = KEY_BYTES.
Proof.
  intros H. unfold start_service, parse_or_usage in H.
  destruct (parse_flags _ arguments []) as [e|values].
  { apply runs_bind in H as [(r & s1 & t1 & t2 & -> & H1 & H)|[(e' & [=] & _)|[[=] _]]].
    apply runs_bind in H1 as [(u & s2 & t3 & t4 & -> & _ & H1)|[(e' & [=] & _)|[[=] _]]].
    apply runs_bind in H1 as [(u2 & s3 & t5 & t6 & -> & _ & H1)|[(e' & [=] & _)|[[=] _]]].
    apply runs_ret in H1 as (_ & [= ->] & _). destruct e; run_inv1 H. }
  apply runs_bind in H as [(r & s1 & t1 & t2 & -> & H1 & H)|[(e' & [=] & _)|[[=] _]]].
  apply runs_ret in H1 as (_ & [= ->] & _).
  apply runs_bind in H as [(r & s2 & t3 & t4 & -> & H1 & H)|[(e' & [=] & _)|[[=] _]]].
  destruct r as [e|k]; [run_inv1 H|].
  assert (length k = KEY_BYTES) as Hk.
  { unfold LoadKey in H1. apply runs_bind in H1 as [(r & s3 & t5 & t6 & -> & _ & H1)|[(e' & [=] & _)|[[=] _]]].
    destruct r as [b| |]; [|run_inv1 H1..]. destruct (std_decode _) as [k'|]; [|run_inv1 H1].
    destruct (Nat.eqb_spec (length k') KEY_BYTES); run_inv1 H1. done. }
  apply runs_bind in H as [(r & s3 & t5 & t6 & -> & _ & H)|[(e' & [=] & _)|[[=] _]]].
  destruct r; run_inv1 H. done.
Qed.
